(** * MultiClip: the bounded clipboard history, verified against its Go sources

    Two programs live in the repository:
    - [src/main.go]: a polling tray application whose [ClipboardManager]
      keeps [clips], [lastContent] and a JSON data file;
    - [src/multiclip/src/main.go]: a watching tray application whose
      [ClipboardManager] keeps [history] behind a mutex.

    Go strings are byte sequences; they are modelled by [string] (one
    [ascii] per byte).  Go [int] and [rune] values are modelled by [Z]. *)

From Stdlib Require Import ZArith Lia Ascii.
From stdpp Require Import base list strings gmap.

Local Open Scope Z_scope.

(** ** Byte strings *)

Module GoString.

(** The numeric value of a byte. *)
Definition byteZ (c : ascii) : Z := Z.of_N (Ascii.N_of_ascii c).

Definition byte_of (z : Z) : ascii := Ascii.ascii_of_N (Z.to_N z).

(** [len(s)] *)
Definition len (s : string) : Z := Z.of_nat (String.length s).

(** [s[n:]] *)
Fixpoint from (n : nat) (s : string) : string :=
  match n, s with
  | O, _ => s
  | S n', String _ s' => from n' s'
  | S _, EmptyString => EmptyString
  end.

(** [s[:n]] *)
Fixpoint upto (n : nat) (s : string) : string :=
  match n, s with
  | O, _ => EmptyString
  | S n', String c s' => String c (upto n' s')
  | S _, EmptyString => EmptyString
  end.

(** [s[i]], with the zero byte standing in for an index out of range
    (no caller below indexes out of range). *)
Definition at_ (s : string) (i : nat) : Z :=
  match String.get i s with
  | Some c => byteZ c
  | None => 0
  end.

(** [int32] wrap-around. *)
Definition wrap32 (z : Z) : Z := (z + 2 ^ 31) mod 2 ^ 32 - 2 ^ 31.

End GoString.

(** ** Package [unicode/utf8] *)

Module utf8.
Import GoString.

Definition RuneError : Z := 0xFFFD.
Definition RuneSelf : Z := 0x80.
Definition MaxRune : Z := 0x10FFFF.
Definition UTFMax : Z := 4.

Definition surrogateMin : Z := 0xD800.
Definition surrogateMax : Z := 0xDFFF.

Definition t1 : Z := 0x00.
Definition tx : Z := 0x80.
Definition t2 : Z := 0xC0.
Definition t3 : Z := 0xE0.
Definition t4 : Z := 0xF0.

Definition maskx : Z := 0x3F.
Definition mask2 : Z := 0x1F.
Definition mask3 : Z := 0x0F.
Definition mask4 : Z := 0x07.

Definition rune1Max : Z := 0x7F.
Definition rune2Max : Z := 0x7FF.
Definition rune3Max : Z := 0xFFFF.

Definition locb : Z := 0x80.
Definition hicb : Z := 0xBF.

Definition xx : Z := 0xF1.
Definition as_ : Z := 0xF0.
Definition s1 : Z := 0x02.
Definition s2 : Z := 0x13.
Definition s3 : Z := 0x03.
Definition s4 : Z := 0x23.
Definition s5 : Z := 0x34.
Definition s6 : Z := 0x04.
Definition s7 : Z := 0x44.

(** The table [first], one entry per leading byte. *)
Definition first (b : Z) : Z :=
  if b <? 0x80 then as_
  else if b <? 0xC2 then xx
  else if b <? 0xE0 then s1
  else if b =? 0xE0 then s2
  else if b <? 0xED then s3
  else if b =? 0xED then s4
  else if b <? 0xF0 then s3
  else if b =? 0xF0 then s5
  else if b <? 0xF4 then s6
  else if b =? 0xF4 then s7
  else xx.

(** The table [acceptRanges]: the bounds of the second byte. *)
Definition acceptRanges (i : Z) : Z * Z :=
  if i =? 0 then (locb, hicb)
  else if i =? 1 then (0xA0, hicb)
  else if i =? 2 then (locb, 0x9F)
  else if i =? 3 then (0x90, hicb)
  else if i =? 4 then (locb, 0x8F)
  else (0, 0).

Definition DecodeRuneInString (s : string) : Z * nat :=
  match s with
  | EmptyString => (RuneError, O)
  | String c0 r0 =>
    let s0 := byteZ c0 in
    let x := first s0 in
    if as_ <=? x then
      let mask := Z.shiftr (wrap32 (Z.shiftl x 31)) 31 in
      (Z.lor (Z.land s0 (Z.lnot mask)) (Z.land RuneError mask), 1%nat)
    else
      let sz := Z.land x 7 in
      let accept := acceptRanges (Z.shiftr x 4) in
      if len s <? sz then (RuneError, 1%nat)
      else match r0 with
      | EmptyString => (RuneError, 1%nat)
      | String c1 r1 =>
        let b1 := byteZ c1 in
        if (b1 <? fst accept) || (snd accept <? b1) then (RuneError, 1%nat)
        else if sz <=? 2 then
          (Z.lor (Z.shiftl (Z.land s0 mask2) 6) (Z.land b1 maskx), 2%nat)
        else match r1 with
        | EmptyString => (RuneError, 1%nat)
        | String c2 r2 =>
          let b2 := byteZ c2 in
          if (b2 <? locb) || (hicb <? b2) then (RuneError, 1%nat)
          else if sz <=? 3 then
            (Z.lor (Z.lor (Z.shiftl (Z.land s0 mask3) 12)
                          (Z.shiftl (Z.land b1 maskx) 6))
                   (Z.land b2 maskx), 3%nat)
          else match r2 with
          | EmptyString => (RuneError, 1%nat)
          | String c3 _ =>
            let b3 := byteZ c3 in
            if (b3 <? locb) || (hicb <? b3) then (RuneError, 1%nat)
            else
              (Z.lor (Z.lor (Z.lor (Z.shiftl (Z.land s0 mask4) 18)
                                   (Z.shiftl (Z.land b1 maskx) 12))
                            (Z.shiftl (Z.land b2 maskx) 6))
                     (Z.land b3 maskx), 4%nat)
          end
        end
      end
  end.

(** The same decoding, read off the table of well-formed byte sequences of
    the Unicode standard: the bounds of the second byte after each leading
    byte, and the value as a sum.  It is proved equal to
    [DecodeRuneInString] below. *)
Definition secondLo (b0 : Z) : Z :=
  if b0 =? 0xE0 then 0xA0 else if b0 =? 0xF0 then 0x90 else 0x80.

Definition secondHi (b0 : Z) : Z :=
  if b0 =? 0xED then 0x9F else if b0 =? 0xF4 then 0x8F else 0xBF.

Definition continuation (b : Z) : bool := (0x80 <=? b) && (b <=? 0xBF).

Definition decodeByTable (s : string) : Z * nat :=
  match s with
  | EmptyString => (RuneError, O)
  | String c0 r0 =>
    let b0 := byteZ c0 in
    if b0 <? 0x80 then (b0, 1%nat)
    else if (b0 <? 0xC2) || (0xF5 <=? b0) then (RuneError, 1%nat)
    else if b0 <? 0xE0 then
      match r0 with
      | String c1 _ =>
        if continuation (byteZ c1)
        then ((b0 - 0xC0) * 64 + (byteZ c1 - 0x80), 2%nat)
        else (RuneError, 1%nat)
      | _ => (RuneError, 1%nat)
      end
    else if b0 <? 0xF0 then
      match r0 with
      | String c1 (String c2 _) =>
        if (secondLo b0 <=? byteZ c1) && (byteZ c1 <=? secondHi b0)
           && continuation (byteZ c2)
        then ((b0 - 0xE0) * 4096 + (byteZ c1 - 0x80) * 64
              + (byteZ c2 - 0x80), 3%nat)
        else (RuneError, 1%nat)
      | _ => (RuneError, 1%nat)
      end
    else
      match r0 with
      | String c1 (String c2 (String c3 _)) =>
        if (secondLo b0 <=? byteZ c1) && (byteZ c1 <=? secondHi b0)
           && continuation (byteZ c2) && continuation (byteZ c3)
        then ((b0 - 0xF0) * 262144 + (byteZ c1 - 0x80) * 4096
              + (byteZ c2 - 0x80) * 64 + (byteZ c3 - 0x80), 4%nat)
        else (RuneError, 1%nat)
      | _ => (RuneError, 1%nat)
      end
  end.

(** [RuneStart(b)]: [b] is not a continuation byte. *)
Definition RuneStart (b : Z) : bool := negb (Z.land b 0xC0 =? 0x80).

(** The backward search of [DecodeLastRuneInString]:
    [for start--; start >= lim; start-- { if RuneStart(s[start]) { break } }],
    entered after the first [start--]. *)
Fixpoint lastRuneStart (fuel : nat) (s : string) (start lim : Z) : Z :=
  match fuel with
  | O => start
  | S fuel' =>
    if start <? lim then start
    else if RuneStart (at_ s (Z.to_nat start)) then start
    else lastRuneStart fuel' s (start - 1) lim
  end.

Definition DecodeLastRuneInString (s : string) : Z * nat :=
  let end_ := len s in
  if end_ =? 0 then (RuneError, O)
  else
    let start := end_ - 1 in
    let r := at_ s (Z.to_nat start) in
    if r <? RuneSelf then (r, 1%nat)
    else
      let lim := Z.max (end_ - UTFMax) 0 in
      let start := lastRuneStart (Z.to_nat UTFMax) s (start - 1) lim in
      let start := if start <? 0 then 0 else start in
      let '(r, size) := DecodeRuneInString (from (Z.to_nat start) s) in
      if negb (start + Z.of_nat size =? end_) then (RuneError, 1%nat)
      else (r, size).

(** [EncodeRune], returning the bytes written. *)
Definition EncodeRune (r : Z) : string :=
  let enc3 (r : Z) :=
    String (byte_of (Z.lor t3 (Z.shiftr r 12)))
      (String (byte_of (Z.lor tx (Z.land (Z.shiftr r 6) maskx)))
        (String (byte_of (Z.lor tx (Z.land r maskx))) EmptyString)) in
  if (0 <=? r) && (r <=? rune1Max) then String (byte_of r) EmptyString
  else if (0 <=? r) && (r <=? rune2Max) then
    String (byte_of (Z.lor t2 (Z.shiftr r 6)))
      (String (byte_of (Z.lor tx (Z.land r maskx))) EmptyString)
  else if (r <? 0) || (MaxRune <? r)
          || ((surrogateMin <=? r) && (r <=? surrogateMax)) then
    enc3 RuneError
  else if r <=? rune3Max then enc3 r
  else
    String (byte_of (Z.lor t4 (Z.shiftr r 18)))
      (String (byte_of (Z.lor tx (Z.land (Z.shiftr r 12) maskx)))
        (String (byte_of (Z.lor tx (Z.land (Z.shiftr r 6) maskx)))
          (String (byte_of (Z.lor tx (Z.land r maskx))) EmptyString))).

(** [raw] is a well-formed sequence of 2 to 4 bytes for the rune [r]: it
    decodes to [r] whatever follows it, and [r] encodes to it. *)
Definition WellFormed (raw : string) (r : Z) : Prop :=
  (2 ≤ String.length raw ≤ 4)%nat
  ∧ Forall (λ c, 0x80 ≤ byteZ c) (String.list_ascii_of_string raw)
  ∧ EncodeRune r = raw
  ∧ ∀ t, DecodeRuneInString (raw +:+ t) = (r, String.length raw).

(** [ValidString]: no position decodes to an encoding error.  The fuel
    is the number of bytes still to be consumed. *)
Fixpoint validFrom (fuel : nat) (s : string) : bool :=
  match fuel with
  | O => true
  | S fuel' =>
    match s with
    | EmptyString => true
    | _ =>
      let '(r, size) := DecodeRuneInString s in
      if (r =? RuneError) && (size =? 1)%nat then false
      else validFrom fuel' (from size s)
    end
  end.

Definition ValidString (s : string) : bool := validFrom (String.length s) s.

End utf8.

(** ** Package [unicode] *)

Module unicode.

Definition MaxLatin1 : Z := 0xFF.

(** The ranges of the [White_Space] table above Latin-1. *)
Definition White_Space_excludingLatin (r : Z) : bool :=
  (r =? 0x1680)
  || ((0x2000 <=? r) && (r <=? 0x200a))
  || ((0x2028 <=? r) && (r <=? 0x2029))
  || (r =? 0x202f)
  || (r =? 0x205f)
  || (r =? 0x3000).

Definition IsSpace (r : Z) : bool :=
  if (0 <=? r) && (r <=? MaxLatin1) then
    (r =? 9) || (r =? 10) || (r =? 11) || (r =? 12) || (r =? 13)
    || (r =? 32) || (r =? 0x85) || (r =? 0xA0)
  else White_Space_excludingLatin r.

End unicode.

(** ** Package [strings] *)

Module gostrings.
Import GoString.

(** The table [asciiSpace]. *)
Definition asciiSpace (c : Z) : bool :=
  (c =? 9) || (c =? 10) || (c =? 11) || (c =? 12) || (c =? 13) || (c =? 32).

(** [indexFunc]: [for i, r := range s { if f(r) == truth { return i } }],
    [-1] when the loop ends.  [i] is the index of the first byte of [s] in
    the string being ranged over. *)
Fixpoint indexFuncFrom (fuel : nat) (s : string) (i : Z)
         (f : Z -> bool) (truth : bool) : Z :=
  match fuel with
  | O => -1
  | S fuel' =>
    match s with
    | EmptyString => -1
    | _ =>
      let '(r, size) := utf8.DecodeRuneInString s in
      if Bool.eqb (f r) truth then i
      else indexFuncFrom fuel' (from size s) (i + Z.of_nat size) f truth
    end
  end.

Definition indexFunc (s : string) (f : Z -> bool) (truth : bool) : Z :=
  indexFuncFrom (String.length s) s 0 f truth.

(** [lastIndexFunc]:
    [for i := len(s); i > 0; { r, size := DecodeLastRuneInString(s[0:i]);
       i -= size; if f(r) == truth { return i } }], [-1] at the end. *)
Fixpoint lastIndexFuncFrom (fuel : nat) (s : string) (i : Z)
         (f : Z -> bool) (truth : bool) : Z :=
  match fuel with
  | O => -1
  | S fuel' =>
    if i >? 0 then
      let '(r, size) := utf8.DecodeLastRuneInString (upto (Z.to_nat i) s) in
      let i := i - Z.of_nat size in
      if Bool.eqb (f r) truth then i
      else lastIndexFuncFrom fuel' s i f truth
    else -1
  end.

Definition lastIndexFunc (s : string) (f : Z -> bool) (truth : bool) : Z :=
  lastIndexFuncFrom (String.length s) s (len s) f truth.

Definition TrimLeftFunc (s : string) (f : Z -> bool) : string :=
  let i := indexFunc s f false in
  if i =? -1 then EmptyString else from (Z.to_nat i) s.

Definition TrimRightFunc (s : string) (f : Z -> bool) : string :=
  let i := lastIndexFunc s f false in
  let i :=
    if (i >=? 0) && (at_ s (Z.to_nat i) >=? utf8.RuneSelf) then
      let '(_, wid) := utf8.DecodeRuneInString (from (Z.to_nat i) s) in
      i + Z.of_nat wid
    else i + 1 in
  upto (Z.to_nat i) s.

Definition TrimFunc (s : string) (f : Z -> bool) : string :=
  TrimRightFunc (TrimLeftFunc s f) f.

(** The second loop of [TrimSpace], walking [stop] down from the end of
    [s] (which is [s[start:]] of the caller); [r] holds the bytes of
    [s[:stop]] in reverse. *)
Fixpoint trimStop (r : list ascii) : string :=
  match r with
  | [] => EmptyString
  | c :: r' =>
    if byteZ c >=? utf8.RuneSelf then
      TrimRightFunc (String.string_of_list_ascii (rev r)) unicode.IsSpace
    else if asciiSpace (byteZ c) then trimStop r'
    else String.string_of_list_ascii (rev r)
  end.

(** [TrimSpace]: the first loop advances [start] over ASCII space and
    falls back to [TrimFunc] on the first byte outside ASCII. *)
Fixpoint TrimSpace (s : string) : string :=
  match s with
  | EmptyString => EmptyString
  | String c s' =>
    if byteZ c >=? utf8.RuneSelf then TrimFunc s unicode.IsSpace
    else if asciiSpace (byteZ c) then TrimSpace s'
    else trimStop (rev (String.list_ascii_of_string s))
  end.

End gostrings.

(** ** Package [unicode/utf16] *)

Module utf16.

Definition surr1 : Z := 0xd800.
Definition surr2 : Z := 0xdc00.
Definition surr3 : Z := 0xe000.
Definition surrSelf : Z := 0x10000.
Definition replacementChar : Z := 0xFFFD.

Definition IsSurrogate (r : Z) : bool := (surr1 <=? r) && (r <? surr3).

Definition DecodeRune (r1 r2 : Z) : Z :=
  if (surr1 <=? r1) && (r1 <? surr2) && (surr2 <=? r2) && (r2 <? surr3) then
    Z.lor (Z.shiftl (r1 - surr1) 10) (r2 - surr2) + surrSelf
  else replacementChar.

End utf16.

(** ** Package [encoding/json], as far as a [[]string] goes through it *)

Module json.
Import GoString.

(** Byte constants. *)
Definition ch (c : ascii) : Z := byteZ c.
Definition dquote : ascii := "034"%char.
Definition bslash : ascii := "\"%char.

(** *** Encoding: [appendString] with [escapeHTML] set, as [Marshal] does *)

(** The table [htmlSafeSet]: printable ASCII (and DEL) apart from the
    double quote, the backslash, and the HTML characters. *)
Definition htmlSafeSet (b : Z) : bool :=
  (0x20 <=? b) && (b <? 0x80)
  && negb ((b =? ch dquote) || (b =? ch "&") || (b =? ch "<")
           || (b =? ch ">") || (b =? ch bslash)).

(** The string [hex = "0123456789abcdef"], indexed. *)
Definition hex (i : Z) : ascii :=
  if i <? 10 then byte_of (ch "0" + i) else byte_of (ch "a" + (i - 10)).

(** What the [switch b] of [appendString] appends for an ASCII byte that
    is not in [htmlSafeSet]. *)
Definition escapeByte (c : ascii) : string :=
  let b := byteZ c in
  if (b =? ch bslash) || (b =? ch dquote) then String bslash (String c "")
  else if b =? 8 then String bslash "b"
  else if b =? 12 then String bslash "f"
  else if b =? 10 then String bslash "n"
  else if b =? 13 then String bslash "r"
  else if b =? 9 then String bslash "t"
  else String bslash
         (String "u" (String "0" (String "0"
            (String (hex (Z.shiftr b 4)) (String (hex (Z.land b 0xF)) ""))))).

(** The loop of [appendString] over [src[i:]].  The source copies the
    pending run [src[start:i]] whenever it has to escape and once at the
    end; the bytes appended are those produced here one position at a
    time.  The fuel is the number of bytes left. *)
Fixpoint appendStringFrom (fuel : nat) (src : string) : string :=
  match fuel with
  | O => ""
  | S fuel' =>
    match src with
    | EmptyString => ""
    | String c rest =>
      let b := byteZ c in
      if b <? utf8.RuneSelf then
        if htmlSafeSet b then String c (appendStringFrom fuel' rest)
        else escapeByte c +:+ appendStringFrom fuel' rest
      else
        let n := Z.min (len src) utf8.UTFMax in
        let '(r, size) := utf8.DecodeRuneInString (upto (Z.to_nat n) src) in
        if (r =? utf8.RuneError) && (size =? 1)%nat then
          String bslash "ufffd" +:+ appendStringFrom fuel' (from size src)
        else if (r =? 0x2028) || (r =? 0x2029) then
          String bslash "u202" +:+ String (hex (Z.land r 0xF)) ""
            +:+ appendStringFrom fuel' (from size src)
        else upto size src +:+ appendStringFrom fuel' (from size src)
    end
  end.

Definition appendString (src : string) : string :=
  String dquote (appendStringFrom (String.length src) src +:+ String dquote "").

(** The array encoder over the elements of a slice. *)
Fixpoint arrayElems (first : bool) (v : list string) : string :=
  match v with
  | [] => ""
  | s :: v' =>
    (if first then "" else ",") +:+ appendString s +:+ arrayElems false v'
  end.

(** [Marshal(v)] for a non-nil [v []string].  (A nil slice encodes as
    [null]; the programs below never encode one.)  Encoding a slice of
    strings cannot fail. *)
Definition Marshal (v : list string) : string :=
  "[" +:+ arrayElems true v +:+ "]".

(** *** The scanner: a state machine over bytes *)

Inductive opcode :=
| scanContinue | scanBeginLiteral | scanBeginObject | scanObjectKey
| scanObjectValue | scanEndObject | scanBeginArray | scanArrayValue
| scanEndArray | scanSkipSpace | scanEnd | scanError.

Inductive parseKind := parseObjectKey | parseObjectValue | parseArrayValue.

Inductive stepFn :=
| stateBeginValueOrEmpty | stateBeginValue | stateBeginStringOrEmpty
| stateBeginString | stateEndValue | stateEndTop
| stateInString | stateInStringEsc | stateInStringEscU
| stateInStringEscU1 | stateInStringEscU12 | stateInStringEscU123
| stateNeg | state1 | state0 | stateDot | stateDot0
| stateE | stateESign | stateE0
| stateT | stateTr | stateTru
| stateF | stateFa | stateFal | stateFals
| stateN | stateNu | stateNul
| stateError.

#[global] Instance opcode_eq_dec : EqDecision opcode.
Proof. solve_decision. Defined.
#[global] Instance parseKind_eq_dec : EqDecision parseKind.
Proof. solve_decision. Defined.
#[global] Instance stepFn_eq_dec : EqDecision stepFn.
Proof. solve_decision. Defined.

(** [parseState] is a stack; its top is the head of the list. [err] is
    whether [s.err] is set. *)
Record scanner := mkScanner {
  step : stepFn;
  endTop : bool;
  parseState : list parseKind;
  err : bool
}.

Definition maxNestingDepth : Z := 10000.

Definition reset : scanner :=
  {| step := stateBeginValue; endTop := false; parseState := []; err := false |}.

Definition setStep (s : scanner) (f : stepFn) : scanner :=
  {| step := f; endTop := endTop s; parseState := parseState s; err := err s |}.

Definition error (s : scanner) : scanner * opcode :=
  ({| step := stateError; endTop := endTop s;
      parseState := parseState s; err := true |}, scanError).

Definition pushParseState (s : scanner) (newParseState : parseKind)
           (successState : opcode) : scanner * opcode :=
  let s := {| step := step s; endTop := endTop s;
              parseState := newParseState :: parseState s; err := err s |} in
  if Z.of_nat (length (parseState s)) <=? maxNestingDepth then (s, successState)
  else error s.

Definition popParseState (s : scanner) : scanner :=
  let ps := tail (parseState s) in
  match ps with
  | [] => {| step := stateEndTop; endTop := true; parseState := ps; err := err s |}
  | _ => {| step := stateEndValue; endTop := endTop s; parseState := ps; err := err s |}
  end.

Definition setTop (s : scanner) (k : parseKind) : scanner :=
  {| step := step s; endTop := endTop s;
     parseState := k :: tail (parseState s); err := err s |}.

Definition isSpace (c : Z) : bool :=
  (c <=? ch " ") && ((c =? ch " ") || (c =? 9) || (c =? 13) || (c =? 10)).

Definition isDigit (c : Z) : bool := (ch "0" <=? c) && (c <=? ch "9").
Definition isDigit19 (c : Z) : bool := (ch "1" <=? c) && (c <=? ch "9").
Definition isHex (c : Z) : bool :=
  isDigit c || ((ch "a" <=? c) && (c <=? ch "f"))
  || ((ch "A" <=? c) && (c <=? ch "F")).

Definition do_stateEndTop (s : scanner) (c : Z) : scanner * opcode :=
  if negb (isSpace c) then (fst (error s), scanEnd) else (s, scanEnd).

Definition do_stateEndValue (s : scanner) (c : Z) : scanner * opcode :=
  match parseState s with
  | [] =>
    do_stateEndTop
      {| step := stateEndTop; endTop := true;
         parseState := parseState s; err := err s |} c
  | ps :: _ =>
    if isSpace c then (setStep s stateEndValue, scanSkipSpace)
    else match ps with
    | parseObjectKey =>
      if c =? ch ":" then
        (setStep (setTop s parseObjectValue) stateBeginValue, scanObjectKey)
      else error s
    | parseObjectValue =>
      if c =? ch "," then
        (setStep (setTop s parseObjectKey) stateBeginString, scanObjectValue)
      else if c =? ch "}" then (popParseState s, scanEndObject)
      else error s
    | parseArrayValue =>
      if c =? ch "," then (setStep s stateBeginValue, scanArrayValue)
      else if c =? ch "]" then (popParseState s, scanEndArray)
      else error s
    end
  end.

Definition do_stateBeginValue (s : scanner) (c : Z) : scanner * opcode :=
  if isSpace c then (s, scanSkipSpace)
  else if c =? ch "{" then
    pushParseState (setStep s stateBeginStringOrEmpty) parseObjectKey scanBeginObject
  else if c =? ch "[" then
    pushParseState (setStep s stateBeginValueOrEmpty) parseArrayValue scanBeginArray
  else if c =? ch dquote then (setStep s stateInString, scanBeginLiteral)
  else if c =? ch "-" then (setStep s stateNeg, scanBeginLiteral)
  else if c =? ch "0" then (setStep s state0, scanBeginLiteral)
  else if c =? ch "t" then (setStep s stateT, scanBeginLiteral)
  else if c =? ch "f" then (setStep s stateF, scanBeginLiteral)
  else if c =? ch "n" then (setStep s stateN, scanBeginLiteral)
  else if isDigit19 c then (setStep s state1, scanBeginLiteral)
  else error s.

Definition do_stateBeginValueOrEmpty (s : scanner) (c : Z) : scanner * opcode :=
  if isSpace c then (s, scanSkipSpace)
  else if c =? ch "]" then do_stateEndValue s c
  else do_stateBeginValue s c.

Definition do_stateBeginString (s : scanner) (c : Z) : scanner * opcode :=
  if isSpace c then (s, scanSkipSpace)
  else if c =? ch dquote then (setStep s stateInString, scanBeginLiteral)
  else error s.

Definition do_stateBeginStringOrEmpty (s : scanner) (c : Z) : scanner * opcode :=
  if isSpace c then (s, scanSkipSpace)
  else if c =? ch "}" then do_stateEndValue (setTop s parseObjectValue) c
  else do_stateBeginString s c.

Definition do_stateInString (s : scanner) (c : Z) : scanner * opcode :=
  if c =? ch dquote then (setStep s stateEndValue, scanContinue)
  else if c =? ch bslash then (setStep s stateInStringEsc, scanContinue)
  else if c <? 0x20 then error s
  else (s, scanContinue).

Definition do_stateInStringEsc (s : scanner) (c : Z) : scanner * opcode :=
  if (c =? ch "b") || (c =? ch "f") || (c =? ch "n") || (c =? ch "r")
     || (c =? ch "t") || (c =? ch bslash) || (c =? ch "/") || (c =? ch dquote)
  then (setStep s stateInString, scanContinue)
  else if c =? ch "u" then (setStep s stateInStringEscU, scanContinue)
  else error s.

(** The four states after [\u] share one shape. *)
Definition do_hexThen (next : stepFn) (s : scanner) (c : Z) : scanner * opcode :=
  if isHex c then (setStep s next, scanContinue) else error s.

Definition do_state0 (s : scanner) (c : Z) : scanner * opcode :=
  if c =? ch "." then (setStep s stateDot, scanContinue)
  else if (c =? ch "e") || (c =? ch "E") then (setStep s stateE, scanContinue)
  else do_stateEndValue s c.

Definition do_state1 (s : scanner) (c : Z) : scanner * opcode :=
  if isDigit c then (setStep s state1, scanContinue) else do_state0 s c.

Definition do_stateNeg (s : scanner) (c : Z) : scanner * opcode :=
  if c =? ch "0" then (setStep s state0, scanContinue)
  else if isDigit19 c then (setStep s state1, scanContinue)
  else error s.

Definition do_stateDot (s : scanner) (c : Z) : scanner * opcode :=
  if isDigit c then (setStep s stateDot0, scanContinue) else error s.

Definition do_stateDot0 (s : scanner) (c : Z) : scanner * opcode :=
  if isDigit c then (s, scanContinue)
  else if (c =? ch "e") || (c =? ch "E") then (setStep s stateE, scanContinue)
  else do_stateEndValue s c.

Definition do_stateESign (s : scanner) (c : Z) : scanner * opcode :=
  if isDigit c then (setStep s stateE0, scanContinue) else error s.

Definition do_stateE (s : scanner) (c : Z) : scanner * opcode :=
  if (c =? ch "+") || (c =? ch "-") then (setStep s stateESign, scanContinue)
  else do_stateESign s c.

Definition do_stateE0 (s : scanner) (c : Z) : scanner * opcode :=
  if isDigit c then (s, scanContinue) else do_stateEndValue s c.

(** The states inside [true], [false] and [null]: one expected byte. *)
Definition do_expect (e : ascii) (next : stepFn) (s : scanner) (c : Z)
  : scanner * opcode :=
  if c =? ch e then (setStep s next, scanContinue) else error s.

(** [s.step(s, c)] *)
Definition doStep (s : scanner) (c : Z) : scanner * opcode :=
  match step s with
  | stateBeginValueOrEmpty => do_stateBeginValueOrEmpty s c
  | stateBeginValue => do_stateBeginValue s c
  | stateBeginStringOrEmpty => do_stateBeginStringOrEmpty s c
  | stateBeginString => do_stateBeginString s c
  | stateEndValue => do_stateEndValue s c
  | stateEndTop => do_stateEndTop s c
  | stateInString => do_stateInString s c
  | stateInStringEsc => do_stateInStringEsc s c
  | stateInStringEscU => do_hexThen stateInStringEscU1 s c
  | stateInStringEscU1 => do_hexThen stateInStringEscU12 s c
  | stateInStringEscU12 => do_hexThen stateInStringEscU123 s c
  | stateInStringEscU123 => do_hexThen stateInString s c
  | stateNeg => do_stateNeg s c
  | state1 => do_state1 s c
  | state0 => do_state0 s c
  | stateDot => do_stateDot s c
  | stateDot0 => do_stateDot0 s c
  | stateE => do_stateE s c
  | stateESign => do_stateESign s c
  | stateE0 => do_stateE0 s c
  | stateT => do_expect "r" stateTr s c
  | stateTr => do_expect "u" stateTru s c
  | stateTru => do_expect "e" stateEndValue s c
  | stateF => do_expect "a" stateFa s c
  | stateFa => do_expect "l" stateFal s c
  | stateFal => do_expect "s" stateFals s c
  | stateFals => do_expect "e" stateEndValue s c
  | stateN => do_expect "u" stateNu s c
  | stateNu => do_expect "l" stateNul s c
  | stateNul => do_expect "l" stateEndValue s c
  | stateError => (s, scanError)
  end.

(** [s.eof()] *)
Definition eof (s : scanner) : scanner * opcode :=
  if err s then (s, scanError)
  else if endTop s then (s, scanEnd)
  else
    let s' := fst (doStep s (ch " ")) in
    if endTop s' then (s', scanEnd)
    else ({| step := step s'; endTop := endTop s';
             parseState := parseState s'; err := true |}, scanError).

(** The loop of [checkValid]: [None] as soon as a step reports
    [scanError]. *)
Fixpoint checkValidLoop (data : string) (scan : scanner) : option scanner :=
  match data with
  | EmptyString => Some scan
  | String c rest =>
    let '(scan', op) := doStep scan (byteZ c) in
    if decide (op = scanError) then None else checkValidLoop rest scan'
  end.

(** [checkValid(data, scan) == nil] *)
Definition checkValid (data : string) : bool :=
  match checkValidLoop data reset with
  | None => false
  | Some scan => negb (bool_decide (snd (eof scan) = scanError))
  end.

(** *** Decoding *)

(** [getu4]: the rune of a [\uXXXX] escape at the head of [s], or [-1]. *)
Definition hexVal (c : Z) : Z :=
  if isDigit c then c - ch "0"
  else if (ch "a" <=? c) && (c <=? ch "f") then c - ch "a" + 10
  else if (ch "A" <=? c) && (c <=? ch "F") then c - ch "A" + 10
  else -1.

Definition getu4 (s : string) : Z :=
  match s with
  | String c0 (String c1 (String h0 (String h1 (String h2 (String h3 _))))) =>
    if negb (byteZ c0 =? ch bslash) || negb (byteZ c1 =? ch "u") then -1
    else
      let d0 := hexVal (byteZ h0) in
      let d1 := hexVal (byteZ h1) in
      let d2 := hexVal (byteZ h2) in
      let d3 := hexVal (byteZ h3) in
      if (d0 <? 0) || (d1 <? 0) || (d2 <? 0) || (d3 <? 0) then -1
      else ((d0 * 16 + d1) * 16 + d2) * 16 + d3
  | _ => -1
  end.

(** The first loop of [unquoteBytes]: the length of the longest prefix
    that needs no unquoting. *)
Fixpoint unquotePlain (fuel : nat) (s : string) : nat :=
  match fuel with
  | O => O
  | S fuel' =>
    match s with
    | EmptyString => O
    | String c rest =>
      let b := byteZ c in
      if (b =? ch bslash) || (b =? ch dquote) || (b <? ch " ") then O
      else if b <? utf8.RuneSelf then S (unquotePlain fuel' rest)
      else
        let '(rr, size) := utf8.DecodeRuneInString s in
        if (rr =? utf8.RuneError) && (size =? 1)%nat then O
        else (size + unquotePlain fuel' (from size s))%nat
    end
  end.

(** The second loop of [unquoteBytes], from position [r] on: the bytes
    written, or [None] where the source returns [ok = false]. *)
Fixpoint unquoteRest (fuel : nat) (s : string) : option string :=
  match fuel with
  | O => Some ""
  | S fuel' =>
    match s with
    | EmptyString => Some ""
    | String c rest =>
      let b := byteZ c in
      if b =? ch bslash then
        match rest with
        | EmptyString => None
        | String e rest' =>
          let x := byteZ e in
          let lit (w : Z) := String (byte_of w) <$> unquoteRest fuel' rest' in
          if (x =? ch dquote) || (x =? ch bslash) || (x =? ch "/")
             || (x =? ch "'") then lit x
          else if x =? ch "b" then lit 8
          else if x =? ch "f" then lit 12
          else if x =? ch "n" then lit 10
          else if x =? ch "r" then lit 13
          else if x =? ch "t" then lit 9
          else if x =? ch "u" then
            let rr := getu4 s in
            if rr <? 0 then None
            else
              let s6 := from 6 s in
              if utf16.IsSurrogate rr then
                let rr1 := getu4 s6 in
                let dec := utf16.DecodeRune rr rr1 in
                if negb (dec =? utf16.replacementChar) then
                  String.append (utf8.EncodeRune dec)
                    <$> unquoteRest fuel' (from 6 s6)
                else
                  String.append (utf8.EncodeRune utf16.replacementChar)
                    <$> unquoteRest fuel' s6
              else String.append (utf8.EncodeRune rr) <$> unquoteRest fuel' s6
          else None
        end
      else if (b =? ch dquote) || (b <? ch " ") then None
      else if b <? utf8.RuneSelf then String c <$> unquoteRest fuel' rest
      else
        let '(rr, size) := utf8.DecodeRuneInString s in
        String.append (utf8.EncodeRune rr) <$> unquoteRest fuel' (from size s)
    end
  end.

(** [s[1 : len(s)-1]] once the two quotes are checked. *)
Definition stripQuotes (s : string) : option string :=
  match s with
  | String c0 rest =>
    match rev (String.list_ascii_of_string rest) with
    | c1 :: body =>
      if (byteZ c0 =? ch dquote) && (byteZ c1 =? ch dquote)
      then Some (String.string_of_list_ascii (rev body)) else None
    | [] => None
    end
  | EmptyString => None
  end.

(** [unquote] *)
Definition unquote (item : string) : option string :=
  match stripQuotes item with
  | None => None
  | Some s =>
    let r := unquotePlain (String.length s) s in
    if (r =? String.length s)%nat then Some s
    else String.append (upto r s)
           <$> unquoteRest (String.length (from r s)) (from r s)
  end.

(** The decoder's position in the input: [rest] is [data[off:]], [cur] is
    [data[off-1]], the byte read last. *)
Record decodeState := mkDecodeState {
  rest : string;
  cur : Z;
  opcode_ : opcode;
  scan : scanner;
  savedError : bool
}.

(** [d.scanNext()] *)
Definition scanNext (d : decodeState) : decodeState :=
  match rest d with
  | String c r =>
    let '(s, op) := doStep (scan d) (byteZ c) in
    {| rest := r; cur := byteZ c; opcode_ := op; scan := s;
       savedError := savedError d |}
  | EmptyString =>
    let '(s, op) := eof (scan d) in
    {| rest := ""; cur := cur d; opcode_ := op; scan := s;
       savedError := savedError d |}
  end.

(** [d.scanWhile(op)] *)
Fixpoint scanWhileFrom (data : string) (c0 : Z) (s : scanner) (op : opcode)
  : string * Z * scanner * opcode :=
  match data with
  | String c r =>
    let '(s', newOp) := doStep s (byteZ c) in
    if decide (newOp = op) then scanWhileFrom r (byteZ c) s' op
    else (r, byteZ c, s', newOp)
  | EmptyString =>
    let '(s', newOp) := eof s in ("", c0, s', newOp)
  end.

Definition scanWhile (op : opcode) (d : decodeState) : decodeState :=
  let '(r, c, s, newOp) := scanWhileFrom (rest d) (cur d) (scan d) op in
  {| rest := r; cur := c; opcode_ := newOp; scan := s;
     savedError := savedError d |}.

(** The loop of [d.skip()]: step until the parse stack is shorter than
    [depth]. *)
Fixpoint skipFrom (data : string) (c0 : Z) (s : scanner) (op0 : opcode)
         (depth : nat) : string * Z * scanner * opcode :=
  match data with
  | String c r =>
    let '(s', op) := doStep s (byteZ c) in
    if (length (parseState s') <? depth)%nat then (r, byteZ c, s', op)
    else skipFrom r (byteZ c) s' op depth
  | EmptyString => ("", c0, s, op0)
  end.

Definition skip (d : decodeState) : decodeState :=
  let '(r, c, s, op) :=
    skipFrom (rest d) (cur d) (scan d) (opcode_ d)
             (length (parseState (scan d))) in
  {| rest := r; cur := c; opcode_ := op; scan := s;
     savedError := savedError d |}.

(** The string case of [d.rescanLiteral()]: the bytes up to and including
    the closing quote, and what follows them. *)
Fixpoint rescanString (data : string) : string * string :=
  match data with
  | EmptyString => ("", "")
  | String c r =>
    if byteZ c =? ch bslash then
      match r with
      | EmptyString => (String c "", "")
      | String e r' =>
        let '(lit, after) := rescanString r' in (String c (String e lit), after)
      end
    else if byteZ c =? ch dquote then (String c "", r)
    else let '(lit, after) := rescanString r in (String c lit, after)
  end.

(** The number case. *)
Fixpoint rescanNumber (data : string) : string * string :=
  match data with
  | EmptyString => ("", "")
  | String c r =>
    let b := byteZ c in
    if isDigit b || (b =? ch ".") || (b =? ch "e") || (b =? ch "E")
       || (b =? ch "+") || (b =? ch "-")
    then let '(lit, after) := rescanNumber r in (String c lit, after)
    else ("", data)
  end.

(** [d.rescanLiteral()], returning also the literal
    [d.data[start:d.readIndex()]] that [d.value] hands to
    [literalStore]. *)
Definition rescanLiteral (d : decodeState) : decodeState * string :=
  let c := cur d in
  let '(lit, after) :=
    if c =? ch dquote then rescanString (rest d)
    else if isDigit c || (c =? ch "-") then rescanNumber (rest d)
    else if c =? ch "t" then (upto 3 (rest d), from 3 (rest d))
    else if c =? ch "f" then (upto 4 (rest d), from 4 (rest d))
    else if c =? ch "n" then (upto 3 (rest d), from 3 (rest d))
    else ("", rest d) in
  let item := String (byte_of c) lit in
  match after with
  | String e r =>
    let '(s, op) := do_stateEndValue (scan d) (byteZ e) in
    ({| rest := r; cur := byteZ e; opcode_ := op; scan := s;
        savedError := savedError d |}, item)
  | EmptyString =>
    ({| rest := ""; cur := cur d; opcode_ := scanEnd; scan := scan d;
        savedError := savedError d |}, item)
  end.

Definition saveError (d : decodeState) : decodeState :=
  {| rest := rest d; cur := cur d; opcode_ := opcode_ d; scan := scan d;
     savedError := true |}.

(** [d.value(v)] for an element [v] of kind string holding [old]:
    a string literal is stored unquoted; [null] leaves the element as it
    is; any other value is an [UnmarshalTypeError], saved, and the
    element is left as it is. *)
Definition valueString (d : decodeState) (old : string) : decodeState * string :=
  match opcode_ d with
  | scanBeginArray | scanBeginObject =>
    (scanNext (skip (saveError d)), old)
  | scanBeginLiteral =>
    let '(d', item) := rescanLiteral d in
    match item with
    | String c _ =>
      if byteZ c =? ch "n" then (d', old)
      else if byteZ c =? ch dquote then
        match unquote item with
        | Some s => (d', s)
        | None => (d', old)
        end
      else (saveError d', old)
    | EmptyString => (d', old)
    end
  | _ => (d, old)
  end.

(** The loop of [d.array(v)] for a slice [v]: [i] elements have been
    decoded and are held, last first, in [acc]. *)
Fixpoint arrayLoop (fuel : nat) (d : decodeState) (v : list string)
         (i : nat) (acc : list string) : decodeState * list string :=
  match fuel with
  | O => (d, rev acc)
  | S fuel' =>
    let d := scanWhile scanSkipSpace d in
    if decide (opcode_ d = scanEndArray) then (d, rev acc)
    else
      let '(d, x) := valueString d (nth i v EmptyString) in
      let d := if decide (opcode_ d = scanSkipSpace)
               then scanWhile scanSkipSpace d else d in
      if decide (opcode_ d = scanEndArray) then (d, rev (x :: acc))
      else if decide (opcode_ d = scanArrayValue)
           then arrayLoop fuel' d v (S i) (x :: acc)
           else (d, rev (x :: acc))
  end.

(** [d.value(rv)] at the top, for [rv] a pointer to a [[]string] holding
    [v]. *)
Definition valueSlice (d : decodeState) (v : list string)
  : decodeState * list string :=
  match opcode_ d with
  | scanBeginArray =>
    let '(d', v') := arrayLoop (S (String.length (rest d))) d v O [] in
    (scanNext d', v')
  | scanBeginObject => (scanNext (skip (saveError d)), v)
  | scanBeginLiteral =>
    let '(d', item) := rescanLiteral d in
    match item with
    | String c _ =>
      if byteZ c =? ch "n" then (d', []) else (saveError d', v)
    | EmptyString => (d', v)
    end
  | _ => (d, v)
  end.

Inductive unmarshalError := SyntaxError | UnmarshalTypeError.

(** [Unmarshal(data, &v)] for [v []string]: the value [v] holds afterwards
    and the error returned.  On a syntax error nothing is decoded. *)
Definition Unmarshal (data : string) (v : list string)
  : list string * option unmarshalError :=
  if negb (checkValid data) then (v, Some SyntaxError)
  else
    let d := {| rest := data; cur := 0; opcode_ := scanContinue;
                scan := reset; savedError := false |} in
    let d := scanWhile scanSkipSpace d in
    let '(d', v') := valueSlice d v in
    (v', if savedError d' then Some UnmarshalTypeError else None).

End json.

(** ** [src/main.go]: the polling program

    Slices are read as the sequences they hold; the slice-level model, with
    backing arrays, is [MainSlices] below. *)

Module Main.

Definition maxClips : nat := 5.

Record ClipboardManager := mkClipboardManager {
  clips : list string;
  lastContent : string;
  dataFile : string
}.

(** The process state: the global [clipManager] and the two pieces of the
    environment it talks to, the files on disk (a read of an absent path
    fails) and the text on the system clipboard.  Writes to either are
    taken to succeed. *)
Record World := mkWorld {
  clipManager : ClipboardManager;
  files : gmap string string;
  pasteboard : string
}.

(** [filepath.Join(dir, name)] for a clean [dir]. *)
Definition filepath_Join (dir name : string) : string :=
  if decide (dir = "") then name else dir +:+ "/" +:+ name.

(** [cm.loadClips()]: the error of [json.Unmarshal] is dropped. *)
Definition loadClips (cm : ClipboardManager) (fs : gmap string string)
  : ClipboardManager :=
  match fs !! dataFile cm with
  | None => cm
  | Some data =>
    {| clips := fst (json.Unmarshal data (clips cm));
       lastContent := lastContent cm;
       dataFile := dataFile cm |}
  end.

Definition NewClipboardManager (homeDir : string) (fs : gmap string string)
  : ClipboardManager :=
  let dataFile := filepath_Join homeDir ".multiclip.json" in
  let cm := {| clips := []; lastContent := ""; dataFile := dataFile |} in
  loadClips cm fs.

(** [cm.saveClips()] *)
Definition saveClips (cm : ClipboardManager) (fs : gmap string string)
  : gmap string string :=
  <[dataFile cm := json.Marshal (clips cm)]> fs.

(** The loop of [addClip]:
    [for i, clip := range cm.clips { if clip == content {
       cm.clips = append(cm.clips[:i], cm.clips[i+1:]...); break } }] *)
Definition removeExisting (content : string) (clips : list string)
  : list string :=
  match list_find (λ clip, clip = content) clips with
  | Some (i, _) => take i clips ++ drop (S i) clips
  | None => clips
  end.

Definition addClip (w : World) (content : string) : World :=
  let cm := clipManager w in
  let content := gostrings.TrimSpace content in
  if decide (content = "" ∨ content = lastContent cm) then w
  else
    let clips1 := removeExisting content (clips cm) in
    let clips2 := [content] ++ clips1 in
    let clips3 :=
      if decide (maxClips < length clips2)%nat then take maxClips clips2
      else clips2 in
    let cm' := {| clips := clips3; lastContent := content;
                  dataFile := dataFile cm |} in
    {| clipManager := cm'; files := saveClips cm' (files w);
       pasteboard := pasteboard w |}.

Definition getClips (w : World) : list string := clips (clipManager w).

(** [cm.setClip(content)] *)
Definition setClip (w : World) (content : string) : World :=
  let cm := clipManager w in
  {| clipManager := {| clips := clips cm; lastContent := content;
                       dataFile := dataFile cm |};
     files := files w;
     pasteboard := content |}.

(** The click handler of the "Clear History" item in [updateMenu]:
    [clipManager.clips = []string{}; clipManager.saveClips()] *)
Definition clearHistory (w : World) : World :=
  let cm := clipManager w in
  let cm' := {| clips := []; lastContent := lastContent cm;
                dataFile := dataFile cm |} in
  {| clipManager := cm'; files := saveClips cm' (files w);
     pasteboard := pasteboard w |}.

(** One tick of [monitorClipboard]. *)
Definition monitorTick (w : World) : World :=
  let data := pasteboard w in
  if (0 <? GoString.len data)%Z then addClip w data else w.

(** The state [main] starts its goroutines from. *)
Definition start (homeDir : string) (fs : gmap string string)
           (paste : string) : World :=
  {| clipManager := NewClipboardManager homeDir fs; files := fs;
     pasteboard := paste |}.

End Main.

(** ** [src/multiclip/src/main.go]: the watching program

    The mutex [mu] orders the calls; one call at a time is what is
    modelled. *)

Module Multiclip.

Record ClipboardManager := mkClipboardManager {
  history : list string;
  maxSize : nat
}.

Definition NewClipboardManager : ClipboardManager :=
  {| history := []; maxSize := 5 |}.

Definition AddItem (cm : ClipboardManager) (text : string) : ClipboardManager :=
  let text := gostrings.TrimSpace text in
  if decide (text = "" ∨ (200 < GoString.len text)%Z) then cm
  else if decide (text ∈ history cm) then cm
  else
    let history1 := [text] ++ history cm in
    let history2 :=
      if decide (maxSize cm < length history1)%nat
      then take (maxSize cm) history1 else history1 in
    {| history := history2; maxSize := maxSize cm |}.

Definition GetHistory (cm : ClipboardManager) : list string := history cm.

End Multiclip.

(** ** Go slices over a store of backing arrays

    A slice value is a window [offset, offset + len) into a backing array,
    with room up to [offset + cap).  Two slice values over one array see
    each other's writes. *)

Module Slices.

(** The backing arrays allocated so far; array [a] is [h !! a]. *)
Abbreviation heap := (list (list string)).

Record slice := mkSlice {
  array : nat;
  offset : nat;
  len : nat;
  cap : nat
}.

Definition cells (h : heap) (a : nat) : list string := default [] (h !! a).

(** The elements [s[0]], ..., [s[len(s)-1]] as the heap holds them now. *)
Definition elems (h : heap) (s : slice) : list string :=
  take (len s) (drop (offset s) (cells h (array s))).

(** A new backing array. *)
Definition alloc (h : heap) (arr : list string) : heap * nat :=
  (h ++ [arr], length h).

(** Writing [xs] into array [a] from index [pos] on, within its bounds. *)
Definition store (h : heap) (a pos : nat) (xs : list string) : heap :=
  let arr := cells h a in
  <[a := take pos arr ++ xs ++ drop (pos + length xs) arr]> h.

(** [s[i:j]]; the source only slices within [0 <= i <= j <= cap(s)]. *)
Definition reslice (s : slice) (i j : nat) : slice :=
  {| array := array s; offset := offset s + i; len := j - i; cap := cap s - i |}.

(** [[]string{x1, ..., xn}] *)
Definition literal (h : heap) (xs : list string) : heap * slice :=
  let '(h', a) := alloc h xs in
  (h', {| array := a; offset := 0; len := length xs; cap := length xs |}).

(** [make([]string, n, c)] *)
Definition make (h : heap) (n c : nat) : heap * slice :=
  let '(h', a) := alloc h (replicate c EmptyString) in
  (h', {| array := a; offset := 0; len := n; cap := c |}).

(** [copy(dst, src)], where [xs] are the elements of [src]. *)
Definition copy (h : heap) (dst : slice) (xs : list string) : heap :=
  store h (array dst) (offset dst) (take (len dst) xs).

Section Append.
(** The capacity of the array [append] allocates when the old one, of
    capacity [old], cannot hold [need] elements.  The language only
    promises that it is large enough. *)
Variable growCap : nat → nat → nat.

(** [append(s, xs...)]: the elements [xs] are read before anything is
    written, so [xs] may come from the array of [s]. *)
Definition append (h : heap) (s : slice) (xs : list string) : heap * slice :=
  let n := (len s + length xs)%nat in
  if decide (n ≤ cap s)%nat then
    (store h (array s) (offset s + len s) xs,
     {| array := array s; offset := offset s; len := n; cap := cap s |})
  else
    let c := growCap (cap s) n in
    let '(h', a) := alloc h (elems h s ++ xs ++ replicate (c - n) EmptyString) in
    (h', {| array := a; offset := 0; len := n; cap := c |}).
End Append.

(** A policy that allocates exactly what is needed. *)
Definition exactFit (old need : nat) : nat := need.

(** A slice value is valid in a heap when it is a window of an allocated
    array. *)
Definition valid (h : heap) (s : slice) : Prop :=
  (len s ≤ cap s)%nat
  ∧ (offset s + cap s ≤ length (cells h (array s)))%nat
  ∧ (array s < length h)%nat.

#[global] Instance valid_dec (h : heap) (s : slice) : Decision (valid h s).
Proof. unfold valid. apply _. Defined.

End Slices.

(** ** [src/main.go] with its slices and their backing arrays *)

Module MainSlices.
Import Slices.

Record ClipboardManager := mkClipboardManager {
  clips : slice;
  lastContent : string;
  dataFile : string
}.

Record World := mkWorld {
  heap_ : heap;
  clipManager : ClipboardManager;
  files : gmap string string;
  pasteboard : string
}.

Section WithAllocator.
Variable growCap : nat → nat → nat.

(** [json.Unmarshal(data, &cm.clips)] sets the length of the slice to
    zero and appends the decoded elements. *)
Definition loadClips (h : heap) (cm : ClipboardManager)
           (fs : gmap string string) : heap * ClipboardManager :=
  match fs !! dataFile cm with
  | None => (h, cm)
  | Some data =>
    let decoded := fst (json.Unmarshal data (elems h (clips cm))) in
    let '(h', s) := append growCap h (reslice (clips cm) 0 0) decoded in
    (h', {| clips := s; lastContent := lastContent cm;
            dataFile := dataFile cm |})
  end.

Definition NewClipboardManager (h : heap) (homeDir : string)
           (fs : gmap string string) : heap * ClipboardManager :=
  let dataFile := Main.filepath_Join homeDir ".multiclip.json" in
  let '(h1, s) := make h 0 Main.maxClips in
  loadClips h1 {| clips := s; lastContent := ""; dataFile := dataFile |} fs.

Definition saveClips (h : heap) (cm : ClipboardManager)
           (fs : gmap string string) : gmap string string :=
  <[dataFile cm := json.Marshal (elems h (clips cm))]> fs.

Definition addClip (w : World) (content : string) : World :=
  let cm := clipManager w in
  let content := gostrings.TrimSpace content in
  if decide (content = "" ∨ content = lastContent cm) then w
  else
    let h := heap_ w in
    let '(h1, clips1) :=
      match list_find (λ clip, clip = content) (elems h (clips cm)) with
      | Some (i, _) =>
        append growCap h (reslice (clips cm) 0 i)
               (elems h (reslice (clips cm) (S i) (len (clips cm))))
      | None => (h, clips cm)
      end in
    let '(h2, front) := literal h1 [content] in
    let '(h3, clips2) := append growCap h2 front (elems h2 clips1) in
    let clips3 :=
      if decide (Main.maxClips < len clips2)%nat
      then reslice clips2 0 Main.maxClips else clips2 in
    let cm' := {| clips := clips3; lastContent := content;
                  dataFile := dataFile cm |} in
    {| heap_ := h3; clipManager := cm';
       files := saveClips h3 cm' (files w);
       pasteboard := pasteboard w |}.

(** [cm.getClips()] returns the slice value itself. *)
Definition getClips (w : World) : slice := clips (clipManager w).

Definition setClip (w : World) (content : string) : World :=
  let cm := clipManager w in
  {| heap_ := heap_ w;
     clipManager := {| clips := clips cm; lastContent := content;
                       dataFile := dataFile cm |};
     files := files w;
     pasteboard := content |}.

Definition clearHistory (w : World) : World :=
  let cm := clipManager w in
  let '(h1, s) := literal (heap_ w) [] in
  let cm' := {| clips := s; lastContent := lastContent cm;
                dataFile := dataFile cm |} in
  {| heap_ := h1; clipManager := cm';
     files := saveClips h1 cm' (files w);
     pasteboard := pasteboard w |}.

Definition start (homeDir : string) (fs : gmap string string)
           (paste : string) : World :=
  let '(h, cm) := NewClipboardManager [] homeDir fs in
  {| heap_ := h; clipManager := cm; files := fs; pasteboard := paste |}.

End WithAllocator.

(** The slice of the manager is valid in the heap. *)
Definition wf (w : World) : Prop := valid (heap_ w) (clips (clipManager w)).

(** What the slice-level state holds, read as sequences. *)
Definition abstract (w : World) : Main.World :=
  {| Main.clipManager :=
       {| Main.clips := elems (heap_ w) (clips (clipManager w));
          Main.lastContent := lastContent (clipManager w);
          Main.dataFile := dataFile (clipManager w) |};
     Main.files := files w;
     Main.pasteboard := pasteboard w |}.

End MainSlices.

(** ** [src/multiclip/src/main.go] with its slices *)

Module MulticlipSlices.
Import Slices.

Record ClipboardManager := mkClipboardManager {
  history : slice;
  maxSize : nat
}.

Record World := mkWorld {
  heap_ : heap;
  clipManager : ClipboardManager
}.

Section WithAllocator.
Variable growCap : nat → nat → nat.

Definition NewClipboardManager (h : heap) : heap * ClipboardManager :=
  let '(h1, s) := make h 0 5 in
  (h1, {| history := s; maxSize := 5 |}).

Definition AddItem (w : World) (text : string) : World :=
  let cm := clipManager w in
  let h := heap_ w in
  let text := gostrings.TrimSpace text in
  if decide (text = "" ∨ (200 < GoString.len text)%Z) then w
  else if decide (text ∈ elems h (history cm)) then w
  else
    let '(h1, front) := literal h [text] in
    let '(h2, history1) := append growCap h1 front (elems h1 (history cm)) in
    let history2 :=
      if decide (maxSize cm < len history1)%nat
      then reslice history1 0 (maxSize cm) else history1 in
    {| heap_ := h2;
       clipManager := {| history := history2; maxSize := maxSize cm |} |}.

(** [result := make([]string, len(cm.history)); copy(result, cm.history)] *)
Definition GetHistory (w : World) : World * slice :=
  let cm := clipManager w in
  let h := heap_ w in
  let '(h1, result) := make h (len (history cm)) (len (history cm)) in
  let h2 := copy h1 result (elems h1 (history cm)) in
  ({| heap_ := h2; clipManager := cm |}, result).

Definition start : World :=
  let '(h, cm) := NewClipboardManager [] in
  {| heap_ := h; clipManager := cm |}.

End WithAllocator.

Definition wf (w : World) : Prop := valid (heap_ w) (history (clipManager w)).

Definition abstract (w : World) : Multiclip.ClipboardManager :=
  {| Multiclip.history := elems (heap_ w) (history (clipManager w));
     Multiclip.maxSize := maxSize (clipManager w) |}.

End MulticlipSlices.

(** ** JSON texts that are arrays of strings *)

Module JsonText.
Import GoString.

(** The escapes of one character after a backslash. *)
Definition simpleEscape (e : ascii) : bool :=
  let x := byteZ e in
  (x =? json.ch "b") || (x =? json.ch "f") || (x =? json.ch "n")
  || (x =? json.ch "r") || (x =? json.ch "t") || (x =? json.ch json.bslash)
  || (x =? json.ch "/") || (x =? json.ch json.dquote).

(** The bytes between the quotes of a JSON string: any byte from 0x20 up
    apart from the quote and the backslash, or an escape. *)
Inductive StringBody : string → Prop :=
| body_end : StringBody EmptyString
| body_char (c : ascii) (body : string) :
    (0x20 ≤ byteZ c)%Z → c ≠ json.dquote → c ≠ json.bslash →
    StringBody body → StringBody (String c body)
| body_escape (e : ascii) (body : string) :
    simpleEscape e = true →
    StringBody body → StringBody (String json.bslash (String e body))
| body_unicode (h0 h1 h2 h3 : ascii) (body : string) :
    json.isHex (byteZ h0) = true → json.isHex (byteZ h1) = true →
    json.isHex (byteZ h2) = true → json.isHex (byteZ h3) = true →
    StringBody body →
    StringBody
      (String json.bslash
         (String "u" (String h0 (String h1 (String h2 (String h3 body)))))).

(** [Quoted s q u]: the encoder turns the Go string [s] into the body [q],
    one step per constructor, and [u] is [s] with every byte that does not
    start a well-formed sequence replaced by U+FFFD. *)
Inductive Quoted : string → string → string → Prop :=
| quoted_end : Quoted EmptyString EmptyString EmptyString
| quoted_safe (c : ascii) (s q u : string) :
    (byteZ c < 0x80)%Z → json.htmlSafeSet (byteZ c) = true →
    Quoted s q u → Quoted (String c s) (String c q) (String c u)
| quoted_escape (c : ascii) (s q u : string) :
    (byteZ c < 0x80)%Z → json.htmlSafeSet (byteZ c) = false →
    Quoted s q u → Quoted (String c s) (json.escapeByte c +:+ q) (String c u)
| quoted_invalid (c : ascii) (s q u : string) :
    (0x80 ≤ byteZ c)%Z →
    utf8.DecodeRuneInString (String c s) = (utf8.RuneError, 1%nat) →
    Quoted s q u →
    Quoted (String c s) (String json.bslash "ufffd" +:+ q)
           (utf8.EncodeRune utf8.RuneError +:+ u)
| quoted_separator (raw : string) (r : Z) (s q u : string) :
    r = 0x2028%Z ∨ r = 0x2029%Z → utf8.WellFormed raw r →
    Quoted s q u →
    Quoted (raw +:+ s)
           (String json.bslash "u202" +:+ String (json.hex (Z.land r 0xF)) "" +:+ q)
           (raw +:+ u)
| quoted_raw (raw : string) (r : Z) (s q u : string) :
    r ≠ 0x2028%Z → r ≠ 0x2029%Z → utf8.WellFormed raw r →
    Quoted s q u → Quoted (raw +:+ s) (raw +:+ q) (raw +:+ u).

(** A string literal [lit] and the Go string [s] it stands for. *)
Definition Literal (lit s : string) : Prop :=
  ∃ body, lit = String json.dquote (body +:+ String json.dquote "")
          ∧ StringBody body
          ∧ json.unquote lit = Some s.

(** Insignificant white space. *)
Definition Blank (ws : string) : Prop :=
  Forall (λ c, json.isSpace (byteZ c) = true) (String.list_ascii_of_string ws).

(** The elements of a non-empty array, up to and including the closing
    bracket. *)
Inductive Elements : string → list string → Prop :=
| elements_last (ws1 lit ws2 s : string) :
    Blank ws1 → Blank ws2 → Literal lit s →
    Elements (ws1 +:+ lit +:+ ws2 +:+ "]") [s]
| elements_more (ws1 lit ws2 rest s : string) (l : list string) :
    Blank ws1 → Blank ws2 → Literal lit s → Elements rest l →
    Elements (ws1 +:+ lit +:+ ws2 +:+ "," +:+ rest) (s :: l).

(** [StringArray data l]: the text [data] is a JSON array whose elements
    are string literals standing for the strings [l], in order. *)
Inductive StringArray : string → list string → Prop :=
| array_empty (ws0 ws1 ws2 : string) :
    Blank ws0 → Blank ws1 → Blank ws2 →
    StringArray (ws0 +:+ "[" +:+ ws1 +:+ "]" +:+ ws2) []
| array_elements (ws0 body ws2 : string) (l : list string) :
    Blank ws0 → Blank ws2 → Elements body l →
    StringArray (ws0 +:+ "[" +:+ body +:+ ws2) l.

(** The string literal of a text with nothing to escape: the text between
    quotes. *)
Definition quote (s : string) : string :=
  String json.dquote (s +:+ String json.dquote "").

End JsonText.

(** ** The vocabulary of the specification *)

Module HistorySpec.

(** The runes that [for _, r := range s] yields. *)
Fixpoint runesFrom (fuel : nat) (s : string) : list Z :=
  match fuel with
  | O => []
  | S fuel' =>
    match s with
    | EmptyString => []
    | _ =>
      let '(r, size) := utf8.DecodeRuneInString s in
      r :: runesFrom fuel' (GoString.from size s)
    end
  end.

Definition runes (s : string) : list Z := runesFrom (String.length s) s.

(** A text made of white space only; the empty text is one. *)
Definition onlySpace (s : string) : Prop :=
  Forall (λ r, unicode.IsSpace r = true) (runes s).

(** A sample of white space: a space, a tab, U+00A0, U+2003 and a line
    feed. *)
Definition blankSample : string :=
  String " " (String (GoString.byte_of 9)
    (String (GoString.byte_of 0xC2) (String (GoString.byte_of 0xA0)
      (String (GoString.byte_of 0xE2) (String (GoString.byte_of 0x80)
        (String (GoString.byte_of 0x83) (String (GoString.byte_of 10) ""))))))).

(** A history entry: not empty, and trimmed. *)
Definition entry (s : string) : Prop :=
  s ≠ "" ∧ gostrings.TrimSpace s = s.

#[global] Instance entry_dec (s : string) : Decision (entry s).
Proof. unfold entry. apply _. Defined.

(** The invariants of the store, on [src/main.go]. *)
Definition invariants (w : Main.World) : Prop :=
  NoDup (Main.getClips w)
  ∧ (length (Main.getClips w) ≤ Main.maxClips)%nat
  ∧ Forall entry (Main.getClips w).

#[global] Instance invariants_dec (w : Main.World) : Decision (invariants w).
Proof. unfold invariants. apply _. Defined.

(** A store with no entries. *)
Definition emptyStore (last file : string) (fs : gmap string string)
           (paste : string) : Main.World :=
  {| Main.clipManager :=
       {| Main.clips := []; Main.lastContent := last; Main.dataFile := file |};
     Main.files := fs;
     Main.pasteboard := paste |}.

(** A text that is not UTF-8: the single byte 0xFF. *)
Definition stray : string := String (GoString.byte_of 0xFF) "".

(** A file that no run of [src/main.go] writes: six strings, one of them
    twice, one of them not trimmed. *)
Definition crowdedFile : string :=
  "[" +:+ JsonText.quote "a " +:+ ", " +:+ JsonText.quote "b" +:+ ","
      +:+ JsonText.quote "b" +:+ "," +:+ JsonText.quote "c" +:+ ","
      +:+ JsonText.quote "d" +:+ "," +:+ JsonText.quote "e" +:+ "]".

Definition crowded : list string := ["a "; "b"; "b"; "c"; "d"; "e"].

End HistorySpec.

(** ** A text as it comes back from the data file *)

Module Coerced.
Import GoString.

(** Every byte that does not start a well-formed UTF-8 sequence becomes
    U+FFFD (the bytes EF BF BD); the other bytes stay. *)
Fixpoint toValidFrom (fuel : nat) (s : string) : string :=
  match fuel with
  | O => EmptyString
  | S fuel' =>
    match s with
    | EmptyString => EmptyString
    | _ =>
      let '(r, size) := utf8.DecodeRuneInString s in
      (if (r =? utf8.RuneError)%Z && (size =? 1)%nat
       then utf8.EncodeRune utf8.RuneError else upto size s)
      +:+ toValidFrom fuel' (from size s)
    end
  end.

Definition toValid (s : string) : string := toValidFrom (String.length s) s.

End Coerced.

(** ** Where the scanner of [encoding/json] stands *)

Module JsonScan.

(** The scanner has reported an error, or will at the next byte. *)
Definition failed (s : json.scanner) : Prop :=
  json.err s = true ∧ json.step s = json.stateError.

(** The top-level value has ended. *)
Definition ended (s : json.scanner) : Prop :=
  json.err s = false ∧ json.endTop s = true ∧ json.step s = json.stateEndTop.

(** The scanner is inside an array or an object. *)
Definition inside (s : json.scanner) : Prop :=
  json.err s = false ∧ json.endTop s = false ∧ json.parseState s ≠ [].

End JsonScan.

(** ** Texts without white space at their ends *)

Module Trim.

(** [q] does not go on in the middle of a rune: it is empty, or its first
    byte is no continuation byte. *)
Definition startsRune (q : string) : Prop :=
  ∀ d rest, q = String d rest → utf8.continuation (GoString.byteZ d) = false.

(** A text whose first rune and last rune are no white space; the empty
    text is one. *)
Definition Trimmed (s : string) : Prop :=
  s = ""
  ∨ (unicode.IsSpace (fst (utf8.DecodeRuneInString s)) = false
     ∧ unicode.IsSpace (fst (utf8.DecodeLastRuneInString s)) = false).

End Trim.

(** ** [src/main.go]: what happens to the process over time *)

Module MainLoop.

(** What can happen to the state of [src/main.go] once [main] has started
    its goroutines: another application puts a text on the system
    clipboard; the ticker of [monitorClipboard] fires; the goroutine that
    [updateMenu] started for a clip item receives the click, with the
    content it captured; the goroutine of "Clear History" receives the
    click. *)
Inductive event :=
| Copy (text : string)
| Tick
| ClickClip (content : string)
| ClickClear.

Definition copy (w : Main.World) (text : string) : Main.World :=
  {| Main.clipManager := Main.clipManager w;
     Main.files := Main.files w;
     Main.pasteboard := text |}.

Definition step (w : Main.World) (e : event) : Main.World :=
  match e with
  | Copy text => copy w text
  | Tick => Main.monitorTick w
  | ClickClip content => Main.setClip w content
  | ClickClear => Main.clearHistory w
  end.

Definition run (w : Main.World) (events : list event) : Main.World :=
  foldl step w events.

(** The texts that count among those observed: trimmed, the empty ones
    left out. *)
Definition observed (texts : list string) : list string :=
  filter (λ t, t ≠ "") (gostrings.TrimSpace <$> texts).

(** The distinct values of a sequence, the most recent first: a value
    stands where it occurs last. *)
Definition recent (ts : list string) : list string :=
  reverse (remove_dups ts).

End MainLoop.

(** ** [src/multiclip/src/main.go]: what happens to the process over time *)

Module MulticlipLoop.

(** The global [clipManager] and the text on the system clipboard. *)
Record World := mkWorld {
  clipManager : Multiclip.ClipboardManager;
  pasteboard : string
}.

(** The case [data := <-ch] of [monitorClipboard]; [None] is a nil
    [data]. *)
Definition received (w : World) (data : option string) : World :=
  match data with
  | None => w
  | Some text =>
    if decide (text ≠ "") then
      {| clipManager := Multiclip.AddItem (clipManager w) text;
         pasteboard := pasteboard w |}
    else w
  end.

(** The case [<-menuItem.ClickedCh] of [handleMenuItemClick]. *)
Definition handleMenuItemClick (w : World) (text : string) : World :=
  {| clipManager := clipManager w; pasteboard := text |}.

(** [clipboard.Watch] sends the text of the clipboard after a change of
    it, whoever made the change. *)
Definition watched (w : World) : World := received w (Some (pasteboard w)).

(** Another application puts a text on the clipboard, and the watcher
    hears of it. *)
Definition copy (w : World) (text : string) : World :=
  watched {| clipManager := clipManager w; pasteboard := text |}.

(** A click on a menu item made for [text], and the watcher hears of the
    change. *)
Definition click (w : World) (text : string) : World :=
  watched (handleMenuItemClick w text).

Definition start (paste : string) : World :=
  {| clipManager := Multiclip.NewClipboardManager; pasteboard := paste |}.

Inductive event :=
| Copy (text : string)
| Click (text : string).

Definition step (w : World) (e : event) : World :=
  match e with
  | Copy text => copy w text
  | Click text => click w text
  end.

Definition run (w : World) (events : list event) : World :=
  foldl step w events.

(** The invariants of the history. *)
Definition invariants (cm : Multiclip.ClipboardManager) : Prop :=
  NoDup (Multiclip.history cm)
  ∧ (length (Multiclip.history cm) ≤ 5)%nat
  ∧ Forall (λ s, HistorySpec.entry s ∧ (GoString.len s ≤ 200)%Z)
           (Multiclip.history cm).

(** What [AddItem] accepts: a trimmed text that is not empty and has at
    most 200 bytes. *)
Definition accepted (texts : list string) : list string :=
  filter (λ t, t ≠ "" ∧ (GoString.len t ≤ 200)%Z) (gostrings.TrimSpace <$> texts).

End MulticlipLoop.

(** ** Package [strings]: [Index], [Count] and [Replace] *)

Module stringsReplace.
Import GoString.

(** [HasPrefix(s, prefix)] *)
Fixpoint HasPrefix (s prefix : string) {struct prefix} : bool :=
  match prefix with
  | EmptyString => true
  | String p prefix' =>
    match s with
    | String c s' => bool_decide (c = p) && HasPrefix s' prefix'
    | EmptyString => false
    end
  end.

(** [Index(s, substr)]: the index of the first instance of [substr] in
    [s], or [-1].  The source searches with machine code for the byte
    comparisons; this is what it returns.  [i] is the index of the first
    byte of [s] in the string searched. *)
Fixpoint IndexFrom (s substr : string) (i : Z) : Z :=
  if HasPrefix s substr then i
  else match s with
       | EmptyString => -1
       | String _ s' => IndexFrom s' substr (i + 1)
       end.

Definition Index (s substr : string) : Z := IndexFrom s substr 0.

(** [utf8.RuneCountInString] *)
Fixpoint RuneCountFrom (fuel : nat) (s : string) : Z :=
  match fuel with
  | O => 0
  | S fuel' =>
    match s with
    | EmptyString => 0
    | _ =>
      let '(_, size) := utf8.DecodeRuneInString s in
      1 + RuneCountFrom fuel' (from size s)
    end
  end.

Definition RuneCountInString (s : string) : Z :=
  RuneCountFrom (String.length s) s.

(** [bytealg.CountString(s, c)] *)
Fixpoint CountString (s : string) (c : ascii) : Z :=
  match s with
  | EmptyString => 0
  | String d s' => (if bool_decide (d = c) then 1 else 0) + CountString s' c
  end.

(** The loop of [Count]:
    [for { i := Index(s, substr); if i == -1 { return n }; n++;
           s = s[i+len(substr):] }] *)
Fixpoint countLoop (fuel : nat) (s substr : string) : Z :=
  match fuel with
  | O => 0
  | S fuel' =>
    let i := Index s substr in
    if i =? -1 then 0
    else 1 + countLoop fuel' (from (Z.to_nat i + String.length substr) s) substr
  end.

Definition Count (s substr : string) : Z :=
  match substr with
  | EmptyString => RuneCountInString s + 1
  | String c EmptyString => CountString s c
  | _ => countLoop (String.length s) s substr
  end.

(** The loop of [Replace], [n] replacements to go; [rest] is [s[start:]]
    and [first] tells the first round ([i == 0]):
    [j := start; if len(old) == 0 { if i > 0 { _, wid := DecodeRuneInString(s[start:]); j += wid } }
     else { j += Index(s[start:], old) };
     b.WriteString(s[start:j]); b.WriteString(new); start = j + len(old)],
    and [b.WriteString(s[start:])] at the end. *)
Fixpoint replaceLoop (n : nat) (first : bool) (rest old new : string) : string :=
  match n with
  | O => rest
  | S n' =>
    let j :=
      match old with
      | EmptyString =>
        if first then O else snd (utf8.DecodeRuneInString rest)
      | _ => Z.to_nat (Index rest old)
      end in
    upto j rest +:+ new
      +:+ replaceLoop n' false (from (j + String.length old) rest) old new
  end.

(** [Replace(s, old, new, n)] *)
Definition Replace (s old new : string) (n : Z) : string :=
  if decide (old = new ∨ n = 0) then s
  else
    let m := Count s old in
    if m =? 0 then s
    else
      let n := if (n <? 0) || (m <? n) then m else n in
      replaceLoop (Z.to_nat n) true s old new.

Definition ReplaceAll (s old new : string) : string := Replace s old new (-1).

End stringsReplace.

(** ** [fmt.Sprintf] with the verb [%d] *)

Module fmt.
Import GoString.

(** The decimal digits of [n], for [0 <= n]. *)
Fixpoint digits (fuel : nat) (n : Z) (acc : string) : string :=
  match fuel with
  | O => acc
  | S fuel' =>
    let acc := String (byte_of (48 + n mod 10)) acc in
    if n <? 10 then acc else digits fuel' (n / 10) acc
  end.

(** [fmt.Sprintf("%d", n)] *)
Definition formatInt (n : Z) : string :=
  if n <? 0 then String "-" (digits (Z.to_nat (- n)) (- n) "")
  else digits (S (Z.to_nat n)) n "".

End fmt.

(** ** The menu bar

    What the programs ask of the tray library: [AddMenuItem] puts a new
    item, enabled and shown, below the ones there are and returns it;
    [AddSeparator] puts a separator there and returns nothing; [Hide] and
    [Disable] mark an item.  An item is named by its place. *)

Module systray.

Record MenuItem := mkMenuItem {
  title : string;
  tooltip : string;
  disabled : bool;
  hidden : bool;
  checkable : bool;
  separator : bool
}.

Definition AddMenuItem (tray : list MenuItem) (title tooltip : string)
  : list MenuItem * nat :=
  (tray ++ [{| title := title; tooltip := tooltip; disabled := false;
               hidden := false; checkable := false; separator := false |}],
   length tray).

(** [AddMenuItemCheckbox(title, tooltip, false)] *)
Definition AddMenuItemCheckbox (tray : list MenuItem) (title tooltip : string)
  : list MenuItem * nat :=
  (tray ++ [{| title := title; tooltip := tooltip; disabled := false;
               hidden := false; checkable := true; separator := false |}],
   length tray).

Definition AddSeparator (tray : list MenuItem) : list MenuItem :=
  tray ++ [{| title := ""; tooltip := ""; disabled := false;
              hidden := false; checkable := false; separator := true |}].

Definition Hide (tray : list MenuItem) (item : nat) : list MenuItem :=
  alter (λ it, {| title := title it; tooltip := tooltip it;
                  disabled := disabled it; hidden := true;
                  checkable := checkable it; separator := separator it |})
        item tray.

Definition Disable (tray : list MenuItem) (item : nat) : list MenuItem :=
  alter (λ it, {| title := title it; tooltip := tooltip it;
                  disabled := true; hidden := hidden it;
                  checkable := checkable it; separator := separator it |})
        item tray.

(** What the user sees. *)
Definition shown (tray : list MenuItem) : list MenuItem :=
  filter (λ it, hidden it = false) tray.

(** The lines of the menu: the title of each item shown, [None] for a
    separator. *)
Definition lines (tray : list MenuItem) : list (option string) :=
  (λ it, if separator it then None else Some (title it)) <$> shown tray.

End systray.

(** ** [src/main.go]: the menu *)

Module MainMenu.
Import GoString.

(** What a goroutine started by [updateMenu] does once its item is
    clicked. *)
Inductive action :=
| CopyBack (content : string)
| ClearHistory
| Quit.

(** The tray, the global [menuItems], and the goroutines that wait for a
    click, each with its item. *)
Record UI := mkUI {
  tray : list systray.MenuItem;
  menuItems : list nat;
  waiting : list (nat * action)
}.

(** The text of a line: [displayText] at the end of the loop body. *)
Definition displayText (clip : string) : string :=
  let displayText := clip in
  let displayText :=
    if 50 <? len displayText then upto 47 displayText +:+ "..."
    else displayText in
  let displayText :=
    stringsReplace.ReplaceAll displayText (String (byte_of 10) "") " " in
  stringsReplace.ReplaceAll displayText (String (byte_of 13) "") " ".

(** [fmt.Sprintf("%d. %s", i+1, displayText)] *)
Definition itemTitle (i : nat) (clip : string) : string :=
  fmt.formatInt (Z.of_nat i + 1) +:+ ". " +:+ displayText clip.

(** The loop [for i, clip := range clips] of [updateMenu]. *)
Fixpoint addClips (ui : UI) (i : nat) (clips : list string) : UI :=
  match clips with
  | [] => ui
  | clip :: clips' =>
    let '(tray1, mClip) :=
      systray.AddMenuItem (tray ui) (itemTitle i clip)
                          "Click to copy to clipboard" in
    addClips {| tray := tray1; menuItems := menuItems ui ++ [mClip];
                waiting := waiting ui ++ [(mClip, CopyBack clip)] |}
             (S i) clips'
  end.

(** [updateMenu()], for the clips that [getClips] returns. *)
Definition updateMenu (ui : UI) (clips : list string) : UI :=
  let tray0 := foldl systray.Hide (tray ui) (menuItems ui) in
  let ui1 := {| tray := tray0; menuItems := []; waiting := waiting ui |} in
  let ui2 :=
    if decide (length clips = 0%nat) then
      let '(tray1, mEmpty) :=
        systray.AddMenuItem (tray ui1) "No clips yet" "No clipboard history" in
      {| tray := systray.Disable tray1 mEmpty;
         menuItems := menuItems ui1 ++ [mEmpty];
         waiting := waiting ui1 |}
    else addClips ui1 O clips in
  let tray3 := systray.AddSeparator (tray ui2) in
  let '(tray4, mClear) :=
    systray.AddMenuItem tray3 "Clear History" "Clear all clipboard history" in
  let '(tray5, mQuit) := systray.AddMenuItem tray4 "Quit" "Quit MultiClip" in
  {| tray := tray5;
     menuItems := menuItems ui2 ++ [mClear; mQuit];
     waiting := waiting ui2 ++ [(mClear, ClearHistory); (mQuit, Quit)] |}.

(** The menu before [onReady]: nothing. *)
Definition empty : UI := {| tray := []; menuItems := []; waiting := [] |}.

(** What the user sees. *)
Definition lines (ui : UI) : list (option string) := systray.lines (tray ui).

(** The lines for the clips: one per clip, numbered from 1, or the
    placeholder. *)
Definition clipLines (clips : list string) : list (option string) :=
  if decide (length clips = 0%nat) then [Some "No clips yet"]
  else imap (λ i clip, Some (itemTitle i clip)) clips.

(** The goroutines that receive from the [ClickedCh] of [item]. *)
Definition handlers (ui : UI) (item : nat) : list action :=
  snd <$> filter (λ p, fst p = item) (waiting ui).

(** What such a goroutine does after the click: [clipManager.setClip(content)],
    the clearing of the history, or [systray.Quit()], which ends the
    program and leaves the state as it is. *)
Definition perform (w : Main.World) (a : action) : Main.World :=
  match a with
  | CopyBack content => Main.setClip w content
  | ClearHistory => Main.clearHistory w
  | Quit => w
  end.

End MainMenu.

(** ** [src/multiclip/src/main.go]: the menu *)

Module MulticlipMenu.
Import GoString.

(** The tray, the globals [menuItems] and [quitItem], and the goroutines
    of [handleMenuItemClick] that wait for a click, each with its item and
    its text. *)
Record UI := mkUI {
  tray : list systray.MenuItem;
  menuItems : list nat;
  quitItem : option nat;
  waiting : list (nat * string)
}.

Definition displayText (item : string) : string :=
  if 50 <? len item then upto 47 item +:+ "..." else item.

(** [fmt.Sprintf("Copy item %d", i+1)] *)
Definition itemTooltip (i : nat) : string :=
  "Copy item " +:+ fmt.formatInt (Z.of_nat i + 1).

(** The loop [for i, item := range history], with the function that adds
    an item: [systray.AddMenuItem] in [setupMenu],
    [systray.AddMenuItemCheckbox] in [updateMenuItems]. *)
Fixpoint addItems
         (add : list systray.MenuItem → string → string
                → list systray.MenuItem * nat)
         (ui : UI) (i : nat) (history : list string) : UI :=
  match history with
  | [] => ui
  | item :: history' =>
    let '(tray1, menuItem) := add (tray ui) (displayText item) (itemTooltip i) in
    addItems add
             {| tray := tray1; menuItems := menuItems ui ++ [menuItem];
                quitItem := quitItem ui;
                waiting := waiting ui ++ [(menuItem, item)] |}
             (S i) history'
  end.

Definition addEntries
           (add : list systray.MenuItem → string → string
                  → list systray.MenuItem * nat)
           (ui : UI) (history : list string) : UI :=
  if decide (length history = 0%nat) then
    let '(tray1, mEmpty) :=
      add (tray ui) "No clipboard history" "Clipboard is empty" in
    {| tray := systray.Disable tray1 mEmpty;
       menuItems := menuItems ui ++ [mEmpty];
       quitItem := quitItem ui; waiting := waiting ui |}
  else addItems add ui O history.

(** [setupMenu()], for the history that [GetHistory] returns. *)
Definition setupMenu (ui : UI) (history : list string) : UI :=
  let ui1 := {| tray := tray ui; menuItems := [];
                quitItem := quitItem ui; waiting := waiting ui |} in
  let ui2 := addEntries systray.AddMenuItem ui1 history in
  match quitItem ui2 with
  | None =>
    let tray3 := systray.AddSeparator (tray ui2) in
    let '(tray4, q) :=
      systray.AddMenuItem tray3 "Quit MultiClip" "Exit the application" in
    {| tray := tray4; menuItems := menuItems ui2;
       quitItem := Some q; waiting := waiting ui2 |}
  | Some _ => ui2
  end.

(** [updateMenuItems()], for the history that [GetHistory] returns. *)
Definition updateMenuItems (ui : UI) (history : list string) : UI :=
  let tray0 := foldl systray.Hide (tray ui) (menuItems ui) in
  let ui1 := {| tray := tray0; menuItems := [];
                quitItem := quitItem ui; waiting := waiting ui |} in
  addEntries systray.AddMenuItemCheckbox ui1 history.

Definition empty : UI :=
  {| tray := []; menuItems := []; quitItem := None; waiting := [] |}.

Definition lines (ui : UI) : list (option string) := systray.lines (tray ui).

(** The lines for the history: one per text, or the placeholder. *)
Definition historyLines (history : list string) : list (option string) :=
  if decide (length history = 0%nat) then [Some "No clipboard history"]
  else (λ item, Some (displayText item)) <$> history.

(** The texts of the goroutines of [handleMenuItemClick] that receive
    from the [ClickedCh] of [item]. *)
Definition handlers (ui : UI) (item : nat) : list string :=
  snd <$> filter (λ p, fst p = item) (waiting ui).

End MulticlipMenu.

(** * Properties *)

(** ** The loop that removes an existing clip *)

Lemma removeExisting_absent (content : string) (l : list string) :
  content ∉ l → Main.removeExisting content l = l.
Proof.
  intros Hnot. unfold Main.removeExisting.
  destruct (list_find _ l) as [[i x]|] eqn:Hfind; [|done].
  apply list_find_Some in Hfind as (Hl & -> & _).
  exfalso. apply Hnot. eapply list_elem_of_lookup_2; eauto.
Qed.

Lemma removeExisting_present (content : string) (l : list string) (k : nat) :
  l !! k = Some content →
  (∀ j, (j < k)%nat → l !! j ≠ Some content) →
  Main.removeExisting content l = take k l ++ drop (S k) l.
Proof.
  intros Hk Hfirst. unfold Main.removeExisting.
  destruct (list_find _ l) as [[i x]|] eqn:Hfind.
  - apply list_find_Some in Hfind as (Hl & -> & Hmin).
    destruct (Nat.lt_trichotomy i k) as [Hlt | [-> | Hgt]]; [| done |].
    + exfalso. by apply (Hfirst i).
    + exfalso. by apply (Hmin k content).
  - apply list_find_None in Hfind.
    rewrite Forall_forall in Hfind.
    exfalso. apply (Hfind content); [|done].
    eapply list_elem_of_lookup_2; eauto.
Qed.

Lemma removeExisting_sublist (content : string) (l : list string) :
  Main.removeExisting content l `sublist_of` l.
Proof.
  unfold Main.removeExisting.
  destruct (list_find _ l) as [[i x]|]; [|done].
  rewrite <- delete_take_drop. apply sublist_delete.
Qed.

Lemma removeExisting_length (content : string) (l : list string) :
  (length (Main.removeExisting content l) ≤ length l)%nat.
Proof. apply sublist_length, removeExisting_sublist. Qed.

Lemma removeExisting_NoDup (content : string) (l : list string) :
  NoDup l → NoDup (Main.removeExisting content l).
Proof. intros H. eapply sublist_NoDup; [done | apply removeExisting_sublist]. Qed.

Lemma removeExisting_gone (content : string) (l : list string) :
  NoDup l → content ∉ Main.removeExisting content l.
Proof.
  intros Hnd. unfold Main.removeExisting.
  destruct (list_find _ l) as [[i x]|] eqn:Hfind.
  - apply list_find_Some in Hfind as (Hl & -> & _).
    rewrite <- (take_drop_middle l i content) in Hnd by done.
    apply NoDup_app in Hnd as (_ & Hdisj & Hnd2).
    apply NoDup_cons in Hnd2 as [Hnotin _].
    intros [Hin | Hin]%elem_of_app.
    + apply (Hdisj _ Hin). left.
    + done.
  - apply list_find_None in Hfind. rewrite Forall_forall in Hfind.
    intros Hin. by apply (Hfind _ Hin).
Qed.

(** ** [addClip], case by case *)

Lemma addClip_skips (w : Main.World) (text : string) :
  gostrings.TrimSpace text = "" ∨
  gostrings.TrimSpace text = Main.lastContent (Main.clipManager w) →
  Main.addClip w text = w.
Proof. intros H. unfold Main.addClip. by rewrite decide_True. Qed.

Lemma addClip_stores (w : Main.World) (text : string) :
  gostrings.TrimSpace text ≠ "" →
  gostrings.TrimSpace text ≠ Main.lastContent (Main.clipManager w) →
  Main.getClips (Main.addClip w text)
  = take Main.maxClips
      (gostrings.TrimSpace text
         :: Main.removeExisting (gostrings.TrimSpace text) (Main.getClips w))
  ∧ Main.lastContent (Main.clipManager (Main.addClip w text))
    = gostrings.TrimSpace text.
Proof.
  intros H1 H2. unfold Main.addClip, Main.getClips.
  rewrite decide_False by tauto.
  cbn [Main.clips Main.clipManager Main.lastContent]. split; [|done].
  case_decide as Hlen; [done|].
  symmetry. apply take_ge. lia.
Qed.

Lemma addClip_cases (w : Main.World) (text : string) :
  Main.addClip w text = w
  ∨ (Main.getClips (Main.addClip w text)
     = take Main.maxClips
         (gostrings.TrimSpace text
            :: Main.removeExisting (gostrings.TrimSpace text) (Main.getClips w))
     ∧ Main.lastContent (Main.clipManager (Main.addClip w text))
       = gostrings.TrimSpace text
     ∧ gostrings.TrimSpace text ≠ ""
     ∧ gostrings.TrimSpace text ≠ Main.lastContent (Main.clipManager w)).
Proof.
  destruct (decide (gostrings.TrimSpace text = "" ∨
                    gostrings.TrimSpace text
                    = Main.lastContent (Main.clipManager w))) as [H|H].
  - left. by apply addClip_skips.
  - right. destruct (addClip_stores w text) as [? ?]; tauto.
Qed.

Lemma addClip_length (w : Main.World) (text : string) :
  (length (Main.getClips w) ≤ Main.maxClips)%nat →
  (length (Main.getClips (Main.addClip w text)) ≤ Main.maxClips)%nat.
Proof.
  intros Hlen. destruct (addClip_cases w text) as [-> | (-> & _)]; [done|].
  rewrite length_take. lia.
Qed.

Lemma addClip_NoDup (w : Main.World) (text : string) :
  NoDup (Main.getClips w) → NoDup (Main.getClips (Main.addClip w text)).
Proof.
  intros Hnd. destruct (addClip_cases w text) as [-> | (-> & _)]; [done|].
  eapply sublist_NoDup; [|apply sublist_take].
  apply NoDup_cons. split.
  - by apply removeExisting_gone.
  - by apply removeExisting_NoDup.
Qed.

(** ** [AddItem], case by case *)

Lemma AddItem_cases (cm : Multiclip.ClipboardManager) (text : string) :
  Multiclip.AddItem cm text = cm
  ∨ (Multiclip.history (Multiclip.AddItem cm text)
     = take (Multiclip.maxSize cm)
         (gostrings.TrimSpace text :: Multiclip.history cm)
     ∧ Multiclip.maxSize (Multiclip.AddItem cm text) = Multiclip.maxSize cm
     ∧ gostrings.TrimSpace text ∉ Multiclip.history cm).
Proof.
  unfold Multiclip.AddItem.
  case_decide; [by left|]. case_decide; [by left|].
  right. cbn [Multiclip.history Multiclip.maxSize]. split; [|done].
  case_decide as Hlen; [done|].
  symmetry. apply take_ge. lia.
Qed.

Lemma AddItem_present (cm : Multiclip.ClipboardManager) (text : string) :
  gostrings.TrimSpace text ∈ Multiclip.history cm →
  Multiclip.AddItem cm text = cm.
Proof.
  intros Hin. unfold Multiclip.AddItem.
  case_decide; [done|]. by rewrite decide_True.
Qed.

Lemma AddItem_bounded (texts : list string) (cm : Multiclip.ClipboardManager) :
  (length (Multiclip.history cm) ≤ Multiclip.maxSize cm)%nat →
  (length (Multiclip.history (foldl Multiclip.AddItem cm texts))
   ≤ Multiclip.maxSize cm)%nat
  ∧ Multiclip.maxSize (foldl Multiclip.AddItem cm texts) = Multiclip.maxSize cm.
Proof.
  revert cm. induction texts as [|t texts IH]; intros cm Hlen; [done|].
  simpl. destruct (AddItem_cases cm t) as [-> | (Hh & Hm & _)]; [by apply IH|].
  destruct (IH (Multiclip.AddItem cm t)) as [IH1 IH2].
  - rewrite Hh, Hm, length_take. lia.
  - rewrite Hm in IH1, IH2. done.
Qed.

Lemma addClip_bounded (texts : list string) (w : Main.World) :
  (length (Main.getClips w) ≤ Main.maxClips)%nat →
  (length (Main.getClips (foldl Main.addClip w texts)) ≤ Main.maxClips)%nat.
Proof.
  revert w. induction texts as [|t texts IH]; intros w Hlen; [done|].
  simpl. by apply IH, addClip_length.
Qed.

(** ** C1 *)

(** C1. Starting from a store with no entries and capacity 5, the snapshot
    holds at most 5 entries after every call of a sequence of inserts:
    [texts] is the sequence and [n] the number of calls made so far.  It
    holds of [addClip] and [getClips] in [src/main.go] and of [AddItem] and
    [GetHistory] in [src/multiclip/src/main.go]. *)
Theorem C1_snapshot_never_exceeds_capacity :
  ∀ (last file paste : string) (fs : gmap string string)
    (texts : list string) (n : nat),
    (length (Main.getClips
               (foldl Main.addClip (HistorySpec.emptyStore last file fs paste)
                      (take n texts))) ≤ 5)%nat
    ∧ (length (Multiclip.GetHistory
                 (foldl Multiclip.AddItem Multiclip.NewClipboardManager
                        (take n texts))) ≤ 5)%nat.
Proof.
  intros last file paste fs texts n. split.
  - apply addClip_bounded. simpl. unfold Main.maxClips. lia.
  - apply (AddItem_bounded (take n texts) Multiclip.NewClipboardManager).
    simpl. lia.
Qed.

(** ** C2: promotion *)

Lemma addClip_promotes (w : Main.World) (text : string) (k : nat) :
  HistorySpec.invariants w →
  Main.getClips w !! k = Some (gostrings.TrimSpace text) →
  gostrings.TrimSpace text ≠ Main.lastContent (Main.clipManager w) →
  Main.getClips (Main.addClip w text)
  = gostrings.TrimSpace text
      :: (take k (Main.getClips w) ++ drop (S k) (Main.getClips w)).
Proof.
  intros (Hnd & Hlen & Hent) Hk Hlast.
  assert (gostrings.TrimSpace text ≠ "") as Hne.
  { rewrite Forall_forall in Hent.
    apply (Hent (gostrings.TrimSpace text)).
    eapply list_elem_of_lookup_2; eauto. }
  destruct (addClip_stores w text Hne Hlast) as [-> _].
  rewrite (removeExisting_present _ _ k Hk).
  - apply take_ge. simpl. rewrite <- delete_take_drop.
    pose proof (length_delete (Main.getClips w) k) as Hd.
    rewrite Hk in Hd. specialize (Hd (ltac:(eauto))).
    apply lookup_lt_Some in Hk. unfold Main.maxClips in *. lia.
  - intros j Hj Hjk.
    pose proof (NoDup_lookup _ _ _ _ Hnd Hjk Hk). lia.
Qed.

(** C2, as the code has it.  In [src/main.go], on a store that satisfies
    the invariants, inserting a text whose trimmed form is the entry at
    index [k > 0] and is not [lastContent] puts that entry at index 0,
    leaves the other entries in their order, and keeps the length; from an
    empty store, "a", "b", "c", "a" gives ["a"; "c"; "b"].  In
    [src/multiclip/src/main.go], [AddItem] of a text whose trimmed form is
    already in the history changes nothing; there "a", "b", "c", "a" gives
    ["c"; "b"; "a"]. *)
Theorem C2_promotion_in_main_skip_in_multiclip :
  ∀ (w : Main.World) (text : string) (k : nat)
    (cm : Multiclip.ClipboardManager) (text' : string),
    (HistorySpec.invariants w →
     (0 < k)%nat →
     Main.getClips w !! k = Some (gostrings.TrimSpace text) →
     gostrings.TrimSpace text ≠ Main.lastContent (Main.clipManager w) →
     Main.getClips (Main.addClip w text)
     = gostrings.TrimSpace text
         :: (take k (Main.getClips w) ++ drop (S k) (Main.getClips w))
     ∧ length (Main.getClips (Main.addClip w text)) = length (Main.getClips w))
    ∧ (gostrings.TrimSpace text' ∈ Multiclip.history cm →
       Multiclip.AddItem cm text' = cm)
    ∧ Main.getClips
        (foldl Main.addClip (HistorySpec.emptyStore "" "" ∅ "")
               ["a"; "b"; "c"; "a"])
      = ["a"; "c"; "b"]
    ∧ Multiclip.GetHistory
        (foldl Multiclip.AddItem Multiclip.NewClipboardManager
               ["a"; "b"; "c"; "a"])
      = ["c"; "b"; "a"].
Proof.
  intros w text k cm text'. split; [|split; [|split]].
  - intros Hinv Hpos Hk Hlast.
    rewrite (addClip_promotes w text k Hinv Hk Hlast). split; [done|].
    simpl. rewrite <- delete_take_drop.
    pose proof (length_delete (Main.getClips w) k) as Hd.
    rewrite Hk in Hd. specialize (Hd (ltac:(eauto))).
    apply lookup_lt_Some in Hk. lia.
  - apply AddItem_present.
  - vm_compute. reflexivity.
  - vm_compute. reflexivity.
Qed.

Lemma C2_promotion_witness :
  Main.getClips
    (Main.addClip
       (foldl Main.addClip (HistorySpec.emptyStore "" "" ∅ "") ["a"; "b"; "c"])
       " a ")
  = ["a"; "c"; "b"]
  ∧ Multiclip.AddItem
      (foldl Multiclip.AddItem Multiclip.NewClipboardManager ["a"; "b"; "c"]) "a "
    = foldl Multiclip.AddItem Multiclip.NewClipboardManager ["a"; "b"; "c"].
Proof.
  pose proof (C2_promotion_in_main_skip_in_multiclip
                (foldl Main.addClip (HistorySpec.emptyStore "" "" ∅ "")
                       ["a"; "b"; "c"])
                " a " 2
                (foldl Multiclip.AddItem Multiclip.NewClipboardManager
                       ["a"; "b"; "c"])
                "a ") as (H1 & H2 & _).
  split.
  - refine (proj1 (H1 _ _ _ _)).
    + apply (bool_decide_unpack _). vm_compute. exact I.
    + lia.
    + vm_compute. reflexivity.
    + apply (bool_decide_unpack _). vm_compute. exact I.
  - apply H2. apply (bool_decide_unpack _). vm_compute. exact I.
Defined.

(** In [src/multiclip/src/main.go] the entry is not moved: the claim's own
    scenario ends with "a" last. *)
Lemma C2_counterexample_AddItem_does_not_promote :
  Multiclip.GetHistory
    (foldl Multiclip.AddItem Multiclip.NewClipboardManager ["a"; "b"; "c"; "a"])
  ≠ ["a"; "c"; "b"].
Proof. vm_compute. discriminate. Qed.

(** ** C3 *)

(** C3. On a store whose entries hold no value twice, the entries hold no
    value twice after an insert, after a clear, and after a copy-back
    ([addClip], the "Clear History" handler and [setClip] of [src/main.go];
    [AddItem] of [src/multiclip/src/main.go], the only operation there
    that writes the history).  Equality is equality of the whole string. *)
Theorem C3_no_duplicates_preserved :
  ∀ (w : Main.World) (cm : Multiclip.ClipboardManager) (text : string),
    (NoDup (Main.getClips w) →
     NoDup (Main.getClips (Main.addClip w text))
     ∧ NoDup (Main.getClips (Main.clearHistory w))
     ∧ NoDup (Main.getClips (Main.setClip w text)))
    ∧ (NoDup (Multiclip.history cm) →
       NoDup (Multiclip.history (Multiclip.AddItem cm text))).
Proof.
  intros w cm text. split.
  - intros Hnd. split; [by apply addClip_NoDup|]. split; [constructor|done].
  - intros Hnd.
    destruct (AddItem_cases cm text) as [-> | (-> & _ & Hnotin)]; [done|].
    eapply sublist_NoDup; [|apply sublist_take].
    by apply NoDup_cons.
Qed.

Lemma C3_no_duplicates_witness :
  NoDup (Main.getClips
           (Main.addClip
              (foldl Main.addClip (HistorySpec.emptyStore "" "" ∅ "")
                     ["a"; "b"; "c"]) "b"))
  ∧ NoDup (Multiclip.history
             (Multiclip.AddItem
                (foldl Multiclip.AddItem Multiclip.NewClipboardManager
                       ["a"; "b"; "c"]) "b")).
Proof.
  pose proof (C3_no_duplicates_preserved
                (foldl Main.addClip (HistorySpec.emptyStore "" "" ∅ "")
                       ["a"; "b"; "c"])
                (foldl Multiclip.AddItem Multiclip.NewClipboardManager
                       ["a"; "b"; "c"])
                "b") as [H1 H2].
  split.
  - refine (proj1 (H1 _)). apply (bool_decide_unpack _). vm_compute. exact I.
  - apply H2. apply (bool_decide_unpack _). vm_compute. exact I.
Defined.

(** ** C4 *)

Lemma filter_absent (x : string) (l : list string) :
  x ∉ l → filter (λ e, e = x) l = [].
Proof.
  induction l as [|y l IH]; [done|].
  intros Hnot. apply not_elem_of_cons in Hnot as [Hne Hnot].
  rewrite filter_cons_False by congruence. by apply IH.
Qed.

Lemma filter_present (x : string) (l : list string) :
  NoDup l → x ∈ l → length (filter (λ e, e = x) l) = 1%nat.
Proof.
  induction l as [|y l IH]; intros Hnd Hin; [by apply elem_of_nil in Hin|].
  apply NoDup_cons in Hnd as [Hy Hnd].
  destruct (decide (y = x)) as [->|Hne].
  - rewrite filter_cons_True by done. simpl. by rewrite filter_absent.
  - rewrite filter_cons_False by done. apply IH; [done|].
    apply elem_of_cons in Hin as [->|Hin]; done.
Qed.

(** C4. In [src/main.go], in every store state, an insert whose trimmed
    text equals [lastContent] changes nothing at all: entries,
    [lastContent], data file and clipboard stay as they are.  And in every
    store state, once a non-empty trimmed text [x] has been inserted and
    then copied back with [setClip], the tick of [monitorClipboard] that
    reads [x] from the clipboard changes nothing: the entries are those
    the first insert left.  On a store whose entries are pairwise distinct
    they hold [x] exactly once if and only if [x] was not [lastContent] or
    was among the entries before; [x] is at the front when it was not
    [lastContent]. *)
Theorem C4_last_content_suppresses_reinsertion :
  ∀ (w : Main.World) (text x : string),
    (gostrings.TrimSpace text = Main.lastContent (Main.clipManager w) →
     Main.addClip w text = w)
    ∧ (HistorySpec.entry x →
       let w1 := Main.addClip w x in
       let w2 := Main.setClip w1 x in
       let w3 := Main.monitorTick w2 in
       w3 = w2
       ∧ Main.getClips w3 = Main.getClips w1
       ∧ (NoDup (Main.getClips w) →
          length (filter (λ e, e = x) (Main.getClips w3)) = 1%nat
          ↔ x ≠ Main.lastContent (Main.clipManager w) ∨ x ∈ Main.getClips w)
       ∧ (x ≠ Main.lastContent (Main.clipManager w) →
          Main.getClips w3 !! 0%nat = Some x)).
Proof.
  intros w text x. split.
  - intros H. apply addClip_skips. by right.
  - intros [Hne Htrim] w1 w2 w3.
    assert (w3 = w2) as H32.
    { unfold w3, Main.monitorTick.
      destruct (0 <? GoString.len (Main.pasteboard w2))%Z; [|done].
      apply addClip_skips. right. simpl. done. }
    split; [done|]. rewrite H32.
    assert (Main.getClips w2 = Main.getClips w1) as -> by done.
    split; [done|].
    destruct (decide (x = Main.lastContent (Main.clipManager w))) as [Hlast|Hlast].
    + assert (w1 = w) as ->.
      { apply addClip_skips. right. by rewrite Htrim. }
      split; [|done]. intros Hnd. split.
      * intros Hone. right.
        destruct (decide (x ∈ Main.getClips w)) as [Hin|Hout]; [done|].
        by rewrite (filter_absent x _ Hout) in Hone.
      * intros [Hno|Hin]; [done|]. by apply filter_present.
    + destruct (addClip_stores w x) as [Hc _]; [by rewrite Htrim..|].
      unfold w1. rewrite Hc, Htrim.
      change (take Main.maxClips (x :: Main.removeExisting x (Main.getClips w)))
        with (x :: take 4 (Main.removeExisting x (Main.getClips w))).
      split; [|done].
      intros Hnd. split; [by left|]. intros _.
      rewrite filter_cons_True by done. simpl. f_equal.
      rewrite filter_absent; [done|].
      intros Hin%subseteq_take. by apply (removeExisting_gone x (Main.getClips w)).
Qed.

Lemma C4_last_content_witness :
  Main.addClip (Main.setClip (HistorySpec.emptyStore "" "" ∅ "") "x") " x"
  = Main.setClip (HistorySpec.emptyStore "" "" ∅ "") "x"
  ∧ Main.getClips
      (Main.monitorTick
         (Main.setClip (Main.addClip (HistorySpec.emptyStore "" "" ∅ "") "x") "x"))
    = ["x"]
  ∧ length
      (filter (λ e, e = "x")
         (Main.getClips
            (Main.monitorTick
               (Main.setClip
                  (Main.addClip (HistorySpec.emptyStore "" "" ∅ "") "x") "x"))))
    = 1%nat.
Proof.
  pose proof (C4_last_content_suppresses_reinsertion
                (Main.setClip (HistorySpec.emptyStore "" "" ∅ "") "x") " x" "x")
    as [H1 _].
  pose proof (C4_last_content_suppresses_reinsertion
                (HistorySpec.emptyStore "" "" ∅ "") "x" "x") as [_ H2].
  assert (HistorySpec.entry "x") as Hentry.
  { apply (bool_decide_unpack _). vm_compute. exact I. }
  destruct (H2 Hentry) as (_ & Hclips & Hone & _).
  split; [|split].
  - apply H1. vm_compute. reflexivity.
  - rewrite Hclips. vm_compute. reflexivity.
  - apply Hone.
    + apply (bool_decide_unpack _). vm_compute. exact I.
    + left. apply (bool_decide_unpack _). vm_compute. exact I.
Defined.

(** The scenario of the claim does not leave [x] exactly once in every
    store state.  After an insert of "x" and a click on "Clear History"
    the store has no entry and "x" as [lastContent]: insert, copy-back and
    tick leave no "x".  From a data file that holds "x" twice the store
    starts with two entries "x": the insert removes the first only, and
    insert, copy-back and tick leave "x" twice. *)
Lemma C4_counterexample_none_or_twice :
  length
    (filter (λ e, e = "x")
       (Main.getClips
          (Main.monitorTick
             (Main.setClip
                (Main.addClip
                   (Main.clearHistory
                      (Main.addClip (HistorySpec.emptyStore "" "" ∅ "") "x"))
                   "x")
                "x"))))
  = 0%nat
  ∧ Main.getClips
      (Main.monitorTick
         (Main.setClip
            (Main.addClip
               (Main.start ""
                  {[ ".multiclip.json"
                     := "[" +:+ JsonText.quote "x" +:+ ","
                            +:+ JsonText.quote "x" +:+ "]" ]}
                  "")
               "x")
            "x"))
    = ["x"; "x"]
  ∧ length
      (filter (λ e, e = "x")
         (Main.getClips
            (Main.monitorTick
               (Main.setClip
                  (Main.addClip
                     (Main.start ""
                        {[ ".multiclip.json"
                           := "[" +:+ JsonText.quote "x" +:+ ","
                                  +:+ JsonText.quote "x" +:+ "]" ]}
                        "")
                     "x")
                  "x"))))
    = 2%nat.
Proof. split; [|split]; by vm_compute. Qed.

(** ** C7 *)

(** C7. In [src/main.go], the "Clear History" handler leaves no entry, so
    the snapshot that follows is empty, and it leaves [lastContent] as it
    was; an insert after it of a text whose trimmed form is neither empty
    nor [lastContent] stores that text: it is the only entry and the new
    [lastContent]. *)
Theorem C7_clear_empties_and_keeps_last_content :
  ∀ (w : Main.World) (text : string),
    Main.getClips (Main.clearHistory w) = []
    ∧ Main.lastContent (Main.clipManager (Main.clearHistory w))
      = Main.lastContent (Main.clipManager w)
    ∧ (gostrings.TrimSpace text ≠ "" →
       gostrings.TrimSpace text ≠ Main.lastContent (Main.clipManager w) →
       Main.getClips (Main.addClip (Main.clearHistory w) text)
       = [gostrings.TrimSpace text]
       ∧ Main.lastContent (Main.clipManager (Main.addClip (Main.clearHistory w) text))
         = gostrings.TrimSpace text).
Proof.
  intros w text. split; [done|]. split; [done|].
  intros Hne Hlast.
  destruct (addClip_stores (Main.clearHistory w) text Hne Hlast) as [-> ->].
  done.
Qed.

Lemma C7_clear_witness :
  Main.getClips
    (Main.addClip
       (Main.clearHistory
          (foldl Main.addClip (HistorySpec.emptyStore "" "" ∅ "") ["a"; "b"]))
       " c ")
  = ["c"].
Proof.
  refine (proj1 (proj2 (proj2 (C7_clear_empties_and_keeps_last_content
           (foldl Main.addClip (HistorySpec.emptyStore "" "" ∅ "") ["a"; "b"])
           " c ")) _ _)).
  - vm_compute. discriminate.
  - vm_compute. discriminate.
Defined.

(** ** C5: eviction *)

Lemma removeExisting_app_absent (content : string) (l1 l2 : list string) :
  content ∉ l1 →
  Main.removeExisting content (l1 ++ l2) = l1 ++ Main.removeExisting content l2.
Proof.
  intros Hnot. unfold Main.removeExisting.
  assert (list_find (λ clip, clip = content) l1 = None) as Hnone.
  { apply list_find_None, Forall_forall. intros y Hy ->. done. }
  rewrite (list_find_app_r _ _ _ Hnone).
  destruct (list_find _ l2) as [[i x]|]; simpl; [|done].
  replace (i + length l1)%nat with (length l1 + i)%nat by lia.
  rewrite take_app_add, <- app_assoc. f_equal. f_equal.
  replace (S (length l1 + i)) with (length l1 + S i)%nat by lia.
  by rewrite drop_app_add.
Qed.

(** After a run of inserts of entries that differ from one another and from
    [lastContent], the most recent ones lead the history, most recent
    first. *)
Lemma addClip_run (texts : list string) (w : Main.World) :
  NoDup texts →
  Forall HistorySpec.entry texts →
  Main.lastContent (Main.clipManager w) ∉ texts →
  let w' := foldl Main.addClip w texts in
  (∃ R, Main.getClips w' = take Main.maxClips (reverse texts) ++ R)
  ∧ (texts ≠ [] → length (Main.getClips w') ≤ Main.maxClips)%nat
  ∧ (Main.lastContent (Main.clipManager w') = Main.lastContent (Main.clipManager w)
     ∨ Main.lastContent (Main.clipManager w') ∈ texts).
Proof.
  induction texts as [|t ts IH] using rev_ind; intros Hnd Hent Hlast w'.
  { split; [by exists (Main.getClips w)|]. split; [done|by left]. }
  apply NoDup_app in Hnd as (Hnd & Hdisj & _).
  apply Forall_app in Hent as [Hent Ht].
  apply Forall_singleton in Ht as [Hne Htrim].
  apply not_elem_of_app in Hlast as [Hlast Hlast'].
  apply not_elem_of_cons in Hlast' as [Hlast' _].
  destruct (IH Hnd Hent Hlast) as ([R HR] & _ & Hl).
  unfold w'. rewrite foldl_snoc.
  set (w1 := foldl Main.addClip w ts) in *.
  assert (t ∉ ts) as Hts by (intros Hin; apply (Hdisj t Hin); left).
  assert (gostrings.TrimSpace t ≠ Main.lastContent (Main.clipManager w1)) as Hl1.
  { rewrite Htrim. destruct Hl as [Hl | Hin]; [rewrite Hl; congruence|].
    intros ->. done. }
  destruct (addClip_stores w1 t) as [Hc Hlc]; [by rewrite Htrim|done|].
  rewrite Htrim in Hc, Hlc.
  split; [|split].
  - rewrite Hc, HR, reverse_snoc.
    rewrite removeExisting_app_absent.
    2:{ intros Hin. apply subseteq_take in Hin.
        rewrite elem_of_reverse in Hin. done. }
    exists (take (4 - length (take Main.maxClips (reverse ts)))
                 (Main.removeExisting t R)).
    change Main.maxClips with 5%nat.
    change (take 5 (t :: ?l)) with (t :: take 4 l).
    rewrite take_app, take_take. done.
  - intros _. rewrite Hc, length_take. lia.
  - right. rewrite Hlc. apply elem_of_app. right. left.
Qed.

(** C5. In [src/main.go], after more than 5 inserts of entries (trimmed, not
    empty) that differ from one another, the history is the last 5 of them,
    most recent first, whatever the store held before; "a" to "f" gives
    ["f"; "e"; "d"; "c"; "b"]. *)
Theorem C5_keeps_the_five_most_recent :
  ∀ (w : Main.World) (texts : list string),
    (5 < length texts)%nat →
    NoDup texts →
    Forall HistorySpec.entry texts →
    Main.getClips (foldl Main.addClip w texts) = take 5 (reverse texts)
    ∧ Main.getClips
        (foldl Main.addClip (HistorySpec.emptyStore "" "" ∅ "")
               ["a"; "b"; "c"; "d"; "e"; "f"])
      = ["f"; "e"; "d"; "c"; "b"].
Proof.
  intros w texts Hlen Hnd Hent. split; [|by vm_compute].
  destruct texts as [|t ts]; [simpl in Hlen; lia|].
  apply NoDup_cons in Hnd as [Ht Hnd].
  apply Forall_cons in Hent as [[Hne Htrim] Hent].
  simpl in Hlen. simpl foldl.
  assert (Main.lastContent (Main.clipManager (Main.addClip w t)) = t) as Hlast.
  { destruct (addClip_cases w t) as [Heq | (_ & Hl & _)].
    - rewrite Heq. unfold Main.addClip in Heq. rewrite Htrim in Heq.
      case_decide as Hd; [destruct Hd; congruence|].
      exfalso. apply (f_equal (λ x, Main.lastContent (Main.clipManager x))) in Heq.
      simpl in Heq. tauto.
    - by rewrite Hl. }
  destruct (addClip_run ts (Main.addClip w t)) as ([R HR] & Hb & _);
    [done | done | by rewrite Hlast |].
  assert (ts ≠ []) as Hts by (intros ->; simpl in Hlen; lia).
  specialize (Hb Hts). rewrite HR in Hb |- *.
  rewrite length_app, length_take, length_reverse in Hb.
  unfold Main.maxClips in *.
  assert (R = []) as -> by (apply length_zero_iff_nil; lia).
  rewrite app_nil_r, reverse_cons.
  rewrite take_app_le by (rewrite length_reverse; lia). done.
Qed.

Lemma C5_keeps_the_five_most_recent_witness :
  Main.getClips
    (foldl Main.addClip
           (foldl Main.addClip (HistorySpec.emptyStore "" "" ∅ "") ["x"; "y"])
           ["a"; "b"; "c"; "d"; "e"; "f"; "g"])
  = ["g"; "f"; "e"; "d"; "c"].
Proof.
  refine (proj1 (C5_keeps_the_five_most_recent
           (foldl Main.addClip (HistorySpec.emptyStore "" "" ∅ "") ["x"; "y"])
           ["a"; "b"; "c"; "d"; "e"; "f"; "g"] _ _ _)).
  - simpl. lia.
  - apply (bool_decide_unpack _). vm_compute. exact I.
  - apply (bool_decide_unpack _). vm_compute. exact I.
Defined.

(** ** C8: white space *)

Lemma byteZ_range (c : ascii) : (0 ≤ GoString.byteZ c < 256)%Z.
Proof. destruct c as [[] [] [] [] [] [] [] []]; vm_compute; split; congruence. Qed.

Lemma DecodeRuneInString_ascii (c : ascii) (r : string) :
  (GoString.byteZ c < utf8.RuneSelf)%Z →
  utf8.DecodeRuneInString (String c r) = (GoString.byteZ c, 1%nat).
Proof.
  destruct c as [[] [] [] [] [] [] [] []]; intros H;
    try (vm_compute in H; discriminate H); reflexivity.
Qed.

Lemma IsSpace_ascii (b : Z) :
  (0 ≤ b < utf8.RuneSelf)%Z → unicode.IsSpace b = gostrings.asciiSpace b.
Proof.
  intros H. unfold unicode.IsSpace, gostrings.asciiSpace, unicode.MaxLatin1,
    utf8.RuneSelf in *.
  replace ((0 <=? b) && (b <=? 255))%Z with true
    by (symmetry; apply andb_true_iff; lia).
  replace (b =? 133)%Z with false by lia.
  replace (b =? 160)%Z with false by lia.
  by rewrite !orb_false_r.
Qed.

Lemma indexFuncFrom_all (f : Z → bool) (fuel : nat) (s : string) (i : Z) :
  Forall (λ r, f r = true) (HistorySpec.runesFrom fuel s) →
  gostrings.indexFuncFrom fuel s i f false = (-1)%Z.
Proof.
  revert s i. induction fuel as [|fuel IH]; intros s i Hall; [done|].
  cbn [HistorySpec.runesFrom gostrings.indexFuncFrom] in *.
  destruct s as [|c s]; [done|].
  destruct (utf8.DecodeRuneInString (String c s)) as [r size].
  apply Forall_cons in Hall as [Hr Hall].
  rewrite Hr. simpl. by apply IH.
Qed.

Lemma TrimSpace_onlySpace (s : string) :
  HistorySpec.onlySpace s → gostrings.TrimSpace s = "".
Proof.
  induction s as [|c s IH]; intros Hall; [done|].
  cbn [gostrings.TrimSpace].
  destruct (GoString.byteZ c >=? utf8.RuneSelf)%Z eqn:Hc.
  - unfold gostrings.TrimFunc, gostrings.TrimLeftFunc, gostrings.indexFunc.
    rewrite (indexFuncFrom_all _ _ _ _ Hall). reflexivity.
  - assert (GoString.byteZ c < utf8.RuneSelf)%Z as Hlt by lia.
    unfold HistorySpec.onlySpace, HistorySpec.runes in Hall.
    cbn [String.length HistorySpec.runesFrom] in Hall.
    rewrite (DecodeRuneInString_ascii c s Hlt) in Hall.
    apply Forall_cons in Hall as [Hsp Hall].
    rewrite IsSpace_ascii in Hsp by (pose proof (byteZ_range c); lia).
    rewrite Hsp. by apply IH.
Qed.

(** C8. An insert of a text that is empty or holds white space only changes
    nothing: in [src/main.go] entries, [lastContent], data file and
    clipboard stay as they are; in [src/multiclip/src/main.go] the history
    stays as it is. *)
Theorem C8_blank_text_is_not_stored :
  ∀ (w : Main.World) (cm : Multiclip.ClipboardManager) (text : string),
    HistorySpec.onlySpace text →
    Main.addClip w text = w ∧ Multiclip.AddItem cm text = cm.
Proof.
  intros w cm text Hsp. apply TrimSpace_onlySpace in Hsp. split.
  - apply addClip_skips. by left.
  - unfold Multiclip.AddItem. rewrite decide_True; [done|by left].
Qed.

Lemma C8_blank_text_witness :
  Main.addClip (HistorySpec.emptyStore "" "" ∅ "") HistorySpec.blankSample
  = HistorySpec.emptyStore "" "" ∅ ""
  ∧ Multiclip.AddItem Multiclip.NewClipboardManager "   "
    = Multiclip.NewClipboardManager.
Proof.
  split.
  - refine (proj1 (C8_blank_text_is_not_stored
             (HistorySpec.emptyStore "" "" ∅ "") Multiclip.NewClipboardManager
             HistorySpec.blankSample _)).
    vm_compute. repeat constructor.
  - refine (proj2 (C8_blank_text_is_not_stored
             (HistorySpec.emptyStore "" "" ∅ "") Multiclip.NewClipboardManager
             "   " _)).
    vm_compute. repeat constructor.
Defined.

(** ** Slices: reading after allocating and writing *)

Lemma cells_alloc (h : list (list string)) (arr : list string) (a : nat) :
  (a < length h)%nat → Slices.cells (h ++ [arr]) a = Slices.cells h a.
Proof. intros Ha. unfold Slices.cells. by rewrite lookup_app_l. Qed.

Lemma cells_alloc_new (h : list (list string)) (arr : list string) :
  Slices.cells (h ++ [arr]) (length h) = arr.
Proof. unfold Slices.cells. by rewrite list_lookup_middle. Qed.

Lemma valid_alloc (h : list (list string)) (arr : list string) (s : Slices.slice) :
  Slices.valid h s →
  Slices.valid (h ++ [arr]) s ∧ Slices.elems (h ++ [arr]) s = Slices.elems h s.
Proof.
  intros (H1 & H2 & H3). unfold Slices.valid, Slices.elems.
  rewrite cells_alloc, length_app by done. simpl. repeat split; [done..|lia].
Qed.

Lemma cells_store (h : list (list string)) (a pos : nat) (xs : list string) (b : nat) :
  (a < length h)%nat →
  Slices.cells (Slices.store h a pos xs) b
  = if decide (a = b)
    then take pos (Slices.cells h a) ++ xs
           ++ drop (pos + length xs) (Slices.cells h a)
    else Slices.cells h b.
Proof.
  intros Ha. unfold Slices.store, Slices.cells at 1.
  case_decide as Hab.
  - subst b. by rewrite list_lookup_insert_eq.
  - by rewrite list_lookup_insert_ne.
Qed.

Lemma length_store (h : list (list string)) (a pos : nat) (xs : list string) :
  length (Slices.store h a pos xs) = length h.
Proof. unfold Slices.store. apply length_insert. Qed.

Lemma elems_length (h : list (list string)) (s : Slices.slice) :
  Slices.valid h s → length (Slices.elems h s) = Slices.len s.
Proof.
  intros (H1 & H2 & _). unfold Slices.elems.
  rewrite length_take, length_drop. lia.
Qed.

(** Writing [xs] right after the window of [s], within its capacity. *)
Lemma elems_store_after (h : list (list string)) (s : Slices.slice) (xs : list string) :
  Slices.valid h s →
  (Slices.len s + length xs ≤ Slices.cap s)%nat →
  take (Slices.len s + length xs)
       (drop (Slices.offset s)
             (Slices.cells
                (Slices.store h (Slices.array s)
                              (Slices.offset s + Slices.len s) xs)
                (Slices.array s)))
  = Slices.elems h s ++ xs.
Proof.
  intros (H1 & H2 & H3) Hfit.
  rewrite cells_store, decide_True by done.
  set (arr := Slices.cells h (Slices.array s)) in *.
  rewrite drop_app_le by (rewrite length_take; lia).
  rewrite <- take_drop_commute.
  rewrite take_app_add'.
  2:{ rewrite length_take, length_drop. lia. }
  by rewrite take_app_length.
Qed.

Section SliceFacts.
Variable growCap : nat → nat → nat.
Hypothesis growCap_fits : ∀ old need, (need ≤ growCap old need)%nat.

(** [append] yields a valid slice that reads as the old elements followed
    by the new ones, and never shrinks the heap. *)
Lemma append_elems (h : list (list string)) (s : Slices.slice) (xs : list string) :
  Slices.valid h s →
  let '(h', s') := Slices.append growCap h s xs in
  Slices.valid h' s'
  ∧ Slices.elems h' s' = Slices.elems h s ++ xs
  ∧ (length h ≤ length h')%nat.
Proof.
  intros Hv. pose proof Hv as (H1 & H2 & H3). unfold Slices.append.
  case_decide as Hfit.
  - split; [|split].
    + unfold Slices.valid. cbn [Slices.len Slices.cap Slices.offset Slices.array].
      rewrite length_store, cells_store, decide_True by done.
      rewrite !length_app, length_take, length_drop. lia.
    + unfold Slices.elems at 1.
      cbn [Slices.len Slices.cap Slices.offset Slices.array].
      by apply elems_store_after.
    + by rewrite length_store.
  - unfold Slices.alloc. split; [|split].
    + unfold Slices.valid. cbn [Slices.len Slices.cap Slices.offset Slices.array].
      rewrite cells_alloc_new, !length_app, length_replicate.
      rewrite elems_length by done. simpl.
      pose proof (growCap_fits (Slices.cap s) (Slices.len s + length xs)). lia.
    + unfold Slices.elems at 1.
      cbn [Slices.len Slices.cap Slices.offset Slices.array].
      rewrite cells_alloc_new, drop_0, app_assoc.
      apply take_app_length'. rewrite length_app, elems_length by done. lia.
    + rewrite length_app. lia.
Qed.

(** A slice over another array is not touched by [append]. *)
Lemma append_frame (h : list (list string)) (s t : Slices.slice) (xs : list string) :
  Slices.valid h s → Slices.valid h t →
  Slices.array t ≠ Slices.array s →
  let '(h', _) := Slices.append growCap h s xs in
  Slices.valid h' t ∧ Slices.elems h' t = Slices.elems h t.
Proof.
  intros (H1 & H2 & H3) Ht Hne. unfold Slices.append.
  case_decide as Hfit.
  - pose proof Ht as (T1 & T2 & T3).
    unfold Slices.valid, Slices.elems.
    rewrite length_store, cells_store, decide_False by done. done.
  - by apply valid_alloc.
Qed.

Lemma literal_elems (h : list (list string)) (xs : list string) :
  let '(h', s) := Slices.literal h xs in
  h' = h ++ [xs]
  ∧ Slices.valid h' s
  ∧ Slices.elems h' s = xs
  ∧ Slices.array s = length h.
Proof.
  unfold Slices.literal, Slices.alloc, Slices.valid, Slices.elems.
  cbn [Slices.len Slices.cap Slices.offset Slices.array].
  rewrite cells_alloc_new, length_app, drop_0, firstn_all. simpl.
  repeat split; lia.
Qed.

Lemma reslice_prefix (h : list (list string)) (s : Slices.slice) (j : nat) :
  Slices.valid h s → (j ≤ Slices.len s)%nat →
  Slices.valid h (Slices.reslice s 0 j)
  ∧ Slices.elems h (Slices.reslice s 0 j) = take j (Slices.elems h s).
Proof.
  intros (H1 & H2 & H3) Hj. unfold Slices.valid, Slices.elems, Slices.reslice.
  cbn [Slices.len Slices.cap Slices.offset Slices.array].
  rewrite Nat.add_0_r, !Nat.sub_0_r, take_take.
  replace (j `min` Slices.len s)%nat with j by lia.
  repeat split; lia.
Qed.

Lemma reslice_suffix (h : list (list string)) (s : Slices.slice) (i : nat) :
  Slices.valid h s →
  Slices.elems h (Slices.reslice s i (Slices.len s)) = drop i (Slices.elems h s).
Proof.
  intros (H1 & H2 & H3). unfold Slices.elems, Slices.reslice.
  cbn [Slices.len Slices.cap Slices.offset Slices.array].
  rewrite skipn_firstn_comm, drop_drop. done.
Qed.

End SliceFacts.

(** ** [src/main.go]: the slice-level program refines the sequence-level one *)

Section MainRefinement.
Variable growCap : nat → nat → nat.
Hypothesis growCap_fits : ∀ old need, (need ≤ growCap old need)%nat.

(** The loop of [addClip] on slices: afterwards [cm.clips] reads as the
    old entries with the first occurrence of [content] removed. *)
Lemma removal_refines (h : list (list string)) (s : Slices.slice) (content : string) :
  Slices.valid h s →
  let '(h1, s1) :=
    match list_find (λ clip, clip = content) (Slices.elems h s) with
    | Some (i, _) =>
      Slices.append growCap h (Slices.reslice s 0 i)
        (Slices.elems h (Slices.reslice s (S i) (Slices.len s)))
    | None => (h, s)
    end in
  Slices.valid h1 s1
  ∧ Slices.elems h1 s1 = Main.removeExisting content (Slices.elems h s)
  ∧ length h1 = length h
  ∧ Slices.array s1 = Slices.array s.
Proof.
  intros Hv. unfold Main.removeExisting.
  destruct (list_find _ (Slices.elems h s)) as [[i x]|] eqn:Hfind; [|done].
  apply list_find_Some in Hfind as (Hi & _ & _).
  apply lookup_lt_Some in Hi. rewrite elems_length in Hi by done.
  destruct (reslice_prefix h s i Hv) as [Hvp Hep]; [lia|].
  rewrite reslice_suffix by done.
  pose proof (append_elems growCap growCap_fits h (Slices.reslice s 0 i)
                (drop (S i) (Slices.elems h s)) Hvp) as Happ.
  unfold Slices.append in *.
  rewrite decide_True in *.
  2,3: cbn [Slices.reslice Slices.len Slices.cap];
       rewrite length_drop, elems_length by done;
       destruct Hv as (? & _); lia.
  destruct Happ as (Hv1 & He1 & _).
  split; [done|]. split; [by rewrite He1, Hep|].
  split; [apply length_store|done].
Qed.

Lemma addClip_refines (w : MainSlices.World) (content : string) :
  MainSlices.wf w →
  MainSlices.wf (MainSlices.addClip growCap w content)
  ∧ MainSlices.abstract (MainSlices.addClip growCap w content)
    = Main.addClip (MainSlices.abstract w) content.
Proof.
  intros Hwf. unfold MainSlices.addClip, Main.addClip.
  cbn [MainSlices.abstract Main.clipManager Main.lastContent Main.clips
       Main.dataFile Main.files Main.pasteboard].
  case_decide as Hskip; [done|].
  pose proof (removal_refines (MainSlices.heap_ w)
                (MainSlices.clips (MainSlices.clipManager w))
                (gostrings.TrimSpace content) Hwf) as Hrem.
  destruct (match list_find _ _ with Some _ => _ | None => _ end)
    as [h1 clips1].
  destruct Hrem as (Hv1 & He1 & Hl1 & Ha1).
  pose proof (literal_elems h1 [gostrings.TrimSpace content]) as Hlit.
  destruct (Slices.literal h1 [gostrings.TrimSpace content]) as [h2 front].
  destruct Hlit as (-> & Hvf & Hef & Haf).
  destruct (valid_alloc h1 [gostrings.TrimSpace content] clips1 Hv1) as [Hv2 He2].
  rewrite He2.
  pose proof (append_elems growCap growCap_fits _ front (Slices.elems h1 clips1) Hvf)
    as Happ.
  destruct (Slices.append growCap _ front (Slices.elems h1 clips1)) as [h3 clips2].
  destruct Happ as (Hv3 & He3 & _).
  rewrite Hef, He1 in He3.
  pose proof (elems_length _ _ Hv3) as Hlen3. rewrite He3 in Hlen3.
  assert (Slices.valid h3
            (if decide (Main.maxClips < Slices.len clips2)%nat
             then Slices.reslice clips2 0 Main.maxClips else clips2)
          ∧ Slices.elems h3
              (if decide (Main.maxClips < Slices.len clips2)%nat
               then Slices.reslice clips2 0 Main.maxClips else clips2)
            = (if decide (Main.maxClips
                          < length ([gostrings.TrimSpace content]
                                    ++ Main.removeExisting
                                         (gostrings.TrimSpace content)
                                         (Slices.elems (MainSlices.heap_ w)
                                            (MainSlices.clips
                                               (MainSlices.clipManager w)))))%nat
               then take Main.maxClips
                      ([gostrings.TrimSpace content]
                         ++ Main.removeExisting (gostrings.TrimSpace content)
                              (Slices.elems (MainSlices.heap_ w)
                                 (MainSlices.clips (MainSlices.clipManager w))))
               else [gostrings.TrimSpace content]
                      ++ Main.removeExisting (gostrings.TrimSpace content)
                           (Slices.elems (MainSlices.heap_ w)
                              (MainSlices.clips (MainSlices.clipManager w)))))
    as [Hv4 He4].
  { rewrite Hlen3. case_decide as Hcut; [|done].
    destruct (reslice_prefix h3 clips2 Main.maxClips Hv3) as [? ->]; [lia|].
    by rewrite He3. }
  split; [exact Hv4|].
  unfold MainSlices.abstract, MainSlices.saveClips, Main.saveClips.
  cbn [MainSlices.heap_ MainSlices.clipManager MainSlices.clips
       MainSlices.lastContent MainSlices.dataFile MainSlices.files
       MainSlices.pasteboard Main.clips Main.dataFile].
  by rewrite He4.
Qed.

Lemma clearHistory_refines (w : MainSlices.World) :
  MainSlices.wf (MainSlices.clearHistory w)
  ∧ MainSlices.abstract (MainSlices.clearHistory w)
    = Main.clearHistory (MainSlices.abstract w).
Proof.
  unfold MainSlices.clearHistory, Main.clearHistory, MainSlices.wf.
  pose proof (literal_elems (MainSlices.heap_ w) []) as Hlit.
  destruct (Slices.literal (MainSlices.heap_ w) []) as [h1 s].
  destruct Hlit as (_ & Hv & He & _).
  split; [done|].
  unfold MainSlices.abstract, MainSlices.saveClips, Main.saveClips.
  cbn. by rewrite He.
Qed.

Lemma setClip_refines (w : MainSlices.World) (content : string) :
  MainSlices.wf w →
  MainSlices.wf (MainSlices.setClip w content)
  ∧ MainSlices.abstract (MainSlices.setClip w content)
    = Main.setClip (MainSlices.abstract w) content.
Proof. done. Qed.

End MainRefinement.

(** ** What an earlier slice value reads after a removal in place *)

Lemma shift_canonical (A L1 L2 B : list string) (x : string) :
  take (length L1 + S (length L2))
       (drop (length A)
             (take (length A + length L1) (A ++ (L1 ++ x :: L2) ++ B)
                ++ L2
                ++ drop (length A + length L1 + length L2)
                        (A ++ (L1 ++ x :: L2) ++ B)))
  = (L1 ++ L2) ++ drop (length L2) (x :: L2).
Proof.
  rewrite take_app_add, take_app3_length.
  rewrite <- Nat.add_assoc, drop_app_add.
  rewrite <- (app_assoc L1), drop_app_add.
  rewrite (drop_app_le (x :: L2)) by (simpl; lia).
  rewrite <- (app_assoc A), drop_app_length.
  rewrite !app_assoc. apply take_app_length'.
  rewrite !length_app, length_drop. simpl. lia.
Qed.

Lemma shift_reads (arr : list string) (off len i : nat) (x : string) :
  (off + len ≤ length arr)%nat →
  take len (drop off arr) !! i = Some x →
  take len
    (drop off
       (take (off + i) arr
          ++ drop (S i) (take len (drop off arr))
          ++ drop (off + i + length (drop (S i) (take len (drop off arr)))) arr))
  = delete i (take len (drop off arr)) ++ drop (len - 1) (take len (drop off arr)).
Proof.
  intros Hlen Hi.
  assert (arr = take off arr ++ take len (drop off arr) ++ drop len (drop off arr))
    as Harr by (by rewrite !take_drop).
  assert (length (take off arr) = off) as HA by (rewrite length_take; lia).
  assert (length (take len (drop off arr)) = len) as Hl
    by (rewrite length_take, length_drop; lia).
  revert Harr HA Hl Hi.
  generalize (take off arr) (take len (drop off arr)) (drop len (drop off arr)).
  intros A l B -> <- <- Hi.
  pose proof (take_drop_middle l i x Hi) as Hsplit.
  assert (length (take i l) = i) as HL1.
  { apply lookup_lt_Some in Hi. rewrite length_take. lia. }
  revert Hsplit HL1. generalize (take i l) (drop (S i) l).
  intros L1 L2 <- <-.
  rewrite delete_middle.
  replace (length (L1 ++ x :: L2) - 1)%nat with (length L1 + length L2)%nat
    by (rewrite length_app; simpl; lia).
  rewrite drop_app_add.
  replace (length (L1 ++ x :: L2)) with (length L1 + S (length L2))%nat
    by (rewrite length_app; simpl; lia).
  apply shift_canonical.
Qed.

Section MainAliasing.
Variable growCap : nat → nat → nat.
Hypothesis growCap_fits : ∀ old need, (need ≤ growCap old need)%nat.

(** [append] leaves the cells of every other allocated array alone. *)
Lemma append_cells_other (h : list (list string)) (s : Slices.slice)
      (xs : list string) (b : nat) :
  (Slices.array s < length h)%nat → (b < length h)%nat → b ≠ Slices.array s →
  Slices.cells (fst (Slices.append growCap h s xs)) b = Slices.cells h b.
Proof.
  intros Hs Hb Hne. unfold Slices.append. case_decide.
  - simpl. rewrite cells_store, decide_False by done. done.
  - simpl. by apply cells_alloc.
Qed.

Lemma start_refines (homeDir paste : string) (fs : gmap string string) :
  MainSlices.wf (MainSlices.start growCap homeDir fs paste)
  ∧ MainSlices.abstract (MainSlices.start growCap homeDir fs paste)
    = Main.start homeDir fs paste.
Proof.
  unfold MainSlices.start, MainSlices.NewClipboardManager, Main.start,
    Main.NewClipboardManager, MainSlices.loadClips, Main.loadClips,
    MainSlices.wf.
  cbn [Slices.make Slices.alloc MainSlices.dataFile MainSlices.clips
       MainSlices.lastContent Main.dataFile Main.clips Main.lastContent].
  change (length (@nil (list string))) with 0%nat.
  destruct (fs !! _) as [data|].
  - set (s := {| Slices.array := 0; Slices.offset := 0;
                 Slices.len := 0; Slices.cap := Main.maxClips |}).
    set (h := [] ++ [replicate Main.maxClips EmptyString]).
    assert (Slices.valid h s) as Hv by (apply (bool_decide_unpack _); by vm_compute).
    destruct (reslice_prefix h s 0 Hv) as [Hvp Hep]; [done|].
    pose proof (append_elems growCap growCap_fits h (Slices.reslice s 0 0)
                  (json.Unmarshal data (Slices.elems h s)).1 Hvp) as Happ.
    destruct (Slices.append growCap h (Slices.reslice s 0 0) _) as [h' s'].
    destruct Happ as (Hv' & He' & _).
    split; [exact Hv'|]. unfold MainSlices.abstract.
    cbn [MainSlices.heap_ MainSlices.clipManager MainSlices.clips
         MainSlices.lastContent MainSlices.dataFile MainSlices.files
         MainSlices.pasteboard].
    rewrite He', Hep. done.
  - split; [apply (bool_decide_unpack _); by vm_compute|done].
Qed.

(** What a slice value returned by [getClips] reads after [addClip] has
    moved the entry at index [i] to the front: the removal shifted the
    entries after [i] down in the shared array, and the last cell kept its
    value. *)
Lemma getClips_after_promotion (w : MainSlices.World) (text : string)
      (i : nat) (x : string) :
  MainSlices.wf w →
  gostrings.TrimSpace text ≠ "" →
  gostrings.TrimSpace text
  ≠ MainSlices.lastContent (MainSlices.clipManager w) →
  list_find (λ clip, clip = gostrings.TrimSpace text)
            (Slices.elems (MainSlices.heap_ w) (MainSlices.getClips w))
  = Some (i, x) →
  Slices.elems (MainSlices.heap_ (MainSlices.addClip growCap w text))
               (MainSlices.getClips w)
  = delete i (Slices.elems (MainSlices.heap_ w) (MainSlices.getClips w))
      ++ drop (Slices.len (MainSlices.getClips w) - 1)
              (Slices.elems (MainSlices.heap_ w) (MainSlices.getClips w)).
Proof.
  intros Hwf Hne Hlast Hfind.
  unfold MainSlices.addClip, MainSlices.getClips in *.
  rewrite decide_False by tauto.
  set (s := MainSlices.clips (MainSlices.clipManager w)) in *.
  set (h := MainSlices.heap_ w) in *.
  rewrite Hfind.
  pose proof Hwf as (H1 & H2 & H3). fold s h in H1, H2, H3.
  pose proof Hfind as (Hi & _ & _)%list_find_Some.
  pose proof (lookup_lt_Some _ _ _ Hi) as Hilt.
  rewrite elems_length in Hilt by done.
  rewrite reslice_suffix by done.
  unfold Slices.append at 1.
  rewrite decide_True.
  2:{ cbn [Slices.reslice Slices.len Slices.cap].
      rewrite length_drop, elems_length by done. lia. }
  cbn [Slices.reslice Slices.len Slices.cap Slices.offset Slices.array].
  rewrite Nat.add_0_r, !Nat.sub_0_r.
  set (h1 := Slices.store h (Slices.array s) (Slices.offset s + i)
                          (drop (S i) (Slices.elems h s))).
  set (s1 := {| Slices.array := Slices.array s; Slices.offset := Slices.offset s;
                Slices.len := _; Slices.cap := Slices.cap s |}).
  pose proof (literal_elems h1 [gostrings.TrimSpace text]) as Hlit.
  destruct (Slices.literal h1 [gostrings.TrimSpace text]) as [h2 front].
  destruct Hlit as (-> & Hvf & _ & Haf).
  assert (length h1 = length h) as Hlen1 by apply length_store.
  pose proof (append_cells_other (h1 ++ [[gostrings.TrimSpace text]]) front
                (Slices.elems (h1 ++ [[gostrings.TrimSpace text]]) s1)
                (Slices.array s)) as Hcells.
  destruct (Slices.append growCap _ front _) as [h3 clips2].
  cbn [MainSlices.heap_]. simpl in Hcells.
  unfold Slices.elems at 1. rewrite Hcells.
  2:{ rewrite length_app, Haf. simpl. lia. }
  2:{ rewrite length_app. simpl. lia. }
  2:{ lia. }
  rewrite cells_alloc by lia.
  unfold h1. rewrite cells_store, decide_True by done.
  unfold Slices.elems. apply (shift_reads _ _ _ _ x); [lia|exact Hi].
Qed.

End MainAliasing.

Section Frames.
Variable growCap : nat → nat → nat.
Hypothesis growCap_fits : ∀ old need, (need ≤ growCap old need)%nat.

(** Prepending through a fresh one-element literal touches no slice that
    was valid before. *)
Lemma prepend_frame (h : list (list string)) (x : string) (xs : list string)
      (t : Slices.slice) :
  Slices.valid h t →
  let '(h1, front) := Slices.literal h [x] in
  let '(h2, s2) := Slices.append growCap h1 front xs in
  Slices.valid h2 t ∧ Slices.elems h2 t = Slices.elems h t
  ∧ Slices.valid h2 s2 ∧ Slices.elems h2 s2 = x :: xs.
Proof.
  intros Ht.
  pose proof (literal_elems h [x]) as Hlit.
  destruct (Slices.literal h [x]) as [h1 front].
  destruct Hlit as (-> & Hvf & Hef & Haf).
  destruct (valid_alloc h [x] t Ht) as [Ht1 Het1].
  pose proof (append_elems growCap growCap_fits _ front xs Hvf) as Happ.
  pose proof (append_frame growCap _ front t xs Hvf Ht1) as Hfr.
  destruct (Slices.append growCap _ front xs) as [h2 s2].
  destruct Happ as (Hv2 & He2 & _).
  destruct Hfr as [Hvt Het]; [destruct Ht as (_ & _ & ?); lia|].
  rewrite Het, Het1, He2, Hef. done.
Qed.

(** In [src/multiclip/src/main.go] no call of [AddItem] writes into an
    array that existed before the call. *)
Lemma AddItem_frame (w : MulticlipSlices.World) (text : string) (t : Slices.slice) :
  MulticlipSlices.wf w →
  Slices.valid (MulticlipSlices.heap_ w) t →
  MulticlipSlices.wf (MulticlipSlices.AddItem growCap w text)
  ∧ Slices.valid (MulticlipSlices.heap_ (MulticlipSlices.AddItem growCap w text)) t
  ∧ Slices.elems (MulticlipSlices.heap_ (MulticlipSlices.AddItem growCap w text)) t
    = Slices.elems (MulticlipSlices.heap_ w) t.
Proof.
  intros Hwf Ht. unfold MulticlipSlices.AddItem.
  case_decide; [done|]. case_decide; [done|].
  pose proof (prepend_frame (MulticlipSlices.heap_ w) (gostrings.TrimSpace text)
                (Slices.elems (MulticlipSlices.heap_ w)
                   (MulticlipSlices.history (MulticlipSlices.clipManager w)))
                t Ht) as Hp.
  pose proof (literal_elems (MulticlipSlices.heap_ w) [gostrings.TrimSpace text])
    as Hlit.
  destruct (Slices.literal _ [gostrings.TrimSpace text]) as [h1 front].
  destruct Hlit as (-> & _).
  destruct (valid_alloc (MulticlipSlices.heap_ w) [gostrings.TrimSpace text] _ Hwf)
    as [_ ->].
  destruct (Slices.append growCap _ front _) as [h2 s2].
  destruct Hp as (Hvt & Het & Hv2 & He2).
  unfold MulticlipSlices.wf.
  cbn [MulticlipSlices.heap_ MulticlipSlices.clipManager MulticlipSlices.history].
  split; [|done].
  case_decide; [|done].
  apply reslice_prefix; [done|lia].
Qed.

Lemma AddItem_refines (w : MulticlipSlices.World) (text : string) :
  MulticlipSlices.wf w →
  MulticlipSlices.abstract (MulticlipSlices.AddItem growCap w text)
  = Multiclip.AddItem (MulticlipSlices.abstract w) text.
Proof.
  intros Hwf. unfold MulticlipSlices.AddItem, Multiclip.AddItem.
  cbn [MulticlipSlices.abstract Multiclip.history Multiclip.maxSize].
  case_decide; [done|]. case_decide; [done|].
  pose proof (prepend_frame (MulticlipSlices.heap_ w) (gostrings.TrimSpace text)
                (Slices.elems (MulticlipSlices.heap_ w)
                   (MulticlipSlices.history (MulticlipSlices.clipManager w)))
                _ Hwf) as Hp.
  pose proof (literal_elems (MulticlipSlices.heap_ w) [gostrings.TrimSpace text])
    as Hlit.
  destruct (Slices.literal _ [gostrings.TrimSpace text]) as [h1 front].
  destruct Hlit as (-> & _).
  destruct (valid_alloc (MulticlipSlices.heap_ w) [gostrings.TrimSpace text] _ Hwf)
    as [_ ->].
  destruct (Slices.append growCap _ front _) as [h2 s2].
  destruct Hp as (_ & _ & Hv2 & He2).
  unfold MulticlipSlices.abstract.
  cbn [MulticlipSlices.heap_ MulticlipSlices.clipManager MulticlipSlices.history
       MulticlipSlices.maxSize].
  f_equal.
  pose proof (elems_length _ _ Hv2) as Hlen. rewrite He2 in Hlen.
  rewrite <- Hlen. simpl length.
  case_decide as Hcut; [|done].
  destruct (reslice_prefix h2 s2 (MulticlipSlices.maxSize (MulticlipSlices.clipManager w)) Hv2)
    as [_ ->]; [simpl in *; lia|].
  by rewrite He2.
Qed.

(** [GetHistory] returns a slice over an array of its own, holding the
    history of the moment. *)
Lemma GetHistory_copies (w : MulticlipSlices.World) :
  MulticlipSlices.wf w →
  let '(w1, snapshot) := MulticlipSlices.GetHistory w in
  MulticlipSlices.wf w1
  ∧ Slices.valid (MulticlipSlices.heap_ w1) snapshot
  ∧ Slices.elems (MulticlipSlices.heap_ w1) snapshot
    = Multiclip.GetHistory (MulticlipSlices.abstract w)
  ∧ MulticlipSlices.abstract w1 = MulticlipSlices.abstract w.
Proof.
  intros Hwf. unfold MulticlipSlices.GetHistory, Slices.make, Slices.alloc,
    Slices.copy, Multiclip.GetHistory, MulticlipSlices.abstract, MulticlipSlices.wf.
  cbn [MulticlipSlices.heap_ MulticlipSlices.clipManager MulticlipSlices.history
       Multiclip.history Slices.array Slices.offset Slices.len Slices.cap].
  set (h := MulticlipSlices.heap_ w) in *.
  set (s := MulticlipSlices.history (MulticlipSlices.clipManager w)) in *.
  set (n := Slices.len s).
  destruct (valid_alloc h (replicate n EmptyString) s Hwf) as [Hv1 He1].
  rewrite He1.
  assert (length (Slices.elems h s) = n) as Hn by by apply elems_length.
  rewrite (take_ge (Slices.elems h s) n) by (by rewrite Hn).
  set (h1 := h ++ [replicate n EmptyString]) in *.
  set (h2 := Slices.store h1 (length h) 0 (Slices.elems h s)).
  assert (length h1 = S (length h)) as Hlen1
    by (unfold h1; rewrite length_app; simpl; lia).
  assert (length h2 = S (length h)) as Hlen2
    by (unfold h2; by rewrite length_store).
  assert (Slices.array s < length h)%nat as Hs by (by destruct Hwf as (_ & _ & ?)).
  assert (Slices.cells h2 (length h) = Slices.elems h s) as Hnew.
  { unfold h2. rewrite cells_store, decide_True by (done || lia).
    unfold h1 at 1 2. rewrite cells_alloc_new, take_0, Nat.add_0_l, Hn.
    rewrite drop_ge by (by rewrite length_replicate).
    by rewrite app_nil_l, app_nil_r. }
  assert (Slices.cells h2 (Slices.array s) = Slices.cells h1 (Slices.array s))
    as Hold.
  { unfold h2. rewrite cells_store, decide_False by lia. done. }
  assert (Slices.elems h2 s = Slices.elems h s) as He2.
  { unfold Slices.elems at 1. rewrite Hold.
    fold (Slices.elems h1 s). done. }
  rewrite He2. split; [|split; [|split]]; [| | |done].
  - destruct Hv1 as (V1 & V2 & V3). unfold Slices.valid. rewrite Hold, Hlen2. lia.
  - unfold Slices.valid. cbn [Slices.array Slices.offset Slices.len Slices.cap].
    rewrite Hnew, Hn, Hlen2. lia.
  - unfold Slices.elems. cbn [Slices.array Slices.offset Slices.len Slices.cap].
    rewrite Hnew, drop_0. fold (Slices.elems h s). rewrite <- Hn. apply firstn_all.
Qed.

(** So the slice [GetHistory] returned reads the same after any number of
    later inserts. *)
Lemma GetHistory_independent (texts : list string) (w : MulticlipSlices.World)
      (t : Slices.slice) :
  MulticlipSlices.wf w →
  Slices.valid (MulticlipSlices.heap_ w) t →
  Slices.elems
    (MulticlipSlices.heap_ (foldl (MulticlipSlices.AddItem growCap) w texts)) t
  = Slices.elems (MulticlipSlices.heap_ w) t.
Proof.
  revert w. induction texts as [|x texts IH]; intros w Hwf Ht; [done|].
  simpl. destruct (AddItem_frame w x t Hwf Ht) as (Hwf' & Ht' & He').
  rewrite IH by done. done.
Qed.

End Frames.

Section MainFrames.
Variable growCap : nat → nat → nat.
Hypothesis growCap_fits : ∀ old need, (need ≤ growCap old need)%nat.

(** In [src/main.go] an insert that finds nothing to remove, and a clear,
    write into no array that existed before. *)
Lemma addClip_frame_when_absent (w : MainSlices.World) (text : string)
      (t : Slices.slice) :
  Slices.valid (MainSlices.heap_ w) t →
  gostrings.TrimSpace text
  ∉ Slices.elems (MainSlices.heap_ w) (MainSlices.getClips w) →
  Slices.elems (MainSlices.heap_ (MainSlices.addClip growCap w text)) t
  = Slices.elems (MainSlices.heap_ w) t.
Proof.
  intros Ht Habs. unfold MainSlices.addClip, MainSlices.getClips in *.
  case_decide; [done|].
  assert (list_find (λ clip, clip = gostrings.TrimSpace text)
            (Slices.elems (MainSlices.heap_ w)
               (MainSlices.clips (MainSlices.clipManager w))) = None) as ->.
  { apply list_find_None, Forall_forall. by intros y Hy ->. }
  pose proof (prepend_frame growCap growCap_fits (MainSlices.heap_ w)
                (gostrings.TrimSpace text)
                (Slices.elems (MainSlices.heap_ w ++ [[gostrings.TrimSpace text]])
                   (MainSlices.clips (MainSlices.clipManager w)))
                t Ht) as Hp.
  pose proof (literal_elems (MainSlices.heap_ w) [gostrings.TrimSpace text])
    as Hlit.
  destruct (Slices.literal _ [gostrings.TrimSpace text]) as [h1 front].
  destruct Hlit as (-> & _).
  destruct (Slices.append growCap _ front _) as [h2 s2].
  cbn [MainSlices.heap_]. by destruct Hp as (_ & -> & _).
Qed.

Lemma clearHistory_frame (w : MainSlices.World) (t : Slices.slice) :
  Slices.valid (MainSlices.heap_ w) t →
  Slices.elems (MainSlices.heap_ (MainSlices.clearHistory w)) t
  = Slices.elems (MainSlices.heap_ w) t.
Proof.
  intros Ht. unfold MainSlices.clearHistory, Slices.literal, Slices.alloc.
  cbn [MainSlices.heap_]. by apply valid_alloc.
Qed.

End MainFrames.

(** ** C6 *)

(** C6, evaluated on [src/main.go].  [getClips] returns the slice value of
    the store, which reads as the current entries; it is no copy.  When a
    later [addClip] moves the entry at index [i] to the front, where [i] is
    not the last index, its removal loop shifts the entries after [i] down
    inside the array the returned slice still points to: the slice then
    reads as the old entries without entry [i] and with the last entry
    twice, which is not what it read before. *)
Theorem C6_getClips_shares_the_array_of_the_store :
  ∀ (growCap : nat → nat → nat) (w : MainSlices.World) (text : string) (i : nat),
    (∀ old need, (need ≤ growCap old need)%nat) →
    MainSlices.wf w →
    NoDup (Slices.elems (MainSlices.heap_ w) (MainSlices.getClips w)) →
    Slices.elems (MainSlices.heap_ w) (MainSlices.getClips w) !! i
    = Some (gostrings.TrimSpace text) →
    (S i < Slices.len (MainSlices.getClips w))%nat →
    gostrings.TrimSpace text ≠ "" →
    gostrings.TrimSpace text ≠ MainSlices.lastContent (MainSlices.clipManager w) →
    Slices.elems (MainSlices.heap_ w) (MainSlices.getClips w)
    = Main.getClips (MainSlices.abstract w)
    ∧ Slices.elems (MainSlices.heap_ (MainSlices.addClip growCap w text))
                   (MainSlices.getClips w)
      = delete i (Slices.elems (MainSlices.heap_ w) (MainSlices.getClips w))
          ++ drop (Slices.len (MainSlices.getClips w) - 1)
                  (Slices.elems (MainSlices.heap_ w) (MainSlices.getClips w))
    ∧ Slices.elems (MainSlices.heap_ (MainSlices.addClip growCap w text))
                   (MainSlices.getClips w)
      ≠ Slices.elems (MainSlices.heap_ w) (MainSlices.getClips w).
Proof.
  intros growCap w text i Hfits Hwf Hnd Hi Hlt Hne Hlast.
  split; [done|].
  set (l := Slices.elems (MainSlices.heap_ w) (MainSlices.getClips w)) in *.
  assert (length l = Slices.len (MainSlices.getClips w)) as Hlen
    by (by apply elems_length).
  assert (Slices.elems (MainSlices.heap_ (MainSlices.addClip growCap w text))
                       (MainSlices.getClips w)
          = delete i l ++ drop (Slices.len (MainSlices.getClips w) - 1) l) as ->.
  { apply (getClips_after_promotion growCap w text i (gostrings.TrimSpace text));
      [done..|].
    apply list_find_Some. split; [done|]. split; [done|].
    intros j y Hj Hji ->. pose proof (NoDup_lookup _ _ _ _ Hnd Hj Hi). lia. }
  split; [done|].
  intros Heq. apply (f_equal (λ k, k !! i)) in Heq.
  rewrite lookup_app_l in Heq
    by (rewrite length_delete; [lia | by eexists]).
  rewrite list_lookup_delete_ge in Heq by lia.
  rewrite Hi in Heq.
  pose proof (NoDup_lookup _ _ _ _ Hnd Heq Hi). lia.
Qed.

Lemma C6_getClips_shares_the_array_witness :
  Slices.elems
    (MainSlices.heap_
       (foldl (MainSlices.addClip Slices.exactFit)
              (MainSlices.start Slices.exactFit "" ∅ "") ["a"; "b"; "c"]))
    (MainSlices.getClips
       (foldl (MainSlices.addClip Slices.exactFit)
              (MainSlices.start Slices.exactFit "" ∅ "") ["a"; "b"; "c"]))
  = ["c"; "b"; "a"]
  ∧ Slices.elems
      (MainSlices.heap_
         (MainSlices.addClip Slices.exactFit
            (foldl (MainSlices.addClip Slices.exactFit)
                   (MainSlices.start Slices.exactFit "" ∅ "") ["a"; "b"; "c"])
            "b"))
      (MainSlices.getClips
         (foldl (MainSlices.addClip Slices.exactFit)
                (MainSlices.start Slices.exactFit "" ∅ "") ["a"; "b"; "c"]))
    = ["c"; "a"; "a"].
Proof.
  split; [by vm_compute|].
  refine (eq_trans
            (proj1 (proj2 (C6_getClips_shares_the_array_of_the_store
               Slices.exactFit
               (foldl (MainSlices.addClip Slices.exactFit)
                      (MainSlices.start Slices.exactFit "" ∅ "") ["a"; "b"; "c"])
               "b" 1 _ _ _ _ _ _ _))) _).
  - intros old need. unfold Slices.exactFit. lia.
  - apply (bool_decide_unpack _). by vm_compute.
  - apply (bool_decide_unpack _). by vm_compute.
  - by vm_compute.
  - vm_compute. lia.
  - vm_compute. discriminate.
  - vm_compute. discriminate.
  - by vm_compute.
Defined.

(** ** [utf8.DecodeRuneInString], by the table of the first byte *)

Lemma lor_shiftl_small (a b k : Z) :
  0 ≤ k → 0 ≤ b < 2 ^ k → Z.lor (Z.shiftl a k) b = a * 2 ^ k + b.
Proof.
  intros Hk Hb. rewrite <- Z.add_nocarry_lor.
  { by rewrite Z.shiftl_mul_pow2. }
  apply Z.bits_inj'. intros n Hn. rewrite Z.land_spec, Z.bits_0.
  destruct (Z.lt_ge_cases n k) as [Hlt | Hge].
  - by rewrite Z.shiftl_spec_low.
  - destruct (Z.eq_dec b 0) as [-> | Hb0].
    + by rewrite Z.bits_0, andb_false_r.
    + rewrite (Z.bits_above_log2 b n), andb_false_r; [done | lia |].
      assert (Z.log2 b < k) by (apply Z.log2_lt_pow2; lia). lia.
Qed.

Lemma first_cases (b : Z) :
  0 ≤ b < 256 →
  (b < 0x80 ∧ utf8.first b = utf8.as_)
  ∨ ((0x80 ≤ b < 0xC2 ∨ 0xF5 ≤ b) ∧ utf8.first b = utf8.xx)
  ∨ (0xC2 ≤ b < 0xE0 ∧ utf8.first b = utf8.s1)
  ∨ (b = 0xE0 ∧ utf8.first b = utf8.s2)
  ∨ ((0xE1 ≤ b < 0xED ∨ 0xEE ≤ b < 0xF0) ∧ utf8.first b = utf8.s3)
  ∨ (b = 0xED ∧ utf8.first b = utf8.s4)
  ∨ (b = 0xF0 ∧ utf8.first b = utf8.s5)
  ∨ (0xF1 ≤ b < 0xF4 ∧ utf8.first b = utf8.s6)
  ∨ (b = 0xF4 ∧ utf8.first b = utf8.s7).
Proof.
  intros Hb. unfold utf8.first.
  repeat (match goal with
          | |- context [Z.ltb ?x ?y] => destruct (Z.ltb_spec x y)
          | |- context [Z.eqb ?x ?y] => destruct (Z.eqb_spec x y)
          end); lia.
Qed.


Ltac zlia := Z.div_mod_to_equations; lia.

(** Boolean comparisons settled by linear arithmetic. *)
Ltac zbool :=
  repeat match goal with
  | |- context [Z.ltb ?a ?b] =>
    first [ replace (Z.ltb a b) with true by (symmetry; apply Z.ltb_lt; lia)
          | replace (Z.ltb a b) with false by (symmetry; apply Z.ltb_ge; lia) ]
  | |- context [Z.leb ?a ?b] =>
    first [ replace (Z.leb a b) with true by (symmetry; apply Z.leb_le; lia)
          | replace (Z.leb a b) with false by (symmetry; apply Z.leb_gt; lia) ]
  | |- context [Z.eqb ?a ?b] =>
    first [ replace (Z.eqb a b) with true by (symmetry; apply Z.eqb_eq; lia)
          | replace (Z.eqb a b) with false by (symmetry; apply Z.eqb_neq; lia) ]
  end.

Lemma land_mask (b k : Z) : 0 ≤ k → Z.land b (2 ^ k - 1) = b mod 2 ^ k.
Proof. intros Hk. rewrite <- Z.land_ones by done. by rewrite Z.ones_equiv, Z.sub_1_r. Qed.

Lemma lor2 (x y : Z) : 0 ≤ y < 64 → Z.lor (x ≪ 6) y = x * 64 + y.
Proof. intros. by rewrite lor_shiftl_small. Qed.

Lemma lor3 (x y z : Z) :
  0 ≤ y < 64 → 0 ≤ z < 64 →
  Z.lor (Z.lor (x ≪ 12) (y ≪ 6)) z = (x * 64 + y) * 64 + z.
Proof.
  intros. replace (x ≪ 12) with ((x ≪ 6) ≪ 6)
    by (by rewrite Z.shiftl_shiftl).
  by rewrite <- Z.shiftl_lor, !lor2.
Qed.

Lemma lor4 (x y z w : Z) :
  0 ≤ y < 64 → 0 ≤ z < 64 → 0 ≤ w < 64 →
  Z.lor (Z.lor (Z.lor (x ≪ 18) (y ≪ 12)) (z ≪ 6)) w
  = ((x * 64 + y) * 64 + z) * 64 + w.
Proof.
  intros. replace (x ≪ 18) with ((x ≪ 12) ≪ 6)
    by (by rewrite Z.shiftl_shiftl).
  replace (y ≪ 12) with ((y ≪ 6) ≪ 6) by (by rewrite Z.shiftl_shiftl).
  by rewrite <- !Z.shiftl_lor, lor3, lor2.
Qed.

Lemma decode_bad (c0 : ascii) (r0 : string) :
  0x80 ≤ GoString.byteZ c0 < 0xC2 ∨ 0xF5 ≤ GoString.byteZ c0 →
  utf8.DecodeRuneInString (String c0 r0) = (utf8.RuneError, 1%nat).
Proof.
  destruct c0 as [[] [] [] [] [] [] [] []]; intros H;
    try (vm_compute in H; destruct H as [[H1 H2]|H]; congruence); reflexivity.
Qed.

Lemma decode_2 (c0 c1 : ascii) (r1 : string) :
  0xC2 ≤ GoString.byteZ c0 < 0xE0 →
  utf8.DecodeRuneInString (String c0 (String c1 r1))
  = if (GoString.byteZ c1 <? 0x80) || (0xBF <? GoString.byteZ c1)
    then (utf8.RuneError, 1%nat)
    else ((GoString.byteZ c0 - 0xC0) * 64 + (GoString.byteZ c1 - 0x80), 2%nat).
Proof.
  intros H0. unfold utf8.DecodeRuneInString.
  destruct (first_cases (GoString.byteZ c0)) as [[? Hf]|[[? Hf]|[[? Hf]|?]]]; try lia.
  rewrite Hf.
  change (utf8.as_ <=? utf8.s1) with false.
  change (Z.land utf8.s1 7) with 2.
  change (utf8.acceptRanges (utf8.s1 ≫ 4)) with (0x80, 0xBF).
  unfold GoString.len. cbn [String.length fst snd].
  replace (Z.of_nat (S (S (String.length r1))) <? 2) with false
    by (symmetry; apply Z.ltb_ge; lia).
  change (2 <=? 2) with true. cbv iota.
  destruct ((GoString.byteZ c1 <? 0x80) || (0xBF <? GoString.byteZ c1)) eqn:Hc1;
    [done|].
  apply orb_false_iff in Hc1 as [?%Z.ltb_ge ?%Z.ltb_ge].
  f_equal. unfold utf8.mask2, utf8.maskx.
  rewrite (land_mask _ 5), (land_mask _ 6) by lia.
  change (2 ^ 5) with 32. change (2 ^ 6) with 64.
  rewrite lor_shiftl_small; change (2 ^ 6) with 64; zlia.
Qed.

Lemma decode_3 (c0 c1 c2 : ascii) (r2 : string) :
  0xE0 ≤ GoString.byteZ c0 < 0xF0 →
  utf8.DecodeRuneInString (String c0 (String c1 (String c2 r2)))
  = if (GoString.byteZ c1 <? utf8.secondLo (GoString.byteZ c0))
       || (utf8.secondHi (GoString.byteZ c0) <? GoString.byteZ c1)
       || (GoString.byteZ c2 <? 0x80) || (0xBF <? GoString.byteZ c2)
    then (utf8.RuneError, 1%nat)
    else ((GoString.byteZ c0 - 0xE0) * 4096 + (GoString.byteZ c1 - 0x80) * 64
          + (GoString.byteZ c2 - 0x80), 3%nat).
Proof.
  intros H0. unfold utf8.DecodeRuneInString.
  pose proof (byteZ_range c1) as R1. pose proof (byteZ_range c2) as R2.
  assert (∃ x, utf8.first (GoString.byteZ c0) = x
               ∧ (utf8.as_ <=? x) = false ∧ Z.land x 7 = 3
               ∧ utf8.acceptRanges (x ≫ 4)
                 = (utf8.secondLo (GoString.byteZ c0), utf8.secondHi (GoString.byteZ c0)))
    as (x & -> & -> & -> & ->).
  { unfold utf8.secondLo, utf8.secondHi.
    destruct (first_cases (GoString.byteZ c0))
      as [[? Hf]|[[? Hf]|[[? Hf]|[[? Hf]|[[? Hf]|[[? Hf]|?]]]]]]; try lia;
      rewrite Hf; eexists; (split; [reflexivity|]); zbool; done. }
  unfold GoString.len. cbn [String.length fst snd].
  replace (Z.of_nat (S (S (S (String.length r2)))) <? 3) with false
    by (symmetry; apply Z.ltb_ge; lia).
  change (3 <=? 2) with false. change (3 <=? 3) with true. cbv iota.
  unfold utf8.locb, utf8.hicb.
  destruct ((GoString.byteZ c1 <? utf8.secondLo (GoString.byteZ c0))
            || (utf8.secondHi (GoString.byteZ c0) <? GoString.byteZ c1)) eqn:Hc1;
    [done|]. cbn [orb].
  destruct ((GoString.byteZ c2 <? 0x80) || (0xBF <? GoString.byteZ c2)) eqn:Hc2;
    [done|].
  apply orb_false_iff in Hc1 as [H1%Z.ltb_ge H1'%Z.ltb_ge].
  apply orb_false_iff in Hc2 as [?%Z.ltb_ge ?%Z.ltb_ge].
  assert (0x80 ≤ GoString.byteZ c1 ≤ 0xBF) as R1'.
  { revert H1 H1'. unfold utf8.secondLo, utf8.secondHi.
    repeat match goal with
           | |- context [Z.eqb ?x ?y] => destruct (Z.eqb_spec x y)
           end; lia. }
  f_equal. unfold utf8.mask3, utf8.maskx.
  rewrite (land_mask _ 4), !(land_mask _ 6) by lia.
  change (2 ^ 4) with 16. change (2 ^ 6) with 64.
  rewrite lor3 by zlia. zlia.
Qed.

Lemma decode_4 (c0 c1 c2 c3 : ascii) (r3 : string) :
  0xF0 ≤ GoString.byteZ c0 < 0xF5 →
  utf8.DecodeRuneInString (String c0 (String c1 (String c2 (String c3 r3))))
  = if (GoString.byteZ c1 <? utf8.secondLo (GoString.byteZ c0))
       || (utf8.secondHi (GoString.byteZ c0) <? GoString.byteZ c1)
       || (GoString.byteZ c2 <? 0x80) || (0xBF <? GoString.byteZ c2)
       || (GoString.byteZ c3 <? 0x80) || (0xBF <? GoString.byteZ c3)
    then (utf8.RuneError, 1%nat)
    else ((GoString.byteZ c0 - 0xF0) * 262144 + (GoString.byteZ c1 - 0x80) * 4096
          + (GoString.byteZ c2 - 0x80) * 64 + (GoString.byteZ c3 - 0x80), 4%nat).
Proof.
  intros H0. unfold utf8.DecodeRuneInString.
  pose proof (byteZ_range c1) as R1. pose proof (byteZ_range c2) as R2.
  pose proof (byteZ_range c3) as R3.
  assert (∃ x, utf8.first (GoString.byteZ c0) = x
               ∧ (utf8.as_ <=? x) = false ∧ Z.land x 7 = 4
               ∧ utf8.acceptRanges (x ≫ 4)
                 = (utf8.secondLo (GoString.byteZ c0), utf8.secondHi (GoString.byteZ c0)))
    as (x & -> & -> & -> & ->).
  { unfold utf8.secondLo, utf8.secondHi.
    destruct (first_cases (GoString.byteZ c0))
      as [[? Hf]|[[? Hf]|[[? Hf]|[[? Hf]|[[? Hf]|[[? Hf]|[[? Hf]|[[? Hf]|[? Hf]]]]]]]]];
      try lia; rewrite Hf; eexists; (split; [reflexivity|]); zbool; done. }
  unfold GoString.len. cbn [String.length fst snd].
  replace (Z.of_nat (S (S (S (S (String.length r3))))) <? 4) with false
    by (symmetry; apply Z.ltb_ge; lia).
  change (4 <=? 2) with false. change (4 <=? 3) with false. cbv iota.
  unfold utf8.locb, utf8.hicb.
  destruct ((GoString.byteZ c1 <? utf8.secondLo (GoString.byteZ c0))
            || (utf8.secondHi (GoString.byteZ c0) <? GoString.byteZ c1)) eqn:Hc1;
    [done|]. cbn [orb].
  destruct ((GoString.byteZ c2 <? 0x80) || (0xBF <? GoString.byteZ c2)) eqn:Hc2;
    [done|]. cbn [orb].
  destruct ((GoString.byteZ c3 <? 0x80) || (0xBF <? GoString.byteZ c3)) eqn:Hc3;
    [done|].
  apply orb_false_iff in Hc1 as [H1%Z.ltb_ge H1'%Z.ltb_ge].
  apply orb_false_iff in Hc2 as [?%Z.ltb_ge ?%Z.ltb_ge].
  apply orb_false_iff in Hc3 as [?%Z.ltb_ge ?%Z.ltb_ge].
  assert (0x80 ≤ GoString.byteZ c1 ≤ 0xBF) as R1'.
  { revert H1 H1'. unfold utf8.secondLo, utf8.secondHi.
    repeat match goal with
           | |- context [Z.eqb ?x ?y] => destruct (Z.eqb_spec x y)
           end; lia. }
  f_equal. unfold utf8.mask4, utf8.maskx.
  rewrite (land_mask _ 3), !(land_mask _ 6) by lia.
  change (2 ^ 3) with 8. change (2 ^ 6) with 64.
  rewrite lor4 by zlia. zlia.
Qed.

Ltac zcases :=
  repeat match goal with
  | |- context [Z.ltb ?a ?b] => destruct (Z.ltb_spec a b)
  | |- context [Z.leb ?a ?b] => destruct (Z.leb_spec a b)
  | |- context [Z.eqb ?a ?b] => destruct (Z.eqb_spec a b)
  end.

(** A leading byte that announces more bytes than there are. *)
Lemma decode_short (c0 : ascii) (r0 : string) :
  (0xC2 ≤ GoString.byteZ c0 < 0xE0 ∧ (String.length r0 < 1)%nat)
  ∨ (0xE0 ≤ GoString.byteZ c0 < 0xF0 ∧ (String.length r0 < 2)%nat)
  ∨ (0xF0 ≤ GoString.byteZ c0 < 0xF5 ∧ (String.length r0 < 3)%nat) →
  utf8.DecodeRuneInString (String c0 r0) = (utf8.RuneError, 1%nat).
Proof.
  intros H. unfold utf8.DecodeRuneInString.
  assert (∃ x, utf8.first (GoString.byteZ c0) = x
               ∧ (utf8.as_ <=? x) = false
               ∧ (GoString.len (String c0 r0) <? Z.land x 7) = true)
    as (x & -> & -> & ->); [|done].
  unfold GoString.len. cbn [String.length].
  destruct (first_cases (GoString.byteZ c0) (byteZ_range c0))
    as [[? Hf]|[[? Hf]|[[? Hf]|[[? Hf]|[[? Hf]|[[? Hf]|[[? Hf]|[[? Hf]|[? Hf]]]]]]]]];
    try lia;
    rewrite Hf; eexists; (split; [reflexivity|]); (split; [done|]);
    apply Z.ltb_lt;
    match goal with |- _ < ?v => let v' := eval vm_compute in v in change v with v' end;
    lia.
Qed.

Lemma decode_table (s : string) :
  utf8.DecodeRuneInString s = utf8.decodeByTable s.
Proof.
  destruct s as [|c0 r0]; [done|].
  pose proof (byteZ_range c0) as R0. unfold utf8.decodeByTable.
  destruct (Z.ltb_spec (GoString.byteZ c0) 0x80).
  { by apply DecodeRuneInString_ascii. }
  destruct ((GoString.byteZ c0 <? 0xC2) || (0xF5 <=? GoString.byteZ c0)) eqn:Hbad.
  { apply decode_bad. apply orb_true_iff in Hbad as [?%Z.ltb_lt | ?%Z.leb_le]; lia. }
  apply orb_false_iff in Hbad as [?%Z.ltb_ge ?%Z.leb_gt].
  destruct (Z.ltb_spec (GoString.byteZ c0) 0xE0).
  { destruct r0 as [|c1 r1]; [apply decode_short; left; simpl; lia|].
    rewrite decode_2 by lia. unfold utf8.continuation.
    zcases; simpl; try done; lia. }
  destruct (Z.ltb_spec (GoString.byteZ c0) 0xF0).
  { destruct r0 as [|c1 [|c2 r2]];
      [apply decode_short; right; left; simpl; lia..|].
    rewrite decode_3 by lia. unfold utf8.continuation.
    generalize (utf8.secondLo (GoString.byteZ c0))
               (utf8.secondHi (GoString.byteZ c0)). intros lo hi.
    zcases; simpl; try done; lia. }
  destruct r0 as [|c1 [|c2 [|c3 r3]]];
    [apply decode_short; right; right; simpl; lia..|].
  rewrite decode_4 by lia. unfold utf8.continuation.
  generalize (utf8.secondLo (GoString.byteZ c0))
             (utf8.secondHi (GoString.byteZ c0)). intros lo hi.
  zcases; simpl; try done; lia.
Qed.

(** ** Decoding what [utf8.EncodeRune] writes *)

Lemma byte_of_byteZ (c : ascii) : GoString.byte_of (GoString.byteZ c) = c.
Proof.
  unfold GoString.byte_of, GoString.byteZ.
  by rewrite N2Z.id, ascii_N_embedding.
Qed.

Lemma lor_lead (t k x : Z) :
  0 ≤ k → 0 ≤ x < 2 ^ k → Z.lor (t ≪ k) x = t * 2 ^ k + x.
Proof. intros. by apply lor_shiftl_small. Qed.

Lemma encode_2 (c0 c1 : ascii) :
  0xC2 ≤ GoString.byteZ c0 ≤ 0xDF →
  0x80 ≤ GoString.byteZ c1 ≤ 0xBF →
  utf8.EncodeRune ((GoString.byteZ c0 - 0xC0) * 64 + (GoString.byteZ c1 - 0x80))
  = String c0 (String c1 "").
Proof.
  intros H0 H1. unfold utf8.EncodeRune, utf8.rune1Max, utf8.rune2Max.
  zbool. cbn [andb]. cbv iota.
  unfold utf8.maskx. rewrite (land_mask _ 6), (Z.shiftr_div_pow2 _ 6) by lia.
  change utf8.t2 with (3 ≪ 6). change utf8.tx with (2 ≪ 6).
  change (2 ^ 6) with 64.
  rewrite !lor2 by zlia.
  f_equal; [|f_equal];
    rewrite <- byte_of_byteZ; f_equal; zlia.
Qed.

Lemma encode_3 (c0 c1 c2 : ascii) :
  0xE0 ≤ GoString.byteZ c0 ≤ 0xEF →
  utf8.secondLo (GoString.byteZ c0) ≤ GoString.byteZ c1
  ≤ utf8.secondHi (GoString.byteZ c0) →
  0x80 ≤ GoString.byteZ c2 ≤ 0xBF →
  utf8.EncodeRune ((GoString.byteZ c0 - 0xE0) * 4096
                   + (GoString.byteZ c1 - 0x80) * 64
                   + (GoString.byteZ c2 - 0x80))
  = String c0 (String c1 (String c2 "")).
Proof.
  intros H0 H1 H2.
  assert (0x80 ≤ GoString.byteZ c1 ≤ 0xBF
          ∧ (GoString.byteZ c0 = 0xE0 → 0xA0 ≤ GoString.byteZ c1)
          ∧ (GoString.byteZ c0 = 0xED → GoString.byteZ c1 ≤ 0x9F))
    as (R1 & Rlo & Rhi).
  { revert H1. unfold utf8.secondLo, utf8.secondHi. zcases; lia. }
  clear H1.
  unfold utf8.EncodeRune, utf8.rune1Max, utf8.rune2Max, utf8.rune3Max,
    utf8.MaxRune, utf8.surrogateMin, utf8.surrogateMax.
  zbool. cbn [andb orb].
  match goal with
  | |- context [(?a <=? ?r) && (?r <=? ?b)] =>
    replace ((a <=? r) && (r <=? b)) with false
      by (symmetry; apply andb_false_iff;
          destruct (Z.leb_spec a r); [right; apply Z.leb_gt; lia | by left])
  end.
  cbv iota. unfold utf8.maskx.
  rewrite !(land_mask _ 6), !Z.shiftr_div_pow2 by lia.
  change utf8.t3 with (7 ≪ 5). change utf8.tx with (2 ≪ 6).
  change (2 ^ 6) with 64. change (2 ^ 12) with 4096.
  rewrite !lor2 by zlia.
  rewrite lor_lead by (change (2 ^ 5) with 32; zlia).
  change (2 ^ 5) with 32.
  f_equal; [|f_equal; [|f_equal]];
    rewrite <- byte_of_byteZ; f_equal; zlia.
Qed.

Lemma encode_4 (c0 c1 c2 c3 : ascii) :
  0xF0 ≤ GoString.byteZ c0 ≤ 0xF4 →
  utf8.secondLo (GoString.byteZ c0) ≤ GoString.byteZ c1
  ≤ utf8.secondHi (GoString.byteZ c0) →
  0x80 ≤ GoString.byteZ c2 ≤ 0xBF →
  0x80 ≤ GoString.byteZ c3 ≤ 0xBF →
  utf8.EncodeRune ((GoString.byteZ c0 - 0xF0) * 262144
                   + (GoString.byteZ c1 - 0x80) * 4096
                   + (GoString.byteZ c2 - 0x80) * 64
                   + (GoString.byteZ c3 - 0x80))
  = String c0 (String c1 (String c2 (String c3 ""))).
Proof.
  intros H0 H1 H2 H3.
  assert (0x80 ≤ GoString.byteZ c1 ≤ 0xBF
          ∧ (GoString.byteZ c0 = 0xF0 → 0x90 ≤ GoString.byteZ c1)
          ∧ (GoString.byteZ c0 = 0xF4 → GoString.byteZ c1 ≤ 0x8F))
    as (R1 & Rlo & Rhi).
  { revert H1. unfold utf8.secondLo, utf8.secondHi. zcases; lia. }
  clear H1.
  unfold utf8.EncodeRune, utf8.rune1Max, utf8.rune2Max, utf8.rune3Max,
    utf8.MaxRune, utf8.surrogateMin, utf8.surrogateMax.
  zbool. cbn [andb orb]. cbv iota.
  unfold utf8.maskx.
  rewrite !(land_mask _ 6), !Z.shiftr_div_pow2 by lia.
  change utf8.t4 with (30 ≪ 3). change utf8.tx with (2 ≪ 6).
  change (2 ^ 6) with 64. change (2 ^ 12) with 4096. change (2 ^ 18) with 262144.
  rewrite !lor2 by zlia.
  rewrite lor_lead by (change (2 ^ 3) with 8; zlia).
  change (2 ^ 3) with 8.
  f_equal; [|f_equal; [|f_equal; [|f_equal]]];
    rewrite <- byte_of_byteZ; f_equal; zlia.
Qed.

(** What [DecodeRuneInString] returns on a non-empty string: an ASCII
    byte, an encoding error of width 1, or a well-formed sequence of 2 to 4
    bytes, which [EncodeRune] gives back and which decodes the same
    whatever follows it. *)
Lemma decode_inv (s : string) (r : Z) (size : nat) :
  s ≠ "" →
  utf8.DecodeRuneInString s = (r, size) →
  (∃ c rest, s = String c rest ∧ size = 1%nat
             ∧ GoString.byteZ c < 0x80 ∧ r = GoString.byteZ c)
  ∨ (∃ c rest, s = String c rest ∧ size = 1%nat
               ∧ 0x80 ≤ GoString.byteZ c ∧ r = utf8.RuneError)
  ∨ (∃ raw rest, s = raw +:+ rest ∧ size = String.length raw
                 ∧ (2 ≤ size ≤ 4)%nat
                 ∧ Forall (λ c, 0x80 ≤ GoString.byteZ c)
                          (String.list_ascii_of_string raw)
                 ∧ utf8.EncodeRune r = raw
                 ∧ ∀ t, utf8.DecodeRuneInString (raw +:+ t) = (r, size)).
Proof.
  intros Hne. destruct s as [|c0 r0]; [done|]. clear Hne.
  rewrite decode_table. unfold utf8.decodeByTable.
  pose proof (byteZ_range c0) as R0.
  destruct (Z.ltb_spec (GoString.byteZ c0) 0x80) as [H80|H80].
  { intros [= <- <-]. left. by exists c0, r0. }
  destruct ((GoString.byteZ c0 <? 0xC2) || (0xF5 <=? GoString.byteZ c0)) eqn:Hbad.
  { intros [= <- <-]. right. left. by exists c0, r0. }
  pose proof Hbad as [HC2%Z.ltb_ge HF5%Z.leb_gt]%orb_false_iff.
  assert (∀ r size, (utf8.RuneError, 1%nat) = (r, size) →
            ∃ c rest, String c0 r0 = String c rest ∧ size = 1%nat
                      ∧ 0x80 ≤ GoString.byteZ c ∧ r = utf8.RuneError) as Herr.
  { intros ? ? [= <- <-]. by exists c0, r0. }
  destruct (Z.ltb_spec (GoString.byteZ c0) 0xE0) as [HE0|HE0].
  { destruct r0 as [|c1 r1]; [right; left; by apply Herr|].
    destruct (utf8.continuation (GoString.byteZ c1)) eqn:Hc1;
      [|right; left; by apply Herr].
    intros [= <- <-]. right. right.
    exists (String c0 (String c1 "")), r1.
    pose proof Hc1 as [?%Z.leb_le ?%Z.leb_le]%andb_true_iff.
    split; [done|]. split; [done|]. split; [lia|].
    split; [repeat constructor; lia|].
    split; [apply encode_2; lia|].
    intros t. rewrite decode_table. simpl. unfold utf8.decodeByTable.
    replace (GoString.byteZ c0 <? 128) with false by (symmetry; apply Z.ltb_ge; lia).
    rewrite Hbad, Hc1.
    by replace (GoString.byteZ c0 <? 224) with true by (symmetry; apply Z.ltb_lt; lia). }
  destruct (Z.ltb_spec (GoString.byteZ c0) 0xF0) as [HF0|HF0].
  { destruct r0 as [|c1 [|c2 r2]]; [right; left; by apply Herr..|].
    destruct ((utf8.secondLo (GoString.byteZ c0) <=? GoString.byteZ c1)
              && (GoString.byteZ c1 <=? utf8.secondHi (GoString.byteZ c0))
              && utf8.continuation (GoString.byteZ c2)) eqn:Hc;
      [|right; left; by apply Herr].
    intros [= <- <-]. right. right.
    exists (String c0 (String c1 (String c2 ""))), r2.
    pose proof Hc as [[?%Z.leb_le ?%Z.leb_le]%andb_true_iff
                        [?%Z.leb_le ?%Z.leb_le]%andb_true_iff]%andb_true_iff.
    assert (0x80 ≤ GoString.byteZ c1).
    { assert (0x80 ≤ utf8.secondLo (GoString.byteZ c0))
        by (unfold utf8.secondLo; zcases; lia). lia. }
    split; [done|]. split; [done|]. split; [lia|].
    split; [repeat constructor; lia|].
    split; [apply encode_3; lia|].
    intros t. rewrite decode_table. simpl. unfold utf8.decodeByTable.
    replace (GoString.byteZ c0 <? 128) with false by (symmetry; apply Z.ltb_ge; lia).
    rewrite Hbad, Hc.
    replace (GoString.byteZ c0 <? 224) with false by (symmetry; apply Z.ltb_ge; lia).
    by replace (GoString.byteZ c0 <? 240) with true by (symmetry; apply Z.ltb_lt; lia). }
  destruct r0 as [|c1 [|c2 [|c3 r3]]]; [right; left; by apply Herr..|].
  destruct ((utf8.secondLo (GoString.byteZ c0) <=? GoString.byteZ c1)
            && (GoString.byteZ c1 <=? utf8.secondHi (GoString.byteZ c0))
            && utf8.continuation (GoString.byteZ c2)
            && utf8.continuation (GoString.byteZ c3)) eqn:Hc;
    [|right; left; by apply Herr].
  intros [= <- <-]. right. right.
  exists (String c0 (String c1 (String c2 (String c3 "")))), r3.
  pose proof Hc as [[[?%Z.leb_le ?%Z.leb_le]%andb_true_iff
                       [?%Z.leb_le ?%Z.leb_le]%andb_true_iff]%andb_true_iff
                      [?%Z.leb_le ?%Z.leb_le]%andb_true_iff]%andb_true_iff.
  assert (0x80 ≤ GoString.byteZ c1).
  { assert (0x80 ≤ utf8.secondLo (GoString.byteZ c0))
      by (unfold utf8.secondLo; zcases; lia). lia. }
  split; [done|]. split; [done|]. split; [lia|].
  split; [repeat constructor; lia|].
  split; [apply encode_4; lia|].
  intros t. rewrite decode_table. simpl. unfold utf8.decodeByTable.
  replace (GoString.byteZ c0 <? 128) with false by (symmetry; apply Z.ltb_ge; lia).
  rewrite Hbad, Hc.
  replace (GoString.byteZ c0 <? 224) with false by (symmetry; apply Z.ltb_ge; lia).
  by replace (GoString.byteZ c0 <? 240) with false by (symmetry; apply Z.ltb_ge; lia).
Qed.

(** ** Byte strings: appending and slicing *)

Lemma sapp_cons (x : ascii) (a b : string) :
  String x a +:+ b = String x (a +:+ b).
Proof. reflexivity. Qed.

Lemma sapp_assoc (a b c : string) : (a +:+ b) +:+ c = a +:+ (b +:+ c).
Proof. induction a as [|x a IH]; [done|]. rewrite !sapp_cons. by rewrite IH. Qed.

Lemma sapp_nil_r (a : string) : a +:+ "" = a.
Proof. induction a as [|x a IH]; [done|]. rewrite sapp_cons. by rewrite IH. Qed.

Lemma slength_app (a b : string) :
  String.length (a +:+ b) = (String.length a + String.length b)%nat.
Proof. induction a as [|x a IH]; [done|]. rewrite sapp_cons. simpl. by rewrite IH. Qed.

Lemma from_app (a b : string) : GoString.from (String.length a) (a +:+ b) = b.
Proof. induction a as [|x a IH]; [done|]. rewrite sapp_cons. simpl. apply IH. Qed.

Lemma upto_app (a b : string) : GoString.upto (String.length a) (a +:+ b) = a.
Proof. induction a as [|x a IH]; [done|]. rewrite sapp_cons. simpl. by rewrite IH. Qed.

Lemma upto_all (n : nat) (a : string) :
  (String.length a ≤ n)%nat → GoString.upto n a = a.
Proof.
  revert n. induction a as [|x a IH]; intros [|n] H; simpl in *; try done; [lia|].
  f_equal. apply IH. lia.
Qed.

Lemma upto_from (n : nat) (a : string) :
  GoString.upto n a +:+ GoString.from n a = a.
Proof.
  revert n. induction a as [|x a IH]; intros [|n]; simpl; try done.
  rewrite sapp_cons. f_equal. apply IH.
Qed.

Lemma slength_from (n : nat) (a : string) :
  String.length (GoString.from n a) = (String.length a - n)%nat.
Proof. revert n. induction a as [|x a IH]; intros [|n]; simpl; try done. Qed.

(** ** Decoding looks at no more than four bytes *)

Lemma decode_upto4 (s : string) :
  utf8.DecodeRuneInString
    (GoString.upto (Z.to_nat (Z.min (GoString.len s) utf8.UTFMax)) s)
  = utf8.DecodeRuneInString s.
Proof.
  rewrite !decode_table. unfold GoString.len, utf8.UTFMax.
  destruct s as [|c0 [|c1 [|c2 [|c3 [|c4 r]]]]]; try done.
  cbn [String.length].
  replace (Z.to_nat (Z.min (Z.of_nat (S (S (S (S (S (String.length r))))))) 4))
    with 4%nat by lia.
  done.
Qed.

(** ** The encoder of strings, step by step *)

Lemma upto_app_add (a b : string) (n : nat) :
  GoString.upto (String.length a + n) (a +:+ b) = a +:+ GoString.upto n b.
Proof. induction a as [|x a IH]; [done|]. rewrite !sapp_cons. simpl. by rewrite IH. Qed.

Lemma from_app_add (a b : string) (n : nat) :
  GoString.from (String.length a + n) (a +:+ b) = GoString.from n b.
Proof. induction a as [|x a IH]; [done|]. rewrite !sapp_cons. simpl. by rewrite IH. Qed.

(** ** The three outcomes of decoding at a position *)

Lemma decode_cases (c : ascii) (rest : string) (r : Z) (size : nat) :
  utf8.DecodeRuneInString (String c rest) = (r, size) →
  (GoString.byteZ c < 0x80 ∧ r = GoString.byteZ c ∧ size = 1%nat)
  ∨ (0x80 ≤ GoString.byteZ c ∧ r = utf8.RuneError ∧ size = 1%nat)
  ∨ (0x80 ≤ GoString.byteZ c
     ∧ ∃ raw rest', String c rest = raw +:+ rest'
                    ∧ size = String.length raw ∧ utf8.WellFormed raw r).
Proof.
  intros Hd.
  destruct (decode_inv (String c rest) r size ltac:(done) Hd)
    as [(c' & rest' & [= <- <-] & -> & ? & ->)
       |[(c' & rest' & [= <- <-] & -> & ? & ->)
        |(raw & rest' & Heq & -> & Hsz & Hhigh & Henc & Hdec)]].
  - by left.
  - right. by left.
  - right. right. split.
    + destruct raw as [|c0 raw]; [simpl in Hsz; lia|].
      rewrite sapp_cons in Heq. injection Heq as <- _.
      by apply Forall_cons in Hhigh as [? _].
    + exists raw, rest'. unfold utf8.WellFormed. repeat split; (done || lia).
Qed.

(** ** The encoder follows [Quoted] *)

Lemma appendStringFrom_quoted (fuel : nat) (s : string) :
  (String.length s ≤ fuel)%nat →
  ∃ u, JsonText.Quoted s (json.appendStringFrom fuel s) u
       ∧ (utf8.validFrom fuel s = true → u = s).
Proof.
  revert s. induction fuel as [|fuel IH]; intros s Hlen.
  { destruct s; [|simpl in Hlen; lia]. exists "". split; [constructor|done]. }
  destruct s as [|c rest]; [exists ""; split; [constructor|done]|].
  cbn [json.appendStringFrom utf8.validFrom].
  simpl in Hlen.
  destruct (Z.ltb_spec (GoString.byteZ c) utf8.RuneSelf) as [Hc|Hc].
  - rewrite (DecodeRuneInString_ascii c rest Hc).
    replace ((GoString.byteZ c =? utf8.RuneError) && (1 =? 1)%nat) with false.
    2:{ symmetry. apply andb_false_iff. left. apply Z.eqb_neq.
        unfold utf8.RuneError, utf8.RuneSelf in *. lia. }
    destruct (IH rest ltac:(lia)) as (u & Hq & Hv).
    exists (String c u). split.
    + destruct (json.htmlSafeSet (GoString.byteZ c)) eqn:Hsafe.
      * by apply JsonText.quoted_safe.
      * by apply JsonText.quoted_escape.
    + intros Hvalid. simpl in Hvalid. by rewrite Hv.
  - rewrite decode_upto4.
    destruct (utf8.DecodeRuneInString (String c rest)) as [r size] eqn:Hd.
    destruct (decode_cases c rest r size Hd)
      as [(? & _)|[(_ & -> & ->)|(_ & raw & rest' & Heq & -> & Hwf)]].
    + unfold utf8.RuneSelf in Hc. lia.
    + change ((utf8.RuneError =? utf8.RuneError) && (1 =? 1)%nat) with true.
      cbv iota. cbn [GoString.from].
      destruct (IH rest ltac:(lia)) as (u & Hq & _).
      exists (utf8.EncodeRune utf8.RuneError +:+ u). split; [|done].
      apply JsonText.quoted_invalid; [unfold utf8.RuneSelf in Hc; lia|done..].
    + pose proof Hwf as (Hsz & _).
      replace ((r =? utf8.RuneError) && (String.length raw =? 1)%nat) with false.
      2:{ symmetry. apply andb_false_iff. right. apply Nat.eqb_neq. lia. }
      rewrite Heq, upto_app, from_app.
      assert (String.length rest' ≤ fuel)%nat as Hlen'.
      { apply (f_equal String.length) in Heq.
        rewrite slength_app in Heq. simpl in Heq. lia. }
      destruct (IH rest' Hlen') as (u & Hq & Hv).
      exists (raw +:+ u). split.
      * destruct ((r =? 0x2028) || (r =? 0x2029)) eqn:Hsep.
        -- rewrite <- sapp_assoc.
           apply orb_true_iff in Hsep as [?%Z.eqb_eq | ?%Z.eqb_eq];
             rewrite sapp_assoc;
             (eapply JsonText.quoted_separator; [|done..]); tauto.
        -- apply orb_false_iff in Hsep as [?%Z.eqb_neq ?%Z.eqb_neq].
           by eapply JsonText.quoted_raw.
      * intros Hvalid. by rewrite Hv.
Qed.

(** ** One step of the decoder of string literals *)

Lemma htmlSafeSet_plain (c : ascii) :
  json.htmlSafeSet (GoString.byteZ c) = true →
  0x20 ≤ GoString.byteZ c < 0x80 ∧ c ≠ json.dquote ∧ c ≠ json.bslash.
Proof.
  destruct c as [[] [] [] [] [] [] [] []]; intros H;
    try (vm_compute in H; discriminate H);
    (split; [by vm_compute|]); split; discriminate.
Qed.

Lemma high_plain (c : ascii) :
  0x80 ≤ GoString.byteZ c →
  0x20 ≤ GoString.byteZ c ∧ c ≠ json.dquote ∧ c ≠ json.bslash.
Proof.
  intros H. split; [lia|]. split; intros ->; vm_compute in H; by apply H.
Qed.

Lemma unquoteRest_plain (fu : nat) (c : ascii) (q : string) :
  0x20 ≤ GoString.byteZ c < 0x80 → c ≠ json.dquote → c ≠ json.bslash →
  json.unquoteRest (S fu) (String c q) = String c <$> json.unquoteRest fu q.
Proof.
  intros Hr Hq Hb. cbn [json.unquoteRest].
  assert (GoString.byteZ c ≠ json.ch json.bslash) as Hb'.
  { intros Heq. apply Hb. rewrite <- (byte_of_byteZ c), Heq. done. }
  assert (GoString.byteZ c ≠ json.ch json.dquote) as Hq'.
  { intros Heq. apply Hq. rewrite <- (byte_of_byteZ c), Heq. done. }
  replace (GoString.byteZ c =? json.ch json.bslash) with false
    by (symmetry; by apply Z.eqb_neq).
  replace (GoString.byteZ c =? json.ch json.dquote) with false
    by (symmetry; by apply Z.eqb_neq).
  replace (GoString.byteZ c <? json.ch " ") with false
    by (symmetry; apply Z.ltb_ge; change (json.ch " ") with 32; lia).
  replace (GoString.byteZ c <? utf8.RuneSelf) with true
    by (symmetry; apply Z.ltb_lt; unfold utf8.RuneSelf; lia).
  done.
Qed.

Lemma unquoteRest_high (fu : nat) (c : ascii) (q : string) :
  0x80 ≤ GoString.byteZ c →
  json.unquoteRest (S fu) (String c q)
  = let '(rr, size) := utf8.DecodeRuneInString (String c q) in
    String.append (utf8.EncodeRune rr)
      <$> json.unquoteRest fu (GoString.from size (String c q)).
Proof.
  intros Hr. cbn [json.unquoteRest].
  replace (GoString.byteZ c =? json.ch json.bslash) with false
    by (symmetry; apply Z.eqb_neq; change (json.ch json.bslash) with 92; lia).
  replace (GoString.byteZ c =? json.ch json.dquote) with false
    by (symmetry; apply Z.eqb_neq; change (json.ch json.dquote) with 34; lia).
  replace (GoString.byteZ c <? json.ch " ") with false
    by (symmetry; apply Z.ltb_ge; change (json.ch " ") with 32; lia).
  replace (GoString.byteZ c <? utf8.RuneSelf) with false
    by (symmetry; apply Z.ltb_ge; unfold utf8.RuneSelf; lia).
  done.
Qed.

Lemma unquoteRest_wellformed (fu : nat) (raw : string) (r : Z) (q : string) :
  utf8.WellFormed raw r →
  json.unquoteRest (S fu) (raw +:+ q)
  = String.append raw <$> json.unquoteRest fu q.
Proof.
  intros (Hsz & Hhigh & Henc & Hdec).
  destruct raw as [|c0 raw]; [simpl in Hsz; lia|].
  apply Forall_cons in Hhigh as [Hc0 _].
  rewrite sapp_cons, unquoteRest_high by done.
  rewrite <- sapp_cons, Hdec, from_app, Henc. done.
Qed.

Lemma unquoteRest_escapeByte (fu : nat) (c : ascii) (q : string) :
  GoString.byteZ c < 0x80 → json.htmlSafeSet (GoString.byteZ c) = false →
  json.unquoteRest (S fu) (json.escapeByte c +:+ q)
  = String c <$> json.unquoteRest fu q.
Proof.
  destruct c as [[] [] [] [] [] [] [] []]; intros H1 H2;
    try (vm_compute in H1; discriminate H1);
    try (vm_compute in H2; discriminate H2);
    reflexivity.
Qed.

Lemma unquoteRest_ufffd (fu : nat) (q : string) :
  json.unquoteRest (S fu) (String json.bslash "ufffd" +:+ q)
  = String.append (utf8.EncodeRune utf8.RuneError) <$> json.unquoteRest fu q.
Proof. reflexivity. Qed.

Lemma unquoteRest_separator (fu : nat) (r : Z) (q : string) :
  r = 0x2028 ∨ r = 0x2029 →
  json.unquoteRest (S fu)
    (String json.bslash "u202" +:+ String (json.hex (Z.land r 0xF)) "" +:+ q)
  = String.append (utf8.EncodeRune r) <$> json.unquoteRest fu q.
Proof. intros [-> | ->]; reflexivity. Qed.

Lemma escapeByte_head (c : ascii) :
  ∃ t, json.escapeByte c = String json.bslash t.
Proof. unfold json.escapeByte. repeat case_match; eauto. Qed.

Lemma unquotePlain_bslash (fp : nat) (q : string) :
  json.unquotePlain fp (String json.bslash q) = O.
Proof. by destruct fp. Qed.

Lemma unquotePlain_plain (fp : nat) (c : ascii) (q : string) :
  0x20 ≤ GoString.byteZ c < 0x80 → c ≠ json.dquote → c ≠ json.bslash →
  json.unquotePlain (S fp) (String c q) = S (json.unquotePlain fp q).
Proof.
  intros Hr Hq Hb. cbn [json.unquotePlain].
  assert (GoString.byteZ c ≠ json.ch json.bslash) as Hb'.
  { intros Heq. apply Hb. rewrite <- (byte_of_byteZ c), Heq. done. }
  assert (GoString.byteZ c ≠ json.ch json.dquote) as Hq'.
  { intros Heq. apply Hq. rewrite <- (byte_of_byteZ c), Heq. done. }
  replace (GoString.byteZ c =? json.ch json.bslash) with false
    by (symmetry; by apply Z.eqb_neq).
  replace (GoString.byteZ c =? json.ch json.dquote) with false
    by (symmetry; by apply Z.eqb_neq).
  replace (GoString.byteZ c <? json.ch " ") with false
    by (symmetry; apply Z.ltb_ge; change (json.ch " ") with 32; lia).
  replace (GoString.byteZ c <? utf8.RuneSelf) with true
    by (symmetry; apply Z.ltb_lt; unfold utf8.RuneSelf; lia).
  done.
Qed.

Lemma unquotePlain_wellformed (fp : nat) (raw : string) (r : Z) (q : string) :
  utf8.WellFormed raw r →
  json.unquotePlain (S fp) (raw +:+ q)
  = (String.length raw + json.unquotePlain fp q)%nat.
Proof.
  intros (Hsz & Hhigh & Henc & Hdec).
  destruct raw as [|c0 raw]; [simpl in Hsz; lia|].
  apply Forall_cons in Hhigh as [Hc0 _].
  rewrite sapp_cons. cbn [json.unquotePlain].
  replace (GoString.byteZ c0 =? json.ch json.bslash) with false
    by (symmetry; apply Z.eqb_neq; change (json.ch json.bslash) with 92; lia).
  replace (GoString.byteZ c0 =? json.ch json.dquote) with false
    by (symmetry; apply Z.eqb_neq; change (json.ch json.dquote) with 34; lia).
  replace (GoString.byteZ c0 <? json.ch " ") with false
    by (symmetry; apply Z.ltb_ge; change (json.ch " ") with 32; lia).
  replace (GoString.byteZ c0 <? utf8.RuneSelf) with false
    by (symmetry; apply Z.ltb_ge; unfold utf8.RuneSelf; lia).
  cbn [orb]. rewrite <- sapp_cons, Hdec, from_app.
  replace ((r =? utf8.RuneError) && (String.length (String c0 raw) =? 1)%nat)
    with false; [done|].
  symmetry. apply andb_false_iff. right. apply Nat.eqb_neq. lia.
Qed.

(** ** What the encoder writes is a string body, and decodes back *)

Lemma StringBody_high (raw q : string) :
  Forall (λ c, 0x80 ≤ GoString.byteZ c) (String.list_ascii_of_string raw) →
  JsonText.StringBody q → JsonText.StringBody (raw +:+ q).
Proof.
  induction raw as [|c raw IH]; intros Hhigh Hq; [done|].
  simpl in Hhigh. apply Forall_cons in Hhigh as [Hc Hhigh].
  rewrite sapp_cons. destruct (high_plain c Hc) as (? & ? & ?).
  apply JsonText.body_char; auto.
Qed.

Lemma StringBody_escapeByte (c : ascii) (q : string) :
  GoString.byteZ c < 0x80 → json.htmlSafeSet (GoString.byteZ c) = false →
  JsonText.StringBody q → JsonText.StringBody (json.escapeByte c +:+ q).
Proof.
  destruct c as [[] [] [] [] [] [] [] []]; intros H1 H2 Hq;
    try (vm_compute in H1; discriminate H1);
    try (vm_compute in H2; discriminate H2);
    first [ by apply (JsonText.body_escape _ q)
          | by apply (JsonText.body_unicode _ _ _ _ q) ].
Qed.

Lemma Quoted_StringBody (s q u : string) :
  JsonText.Quoted s q u → JsonText.StringBody q.
Proof.
  induction 1 as [|c s q u Hc Hsafe _ IH|c s q u Hc Hsafe _ IH
                  |c s q u Hc Hd _ IH|raw r s q u Hr Hwf _ IH
                  |raw r s q u Hr1 Hr2 Hwf _ IH].
  - constructor.
  - destruct (htmlSafeSet_plain c Hsafe) as (? & ? & ?).
    apply JsonText.body_char; auto; lia.
  - by apply StringBody_escapeByte.
  - by apply (JsonText.body_unicode "f" "f" "f" "d" q).
  - destruct Hr as [-> | ->].
    + by apply (JsonText.body_unicode "2" "0" "2" "8" q).
    + by apply (JsonText.body_unicode "2" "0" "2" "9" q).
  - destruct Hwf as (_ & Hhigh & _). by apply StringBody_high.
Qed.

Lemma Quoted_unquoteRest (s q u : string) :
  JsonText.Quoted s q u →
  ∀ fu, (String.length q ≤ fu)%nat → json.unquoteRest fu q = Some u.
Proof.
  induction 1 as [|c s q u Hc Hsafe _ IH|c s q u Hc Hsafe _ IH
                  |c s q u Hc Hd _ IH|raw r s q u Hr Hwf _ IH
                  |raw r s q u Hr1 Hr2 Hwf _ IH]; intros fu Hfu.
  - by destruct fu.
  - destruct fu as [|fu]; [simpl in Hfu; lia|]. simpl in Hfu.
    destruct (htmlSafeSet_plain c Hsafe) as (? & ? & ?).
    rewrite unquoteRest_plain, IH by (done || lia). done.
  - destruct (escapeByte_head c) as [t Ht].
    rewrite slength_app, Ht in Hfu.
    destruct fu as [|fu]; [simpl in Hfu; lia|]. simpl in Hfu.
    rewrite unquoteRest_escapeByte, IH by (done || lia). done.
  - rewrite slength_app in Hfu.
    destruct fu as [|fu]; [simpl in Hfu; lia|]. simpl in Hfu.
    rewrite unquoteRest_ufffd, IH by lia. done.
  - rewrite !slength_app in Hfu.
    destruct fu as [|fu]; [simpl in Hfu; lia|]. simpl in Hfu.
    rewrite unquoteRest_separator, IH by (done || lia).
    destruct Hwf as (_ & _ & -> & _). done.
  - pose proof Hwf as (Hsz & _). rewrite slength_app in Hfu.
    destruct fu as [|fu]; [lia|].
    rewrite (unquoteRest_wellformed _ _ r), IH by (done || lia). done.
Qed.

(** The first loop of [unquoteBytes] stops inside what the encoder wrote
    at a point from where the rest is again something the encoder wrote. *)
Lemma Quoted_unquotePlain (s q u : string) :
  JsonText.Quoted s q u →
  ∀ fp, (String.length q ≤ fp)%nat →
  ∃ s2 u2,
    JsonText.Quoted s2 (GoString.from (json.unquotePlain fp q) q) u2
    ∧ u = GoString.upto (json.unquotePlain fp q) q +:+ u2
    ∧ (json.unquotePlain fp q ≤ String.length q)%nat.
Proof.
  induction 1 as [|c s q u Hc Hsafe Hq IH|c s q u Hc Hsafe Hq IH
                  |c s q u Hc Hd Hq IH|raw r s q u Hr Hwf Hq IH
                  |raw r s q u Hr1 Hr2 Hwf Hq IH]; intros fp Hfp.
  - exists "", "". destruct fp; (split; [constructor|done]).
  - destruct fp as [|fp]; [simpl in Hfp; lia|]. simpl in Hfp.
    destruct (htmlSafeSet_plain c Hsafe) as (? & ? & ?).
    rewrite unquotePlain_plain by done.
    destruct (IH fp ltac:(lia)) as (s2 & u2 & Hq2 & Hu & Hle).
    exists s2, u2. cbn [GoString.from GoString.upto].
    rewrite sapp_cons, <- Hu. split; [done|]. split; [done|]. simpl. lia.
  - destruct (escapeByte_head c) as [t Ht].
    exists (String c s), (String c u).
    rewrite Ht, sapp_cons, unquotePlain_bslash. cbn [GoString.from GoString.upto].
    rewrite <- sapp_cons, <- Ht.
    split; [by apply JsonText.quoted_escape|]. split; [done|lia].
  - exists (String c s), (utf8.EncodeRune utf8.RuneError +:+ u).
    rewrite sapp_cons, unquotePlain_bslash. cbn [GoString.from GoString.upto].
    rewrite <- sapp_cons.
    split; [by apply JsonText.quoted_invalid|]. split; [done|lia].
  - exists (raw +:+ s), (raw +:+ u).
    rewrite sapp_cons, unquotePlain_bslash. cbn [GoString.from GoString.upto].
    rewrite <- sapp_cons.
    split; [by eapply JsonText.quoted_separator|]. split; [done|lia].
  - pose proof Hwf as (Hsz & _). rewrite slength_app in Hfp.
    destruct fp as [|fp]; [lia|].
    rewrite (unquotePlain_wellformed _ _ r) by done.
    destruct (IH fp ltac:(lia)) as (s2 & u2 & Hq2 & Hu & Hle).
    exists s2, u2. rewrite from_app_add, upto_app_add, sapp_assoc, <- Hu.
    split; [done|]. split; [done|]. rewrite slength_app. lia.
Qed.

Lemma stripQuotes_quoted (q : string) :
  json.stripQuotes (String json.dquote (q +:+ String json.dquote ""))
  = Some q.
Proof.
  unfold json.stripQuotes.
  assert (String.list_ascii_of_string (q +:+ String json.dquote "")
          = String.list_ascii_of_string q ++ [json.dquote]) as ->.
  { induction q as [|c q IH]; [done|]. rewrite sapp_cons. simpl. by rewrite IH. }
  rewrite rev_app_distr. simpl.
  by rewrite rev_involutive, String.string_of_list_ascii_of_string.
Qed.

(** [unquote] undoes [appendString], up to the replacement of the bytes
    that are not UTF-8. *)
Lemma unquote_appendString (s : string) :
  ∃ u, JsonText.Literal (json.appendString s) u
       ∧ (utf8.ValidString s = true → u = s).
Proof.
  destruct (appendStringFrom_quoted (String.length s) s ltac:(done))
    as (u & Hq & Hv).
  exists u. split; [|exact Hv].
  exists (json.appendStringFrom (String.length s) s).
  split; [done|]. split; [by eapply Quoted_StringBody|].
  unfold json.appendString, json.unquote. rewrite stripQuotes_quoted.
  set (q := json.appendStringFrom (String.length s) s) in *.
  destruct (Quoted_unquotePlain s q u Hq (String.length q) ltac:(done))
    as (s2 & u2 & Hq2 & Hu & Hle).
  set (r := json.unquotePlain (String.length q) q) in *.
  pose proof (Quoted_unquoteRest _ _ _ Hq2 (String.length (GoString.from r q))
                ltac:(done)) as Hrest.
  destruct (Nat.eqb_spec r (String.length q)) as [Heq|Hne].
  - rewrite Heq, slength_from, Nat.sub_diag in Hrest.
    rewrite Heq in Hu. rewrite upto_all in Hu by done.
    assert (GoString.from (String.length q) q = "") as Hnil.
    { pose proof (slength_from (String.length q) q) as Hl.
      rewrite Nat.sub_diag in Hl.
      by destruct (GoString.from (String.length q) q). }
    rewrite Hnil in Hrest. injection Hrest as <-.
    by rewrite Hu, sapp_nil_r.
  - rewrite Hrest. simpl. by rewrite Hu.
Qed.

(** ** The scanner on white space and on string literals *)

Lemma Blank_cons (c : ascii) (ws : string) :
  JsonText.Blank (String c ws)
  ↔ json.isSpace (GoString.byteZ c) = true ∧ JsonText.Blank ws.
Proof. unfold JsonText.Blank. simpl. by rewrite Forall_cons. Qed.

Lemma skip_beginValue (et er : bool) (ps : list json.parseKind) (c : Z) :
  json.isSpace c = true →
  json.doStep (json.mkScanner json.stateBeginValue et ps er) c
  = (json.mkScanner json.stateBeginValue et ps er, json.scanSkipSpace).
Proof. intros H. cbn. unfold json.do_stateBeginValue. by rewrite H. Qed.

Lemma skip_beginValueOrEmpty (et er : bool) (ps : list json.parseKind) (c : Z) :
  json.isSpace c = true →
  json.doStep (json.mkScanner json.stateBeginValueOrEmpty et ps er) c
  = (json.mkScanner json.stateBeginValueOrEmpty et ps er, json.scanSkipSpace).
Proof. intros H. cbn. unfold json.do_stateBeginValueOrEmpty. by rewrite H. Qed.

Lemma skip_endValue (et er : bool) (p : json.parseKind)
      (ps : list json.parseKind) (c : Z) :
  json.isSpace c = true →
  json.doStep (json.mkScanner json.stateEndValue et (p :: ps) er) c
  = (json.mkScanner json.stateEndValue et (p :: ps) er, json.scanSkipSpace).
Proof. intros H. cbn. unfold json.do_stateEndValue. cbn. by rewrite H. Qed.

Lemma skip_endTop (er : bool) (ps : list json.parseKind) (c : Z) :
  json.isSpace c = true →
  json.doStep (json.mkScanner json.stateEndTop true ps er) c
  = (json.mkScanner json.stateEndTop true ps er, json.scanEnd).
Proof. intros H. cbn. unfold json.do_stateEndTop. by rewrite H. Qed.

Lemma checkValidLoop_blank (ws rest : string) (s : json.scanner) (op : json.opcode) :
  JsonText.Blank ws →
  op ≠ json.scanError →
  (∀ c, json.isSpace c = true → json.doStep s c = (s, op)) →
  json.checkValidLoop (ws +:+ rest) s = json.checkValidLoop rest s.
Proof.
  intros Hws Hop Hskip. induction ws as [|c ws IH]; [done|].
  apply Blank_cons in Hws as [Hc Hws].
  rewrite sapp_cons. cbn [json.checkValidLoop].
  rewrite (Hskip _ Hc), decide_False by done. by apply IH.
Qed.

Lemma scanWhileFrom_blank (ws : string) (c : ascii) (rest : string) (c0 : Z)
      (s : json.scanner) :
  JsonText.Blank ws →
  (∀ w, json.isSpace w = true → json.doStep s w = (s, json.scanSkipSpace)) →
  snd (json.doStep s (GoString.byteZ c)) ≠ json.scanSkipSpace →
  json.scanWhileFrom (ws +:+ String c rest) c0 s json.scanSkipSpace
  = (rest, GoString.byteZ c, fst (json.doStep s (GoString.byteZ c)),
     snd (json.doStep s (GoString.byteZ c))).
Proof.
  intros Hws Hskip Hc. revert c0. induction ws as [|w ws IH]; intros c0.
  - change ("" +:+ String c rest) with (String c rest).
    cbn [json.scanWhileFrom].
    destruct (json.doStep s (GoString.byteZ c)) as [s' op]. simpl in *.
    by rewrite decide_False.
  - apply Blank_cons in Hws as [Hw Hws].
    rewrite sapp_cons. cbn [json.scanWhileFrom].
    rewrite (Hskip _ Hw), decide_True by done. by apply IH.
Qed.

(** Inside a string literal the scanner stays inside it. *)
Lemma doStep_inString_char (et er : bool) (ps : list json.parseKind) (c : ascii) :
  0x20 ≤ GoString.byteZ c → c ≠ json.dquote → c ≠ json.bslash →
  json.doStep (json.mkScanner json.stateInString et ps er) (GoString.byteZ c)
  = (json.mkScanner json.stateInString et ps er, json.scanContinue).
Proof.
  intros Hr Hq Hb. cbn. unfold json.do_stateInString.
  assert (GoString.byteZ c ≠ json.ch json.bslash) as Hb'.
  { intros Heq. apply Hb. rewrite <- (byte_of_byteZ c), Heq. done. }
  assert (GoString.byteZ c ≠ json.ch json.dquote) as Hq'.
  { intros Heq. apply Hq. rewrite <- (byte_of_byteZ c), Heq. done. }
  replace (GoString.byteZ c =? json.ch json.bslash) with false
    by (symmetry; by apply Z.eqb_neq).
  replace (GoString.byteZ c =? json.ch json.dquote) with false
    by (symmetry; by apply Z.eqb_neq).
  replace (GoString.byteZ c <? 32) with false
    by (symmetry; apply Z.ltb_ge; lia).
  done.
Qed.

Lemma checkValidLoop_step (c : ascii) (rest : string) (s s' : json.scanner)
      (op : json.opcode) :
  json.doStep s (GoString.byteZ c) = (s', op) → op ≠ json.scanError →
  json.checkValidLoop (String c rest) s = json.checkValidLoop rest s'.
Proof. intros H Hop. cbn [json.checkValidLoop]. by rewrite H, decide_False. Qed.

Lemma doStep_escape (et er : bool) (ps : list json.parseKind) (e : ascii) :
  JsonText.simpleEscape e = true →
  json.doStep (json.mkScanner json.stateInStringEsc et ps er) (GoString.byteZ e)
  = (json.mkScanner json.stateInString et ps er, json.scanContinue).
Proof.
  intros He. cbn. unfold json.do_stateInStringEsc.
  unfold JsonText.simpleEscape in He. by rewrite He.
Qed.

Lemma doStep_hex (st next : json.stepFn) (et er : bool)
      (ps : list json.parseKind) (h : ascii) :
  json.isHex (GoString.byteZ h) = true →
  (st = json.stateInStringEscU ∧ next = json.stateInStringEscU1)
  ∨ (st = json.stateInStringEscU1 ∧ next = json.stateInStringEscU12)
  ∨ (st = json.stateInStringEscU12 ∧ next = json.stateInStringEscU123)
  ∨ (st = json.stateInStringEscU123 ∧ next = json.stateInString) →
  json.doStep (json.mkScanner st et ps er) (GoString.byteZ h)
  = (json.mkScanner next et ps er, json.scanContinue).
Proof.
  intros Hh [[-> ->]|[[-> ->]|[[-> ->]|[-> ->]]]];
    cbn; unfold json.do_hexThen; by rewrite Hh.
Qed.

Lemma checkValidLoop_body (body rest : string) (et er : bool)
      (ps : list json.parseKind) :
  JsonText.StringBody body →
  json.checkValidLoop (body +:+ rest) (json.mkScanner json.stateInString et ps er)
  = json.checkValidLoop rest (json.mkScanner json.stateInString et ps er).
Proof.
  induction 1 as [|c body Hr Hq Hb _ IH|e body He _ IH
                  |h0 h1 h2 h3 body H0 H1 H2 H3 _ IH]; [done|..].
  - rewrite sapp_cons.
    by rewrite (checkValidLoop_step _ _ _ _ _ (doStep_inString_char et er ps c Hr Hq Hb)).
  - rewrite !sapp_cons.
    rewrite (checkValidLoop_step json.bslash _ _
               (json.mkScanner json.stateInStringEsc et ps er) json.scanContinue)
      by done.
    by rewrite (checkValidLoop_step _ _ _ _ _ (doStep_escape et er ps e He)).
  - rewrite !sapp_cons.
    rewrite (checkValidLoop_step json.bslash _ _
               (json.mkScanner json.stateInStringEsc et ps er) json.scanContinue)
      by done.
    rewrite (checkValidLoop_step "u" _ _
               (json.mkScanner json.stateInStringEscU et ps er) json.scanContinue)
      by done.
    rewrite (checkValidLoop_step h0 _ _ _ _
               (doStep_hex _ json.stateInStringEscU1 et er ps h0 H0 ltac:(tauto)))
      by done.
    rewrite (checkValidLoop_step h1 _ _ _ _
               (doStep_hex _ json.stateInStringEscU12 et er ps h1 H1 ltac:(tauto)))
      by done.
    rewrite (checkValidLoop_step h2 _ _ _ _
               (doStep_hex _ json.stateInStringEscU123 et er ps h2 H2 ltac:(tauto)))
      by done.
    by rewrite (checkValidLoop_step h3 _ _ _ _
               (doStep_hex _ json.stateInString et er ps h3 H3 ltac:(tauto))).
Qed.

(** [rescanLiteral] finds the closing quote of a literal. *)
Lemma rescanString_body (body rest : string) :
  JsonText.StringBody body →
  json.rescanString (body +:+ String json.dquote rest)
  = (body +:+ String json.dquote "", rest).
Proof.
  induction 1 as [|c body Hr Hq Hb _ IH|e body He _ IH
                  |h0 h1 h2 h3 body H0 H1 H2 H3 _ IH]; [done|..].
  - rewrite !sapp_cons. cbn [json.rescanString].
    assert (GoString.byteZ c ≠ json.ch json.bslash) as Hb'.
    { intros Heq. apply Hb. rewrite <- (byte_of_byteZ c), Heq. done. }
    assert (GoString.byteZ c ≠ json.ch json.dquote) as Hq'.
    { intros Heq. apply Hq. rewrite <- (byte_of_byteZ c), Heq. done. }
    replace (GoString.byteZ c =? json.ch json.bslash) with false
      by (symmetry; by apply Z.eqb_neq).
    replace (GoString.byteZ c =? json.ch json.dquote) with false
      by (symmetry; by apply Z.eqb_neq).
    by rewrite IH.
  - rewrite !sapp_cons. cbn [json.rescanString].
    change (GoString.byteZ json.bslash =? json.ch json.bslash) with true.
    cbv iota. by rewrite IH.
  - rewrite !sapp_cons. cbn [json.rescanString].
    change (GoString.byteZ json.bslash =? json.ch json.bslash) with true.
    cbv iota.
    assert (∀ h, json.isHex (GoString.byteZ h) = true →
                 (GoString.byteZ h =? json.ch json.bslash) = false
                 ∧ (GoString.byteZ h =? json.ch json.dquote) = false) as Hhex.
    { intros h Hh. split; apply Z.eqb_neq; intros Heq; rewrite Heq in Hh;
        by vm_compute in Hh. }
    destruct (Hhex _ H0) as [E0 E0']. destruct (Hhex _ H1) as [E1 E1'].
    destruct (Hhex _ H2) as [E2 E2']. destruct (Hhex _ H3) as [E3 E3'].
    rewrite ?E0, ?E0', ?E1, ?E1', ?E2, ?E2', ?E3, ?E3'.
    by rewrite IH.
Qed.

(** ** The scanner accepts an array of string literals *)

Lemma sapp_single (c : ascii) (t : string) : String c "" +:+ t = String c t.
Proof. reflexivity. Qed.

Lemma checkValidLoop_literal (lit s rest : string) (st : json.stepFn)
      (ps : list json.parseKind) :
  JsonText.Literal lit s →
  st = json.stateBeginValue ∨ st = json.stateBeginValueOrEmpty →
  json.checkValidLoop (lit +:+ rest) (json.mkScanner st false ps false)
  = json.checkValidLoop rest (json.mkScanner json.stateEndValue false ps false).
Proof.
  intros (body & -> & Hbody & _) Hst.
  rewrite sapp_cons, sapp_assoc, sapp_cons.
  rewrite (checkValidLoop_step json.dquote _ _
             (json.mkScanner json.stateInString false ps false)
             json.scanBeginLiteral)
    by (by destruct Hst as [-> | ->]).
  rewrite checkValidLoop_body by done.
  by rewrite (checkValidLoop_step json.dquote _ _
                (json.mkScanner json.stateEndValue false ps false)
                json.scanContinue).
Qed.

Lemma checkValidLoop_elements (text : string) (l : list string) :
  JsonText.Elements text l →
  ∀ st tail,
    st = json.stateBeginValue ∨ st = json.stateBeginValueOrEmpty →
    json.checkValidLoop (text +:+ tail)
      (json.mkScanner st false [json.parseArrayValue] false)
    = json.checkValidLoop tail (json.mkScanner json.stateEndTop true [] false).
Proof.
  induction 1 as [ws1 lit ws2 s Hws1 Hws2 Hlit
                 |ws1 lit ws2 rest s l Hws1 Hws2 Hlit _ IH]; intros st tail Hst.
  - rewrite !sapp_assoc.
    rewrite (checkValidLoop_blank ws1 _ _ json.scanSkipSpace) by
      (done || destruct Hst as [-> | ->]; intros;
       by (apply skip_beginValue || apply skip_beginValueOrEmpty)).
    rewrite (checkValidLoop_literal lit s) by done.
    rewrite (checkValidLoop_blank ws2 _ _ json.scanSkipSpace) by
      (done || intros; by apply skip_endValue).
    rewrite sapp_single.
    by rewrite (checkValidLoop_step "]" _ _
                  (json.mkScanner json.stateEndTop true [] false)
                  json.scanEndArray).
  - rewrite !sapp_assoc.
    rewrite (checkValidLoop_blank ws1 _ _ json.scanSkipSpace) by
      (done || destruct Hst as [-> | ->]; intros;
       by (apply skip_beginValue || apply skip_beginValueOrEmpty)).
    rewrite (checkValidLoop_literal lit s) by done.
    rewrite (checkValidLoop_blank ws2 _ _ json.scanSkipSpace) by
      (done || intros; by apply skip_endValue).
    rewrite sapp_single.
    rewrite (checkValidLoop_step "," _ _
               (json.mkScanner json.stateBeginValue false
                               [json.parseArrayValue] false)
               json.scanArrayValue) by done.
    apply IH. by left.
Qed.

Lemma checkValid_StringArray (data : string) (l : list string) :
  JsonText.StringArray data l → json.checkValid data = true.
Proof.
  intros Harr. unfold json.checkValid.
  assert (json.checkValidLoop data json.reset
          = Some (json.mkScanner json.stateEndTop true [] false)) as ->; [|done].
  destruct Harr as [ws0 ws1 ws2 Hws0 Hws1 Hws2|ws0 body ws2 l Hws0 Hws2 Hbody].
  - rewrite (checkValidLoop_blank ws0 _ _ json.scanSkipSpace) by
      (done || intros; by apply skip_beginValue).
    rewrite sapp_single.
    rewrite (checkValidLoop_step "[" _ _
               (json.mkScanner json.stateBeginValueOrEmpty false
                               [json.parseArrayValue] false)
               json.scanBeginArray) by done.
    rewrite (checkValidLoop_blank ws1 _ _ json.scanSkipSpace) by
      (done || intros; by apply skip_beginValueOrEmpty).
    rewrite sapp_single.
    rewrite (checkValidLoop_step "]" _ _
               (json.mkScanner json.stateEndTop true [] false)
               json.scanEndArray) by done.
    rewrite <- (sapp_nil_r ws2).
    by rewrite (checkValidLoop_blank ws2 _ _ json.scanEnd) by
      (done || intros; by apply skip_endTop).
  - rewrite (checkValidLoop_blank ws0 _ _ json.scanSkipSpace) by
      (done || intros; by apply skip_beginValue).
    rewrite sapp_single.
    rewrite (checkValidLoop_step "[" _ _
               (json.mkScanner json.stateBeginValueOrEmpty false
                               [json.parseArrayValue] false)
               json.scanBeginArray) by done.
    rewrite (checkValidLoop_elements body l Hbody) by tauto.
    rewrite <- (sapp_nil_r ws2).
    by rewrite (checkValidLoop_blank ws2 _ _ json.scanEnd) by
      (done || intros; by apply skip_endTop).
Qed.

(** ** The decoder on an array of string literals *)

Lemma scanWhile_blank (ws : string) (c : ascii) (rest : string) (c0 : Z)
      (op0 : json.opcode) (s : json.scanner) (se : bool) :
  JsonText.Blank ws →
  (∀ w, json.isSpace w = true → json.doStep s w = (s, json.scanSkipSpace)) →
  snd (json.doStep s (GoString.byteZ c)) ≠ json.scanSkipSpace →
  json.scanWhile json.scanSkipSpace
    {| json.rest := ws +:+ String c rest; json.cur := c0; json.opcode_ := op0;
       json.scan := s; json.savedError := se |}
  = {| json.rest := rest; json.cur := GoString.byteZ c;
       json.opcode_ := snd (json.doStep s (GoString.byteZ c));
       json.scan := fst (json.doStep s (GoString.byteZ c));
       json.savedError := se |}.
Proof.
  intros Hws Hskip Hc. unfold json.scanWhile.
  cbn [json.rest json.cur json.scan json.savedError].
  by rewrite scanWhileFrom_blank.
Qed.

(** After a string literal in an array: the separator, white space before it
    skipped, has been read. *)
Lemma rescanLiteral_string (body ws2 : string) (sep : ascii) (more : string)
      (se : bool) :
  JsonText.StringBody body → JsonText.Blank ws2 →
  sep = ","%char ∨ sep = "]"%char →
  let d := {| json.rest := body +:+ String json.dquote (ws2 +:+ String sep more);
              json.cur := json.ch json.dquote;
              json.opcode_ := json.scanBeginLiteral;
              json.scan := json.mkScanner json.stateInString false
                                          [json.parseArrayValue] false;
              json.savedError := se |} in
  snd (json.rescanLiteral d) = String json.dquote (body +:+ String json.dquote "")
  ∧ (let d1 := fst (json.rescanLiteral d) in
     if decide (json.opcode_ d1 = json.scanSkipSpace)
     then json.scanWhile json.scanSkipSpace d1 else d1)
    = {| json.rest := more;
         json.cur := GoString.byteZ sep;
         json.opcode_ := snd (json.do_stateEndValue
                                (json.mkScanner json.stateEndValue false
                                                [json.parseArrayValue] false)
                                (GoString.byteZ sep));
         json.scan := fst (json.do_stateEndValue
                             (json.mkScanner json.stateEndValue false
                                             [json.parseArrayValue] false)
                             (GoString.byteZ sep));
         json.savedError := se |}.
Proof.
  intros Hbody Hws2 Hsep d. unfold json.rescanLiteral, d.
  cbn [json.cur json.rest json.scan json.savedError].
  change (json.ch json.dquote =? json.ch json.dquote) with true. cbv iota.
  rewrite rescanString_body by done.
  destruct ws2 as [|w ws2].
  - change ("" +:+ String sep more) with (String sep more). cbv iota.
    destruct Hsep as [-> | ->]; (split; [done|]); reflexivity.
  - apply Blank_cons in Hws2 as [Hw Hws2].
    rewrite sapp_cons. cbv iota.
    assert (json.do_stateEndValue
              (json.mkScanner json.stateInString false [json.parseArrayValue] false)
              (GoString.byteZ w)
            = (json.mkScanner json.stateEndValue false [json.parseArrayValue] false,
               json.scanSkipSpace)) as ->.
    { unfold json.do_stateEndValue. cbn. by rewrite Hw. }
    split; [done|].
    cbn [fst json.opcode_]. rewrite decide_True by done.
    unfold json.scanWhile. cbn [json.rest json.cur json.scan json.savedError].
    rewrite scanWhileFrom_blank; [done|done|intros; by apply skip_endValue|].
    destruct Hsep as [-> | ->]; by vm_compute.
Qed.

Lemma doStep_quote (st : json.stepFn) (ps : list json.parseKind) :
  st = json.stateBeginValue ∨ st = json.stateBeginValueOrEmpty →
  json.doStep (json.mkScanner st false ps false) (GoString.byteZ json.dquote)
  = (json.mkScanner json.stateInString false ps false, json.scanBeginLiteral).
Proof. by intros [-> | ->]. Qed.

Lemma Elements_length (text : string) (l : list string) :
  JsonText.Elements text l → (length l ≤ String.length text)%nat.
Proof.
  induction 1 as [ws1 lit ws2 s Hws1 Hws2 (body & -> & _)
                 |ws1 lit ws2 rest s l Hws1 Hws2 (body & -> & _) _ IH].
  - rewrite !slength_app. simpl. lia.
  - rewrite !slength_app. simpl. lia.
Qed.

Lemma elements_shape_last (ws1 body ws2 tail : string) :
  (ws1 +:+ String json.dquote (body +:+ String json.dquote "") +:+ ws2 +:+ "]")
  +:+ tail
  = ws1 +:+ String json.dquote
              (body +:+ String json.dquote (ws2 +:+ String "]" tail)).
Proof.
  rewrite !sapp_assoc, sapp_cons, sapp_assoc. by do 3 f_equal.
Qed.

Lemma elements_shape_more (ws1 body ws2 rest tail : string) :
  (ws1 +:+ String json.dquote (body +:+ String json.dquote "") +:+ ws2 +:+ ","
   +:+ rest) +:+ tail
  = ws1 +:+ String json.dquote
              (body +:+ String json.dquote (ws2 +:+ String "," (rest +:+ tail))).
Proof.
  rewrite !sapp_assoc, sapp_cons, sapp_assoc. by do 3 f_equal.
Qed.

Lemma arrayLoop_elements (text : string) (l : list string) :
  JsonText.Elements text l →
  ∀ fuel st tail c0 op0 v i acc,
    (length l ≤ fuel)%nat →
    st = json.stateBeginValue ∨ st = json.stateBeginValueOrEmpty →
    json.arrayLoop fuel
      {| json.rest := text +:+ tail; json.cur := c0; json.opcode_ := op0;
         json.scan := json.mkScanner st false [json.parseArrayValue] false;
         json.savedError := false |} v i acc
    = ({| json.rest := tail; json.cur := json.ch "]";
          json.opcode_ := json.scanEndArray;
          json.scan := json.mkScanner json.stateEndTop true [] false;
          json.savedError := false |}, rev acc ++ l).
Proof.
  induction 1 as [ws1 lit ws2 s Hws1 Hws2 Hlit
                 |ws1 lit ws2 rest s l Hws1 Hws2 Hlit _ IH];
    intros fuel st tail c0 op0 v i acc Hfuel Hst;
    (destruct fuel as [|fuel]; [simpl in Hfuel; lia|]);
    destruct Hlit as (body & -> & Hbody & Hunq);
    cbn [json.arrayLoop];
    rewrite ?elements_shape_last, ?elements_shape_more;
    (rewrite scanWhile_blank;
     [|done
      |destruct Hst as [-> | ->]; intros;
       by (apply skip_beginValue || apply skip_beginValueOrEmpty)
      |by rewrite doStep_quote]);
    rewrite doStep_quote by done; cbn [fst snd json.opcode_];
    rewrite decide_False by done;
    unfold json.valueString; cbn [json.opcode_].
  - pose proof (rescanLiteral_string body ws2 "]" tail false Hbody Hws2
                  ltac:(tauto)) as [Hitem Hd].
    cbv zeta in Hitem, Hd.
    destruct (json.rescanLiteral _) as [d1 item]. simpl in Hitem, Hd.
    subst item.
    change (GoString.byteZ json.dquote =? json.ch "n") with false.
    change (GoString.byteZ json.dquote =? json.ch json.dquote) with true.
    cbv iota. rewrite Hunq, Hd.
    cbn [json.opcode_]. rewrite decide_True by done.
    done.
  - pose proof (rescanLiteral_string body ws2 "," (rest +:+ tail) false Hbody Hws2
                  ltac:(tauto)) as [Hitem Hd].
    cbv zeta in Hitem, Hd.
    destruct (json.rescanLiteral _) as [d1 item]. simpl in Hitem, Hd.
    subst item.
    change (GoString.byteZ json.dquote =? json.ch "n") with false.
    change (GoString.byteZ json.dquote =? json.ch json.dquote) with true.
    cbv iota. rewrite Hunq, Hd.
    cbn [json.opcode_]. rewrite decide_False by done.
    rewrite decide_True by done.
    etrans; [apply (IH fuel json.stateBeginValue);
             [simpl in Hfuel; lia | by left]|].
    simpl rev. by rewrite <- app_assoc.
Qed.

(** [Unmarshal] on a JSON array of string literals: the strings they stand
    for, in order, and no error. *)
Lemma Unmarshal_StringArray (data : string) (l v : list string) :
  JsonText.StringArray data l → json.Unmarshal data v = (l, None).
Proof.
  intros Harr. unfold json.Unmarshal.
  rewrite (checkValid_StringArray data l Harr). cbn [negb].
  destruct Harr as [ws0 ws1 ws2 Hws0 Hws1 Hws2|ws0 body ws2 l Hws0 Hws2 Hbody].
  - rewrite sapp_single.
    rewrite scanWhile_blank; [|done|intros; by apply skip_beginValue|done].
    change (json.doStep json.reset (GoString.byteZ "["))
      with (json.mkScanner json.stateBeginValueOrEmpty false
                           [json.parseArrayValue] false, json.scanBeginArray).
    cbn [fst snd]. unfold json.valueSlice. cbn [json.opcode_ json.rest].
    cbn [json.arrayLoop].
    rewrite sapp_single.
    rewrite scanWhile_blank;
      [|done|intros; by apply skip_beginValueOrEmpty|done].
    change (json.doStep (json.mkScanner json.stateBeginValueOrEmpty false
                                        [json.parseArrayValue] false)
                        (GoString.byteZ "]"))
      with (json.mkScanner json.stateEndTop true [] false, json.scanEndArray).
    cbn [fst snd json.opcode_]. rewrite decide_True by done.
    unfold json.scanNext. cbn [json.rest json.scan json.savedError].
    destruct ws2; by destruct (json.doStep _ _) || by destruct (json.eof _).
  - rewrite sapp_single.
    rewrite scanWhile_blank; [|done|intros; by apply skip_beginValue|done].
    change (json.doStep json.reset (GoString.byteZ "["))
      with (json.mkScanner json.stateBeginValueOrEmpty false
                           [json.parseArrayValue] false, json.scanBeginArray).
    cbn [fst snd]. unfold json.valueSlice. cbn [json.opcode_ json.rest].
    rewrite (arrayLoop_elements body l Hbody).
    2:{ pose proof (Elements_length body l Hbody).
        rewrite slength_app. lia. }
    2:{ tauto. }
    unfold json.scanNext. cbn [json.rest json.scan json.savedError].
    destruct ws2; by destruct (json.doStep _ _) || by destruct (json.eof _).
Qed.

(** ** What [Marshal] writes, [Unmarshal] reads *)

Lemma Blank_nil : JsonText.Blank "".
Proof. constructor. Qed.

Lemma arrayElems_Elements (l : list string) :
  ∀ s, ∃ u l',
    JsonText.Elements (json.appendString s +:+ json.arrayElems false l +:+ "]")
                      (u :: l')
    ∧ Forall2 (λ s u, utf8.ValidString s = true → u = s) (s :: l) (u :: l').
Proof.
  induction l as [|s' l IH]; intros s;
    destruct (unquote_appendString s) as (u & Hlit & Hu).
  - exists u, []. split; [|by repeat constructor].
    apply (JsonText.elements_last "" (json.appendString s) "" u);
      auto using Blank_nil.
  - destruct (IH s') as (u' & l' & Hel & Hall).
    exists u, (u' :: l'). split; [|by constructor].
    cbn [json.arrayElems]. rewrite !sapp_assoc.
    apply (JsonText.elements_more "" (json.appendString s) "" _ u (u' :: l'));
      auto using Blank_nil.
Qed.

Lemma Marshal_StringArray (l : list string) :
  ∃ l', JsonText.StringArray (json.Marshal l) l'
        ∧ Forall2 (λ s u, utf8.ValidString s = true → u = s) l l'.
Proof.
  destruct l as [|s l].
  - exists []. split; [|constructor].
    apply (JsonText.array_empty "" "" ""); apply Blank_nil.
  - destruct (arrayElems_Elements l s) as (u & l' & Hel & Hall).
    exists (u :: l'). split; [|done].
    unfold json.Marshal. cbn [json.arrayElems].
    replace ("[" +:+ ("" +:+ json.appendString s +:+ json.arrayElems false l)
                 +:+ "]")
      with ("" +:+ "[" +:+ (json.appendString s +:+ json.arrayElems false l
                                +:+ "]") +:+ "").
    + by apply JsonText.array_elements; auto using Blank_nil.
    + rewrite sapp_nil_r. change ("" +:+ ?x) with x. by rewrite !sapp_assoc.
Qed.

Lemma Unmarshal_Marshal (l v : list string) :
  Forall (λ s, utf8.ValidString s = true) l →
  json.Unmarshal (json.Marshal l) v = (l, None).
Proof.
  intros Hvalid. destruct (Marshal_StringArray l) as (l' & Harr & Hall).
  rewrite (Unmarshal_StringArray _ l' v Harr). f_equal.
  clear Harr. induction Hall as [|s u l l' Hu _ IH]; [done|].
  apply Forall_cons in Hvalid as [Hs Hl]. by rewrite (Hu Hs), (IH Hl).
Qed.

Lemma start_reads (homeDir : string) (fs : gmap string string)
      (paste data : string) (l : list string) :
  fs !! Main.filepath_Join homeDir ".multiclip.json" = Some data →
  JsonText.StringArray data l →
  Main.getClips (Main.start homeDir fs paste) = l.
Proof.
  intros Hfile Harr.
  unfold Main.getClips, Main.start, Main.NewClipboardManager, Main.loadClips.
  cbn [Main.clipManager Main.dataFile Main.clips].
  by rewrite Hfile, (Unmarshal_StringArray data l [] Harr).
Qed.

(** ** C9 *)

(** C9 (amended).  For every list of entries that are valid UTF-8, what
    [saveClips] writes and a fresh [NewClipboardManager] then loads is the
    list itself, in the same order. *)
Theorem C9_round_trip_of_valid_utf8 :
  ∀ (cm : Main.ClipboardManager) (homeDir : string)
    (fs : gmap string string) (paste : string),
    Main.dataFile cm = Main.filepath_Join homeDir ".multiclip.json" →
    Forall (λ s, utf8.ValidString s = true) (Main.clips cm) →
    Main.getClips (Main.start homeDir (Main.saveClips cm fs) paste)
    = Main.clips cm.
Proof.
  intros cm homeDir fs paste Hfile Hvalid.
  destruct (Marshal_StringArray (Main.clips cm)) as (l' & Harr & Hall).
  rewrite (start_reads homeDir _ paste (json.Marshal (Main.clips cm)) l').
  - clear Harr. induction Hall as [|s u l l' Hu _ IH]; [done|].
    apply Forall_cons in Hvalid as [Hs Hl]. by rewrite (Hu Hs), (IH Hl).
  - unfold Main.saveClips. rewrite Hfile. apply lookup_insert_eq.
  - exact Harr.
Qed.

Lemma C9_round_trip_witness :
  Main.getClips
    (Main.start "/Users/u"
       (Main.saveClips
          (Main.clipManager
             (foldl Main.addClip
                (HistorySpec.emptyStore
                   "" (Main.filepath_Join "/Users/u" ".multiclip.json") ∅ "")
                ["a<b"; "tab" +:+ String (GoString.byte_of 9) "bed";
                 HistorySpec.blankSample +:+ "x"]))
          ∅) "")
  = ["x"; "tab" +:+ String (GoString.byte_of 9) "bed"; "a<b"].
Proof.
  etrans; [apply C9_round_trip_of_valid_utf8|].
  - by vm_compute.
  - apply (bool_decide_unpack _). vm_compute. exact I.
  - by vm_compute.
Defined.

(** The byte 0xFF is an entry, [addClip] stores it, and the store that
    starts from the file [addClip] wrote holds U+FFFD in its place. *)
Lemma C9_counterexample_stray_byte :
  HistorySpec.entry HistorySpec.stray
  ∧ Main.getClips
      (Main.addClip
         (HistorySpec.emptyStore
            "" (Main.filepath_Join "/Users/u" ".multiclip.json") ∅ "")
         HistorySpec.stray)
    = [HistorySpec.stray]
  ∧ Main.getClips
      (Main.start "/Users/u"
         (Main.files
            (Main.addClip
               (HistorySpec.emptyStore
                  "" (Main.filepath_Join "/Users/u" ".multiclip.json") ∅ "")
               HistorySpec.stray))
         "")
    = [utf8.EncodeRune utf8.RuneError]
  ∧ utf8.EncodeRune utf8.RuneError ≠ HistorySpec.stray.
Proof.
  split; [|split; [|split]].
  - apply (bool_decide_unpack _). vm_compute. exact I.
  - by vm_compute.
  - by vm_compute.
  - by vm_compute.
Qed.

(** ** Every string literal of the grammar stands for a string *)

Lemma StringBody_tail (c : ascii) (s : string) :
  c ≠ json.bslash → JsonText.StringBody (String c s) → JsonText.StringBody s.
Proof. intros Hc Hb. inversion Hb; subst; done. Qed.

Lemma StringBody_drop_high (raw q : string) :
  Forall (λ c, 0x80 ≤ GoString.byteZ c) (String.list_ascii_of_string raw) →
  JsonText.StringBody (raw +:+ q) → JsonText.StringBody q.
Proof.
  induction raw as [|c raw IH]; intros Hhigh Hq; [done|].
  simpl in Hhigh. apply Forall_cons in Hhigh as [Hc Hhigh].
  rewrite sapp_cons in Hq. destruct (high_plain c Hc) as (? & ? & ?).
  apply IH; [done|]. by apply (StringBody_tail c).
Qed.

Lemma StringBody_from_decode (c : ascii) (rest : string) (rr : Z) (size : nat) :
  0x80 ≤ GoString.byteZ c →
  utf8.DecodeRuneInString (String c rest) = (rr, size) →
  JsonText.StringBody (String c rest) →
  JsonText.StringBody (GoString.from size (String c rest)).
Proof.
  intros Hc Hd Hb. destruct (high_plain c Hc) as (? & ? & ?).
  destruct (decode_cases c rest rr size Hd)
    as [(? & _)|[(_ & _ & ->)|(_ & raw & rest' & Heq & -> & Hwf)]]; [lia|..].
  - by apply (StringBody_tail c).
  - rewrite Heq, from_app. rewrite Heq in Hb.
    destruct Hwf as (_ & Hhigh & _). by apply (StringBody_drop_high raw).
Qed.

Lemma hexVal_isHex (c : Z) : json.isHex c = true → 0 ≤ json.hexVal c.
Proof.
  unfold json.isHex, json.hexVal, json.isDigit, json.ch. simpl GoString.byteZ.
  repeat (match goal with
          | |- context [Z.leb ?x ?y] => destruct (Z.leb_spec x y)
          | |- context [Z.ltb ?x ?y] => destruct (Z.ltb_spec x y)
          end; cbn [andb orb negb]); (done || lia).
Qed.

Lemma byteZ_inj (c d : ascii) : GoString.byteZ c = GoString.byteZ d → c = d.
Proof. intros H. by rewrite <- (byte_of_byteZ c), H, byte_of_byteZ. Qed.

Lemma getu4_from (body : string) :
  0 ≤ json.getu4 body → JsonText.StringBody body →
  JsonText.StringBody (GoString.from 6 body).
Proof.
  intros Hu Hb.
  destruct body as [|c0 [|c1 [|h0 [|h1 [|h2 [|h3 body]]]]]];
    try (simpl in Hu; lia).
  unfold json.getu4 in Hu.
  destruct (GoString.byteZ c0 =? json.ch json.bslash) eqn:E0;
    [|simpl in Hu; lia].
  destruct (GoString.byteZ c1 =? json.ch "u") eqn:E1; [|simpl in Hu; lia].
  apply Z.eqb_eq in E0, E1.
  apply (byteZ_inj c0 json.bslash) in E0 as ->.
  apply (byteZ_inj c1 "u") in E1 as ->.
  inversion Hb as [|c b Hr Hq Hs Hb'|e b He Hb'|a0 a1 a2 a3 b ? ? ? ? Hb'];
    subst; [done|by vm_compute in He|done].
Qed.

Lemma getu4_unicode (h0 h1 h2 h3 : ascii) (body : string) :
  json.isHex (GoString.byteZ h0) = true → json.isHex (GoString.byteZ h1) = true →
  json.isHex (GoString.byteZ h2) = true → json.isHex (GoString.byteZ h3) = true →
  0 ≤ json.getu4
        (String json.bslash
           (String "u" (String h0 (String h1 (String h2 (String h3 body)))))).
Proof.
  intros H0%hexVal_isHex H1%hexVal_isHex H2%hexVal_isHex H3%hexVal_isHex.
  unfold json.getu4.
  change (GoString.byteZ json.bslash =? json.ch json.bslash) with true.
  change (GoString.byteZ "u" =? json.ch "u") with true.
  cbn [negb orb]. cbv zeta.
  repeat (match goal with
          | |- context [Z.ltb ?x 0] => destruct (Z.ltb_spec x 0); [lia|]
          end; cbn [orb]).
  lia.
Qed.

Lemma unquoteRest_total (fuel : nat) (s : string) :
  JsonText.StringBody s → is_Some (json.unquoteRest fuel s).
Proof.
  revert s. induction fuel as [|fuel IH]; intros s Hs; [done|].
  inversion Hs as [|c body Hr Hq Hb Hbody|e body He Hbody
                   |h0 h1 h2 h3 body H0 H1 H2 H3 Hbody]; subst.
  - done.
  - destruct (Z.lt_ge_cases (GoString.byteZ c) 0x80) as [Hlow|Hhigh].
    + rewrite unquoteRest_plain by (done || lia).
      apply fmap_is_Some. by apply IH.
    + rewrite unquoteRest_high by done.
      destruct (utf8.DecodeRuneInString (String c body)) as [rr size] eqn:Hd.
      apply fmap_is_Some, IH. by apply StringBody_from_decode with rr.
  - cbn [json.unquoteRest].
    change (GoString.byteZ json.bslash =? json.ch json.bslash) with true.
    cbv iota zeta. unfold JsonText.simpleEscape in He.
    repeat (apply orb_true_iff in He as [He|He]);
      apply Z.eqb_eq in He; rewrite He; cbn [Z.eqb Pos.eqb orb json.ch GoString.byteZ];
      apply fmap_is_Some; by apply IH.
  - pose proof (getu4_unicode h0 h1 h2 h3 body H0 H1 H2 H3) as Hu.
    cbn [json.unquoteRest].
    change (GoString.byteZ json.bslash =? json.ch json.bslash) with true.
    cbv iota zeta.
    change (GoString.byteZ "u") with 117.
    cbn [Z.eqb Pos.eqb orb json.ch GoString.byteZ].
    set (s := String json.bslash _) in *.
    destruct (Z.ltb_spec (json.getu4 s) 0); [lia|].
    change (GoString.from 6 s) with body.
    destruct (utf16.IsSurrogate _); [|by apply fmap_is_Some, IH].
    destruct (negb _) eqn:Hdec; [|by apply fmap_is_Some, IH].
    apply fmap_is_Some, IH, getu4_from; [|done].
    apply negb_true_iff, Z.eqb_neq in Hdec. unfold utf16.DecodeRune in Hdec.
    destruct (_ && _) eqn:Hpair in Hdec; [|done].
    apply andb_true_iff in Hpair as [[_ Hlo]%andb_true_iff _].
    apply Z.leb_le in Hlo. unfold utf16.surr2 in Hlo. lia.
Qed.

Lemma from_add (n m : nat) (s : string) :
  GoString.from (n + m) s = GoString.from m (GoString.from n s).
Proof.
  revert s. induction n as [|n IH]; intros s; [done|].
  destruct s as [|c s]; [by destruct m|]. apply IH.
Qed.

Lemma unquotePlain_suffix (fuel : nat) (s : string) :
  JsonText.StringBody s →
  JsonText.StringBody (GoString.from (json.unquotePlain fuel s) s).
Proof.
  revert s. induction fuel as [|fuel IH]; intros s Hs; [done|].
  destruct s as [|c rest]; [done|]. cbn [json.unquotePlain]. cbv zeta.
  destruct (_ || _) eqn:Hstop; [done|].
  apply orb_false_iff in Hstop as [[Hb%Z.eqb_neq _]%orb_false_iff _].
  assert (c ≠ json.bslash) by (by intros ->).
  destruct (GoString.byteZ c <? utf8.RuneSelf) eqn:Hlow.
  - apply IH. by apply (StringBody_tail c).
  - apply Z.ltb_ge in Hlow.
    destruct (utf8.DecodeRuneInString (String c rest)) as [rr size] eqn:Hd.
    destruct (_ && _); [done|].
    rewrite from_add. apply IH. by apply StringBody_from_decode with rr.
Qed.

(** Every string literal of the grammar stands for a string. *)
Lemma Literal_total (body : string) :
  JsonText.StringBody body → ∃ s, JsonText.Literal (JsonText.quote body) s.
Proof.
  intros Hb.
  assert (is_Some (json.unquote (JsonText.quote body))) as [s Hs].
  { unfold json.unquote, JsonText.quote. rewrite stripQuotes_quoted.
    destruct (_ =? _)%nat; [done|].
    apply fmap_is_Some, unquoteRest_total. by apply unquotePlain_suffix. }
  exists s, body. done.
Qed.

(** ** C10 *)

Ltac string_literal body :=
  exists body; split; [reflexivity|split; [|by vm_compute]];
  repeat (apply JsonText.body_char; [by vm_compute|done|done|]);
  apply JsonText.body_end.

Ltac blank := unfold JsonText.Blank; repeat constructor.

Lemma crowdedFile_StringArray :
  JsonText.StringArray HistorySpec.crowdedFile HistorySpec.crowded.
Proof.
  apply (JsonText.array_elements
           "" (JsonText.quote "a " +:+ ", " +:+ JsonText.quote "b" +:+ ","
               +:+ JsonText.quote "b" +:+ "," +:+ JsonText.quote "c" +:+ ","
               +:+ JsonText.quote "d" +:+ "," +:+ JsonText.quote "e" +:+ "]")
           ""); [blank|blank|].
  apply (JsonText.elements_more
           "" (JsonText.quote "a ") ""
           (" " +:+ JsonText.quote "b" +:+ ","
               +:+ JsonText.quote "b" +:+ "," +:+ JsonText.quote "c" +:+ ","
               +:+ JsonText.quote "d" +:+ "," +:+ JsonText.quote "e" +:+ "]"));
    [blank|blank|string_literal "a "|].
  apply (JsonText.elements_more
           " " (JsonText.quote "b") ""
           (JsonText.quote "b" +:+ "," +:+ JsonText.quote "c" +:+ ","
               +:+ JsonText.quote "d" +:+ "," +:+ JsonText.quote "e" +:+ "]"));
    [blank|blank|string_literal "b"|].
  apply (JsonText.elements_more
           "" (JsonText.quote "b") ""
           (JsonText.quote "c" +:+ ","
               +:+ JsonText.quote "d" +:+ "," +:+ JsonText.quote "e" +:+ "]"));
    [blank|blank|string_literal "b"|].
  apply (JsonText.elements_more
           "" (JsonText.quote "c") ""
           (JsonText.quote "d" +:+ "," +:+ JsonText.quote "e" +:+ "]"));
    [blank|blank|string_literal "c"|].
  apply (JsonText.elements_more
           "" (JsonText.quote "d") "" (JsonText.quote "e" +:+ "]"));
    [blank|blank|string_literal "d"|].
  apply (JsonText.elements_last "" (JsonText.quote "e") "");
    [blank|blank|string_literal "e"].
Qed.

(** C10.  The store that starts from a file holding a JSON array of
    strings has those strings as its entries, as they stand in the file and
    in its order: none trimmed, none dropped as a duplicate, none cut off
    after the fifth.  So when the array holds a string twice, or more than
    five strings, or a string that is not a trimmed non-empty text, the
    invariants of the store fail in its first state. *)
Theorem C10_hydration_is_verbatim :
  ∀ (homeDir : string) (fs : gmap string string) (paste data : string)
    (l : list string),
    fs !! Main.filepath_Join homeDir ".multiclip.json" = Some data →
    JsonText.StringArray data l →
    Main.getClips (Main.start homeDir fs paste) = l
    ∧ (¬ NoDup l ∨ (Main.maxClips < length l)%nat
       ∨ ¬ Forall HistorySpec.entry l
       → ¬ HistorySpec.invariants (Main.start homeDir fs paste)).
Proof.
  intros homeDir fs paste data l Hfile Harr.
  pose proof (start_reads homeDir fs paste data l Hfile Harr) as Hl.
  split; [exact Hl|].
  unfold HistorySpec.invariants. rewrite Hl.
  intros [Hdup | [Hlen | Hentry]] (Hnodup & Hbound & Hall).
  - by apply Hdup.
  - lia.
  - by apply Hentry.
Qed.

Lemma C10_hydration_witness :
  Main.getClips
    (Main.start "/Users/u"
       {[ Main.filepath_Join "/Users/u" ".multiclip.json"
          := HistorySpec.crowdedFile ]} "")
  = HistorySpec.crowded
  ∧ ¬ HistorySpec.invariants
        (Main.start "/Users/u"
           {[ Main.filepath_Join "/Users/u" ".multiclip.json"
              := HistorySpec.crowdedFile ]} "").
Proof.
  pose proof (C10_hydration_is_verbatim
                "/Users/u"
                {[ Main.filepath_Join "/Users/u" ".multiclip.json"
                   := HistorySpec.crowdedFile ]}
                "" HistorySpec.crowdedFile HistorySpec.crowded
                ltac:(by vm_compute) crowdedFile_StringArray) as [Hl Hbad].
  split; [exact Hl|]. apply Hbad. right. left. vm_compute. lia.
Defined.

(** ** Runs of [addClip]: the most recent distinct texts *)

Lemma remove_dups_snoc (l : list string) (x : string) :
  remove_dups (l ++ [x]) = filter (λ y, y ≠ x) (remove_dups l) ++ [x].
Proof.
  induction l as [|y l IH]; cbn [remove_dups app].
  - by destruct (decide_rel elem_of x []) as [?%elem_of_nil|].
  - destruct (decide_rel elem_of y (l ++ [x])) as [Hin'|Hin'];
      destruct (decide_rel elem_of y l) as [Hin|Hin]; rewrite IH.
    + done.
    + apply elem_of_app in Hin' as [?|Hx%list_elem_of_singleton]; [done|].
      subst y. by rewrite filter_cons_False by (by intros ?).
    + destruct Hin'. apply elem_of_app. by left.
    + rewrite filter_cons_True; [done|]. intros ->. apply Hin'.
      apply elem_of_app. right. by apply list_elem_of_singleton.
Qed.

Lemma NoDup_recent (ts : list string) : NoDup (MainLoop.recent ts).
Proof.
  unfold MainLoop.recent. rewrite reverse_Permutation. apply NoDup_remove_dups.
Qed.

Lemma filter_other_absent (x : string) (l : list string) :
  x ∉ l → filter (λ y, y ≠ x) l = l.
Proof.
  induction l as [|y l IH]; [done|]. intros [Hne Hx]%not_elem_of_cons.
  rewrite filter_cons_True by done. f_equal. by apply IH.
Qed.

Lemma removeExisting_filter (x : string) (l : list string) :
  NoDup l → Main.removeExisting x l = filter (λ y, y ≠ x) l.
Proof.
  intros Hnd. induction Hnd as [|y l Hy Hnd IH]; [done|].
  destruct (decide (y = x)) as [->|Hne].
  - rewrite filter_cons_False by (by intros ?).
    rewrite (removeExisting_present x (x :: l) 0) by (done || lia).
    simpl. rewrite drop_0. by rewrite filter_other_absent.
  - rewrite filter_cons_True by done.
    change (y :: l) with ([y] ++ l).
    rewrite removeExisting_app_absent
      by (by intros ?%list_elem_of_singleton).
    simpl. by rewrite IH.
Qed.

Lemma take_filter_other (x : string) (l : list string) (n : nat) :
  NoDup l →
  take n (filter (λ y, y ≠ x) (take (S n) l)) = take n (filter (λ y, y ≠ x) l).
Proof.
  intros Hnd. revert n. induction Hnd as [|y l Hy Hnd IH]; intros n.
  - done.
  - destruct (decide (y = x)) as [->|Hne].
    + cbn [take]. rewrite !filter_cons_False by (by intros ?).
      rewrite !filter_other_absent; [|done|by intros ?%subseteq_take].
      rewrite take_take. f_equal. lia.
    + cbn [take]. rewrite !filter_cons_True by done.
      destruct n as [|n]; [done|]. cbn [take]. f_equal. apply IH.
Qed.

Lemma last_snoc_default (l : list string) (x : string) :
  default "" (last (l ++ [x])) = x.
Proof. by rewrite last_snoc. Qed.

(** From a store with no entries and no last content, the clips after any
    texts are the five most recent distinct observed ones, and the last
    content is the last observed one. *)
Lemma addClip_recent (file paste : string) (fs : gmap string string)
      (texts : list string) :
  Main.getClips
    (foldl Main.addClip (HistorySpec.emptyStore "" file fs paste) texts)
  = take Main.maxClips (MainLoop.recent (MainLoop.observed texts))
  ∧ Main.lastContent
      (Main.clipManager
         (foldl Main.addClip (HistorySpec.emptyStore "" file fs paste) texts))
    = default "" (last (MainLoop.observed texts)).
Proof.
  induction texts as [|x texts IH] using rev_ind; [done|].
  rewrite foldl_app. cbn [foldl].
  set (w := foldl Main.addClip _ texts) in *.
  destruct IH as [Hclips Hlast].
  unfold MainLoop.observed in *. rewrite fmap_app, filter_app. cbn [fmap list_fmap].
  set (ts := filter _ (gostrings.TrimSpace <$> texts)) in *.
  set (t := gostrings.TrimSpace x).
  destruct (decide (t = "")) as [Hempty|Hempty].
  { rewrite addClip_skips by (by left).
    rewrite filter_cons_False, filter_nil, app_nil_r by (by intros ?). done. }
  rewrite filter_cons_True, filter_nil by done.
  rewrite last_snoc_default. unfold MainLoop.recent in *.
  rewrite remove_dups_snoc, reverse_snoc, <- filter_reverse.
  destruct (decide (t = Main.lastContent (Main.clipManager w))) as [Hsame|Hnew].
  { rewrite addClip_skips by (by right). split; [|done].
    rewrite Hclips. rewrite Hlast in Hsame.
    destruct ts as [|t0 ts0 _] using rev_ind; [done|].
    rewrite last_snoc in Hsame. simpl in Hsame. subst t0.
    rewrite remove_dups_snoc, reverse_snoc, <- filter_reverse.
    rewrite filter_cons_False by (by intros ?).
    by rewrite list_filter_filter_l by done. }
  destruct (addClip_stores w x Hempty Hnew) as [-> ->]. split; [|done].
  rewrite Hclips. fold t.
  rewrite removeExisting_filter
    by (eapply sublist_NoDup; [apply (NoDup_recent ts)|apply sublist_take]).
  unfold Main.maxClips. cbn [take]. f_equal.
  apply take_filter_other, (NoDup_recent ts).
Qed.

(** X1.  [addClip] keeps the five most recent distinct texts: from a store
    with no entries and no last content, after any texts whatever the
    clips are the trimmed, non-empty ones among them, each once, the most
    recently seen first, cut after the fifth. *)
Theorem X1_addClip_keeps_the_most_recent_distinct :
  ∀ (file paste : string) (fs : gmap string string) (texts : list string),
    Main.getClips
      (foldl Main.addClip (HistorySpec.emptyStore "" file fs paste) texts)
    = take 5 (MainLoop.recent (MainLoop.observed texts)).
Proof. intros file paste fs texts. apply addClip_recent. Qed.

(** ** The ticker of [monitorClipboard] *)

(** X2.  A clipboard that does not change is recorded once: any number of
    further ticks of [monitorClipboard] leaves the state the first tick
    made. *)
Theorem X2_monitorTick_is_idempotent :
  ∀ (w : Main.World) (n : nat),
    Nat.iter (S n) Main.monitorTick w = Main.monitorTick w.
Proof.
  intros w n. induction n as [|n IH]; [done|].
  change (Nat.iter (S (S n)) Main.monitorTick w)
    with (Main.monitorTick (Nat.iter (S n) Main.monitorTick w)).
  rewrite IH. unfold Main.monitorTick.
  destruct (0 <? GoString.len (Main.pasteboard w)) eqn:Hlen; [|by rewrite Hlen].
  destruct (addClip_cases w (Main.pasteboard w)) as [Hskip|(_ & Hlast & _)].
  - rewrite Hskip, Hlen. exact Hskip.
  - assert (Main.pasteboard (Main.addClip w (Main.pasteboard w))
            = Main.pasteboard w) as Hp.
    { unfold Main.addClip. by case_decide. }
    rewrite Hp, Hlen. apply addClip_skips. right. by rewrite Hlast.
Qed.

(** ** The data file follows the store *)






(** ** Runs of [AddItem] *)

Lemma AddItem_run (texts : list string) :
  NoDup (MulticlipLoop.accepted texts) →
  Multiclip.history (foldl Multiclip.AddItem Multiclip.NewClipboardManager texts)
  = take 5 (reverse (MulticlipLoop.accepted texts))
  ∧ Multiclip.maxSize
      (foldl Multiclip.AddItem Multiclip.NewClipboardManager texts) = 5%nat.
Proof.
  induction texts as [|x texts IH] using rev_ind; [done|]. intros Hnd.
  rewrite foldl_app. cbn [foldl].
  set (cm := foldl Multiclip.AddItem _ texts) in *.
  unfold MulticlipLoop.accepted in *.
  rewrite fmap_app, filter_app in *. cbn [fmap list_fmap] in *.
  set (ts := filter _ (gostrings.TrimSpace <$> texts)) in *.
  set (t := gostrings.TrimSpace x) in *.
  destruct (decide (t ≠ "" ∧ GoString.len t ≤ 200)) as [Hok|Hbad].
  - rewrite filter_cons_True, filter_nil in * by done.
    apply NoDup_app in Hnd as (Hnd & Hdisj & _).
    destruct (IH Hnd) as [Hh Hm].
    assert (t ∉ Multiclip.history cm) as Hfresh.
    { rewrite Hh. intros Hin%subseteq_take. rewrite elem_of_reverse in Hin.
      apply (Hdisj t Hin). by left. }
    unfold Multiclip.AddItem. fold t.
    rewrite decide_False by (intros [?|?]; [tauto|lia]).
    rewrite decide_False by done.
    cbn [Multiclip.history Multiclip.maxSize]. rewrite Hm, Hh. split; [|done].
    rewrite reverse_snoc. cbn [app].
    case_decide as Hlen.
    + cbn [take]. f_equal. rewrite take_take. f_equal.
    + cbn [take]. f_equal. cbn [length] in Hlen. rewrite length_take in Hlen.
      rewrite !take_ge by lia. done.
  - rewrite filter_cons_False, filter_nil, app_nil_r in * by done.
    destruct (IH Hnd) as [Hh Hm]. unfold Multiclip.AddItem. fold t.
    rewrite decide_True; [done|].
    destruct (decide (t = "")); [by left|right].
    destruct (Z.le_gt_cases (GoString.len t) 200); [tauto|lia].
Qed.

(** X4.  [AddItem] keeps the five texts accepted last: when the trimmed
    texts of at most 200 bytes among those added are pairwise distinct,
    the history after them is their last five, the latest first. *)
Theorem X4_AddItem_keeps_the_last_five_accepted :
  ∀ texts : list string,
    NoDup (MulticlipLoop.accepted texts) →
    Multiclip.GetHistory
      (foldl Multiclip.AddItem Multiclip.NewClipboardManager texts)
    = take 5 (reverse (MulticlipLoop.accepted texts)).
Proof. intros texts Hnd. by apply AddItem_run. Qed.

Lemma X4_AddItem_keeps_the_last_five_accepted_witness :
  Multiclip.GetHistory
    (foldl Multiclip.AddItem Multiclip.NewClipboardManager
           ["a"; " b"; "   "; "c"; "d"; "e "; "f"])
  = ["f"; "e"; "d"; "c"; "b"].
Proof.
  etrans; [apply X4_AddItem_keeps_the_last_five_accepted|by vm_compute].
  apply (bool_decide_unpack _). by vm_compute.
Defined.

(** ** Snapshots that stay as they were *)

(** X5.  [GetHistory] returns a copy: the slice it returns reads as the
    history, and reads the same after any later calls of [AddItem]. *)
Theorem X5_GetHistory_returns_an_independent_copy :
  ∀ (growCap : nat → nat → nat) (w : MulticlipSlices.World)
    (texts : list string),
    (∀ old need, (need ≤ growCap old need)%nat) →
    MulticlipSlices.wf w →
    Slices.elems (MulticlipSlices.heap_ (fst (MulticlipSlices.GetHistory w)))
                 (snd (MulticlipSlices.GetHistory w))
    = Multiclip.GetHistory (MulticlipSlices.abstract w)
    ∧ Slices.elems
        (MulticlipSlices.heap_
           (foldl (MulticlipSlices.AddItem growCap)
                  (fst (MulticlipSlices.GetHistory w)) texts))
        (snd (MulticlipSlices.GetHistory w))
      = Multiclip.GetHistory (MulticlipSlices.abstract w)
    ∧ MulticlipSlices.abstract
        (foldl (MulticlipSlices.AddItem growCap)
               (fst (MulticlipSlices.GetHistory w)) texts)
      = foldl Multiclip.AddItem (MulticlipSlices.abstract w) texts.
Proof.
  intros growCap w texts Hfits Hwf.
  pose proof (GetHistory_copies w Hwf) as Hcopy.
  destruct (MulticlipSlices.GetHistory w) as [w1 snapshot].
  destruct Hcopy as (Hwf1 & Hvalid & Helems & Habs). cbn [fst snd].
  split; [done|]. split.
  - by rewrite (GetHistory_independent growCap Hfits texts w1 snapshot).
  - rewrite <- Habs. clear Helems Habs Hvalid.
    revert w1 Hwf1. induction texts as [|x texts IH]; intros w1 Hwf1; [done|].
    cbn [foldl]. rewrite <- (AddItem_refines growCap Hfits w1 x Hwf1).
    apply IH. by apply (AddItem_frame growCap Hfits w1 x (MulticlipSlices.history (MulticlipSlices.clipManager w1))).
Qed.

Lemma X5_GetHistory_returns_an_independent_copy_witness :
  Slices.elems
    (MulticlipSlices.heap_
       (foldl (MulticlipSlices.AddItem Slices.exactFit)
          (fst (MulticlipSlices.GetHistory
                  (foldl (MulticlipSlices.AddItem Slices.exactFit)
                         MulticlipSlices.start ["a"; "b"])))
          ["c"; "d"; "e"; "f"]))
    (snd (MulticlipSlices.GetHistory
            (foldl (MulticlipSlices.AddItem Slices.exactFit)
                   MulticlipSlices.start ["a"; "b"])))
  = ["b"; "a"].
Proof.
  refine (eq_trans
            (proj1 (proj2 (X5_GetHistory_returns_an_independent_copy
               Slices.exactFit
               (foldl (MulticlipSlices.AddItem Slices.exactFit)
                      MulticlipSlices.start ["a"; "b"])
               ["c"; "d"; "e"; "f"] _ _))) _).
  - intros old need. unfold Slices.exactFit. lia.
  - apply (bool_decide_unpack _). by vm_compute.
  - by vm_compute.
Defined.

(** X6.  In [src/main.go] the slice that [getClips] returned keeps reading
    the same through the insert of a text that is not among the clips and
    through a click on "Clear History": neither writes into the array the
    slice points to. *)
Theorem X6_getClips_result_survives_a_new_text_and_a_clear :
  ∀ (growCap : nat → nat → nat) (w : MainSlices.World) (text : string),
    (∀ old need, (need ≤ growCap old need)%nat) →
    MainSlices.wf w →
    (gostrings.TrimSpace text
     ∉ Slices.elems (MainSlices.heap_ w) (MainSlices.getClips w) →
     Slices.elems (MainSlices.heap_ (MainSlices.addClip growCap w text))
                  (MainSlices.getClips w)
     = Slices.elems (MainSlices.heap_ w) (MainSlices.getClips w))
    ∧ Slices.elems (MainSlices.heap_ (MainSlices.clearHistory w))
                   (MainSlices.getClips w)
      = Slices.elems (MainSlices.heap_ w) (MainSlices.getClips w).
Proof.
  intros growCap w text Hfits Hwf. split.
  - intros Hfresh. by apply addClip_frame_when_absent.
  - by apply clearHistory_frame.
Qed.

Lemma X6_getClips_result_survives_witness :
  Slices.elems
    (MainSlices.heap_
       (MainSlices.addClip Slices.exactFit
          (foldl (MainSlices.addClip Slices.exactFit)
                 (MainSlices.start Slices.exactFit "" ∅ "") ["a"; "b"; "c"])
          "d"))
    (MainSlices.getClips
       (foldl (MainSlices.addClip Slices.exactFit)
              (MainSlices.start Slices.exactFit "" ∅ "") ["a"; "b"; "c"]))
  = ["c"; "b"; "a"].
Proof.
  refine (eq_trans
            (proj1 (X6_getClips_result_survives_a_new_text_and_a_clear
               Slices.exactFit
               (foldl (MainSlices.addClip Slices.exactFit)
                      (MainSlices.start Slices.exactFit "" ∅ "") ["a"; "b"; "c"])
               "d" _ _) _) _).
  - intros old need. unfold Slices.exactFit. lia.
  - apply (bool_decide_unpack _). by vm_compute.
  - apply (bool_decide_unpack _). by vm_compute.
  - by vm_compute.
Defined.

(** ** [utf8.DecodeLastRuneInString]: the last rune and the bytes before it *)

Lemma string_snoc_inv (p : string) :
  p ≠ "" → ∃ p' c, p = p' +:+ String c "".
Proof.
  induction p as [|x p IH]; [done|]. intros _.
  destruct p as [|y p].
  - by exists "", x.
  - destruct IH as (p' & c & Hp); [done|]. exists (String x p'), c.
    by rewrite sapp_cons, <- Hp.
Qed.

Lemma get_app_length (p0 : string) (c : ascii) (rest : string) :
  String.get (String.length p0) (p0 +:+ String c rest) = Some c.
Proof. induction p0 as [|x p0 IH]; [done|]. rewrite sapp_cons. exact IH. Qed.

Lemma at_app_length (p0 : string) (c : ascii) (rest : string) :
  GoString.at_ (p0 +:+ String c rest) (String.length p0) = GoString.byteZ c.
Proof. unfold GoString.at_. by rewrite get_app_length. Qed.

Lemma lastRuneStart_le (fuel : nat) (s : string) (start lim : Z) :
  utf8.lastRuneStart fuel s start lim ≤ start.
Proof.
  revert start. induction fuel as [|fuel IH]; intros start; cbn; [lia|].
  destruct (start <? lim); [lia|]. destruct (utf8.RuneStart _); [lia|].
  specialize (IH (start - 1)). lia.
Qed.

Lemma decode_size (s : string) (r : Z) (size : nat) :
  s ≠ "" → utf8.DecodeRuneInString s = (r, size) →
  (1 ≤ size ≤ String.length s)%nat.
Proof.
  intros Hs Hd. destruct s as [|c rest]; [done|].
  destruct (decode_cases c rest r size Hd)
    as [(_ & _ & ->)|[(_ & _ & ->)|(_ & raw & rest' & Heq & -> & Hwf)]];
    cbn [String.length]; try lia.
  destruct Hwf as (Hlen & _). apply (f_equal String.length) in Heq.
  rewrite slength_app in Heq. cbn [String.length] in Heq. lia.
Qed.

(** The last rune of a string that is not empty is its last byte when
    that is ASCII, or an encoding error of width 1, or what decoding the
    last [size] bytes gives. *)
Lemma DecodeLast_split (p : string) (r : Z) (size : nat) :
  p ≠ "" → utf8.DecodeLastRuneInString p = (r, size) →
  ∃ p0 p1, p = p0 +:+ p1 ∧ String.length p1 = size ∧ p1 ≠ ""
    ∧ ((∃ c, p1 = String c "" ∧ r = GoString.byteZ c ∧ GoString.byteZ c < 0x80)
       ∨ (∃ c, p1 = String c "" ∧ r = utf8.RuneError ∧ 0x80 ≤ GoString.byteZ c)
       ∨ utf8.DecodeRuneInString p1 = (r, size)).
Proof.
  intros Hp Hd. destruct (string_snoc_inv p Hp) as (p' & c & Heq).
  unfold utf8.DecodeLastRuneInString in Hd.
  assert (GoString.len p = Z.of_nat (String.length p') + 1) as Hlen.
  { unfold GoString.len. rewrite Heq, slength_app. simpl. lia. }
  replace (GoString.len p =? 0) with false in Hd by (symmetry; apply Z.eqb_neq; lia).
  replace (Z.to_nat (GoString.len p - 1)) with (String.length p') in Hd by lia.
  assert (GoString.at_ p (String.length p') = GoString.byteZ c) as Hat
    by (rewrite Heq; apply at_app_length).
  rewrite Hat in Hd.
  destruct (GoString.byteZ c <? utf8.RuneSelf) eqn:Hc.
  { injection Hd as <- <-. apply Z.ltb_lt in Hc.
    exists p', (String c ""). split; [done|]. split; [done|]. split; [done|].
    left. exists c. split; [done|]. split; [done|]. exact Hc. }
  apply Z.ltb_ge in Hc. unfold utf8.RuneSelf in Hc.
  set (st := utf8.lastRuneStart _ _ _ _) in Hd.
  pose proof (lastRuneStart_le (Z.to_nat utf8.UTFMax) p (GoString.len p - 1 - 1)
                (Z.max (GoString.len p - utf8.UTFMax) 0)) as Hst.
  fold st in Hst.
  set (st' := if st <? 0 then 0 else st) in Hd.
  assert (0 ≤ st' ≤ Z.of_nat (String.length p') - 1 ∨ (st' = 0)) as Hst'.
  { unfold st'. destruct (Z.ltb_spec st 0); lia. }
  destruct (utf8.DecodeRuneInString (GoString.from (Z.to_nat st') p))
    as [r' size'] eqn:Hdec.
  destruct (negb _) eqn:Hend in Hd.
  { injection Hd as <- <-.
    exists p', (String c ""). split; [done|]. split; [done|]. split; [done|].
    right. left. exists c. split; [done|]. split; [done|]. exact Hc. }
  injection Hd as <- <-.
  apply negb_false_iff, Z.eqb_eq in Hend.
  exists (GoString.upto (Z.to_nat st') p), (GoString.from (Z.to_nat st') p).
  assert (GoString.from (Z.to_nat st') p ≠ "") as Hne.
  { intros Hnil. apply (f_equal String.length) in Hnil.
    rewrite slength_from in Hnil. simpl in Hnil. unfold GoString.len in Hlen. lia. }
  split; [by rewrite upto_from|]. split; [|split; [done|by right; right]].
  rewrite slength_from. unfold GoString.len in *. lia.
Qed.

(** ** Decoding a leading byte that no continuation byte follows *)

Lemma decode_high_alone (c : ascii) (rest : string) :
  0x80 ≤ GoString.byteZ c →
  (∀ d rest', rest = String d rest' → utf8.continuation (GoString.byteZ d) = false) →
  utf8.DecodeRuneInString (String c rest) = (utf8.RuneError, 1%nat).
Proof.
  intros Hc Hnc. rewrite decode_table. unfold utf8.decodeByTable.
  replace (GoString.byteZ c <? 128) with false by (symmetry; apply Z.ltb_ge; lia).
  destruct (_ || _); [done|].
  destruct rest as [|d rest']; [by repeat case_match|].
  pose proof (Hnc d rest' eq_refl) as Hd.
  assert ((utf8.secondLo (GoString.byteZ c) <=? GoString.byteZ d)
          && (GoString.byteZ d <=? utf8.secondHi (GoString.byteZ c)) = false) as H2.
  { unfold utf8.continuation in Hd. unfold utf8.secondLo, utf8.secondHi.
    apply andb_false_iff in Hd as [Hd%Z.leb_gt|Hd%Z.leb_gt];
      apply andb_false_iff; [left|right]; apply Z.leb_gt;
      repeat case_match; lia. }
  rewrite Hd. destruct (_ <? 224); [done|].
  destruct (_ <? 240).
  - destruct rest' as [|e rest'']; [done|]. by rewrite H2.
  - destruct rest' as [|e [|f rest'']]; [done..|]. by rewrite H2.
Qed.

Lemma decode_lead (c : ascii) (rest : string) (r : Z) (size : nat) :
  utf8.DecodeRuneInString (String c rest) = (r, size) →
  (2 ≤ size)%nat → utf8.continuation (GoString.byteZ c) = false.
Proof.
  rewrite decode_table. unfold utf8.decodeByTable, utf8.continuation.
  intros Hd Hsize.
  destruct (GoString.byteZ c <? 128) eqn:H1; [injection Hd as _ <-; lia|].
  destruct (_ || _) eqn:H2; [injection Hd as _ <-; lia|].
  apply orb_false_iff in H2 as [H2%Z.ltb_ge _].
  apply andb_false_iff. right. apply Z.leb_gt. lia.
Qed.

(** The first byte of a rune that is white space is no continuation
    byte. *)
Lemma space_rune_start (c : ascii) (rest : string) (r : Z) (size : nat) :
  utf8.DecodeRuneInString (String c rest) = (r, size) →
  unicode.IsSpace r = true →
  utf8.continuation (GoString.byteZ c) = false.
Proof.
  intros Hd Hsp.
  destruct (decode_cases c rest r size Hd)
    as [(Hc & _)|[(_ & -> & _)|(_ & raw & rest' & Heq & -> & Hwf)]].
  - unfold utf8.continuation. apply andb_false_iff. left. apply Z.leb_gt. lia.
  - by vm_compute in Hsp.
  - apply (decode_lead c rest r (String.length raw) Hd). destruct Hwf. lia.
Qed.

(** ** [TrimRightFunc] with [unicode.IsSpace] *)

Lemma startsRune_nil : Trim.startsRune "".
Proof. by intros d rest. Qed.

(** Where [lastIndexFunc] stops, the text ends after the rune found. *)
Lemma TrimRightFunc_found (p0 p1 q : string) (r : Z) :
  p1 ≠ "" →
  ((∃ c, p1 = String c "" ∧ r = GoString.byteZ c ∧ GoString.byteZ c < 0x80)
   ∨ (∃ c, p1 = String c "" ∧ r = utf8.RuneError ∧ 0x80 ≤ GoString.byteZ c)
   ∨ utf8.DecodeRuneInString p1 = (r, String.length p1)) →
  Trim.startsRune q →
  gostrings.lastIndexFunc (p0 +:+ p1 +:+ q) unicode.IsSpace false
  = GoString.len p0 →
  gostrings.TrimRightFunc (p0 +:+ p1 +:+ q) unicode.IsSpace = p0 +:+ p1.
Proof.
  intros Hp1 Hcases Hq Hidx. unfold gostrings.TrimRightFunc. rewrite Hidx.
  unfold GoString.len. rewrite Nat2Z.id.
  replace (Z.of_nat (String.length p0) >=? 0) with true
    by (symmetry; apply Z.geb_le; lia).
  cbn [andb]. destruct p1 as [|c p1']; [done|].
  rewrite sapp_cons, at_app_length, from_app.
  assert (∀ n, n = String.length (String c p1') →
               GoString.upto (Z.to_nat (Z.of_nat (String.length p0) + Z.of_nat n))
                             (p0 +:+ String c (p1' +:+ q))
               = p0 +:+ String c p1') as Hupto.
  { intros n ->. rewrite <- Nat2Z.inj_add, Nat2Z.id, upto_app_add. f_equal.
    rewrite <- sapp_cons. apply upto_app. }
  destruct (GoString.byteZ c >=? utf8.RuneSelf) eqn:Hc.
  - apply Z.geb_le in Hc. unfold utf8.RuneSelf in Hc.
    assert (utf8.DecodeRuneInString (String c (p1' +:+ q))
            = (r, String.length (String c p1'))) as ->; [|by apply Hupto].
    destruct Hcases as [(c' & [= -> ->] & _ & ?)|[(c' & [= -> ->] & -> & _)|Hd]].
    + lia.
    + by apply decode_high_alone.
    + destruct (decode_cases c p1' r _ Hd)
        as [(? & _)|[(_ & -> & Hsize)|(_ & raw & rest' & Heq & Hsize & Hwf)]].
      * lia.
      * cbn [String.length] in Hsize. destruct p1'; [|done].
        by apply decode_high_alone.
      * assert (rest' = "") as ->.
        { apply (f_equal String.length) in Heq. rewrite slength_app in Heq.
          destruct rest'; [done|]. simpl in *. lia. }
        rewrite sapp_nil_r in Heq. rewrite <- sapp_cons, Heq.
        destruct Hwf as (_ & _ & _ & Hdec). apply Hdec.
  - replace (Z.of_nat (String.length p0) + 1)
      with (Z.of_nat (String.length p0) + Z.of_nat 1) by lia.
    apply Hupto. rewrite Z.geb_leb in Hc. apply Z.leb_gt in Hc.
    unfold utf8.RuneSelf in Hc.
    destruct Hcases as [(c' & [= -> ->] & _)|[(c' & [= -> ->] & _ & ?)|Hd]]; [done|lia|].
    rewrite DecodeRuneInString_ascii in Hd by done. exact (f_equal snd Hd).
Qed.

Lemma upto_length_app (p q : string) :
  GoString.upto (Z.to_nat (GoString.len p)) (p +:+ q) = p.
Proof. unfold GoString.len. rewrite Nat2Z.id. apply upto_app. Qed.

(** [lastIndexFunc], walking down from the end of [p] in [p ++ q]: it finds
    no rune, or it stops before a rune [p1] that is no white space, and
    what follows [p1] starts a rune. *)
Lemma lastIndexFuncFrom_found (fuel : nat) (p q : string) :
  (String.length p ≤ fuel)%nat → Trim.startsRune q →
  gostrings.lastIndexFuncFrom fuel (p +:+ q) (GoString.len p) unicode.IsSpace false
  = -1
  ∨ ∃ p0 p1 q' r,
      p +:+ q = p0 +:+ p1 +:+ q'
      ∧ gostrings.lastIndexFuncFrom fuel (p +:+ q) (GoString.len p)
                                    unicode.IsSpace false
        = GoString.len p0
      ∧ p1 ≠ ""
      ∧ utf8.DecodeLastRuneInString (p0 +:+ p1) = (r, String.length p1)
      ∧ unicode.IsSpace r = false
      ∧ Trim.startsRune q'
      ∧ ((∃ c, p1 = String c "" ∧ r = GoString.byteZ c ∧ GoString.byteZ c < 0x80)
         ∨ (∃ c, p1 = String c "" ∧ r = utf8.RuneError ∧ 0x80 ≤ GoString.byteZ c)
         ∨ utf8.DecodeRuneInString p1 = (r, String.length p1)).
Proof.
  revert p q. induction fuel as [|fuel IH]; intros p q Hfuel Hq; [by left|].
  cbn [gostrings.lastIndexFuncFrom].
  destruct (decide (p = "")) as [->|Hp]; [by left|].
  replace (GoString.len p >? 0) with true.
  2:{ symmetry. apply Z.gtb_lt. unfold GoString.len. destruct p; [done|]. simpl. lia. }
  rewrite upto_length_app.
  destruct (utf8.DecodeLastRuneInString p) as [r size] eqn:Hlast.
  destruct (DecodeLast_split p r size Hp Hlast)
    as (p0 & p1 & -> & <- & Hp1 & Hcases).
  replace (GoString.len (p0 +:+ p1) - Z.of_nat (String.length p1))
    with (GoString.len p0) by (unfold GoString.len; rewrite slength_app; lia).
  destruct (unicode.IsSpace r) eqn:Hsp; cbn [Bool.eqb].
  - rewrite sapp_assoc.
    destruct (IH p0 (p1 +:+ q)) as [Hnone|(a0 & a1 & q' & r' & H)].
    + rewrite slength_app in Hfuel. destruct p1; [done|]. simpl in Hfuel. lia.
    + intros d rest Heq. destruct p1 as [|c p1']; [done|].
      rewrite sapp_cons in Heq. injection Heq as <- _.
      destruct Hcases as [(c' & [= -> ->] & _ & ?)|[(c' & [= -> ->] & -> & _)|Hd]].
      * unfold utf8.continuation. apply andb_false_iff. left. apply Z.leb_gt. lia.
      * by vm_compute in Hsp.
      * by apply (space_rune_start c p1' r _ Hd).
    + by left.
    + right. by exists a0, a1, q', r'.
  - right. exists p0, p1, q, r. by rewrite sapp_assoc.
Qed.

(** [TrimRightFunc] with [unicode.IsSpace] returns the empty text or a
    text whose last rune is no white space; the text is a prefix of the
    argument. *)
Lemma TrimRightFunc_IsSpace (t : string) :
  ∃ q, t = gostrings.TrimRightFunc t unicode.IsSpace +:+ q
       ∧ (gostrings.TrimRightFunc t unicode.IsSpace = ""
          ∨ unicode.IsSpace
              (fst (utf8.DecodeLastRuneInString
                      (gostrings.TrimRightFunc t unicode.IsSpace))) = false).
Proof.
  destruct (lastIndexFuncFrom_found (String.length t) t "" ltac:(done)
              startsRune_nil) as [Hnone|(p0 & p1 & q & r & Heq & Hres & Hp1 & Hlast & Hsp & Hq & Hcases)].
  - rewrite sapp_nil_r in Hnone.
    assert (gostrings.TrimRightFunc t unicode.IsSpace = "") as ->.
    { unfold gostrings.TrimRightFunc, gostrings.lastIndexFunc. rewrite Hnone.
      cbn. by destruct t. }
    exists t. split; [done|by left].
  - rewrite sapp_nil_r in Heq, Hres. subst t.
    rewrite (TrimRightFunc_found p0 p1 q r Hp1 Hcases Hq Hres).
    exists q. split; [by rewrite sapp_assoc|]. right. by rewrite Hlast.
Qed.

(** On a text whose last rune is no white space [TrimRightFunc] changes
    nothing. *)
Lemma TrimRightFunc_id (t : string) :
  t ≠ "" →
  unicode.IsSpace (fst (utf8.DecodeLastRuneInString t)) = false →
  gostrings.TrimRightFunc t unicode.IsSpace = t.
Proof.
  intros Ht Hsp.
  destruct (utf8.DecodeLastRuneInString t) as [r size] eqn:Hlast.
  destruct (DecodeLast_split t r size Ht Hlast)
    as (p0 & p1 & -> & <- & Hp1 & Hcases).
  cbn [fst] in Hsp.
  rewrite <- (sapp_nil_r (p0 +:+ p1)) at 1. rewrite sapp_assoc.
  rewrite (TrimRightFunc_found p0 p1 "" r Hp1 Hcases startsRune_nil); [done|].
  rewrite sapp_nil_r. unfold gostrings.lastIndexFunc.
  destruct (String.length (p0 +:+ p1)) as [|n] eqn:Hn.
  { rewrite slength_app in Hn. destruct p1; [done|]. simpl in Hn. lia. }
  cbn [gostrings.lastIndexFuncFrom].
  replace (GoString.len (p0 +:+ p1) >? 0) with true
    by (symmetry; apply Z.gtb_lt; unfold GoString.len; lia).
  rewrite <- (sapp_nil_r (p0 +:+ p1)) at 2. rewrite upto_length_app, Hlast, Hsp.
  cbn [Bool.eqb]. unfold GoString.len. rewrite slength_app. lia.
Qed.

(** ** [TrimLeftFunc] with [unicode.IsSpace] *)

Lemma indexFuncFrom_found (fuel : nat) (s : string) (base : Z) :
  gostrings.indexFuncFrom fuel s base unicode.IsSpace false = -1
  ∨ ∃ k, gostrings.indexFuncFrom fuel s base unicode.IsSpace false
         = base + Z.of_nat k
         ∧ GoString.from k s ≠ ""
         ∧ unicode.IsSpace (fst (utf8.DecodeRuneInString (GoString.from k s)))
           = false.
Proof.
  revert s base. induction fuel as [|fuel IH]; intros s base; [by left|].
  cbn [gostrings.indexFuncFrom]. destruct s as [|c rest]; [by left|].
  destruct (utf8.DecodeRuneInString (String c rest)) as [r size] eqn:Hd.
  destruct (unicode.IsSpace r) eqn:Hsp; cbn [Bool.eqb].
  - destruct (IH (GoString.from size (String c rest)) (base + Z.of_nat size))
      as [Hnone|(k & Hres & Hne & Hk)]; [by left|].
    right. exists (size + k)%nat. rewrite from_add. split; [|done].
    rewrite Hres. lia.
  - right. exists 0%nat. cbn [GoString.from]. rewrite Hd.
    split; [lia|done].
Qed.

Lemma TrimLeftFunc_IsSpace (s : string) :
  gostrings.TrimLeftFunc s unicode.IsSpace = ""
  ∨ unicode.IsSpace
      (fst (utf8.DecodeRuneInString (gostrings.TrimLeftFunc s unicode.IsSpace)))
    = false.
Proof.
  unfold gostrings.TrimLeftFunc, gostrings.indexFunc.
  destruct (indexFuncFrom_found (String.length s) s 0)
    as [->|(k & -> & Hne & Hk)]; [by left|].
  replace (0 + Z.of_nat k =? -1) with false by (symmetry; apply Z.eqb_neq; lia).
  right. by replace (Z.to_nat (0 + Z.of_nat k)) with k by lia.
Qed.

Lemma TrimLeftFunc_id (s : string) :
  s ≠ "" →
  unicode.IsSpace (fst (utf8.DecodeRuneInString s)) = false →
  gostrings.TrimLeftFunc s unicode.IsSpace = s.
Proof.
  intros Hs Hsp. unfold gostrings.TrimLeftFunc, gostrings.indexFunc.
  destruct s as [|c rest]; [done|]. cbn [String.length gostrings.indexFuncFrom].
  destruct (utf8.DecodeRuneInString (String c rest)) as [r size].
  cbn [fst] in Hsp. by rewrite Hsp.
Qed.

(** The first rune of a prefix is the first rune of the text, or an
    encoding error. *)
Lemma first_rune_prefix (t q : string) :
  t ≠ "" →
  unicode.IsSpace (fst (utf8.DecodeRuneInString (t +:+ q))) = false →
  unicode.IsSpace (fst (utf8.DecodeRuneInString t)) = false.
Proof.
  intros Ht Hsp. destruct t as [|c rest]; [done|].
  destruct (utf8.DecodeRuneInString (String c rest)) as [r size] eqn:Hd.
  destruct (decode_cases c rest r size Hd)
    as [(Hc & -> & _)|[(_ & -> & _)|(_ & raw & rest' & Heq & -> & Hwf)]].
  - rewrite sapp_cons, DecodeRuneInString_ascii in Hsp by done. exact Hsp.
  - done.
  - rewrite Heq, sapp_assoc in Hsp. destruct Hwf as (_ & _ & _ & Hdec).
    by rewrite Hdec in Hsp.
Qed.

Lemma Trimmed_TrimRightFunc (t : string) :
  t = "" ∨ unicode.IsSpace (fst (utf8.DecodeRuneInString t)) = false →
  Trim.Trimmed (gostrings.TrimRightFunc t unicode.IsSpace).
Proof.
  intros Hfirst. destruct (TrimRightFunc_IsSpace t) as (q & Heq & [Hnil|Hlast]).
  - by left.
  - destruct (decide (gostrings.TrimRightFunc t unicode.IsSpace = ""))
      as [Hnil|Hne]; [by left|].
    right. split; [|done]. apply (first_rune_prefix _ q Hne).
    rewrite <- Heq. destruct Hfirst as [->|Hfirst]; [|done].
    by destruct (gostrings.TrimRightFunc "" unicode.IsSpace).
Qed.

Lemma Trimmed_TrimFunc (s : string) :
  Trim.Trimmed (gostrings.TrimFunc s unicode.IsSpace).
Proof.
  unfold gostrings.TrimFunc. apply Trimmed_TrimRightFunc.
  apply TrimLeftFunc_IsSpace.
Qed.

(** ** [TrimSpace] *)

Lemma list_ascii_app (p q : string) :
  String.list_ascii_of_string (p +:+ q)
  = String.list_ascii_of_string p ++ String.list_ascii_of_string q.
Proof. induction p as [|c p IH]; [done|]. rewrite sapp_cons. simpl. by rewrite IH. Qed.

Lemma string_of_list_app (l k : list ascii) :
  String.string_of_list_ascii (l ++ k)
  = String.string_of_list_ascii l +:+ String.string_of_list_ascii k.
Proof. induction l as [|c l IH]; [done|]. simpl. by rewrite IH, sapp_cons. Qed.

Lemma DecodeLast_ascii (p : string) (c : ascii) :
  GoString.byteZ c < 0x80 →
  utf8.DecodeLastRuneInString (p +:+ String c "") = (GoString.byteZ c, 1%nat).
Proof.
  intros Hc. unfold utf8.DecodeLastRuneInString.
  assert (GoString.len (p +:+ String c "") = Z.of_nat (String.length p) + 1) as Hlen.
  { unfold GoString.len. rewrite slength_app. simpl. lia. }
  rewrite Hlen.
  replace (Z.of_nat (String.length p) + 1 =? 0) with false
    by (symmetry; apply Z.eqb_neq; lia).
  replace (Z.to_nat (Z.of_nat (String.length p) + 1 - 1)) with (String.length p)
    by lia.
  rewrite at_app_length.
  by replace (GoString.byteZ c <? utf8.RuneSelf) with true
    by (symmetry; by apply Z.ltb_lt).
Qed.

Lemma ascii_not_space (c : ascii) :
  GoString.byteZ c < 0x80 →
  unicode.IsSpace (GoString.byteZ c) = gostrings.asciiSpace (GoString.byteZ c).
Proof. intros Hc. apply IsSpace_ascii. pose proof (byteZ_range c). unfold utf8.RuneSelf. lia. Qed.

Lemma Trimmed_trimStop (r : list ascii) :
  (String.string_of_list_ascii (rev r) = ""
   ∨ ∃ c rest, String.string_of_list_ascii (rev r) = String c rest
               ∧ GoString.byteZ c < 0x80
               ∧ gostrings.asciiSpace (GoString.byteZ c) = false) →
  Trim.Trimmed (gostrings.trimStop r).
Proof.
  induction r as [|d r IH]; intros Hfirst; [by left|].
  assert (unicode.IsSpace
            (fst (utf8.DecodeRuneInString
                    (String.string_of_list_ascii (rev (d :: r))))) = false)
    as Hrune.
  { destruct Hfirst as [Hnil|(c & rest & -> & Hc & Hsp)].
    - simpl in Hnil. rewrite string_of_list_app in Hnil.
      by destruct (String.string_of_list_ascii (rev r)).
    - rewrite DecodeRuneInString_ascii by done. cbn [fst].
      by rewrite ascii_not_space. }
  cbn [gostrings.trimStop].
  destruct (GoString.byteZ d >=? utf8.RuneSelf) eqn:Hd.
  { apply Trimmed_TrimRightFunc. by right. }
  rewrite Z.geb_leb in Hd. apply Z.leb_gt in Hd. unfold utf8.RuneSelf in Hd.
  destruct (gostrings.asciiSpace (GoString.byteZ d)) eqn:Hsp.
  - apply IH. simpl in Hfirst. rewrite string_of_list_app in Hfirst.
    destruct (String.string_of_list_ascii (rev r)) as [|c0 rest0]; [by left|].
    right. destruct Hfirst as [?|(c & rest & Heq & Hc & Hns)]; [done|].
    rewrite sapp_cons in Heq. injection Heq as <- _. by exists c0, rest0.
  - right. split; [done|]. simpl. rewrite string_of_list_app. simpl.
    rewrite DecodeLast_ascii by done. cbn [fst]. by rewrite ascii_not_space.
Qed.

(** What [TrimSpace] returns has no white space at its ends. *)
Lemma Trimmed_TrimSpace (s : string) : Trim.Trimmed (gostrings.TrimSpace s).
Proof.
  induction s as [|c s IH]; [by left|]. cbn [gostrings.TrimSpace].
  destruct (GoString.byteZ c >=? utf8.RuneSelf) eqn:Hc.
  { apply Trimmed_TrimFunc. }
  rewrite Z.geb_leb in Hc. apply Z.leb_gt in Hc. unfold utf8.RuneSelf in Hc.
  destruct (gostrings.asciiSpace (GoString.byteZ c)) eqn:Hsp; [done|].
  apply Trimmed_trimStop. right.
  rewrite rev_involutive, String.string_of_list_ascii_of_string.
  by exists c, s.
Qed.

(** On a text with no white space at its ends [TrimSpace] changes
    nothing. *)
Lemma TrimSpace_Trimmed (s : string) :
  Trim.Trimmed s → gostrings.TrimSpace s = s.
Proof.
  intros [->|[Hfirst Hlast]]; [done|].
  destruct s as [|c rest]; [done|]. cbn [gostrings.TrimSpace].
  destruct (GoString.byteZ c >=? utf8.RuneSelf) eqn:Hc.
  { unfold gostrings.TrimFunc. rewrite TrimLeftFunc_id by done.
    by apply TrimRightFunc_id. }
  rewrite Z.geb_leb in Hc. apply Z.leb_gt in Hc. unfold utf8.RuneSelf in Hc.
  rewrite DecodeRuneInString_ascii in Hfirst by done. cbn [fst] in Hfirst.
  rewrite ascii_not_space in Hfirst by done. rewrite Hfirst.
  destruct (string_snoc_inv (String c rest) ltac:(done)) as (p & d & Heq).
  rewrite Heq, list_ascii_app, rev_app_distr. cbn [String.list_ascii_of_string rev app].
  cbn [gostrings.trimStop].
  assert (String.string_of_list_ascii
            (rev (d :: rev (String.list_ascii_of_string p)))
          = p +:+ String d "") as Hback.
  { simpl. by rewrite rev_involutive, string_of_list_app,
             String.string_of_list_ascii_of_string. }
  rewrite Hback, <- Heq.
  destruct (GoString.byteZ d >=? utf8.RuneSelf) eqn:Hd.
  { by apply TrimRightFunc_id. }
  rewrite Z.geb_leb in Hd. apply Z.leb_gt in Hd. unfold utf8.RuneSelf in Hd.
  rewrite Heq, DecodeLast_ascii in Hlast by done. cbn [fst] in Hlast.
  rewrite ascii_not_space in Hlast by done. by rewrite Hlast.
Qed.

Lemma TrimSpace_idempotent (s : string) :
  gostrings.TrimSpace (gostrings.TrimSpace s) = gostrings.TrimSpace s.
Proof. apply TrimSpace_Trimmed, Trimmed_TrimSpace. Qed.

(** ** The invariants of the store, over whole runs *)

Lemma entry_TrimSpace (text : string) :
  gostrings.TrimSpace text ≠ "" → HistorySpec.entry (gostrings.TrimSpace text).
Proof. intros Hne. split; [done|apply TrimSpace_idempotent]. Qed.





(** ** [src/multiclip/src/main.go]: the history over whole runs *)

Lemma AddItem_invariants (cm : Multiclip.ClipboardManager) (text : string) :
  Multiclip.maxSize cm = 5%nat →
  MulticlipLoop.invariants cm →
  Multiclip.maxSize (Multiclip.AddItem cm text) = 5%nat
  ∧ MulticlipLoop.invariants (Multiclip.AddItem cm text).
Proof.
  intros Hmax (Hnd & Hlen & Hall). unfold Multiclip.AddItem.
  set (t := gostrings.TrimSpace text).
  case_decide as Hskip; [done|]. case_decide as Hin; [done|].
  cbn [Multiclip.maxSize Multiclip.history]. split; [done|].
  assert (NoDup (t :: Multiclip.history cm)) as Hnd' by by constructor.
  assert (Forall (λ s, HistorySpec.entry s ∧ GoString.len s ≤ 200)
                 (t :: Multiclip.history cm)) as Hall'.
  { constructor; [|done]. split.
    - apply entry_TrimSpace. tauto.
    - destruct (Z.le_gt_cases (GoString.len t) 200); [done|]. tauto. }
  unfold MulticlipLoop.invariants. cbn [Multiclip.history app].
  rewrite Hmax. case_decide as Hover.
  - split; [|split].
    + eapply sublist_NoDup; [exact Hnd'|apply sublist_take].
    + rewrite length_take. lia.
    + by apply Forall_take.
  - split; [done|]. split; [|done]. cbn [length] in *. lia.
Qed.

Lemma received_invariants (w : MulticlipLoop.World) (data : option string) :
  Multiclip.maxSize (MulticlipLoop.clipManager w) = 5%nat →
  MulticlipLoop.invariants (MulticlipLoop.clipManager w) →
  Multiclip.maxSize (MulticlipLoop.clipManager (MulticlipLoop.received w data))
  = 5%nat
  ∧ MulticlipLoop.invariants
      (MulticlipLoop.clipManager (MulticlipLoop.received w data)).
Proof.
  intros Hmax Hinv. destruct data as [text|]; [|done].
  cbn [MulticlipLoop.received]. case_decide; [|done].
  by apply AddItem_invariants.
Qed.

Lemma multiclip_run_invariants (events : list MulticlipLoop.event)
      (w : MulticlipLoop.World) :
  Multiclip.maxSize (MulticlipLoop.clipManager w) = 5%nat →
  MulticlipLoop.invariants (MulticlipLoop.clipManager w) →
  MulticlipLoop.invariants
    (MulticlipLoop.clipManager (MulticlipLoop.run w events)).
Proof.
  revert w. induction events as [|e events IH]; intros w Hmax Hinv; [done|].
  cbn [MulticlipLoop.run foldl]. 
  destruct e as [text|text]; cbn [MulticlipLoop.step];
    unfold MulticlipLoop.copy, MulticlipLoop.click, MulticlipLoop.watched,
      MulticlipLoop.handleMenuItemClick; cbn [MulticlipLoop.pasteboard];
    match goal with
    | |- context [MulticlipLoop.received ?w0 ?d] =>
      destruct (received_invariants w0 d Hmax Hinv) as [Hmax' Hinv']
    end; by apply IH.
Qed.

(** X8.  Whatever is copied and clicked, the history of
    [src/multiclip/src/main.go] holds pairwise distinct texts, at most
    five, each trimmed, not empty and of at most 200 bytes. *)
Theorem X8_the_history_keeps_its_invariants :
  ∀ (paste : string) (events : list MulticlipLoop.event),
    MulticlipLoop.invariants
      (MulticlipLoop.clipManager
         (MulticlipLoop.run (MulticlipLoop.start paste) events)).
Proof.
  intros paste events. apply multiclip_run_invariants; [done|].
  split; [constructor|]. split; [cbn; lia|constructor].
Qed.

(** X9.  A click on a menu item of [src/multiclip/src/main.go] puts the
    text of the item on the clipboard and leaves the history as it is,
    also when the watcher then hears of the change: the text is in the
    history already, and [AddItem] skips it. *)
Theorem X9_a_click_leaves_the_history :
  ∀ (paste : string) (events : list MulticlipLoop.event) (item : string),
    item ∈ Multiclip.GetHistory
             (MulticlipLoop.clipManager
                (MulticlipLoop.run (MulticlipLoop.start paste) events)) →
    MulticlipLoop.click (MulticlipLoop.run (MulticlipLoop.start paste) events) item
    = {| MulticlipLoop.clipManager :=
           MulticlipLoop.clipManager
             (MulticlipLoop.run (MulticlipLoop.start paste) events);
         MulticlipLoop.pasteboard := item |}.
Proof.
  intros paste events item Hin.
  assert (MulticlipLoop.invariants
            (MulticlipLoop.clipManager
               (MulticlipLoop.run (MulticlipLoop.start paste) events))) as Hinv.
  { apply multiclip_run_invariants; [done|].
    split; [constructor|]. split; [cbn; lia|constructor]. }
  set (w := MulticlipLoop.run _ events) in *.
  destruct Hinv as (_ & _ & Hall). rewrite Forall_forall in Hall.
  destruct (Hall item Hin) as [[Hne Htrim] _].
  unfold MulticlipLoop.click, MulticlipLoop.watched, MulticlipLoop.handleMenuItemClick.
  cbn [MulticlipLoop.pasteboard MulticlipLoop.received MulticlipLoop.clipManager].
  rewrite decide_True by done. f_equal.
  apply AddItem_present. by rewrite Htrim.
Qed.

Lemma X9_a_click_leaves_the_history_witness :
  MulticlipLoop.click
    (MulticlipLoop.run (MulticlipLoop.start "")
       [MulticlipLoop.Copy "a"; MulticlipLoop.Copy " b "; MulticlipLoop.Copy "c"])
    "a"
  = {| MulticlipLoop.clipManager :=
         {| Multiclip.history := ["c"; "b"; "a"]; Multiclip.maxSize := 5 |};
       MulticlipLoop.pasteboard := "a" |}.
Proof.
  etrans; [apply X9_a_click_leaves_the_history|by vm_compute].
  apply (bool_decide_unpack _). by vm_compute.
Defined.

(** ** The scanner inside a value: no end before the closing bracket *)

Lemma checkValidLoop_app (p q : string) (s : json.scanner) :
  json.checkValidLoop (p +:+ q) s
  = match json.checkValidLoop p s with
    | Some s' => json.checkValidLoop q s'
    | None => None
    end.
Proof.
  revert s. induction p as [|c p IH]; intros s; [done|].
  rewrite sapp_cons. cbn [json.checkValidLoop].
  destruct (json.doStep s (GoString.byteZ c)) as [s' op].
  by case_decide.
Qed.

Ltac scanner_cases :=
  unfold json.do_stateBeginValueOrEmpty, json.do_stateBeginStringOrEmpty,
    json.do_stateBeginString, json.do_stateBeginValue, json.do_state1,
    json.do_state0, json.do_stateDot0, json.do_stateE0, json.do_stateE,
    json.do_stateESign, json.do_stateDot, json.do_stateNeg,
    json.do_stateInString, json.do_stateInStringEsc, json.do_hexThen,
    json.do_expect, json.do_stateEndValue, json.do_stateEndTop,
    json.pushParseState, json.popParseState, json.setTop, json.setStep,
    json.error;
  cbn [json.parseState json.step json.endTop json.err tail];
  repeat (case_match; cbn [fst snd json.parseState json.step json.endTop
                               json.err tail]).

(** One byte read inside an array or an object: the scanner fails, or it
    is still inside, or the value has ended. *)
Lemma step_inside (s : json.scanner) (c : Z) :
  JsonScan.inside s →
  snd (json.doStep s c) = json.scanError
  ∨ JsonScan.failed (fst (json.doStep s c))
  ∨ JsonScan.ended (fst (json.doStep s c))
  ∨ JsonScan.inside (fst (json.doStep s c)).
Proof.
  unfold JsonScan.inside, JsonScan.ended, JsonScan.failed.
  destruct s as [st et ps er]. cbn [json.err json.endTop json.parseState].
  intros (-> & -> & Hps). destruct ps as [|k ps]; [done|].
  destruct st; cbn [json.doStep json.step]; scanner_cases; auto 8.
Qed.

(** A blank read inside an array or an object does not end the value. *)
Lemma space_inside (s : json.scanner) :
  JsonScan.inside s →
  json.endTop (fst (json.doStep s (json.ch " "))) = false.
Proof.
  unfold JsonScan.inside.
  destruct s as [st et ps er]. cbn [json.err json.endTop json.parseState].
  intros (-> & -> & Hps). destruct ps as [|k ps]; [done|].
  destruct st, k; reflexivity.
Qed.

(** Once the value has ended, every further byte leaves it ended, or, when
    it is no blank, makes the scanner fail. *)
Lemma step_ended (s : json.scanner) (c : Z) :
  JsonScan.ended s →
  (json.isSpace c = true ∧ json.doStep s c = (s, json.scanEnd))
  ∨ (json.isSpace c = false ∧ JsonScan.failed (fst (json.doStep s c))).
Proof.
  unfold JsonScan.ended, JsonScan.failed. destruct s as [st et ps er].
  cbn [json.err json.endTop json.step]. intros (-> & -> & ->).
  cbn [json.doStep json.step]. unfold json.do_stateEndTop.
  destruct (json.isSpace c); [by left|by right].
Qed.

Lemma eof_failed (s : json.scanner) :
  JsonScan.failed s → snd (json.eof s) = json.scanError.
Proof. intros [Herr _]. unfold json.eof. by rewrite Herr. Qed.

Lemma eof_inside (s : json.scanner) :
  JsonScan.inside s → snd (json.eof s) = json.scanError.
Proof.
  intros Hin. pose proof (space_inside s Hin) as Hsp.
  destruct Hin as (Herr & Hend & _). unfold json.eof.
  by rewrite Herr, Hend, Hsp.
Qed.

Lemma checkValidLoop_failed (q : string) (s : json.scanner) :
  JsonScan.failed s → q ≠ "" → json.checkValidLoop q s = None.
Proof.
  intros [_ Hst] Hq. destruct q as [|c q]; [done|].
  cbn [json.checkValidLoop]. unfold json.doStep. rewrite Hst. by rewrite decide_True.
Qed.

(** From a state inside an array or an object, a text that the scanner
    reads without an error leaves it failed, ended or inside. *)
Lemma checkValidLoop_inside (p : string) (s s' : json.scanner) :
  JsonScan.failed s ∨ JsonScan.ended s ∨ JsonScan.inside s →
  json.checkValidLoop p s = Some s' →
  JsonScan.failed s' ∨ JsonScan.ended s' ∨ JsonScan.inside s'.
Proof.
  revert s. induction p as [|c p IH]; intros s Hs Hrun.
  - by injection Hrun as <-.
  - cbn [json.checkValidLoop] in Hrun.
    destruct (json.doStep s (GoString.byteZ c)) as [s1 op] eqn:Hstep.
    case_decide as Hop; [done|]. apply (IH s1); [|done].
    destruct Hs as [Hf|[He|Hi]].
    + destruct Hf as [_ Hst]. unfold json.doStep in Hstep. rewrite Hst in Hstep.
      by injection Hstep as _ <-.
    + destruct (step_ended s (GoString.byteZ c) He) as [[_ Heq]|[_ Hf]];
        rewrite Hstep in *.
      * injection Heq as -> _. by right; left.
      * by left.
    + pose proof (step_inside s (GoString.byteZ c) Hi) as H.
      rewrite Hstep in H. cbn [fst snd] in H. tauto.
Qed.

(** Once the value has ended, a text that ends with a byte that is no
    blank is not accepted. *)
Lemma checkValidLoop_ended (q : string) (c : ascii) (s s' : json.scanner) :
  JsonScan.ended s → json.isSpace (GoString.byteZ c) = false →
  json.checkValidLoop (q +:+ String c "") s = Some s' →
  JsonScan.failed s'.
Proof.
  revert s. induction q as [|d q IH]; intros s He Hc Hrun.
  - change ("" +:+ String c "") with (String c "") in Hrun.
    cbn [json.checkValidLoop] in Hrun.
    destruct (step_ended s (GoString.byteZ c) He) as [[Hsp _]|[_ Hf]]; [congruence|].
    destruct (json.doStep s (GoString.byteZ c)) as [s1 op].
    case_decide; [done|]. by injection Hrun as <-.
  - rewrite sapp_cons in Hrun. cbn [json.checkValidLoop] in Hrun.
    destruct (step_ended s (GoString.byteZ d) He) as [[_ Heq]|[_ Hf]].
    + rewrite Heq in Hrun. rewrite decide_False in Hrun by done. by apply (IH s).
    + destruct (json.doStep s (GoString.byteZ d)) as [s1 op].
      case_decide; [done|]. cbn [fst] in Hf.
      rewrite checkValidLoop_failed in Hrun; [done|done|by destruct q].
Qed.

(** No proper prefix of a JSON array is a JSON text: when the scanner
    accepts a text that starts with a bracket and ends with a byte that is
    no blank, it rejects every proper prefix of it. *)
Lemma array_prefix_rejected (a b : string) (c : ascii) :
  json.isSpace (GoString.byteZ c) = false →
  json.checkValid (String "[" (a +:+ b +:+ String c "")) = true →
  json.checkValid (String "[" a) = false.
Proof.
  intros Hc Hvalid. unfold json.checkValid in *.
  cbn [json.checkValidLoop] in *.
  change (json.doStep json.reset (GoString.byteZ "["))
    with (json.mkScanner json.stateBeginValueOrEmpty false
                         [json.parseArrayValue] false, json.scanBeginArray) in *.
  cbv beta iota in Hvalid |- *.
  rewrite decide_False in Hvalid |- * by done.
  set (sA := json.mkScanner _ _ _ _) in *.
  assert (JsonScan.inside sA) as HsA by done.
  rewrite checkValidLoop_app in Hvalid.
  destruct (json.checkValidLoop a sA) as [s1|] eqn:Ha; [|done].
  destruct (json.checkValidLoop (b +:+ String c "") s1) as [sF|] eqn:Hb; [|done].
  destruct (checkValidLoop_inside a sA s1 ltac:(tauto) Ha) as [Hf|[He|Hi]].
  - rewrite checkValidLoop_failed in Hb; [done|done|by destruct b].
  - pose proof (checkValidLoop_ended b c s1 sF He Hc Hb) as HF.
    rewrite (eof_failed sF HF) in Hvalid. by rewrite bool_decide_eq_true_2 in Hvalid.
  - rewrite (eof_inside s1 Hi). by rewrite bool_decide_eq_true_2.
Qed.

Lemma Unmarshal_invalid (data : string) (v : list string) :
  json.checkValid data = false →
  json.Unmarshal data v = (v, Some json.SyntaxError).
Proof. intros H. unfold json.Unmarshal. by rewrite H. Qed.

Lemma Marshal_prefix_rejected (l : list string) (n : nat) :
  (n < String.length (json.Marshal l))%nat →
  json.checkValid (GoString.upto n (json.Marshal l)) = false.
Proof.
  intros Hn.
  destruct (Marshal_StringArray l) as (l' & Harr & _).
  pose proof (checkValid_StringArray _ _ Harr) as Hvalid.
  unfold json.Marshal in *.
  set (body := json.arrayElems true l) in *.
  change ("[" +:+ body +:+ "]") with (String "[" (body +:+ "]")) in *.
  destruct n as [|n]; [done|]. cbn [GoString.upto String.length] in *.
  rewrite <- (upto_from n (body +:+ "]")) in Hvalid.
  destruct (string_snoc_inv (GoString.from n (body +:+ "]"))) as (b & c & Hb).
  { intros Hnil. apply (f_equal String.length) in Hnil.
    rewrite slength_from in Hnil. simpl in Hnil. lia. }
  assert (c = "]"%char) as ->.
  { assert (GoString.upto n (body +:+ "]") +:+ b +:+ String c ""
            = body +:+ "]") as Heq by (by rewrite <- Hb, upto_from).
    apply (f_equal String.list_ascii_of_string) in Heq.
    rewrite !list_ascii_app in Heq. simpl in Heq.
    rewrite app_assoc in Heq. by apply app_inj_tail in Heq as [_ ->]. }
  rewrite Hb in Hvalid. by apply (array_prefix_rejected _ b "]").
Qed.

(** X10.  A data file that holds only the beginning of what [saveClips]
    writes is dropped as a whole: whatever the clips saved and wherever the
    file breaks off, the store starts with no clips. *)
Theorem X10_a_truncated_file_is_discarded :
  ∀ (l : list string) (n : nat) (homeDir paste : string)
    (fs : gmap string string),
    (n < String.length (json.Marshal l))%nat →
    fs !! Main.filepath_Join homeDir ".multiclip.json"
    = Some (GoString.upto n (json.Marshal l)) →
    Main.getClips (Main.start homeDir fs paste) = [].
Proof.
  intros l n homeDir paste fs Hn Hfile.
  unfold Main.getClips, Main.start, Main.NewClipboardManager, Main.loadClips.
  cbn [Main.clipManager Main.dataFile Main.clips]. rewrite Hfile.
  by rewrite Unmarshal_invalid by by apply Marshal_prefix_rejected.
Qed.

Lemma X10_a_truncated_file_is_discarded_witness :
  Main.getClips
    (Main.start "/Users/u"
       {[ Main.filepath_Join "/Users/u" ".multiclip.json"
          := GoString.upto 12 (json.Marshal ["first"; "second"]) ]} "")
  = [].
Proof.
  apply (X10_a_truncated_file_is_discarded ["first"; "second"] 12).
  - vm_compute. lia.
  - by vm_compute.
Defined.

(** ** What comes back from the data file, byte for byte *)

Lemma Quoted_toValid (s q u : string) :
  JsonText.Quoted s q u →
  ∀ fuel, (String.length s ≤ fuel)%nat → Coerced.toValidFrom fuel s = u.
Proof.
  induction 1 as [|c s q u Hc Hsafe _ IH|c s q u Hc Hsafe _ IH
                  |c s q u Hc Hd _ IH|raw r s q u Hr Hwf _ IH
                  |raw r s q u Hr1 Hr2 Hwf _ IH]; intros fuel Hfuel.
  - by destruct fuel.
  - destruct fuel as [|fuel]; [simpl in Hfuel; lia|]. simpl in Hfuel.
    cbn [Coerced.toValidFrom]. rewrite DecodeRuneInString_ascii by done.
    replace (GoString.byteZ c =? utf8.RuneError) with false
      by (symmetry; apply Z.eqb_neq; unfold utf8.RuneError; lia).
    cbn [andb GoString.upto GoString.from]. rewrite sapp_single.
    f_equal. apply IH. lia.
  - destruct fuel as [|fuel]; [simpl in Hfuel; lia|]. simpl in Hfuel.
    cbn [Coerced.toValidFrom]. rewrite DecodeRuneInString_ascii by done.
    replace (GoString.byteZ c =? utf8.RuneError) with false
      by (symmetry; apply Z.eqb_neq; unfold utf8.RuneError; lia).
    cbn [andb GoString.upto GoString.from]. rewrite sapp_single.
    f_equal. apply IH. lia.
  - destruct fuel as [|fuel]; [simpl in Hfuel; lia|]. simpl in Hfuel.
    cbn [Coerced.toValidFrom]. rewrite Hd.
    change ((utf8.RuneError =? utf8.RuneError) && (1 =? 1)%nat) with true.
    cbv iota. cbn [GoString.from]. f_equal. apply IH. lia.
  - destruct Hwf as (Hlen & Hhigh & Henc & Hdec).
    rewrite slength_app in Hfuel.
    destruct fuel as [|fuel]; [lia|]. cbn [Coerced.toValidFrom].
    destruct (raw +:+ s) as [|c0 rest0] eqn:Hraw.
    { apply (f_equal String.length) in Hraw. rewrite slength_app in Hraw.
      simpl in Hraw. lia. }
    rewrite <- Hraw, Hdec.
    replace (String.length raw =? 1)%nat with false
      by (symmetry; apply Nat.eqb_neq; lia).
    rewrite andb_false_r, upto_app, from_app. f_equal. apply IH. lia.
  - destruct Hwf as (Hlen & Hhigh & Henc & Hdec).
    rewrite slength_app in Hfuel.
    destruct fuel as [|fuel]; [lia|]. cbn [Coerced.toValidFrom].
    destruct (raw +:+ s) as [|c0 rest0] eqn:Hraw.
    { apply (f_equal String.length) in Hraw. rewrite slength_app in Hraw.
      simpl in Hraw. lia. }
    rewrite <- Hraw, Hdec.
    replace (String.length raw =? 1)%nat with false
      by (symmetry; apply Nat.eqb_neq; lia).
    rewrite andb_false_r, upto_app, from_app. f_equal. apply IH. lia.
Qed.

(** The literal that the encoder writes for [s] stands for [s] with its
    bytes outside UTF-8 replaced. *)
Lemma Literal_appendString (s : string) :
  JsonText.Literal (json.appendString s) (Coerced.toValid s).
Proof.
  destruct (appendStringFrom_quoted (String.length s) s ltac:(done))
    as (u & Hq & _).
  rewrite <- (Quoted_toValid s _ u Hq (String.length s) ltac:(done)) in Hq.
  fold (Coerced.toValid s) in Hq. set (u' := Coerced.toValid s) in *.
  exists (json.appendStringFrom (String.length s) s).
  split; [done|]. split; [by eapply Quoted_StringBody|].
  unfold json.appendString, json.unquote. rewrite stripQuotes_quoted.
  set (q := json.appendStringFrom (String.length s) s) in *.
  destruct (Quoted_unquotePlain s q u' Hq (String.length q) ltac:(done))
    as (s2 & u2 & Hq2 & Hu & Hle).
  set (r := json.unquotePlain (String.length q) q) in *.
  pose proof (Quoted_unquoteRest _ _ _ Hq2 (String.length (GoString.from r q))
                ltac:(done)) as Hrest.
  destruct (Nat.eqb_spec r (String.length q)) as [Heq|Hne].
  - rewrite Heq, slength_from, Nat.sub_diag in Hrest.
    rewrite Heq in Hu. rewrite upto_all in Hu by done.
    assert (GoString.from (String.length q) q = "") as Hnil.
    { pose proof (slength_from (String.length q) q) as Hl.
      rewrite Nat.sub_diag in Hl.
      by destruct (GoString.from (String.length q) q). }
    rewrite Hnil in Hrest. injection Hrest as <-.
    by rewrite Hu, sapp_nil_r.
  - rewrite Hrest. simpl. by rewrite Hu.
Qed.

Lemma arrayElems_toValid (l : list string) (s : string) :
  JsonText.Elements (json.appendString s +:+ json.arrayElems false l +:+ "]")
                    (Coerced.toValid s :: (Coerced.toValid <$> l)).
Proof.
  revert s. induction l as [|x l IH]; intros s.
  - apply (JsonText.elements_last "" (json.appendString s) "");
      auto using Blank_nil, Literal_appendString.
  - cbn [json.arrayElems fmap list_fmap]. rewrite !sapp_assoc.
    apply (JsonText.elements_more "" (json.appendString s) "");
      auto using Blank_nil, Literal_appendString.
Qed.

Lemma Marshal_toValid (l : list string) :
  JsonText.StringArray (json.Marshal l) (Coerced.toValid <$> l).
Proof.
  destruct l as [|s l].
  - apply (JsonText.array_empty "" "" ""); apply Blank_nil.
  - unfold json.Marshal. cbn [json.arrayElems].
    replace ("[" +:+ ("" +:+ json.appendString s +:+ json.arrayElems false l)
                 +:+ "]")
      with ("" +:+ "[" +:+ (json.appendString s +:+ json.arrayElems false l
                                +:+ "]") +:+ "").
    + apply JsonText.array_elements; auto using Blank_nil.
      apply arrayElems_toValid.
    + rewrite sapp_nil_r. change ("" +:+ ?x) with x. by rewrite !sapp_assoc.
Qed.

(** X11.  What a save and a new start make of the clips, whatever their
    bytes: every clip comes back, in its place, with each byte that is not
    part of a well-formed UTF-8 sequence replaced by U+FFFD; the load
    reports no error. *)
Theorem X11_a_save_and_a_load_replace_bytes_outside_utf8 :
  ∀ (cm : Main.ClipboardManager) (homeDir paste : string)
    (fs : gmap string string) (v : list string),
    json.Unmarshal (json.Marshal (Main.clips cm)) v
    = (Coerced.toValid <$> Main.clips cm, None)
    ∧ (Main.dataFile cm = Main.filepath_Join homeDir ".multiclip.json" →
       Main.getClips (Main.start homeDir (Main.saveClips cm fs) paste)
       = Coerced.toValid <$> Main.clips cm).
Proof.
  intros cm homeDir paste fs v.
  pose proof (Marshal_toValid (Main.clips cm)) as Harr. split.
  - by apply Unmarshal_StringArray.
  - intros Hfile.
    apply (start_reads homeDir _ paste (json.Marshal (Main.clips cm)));
      [|exact Harr].
    unfold Main.saveClips. rewrite Hfile. apply lookup_insert_eq.
Qed.

Lemma X11_a_save_and_a_load_witness :
  Main.getClips
    (Main.start "/Users/u"
       (Main.saveClips
          {| Main.clips := ["ok"; "a" +:+ HistorySpec.stray +:+ "b"];
             Main.lastContent := "";
             Main.dataFile := Main.filepath_Join "/Users/u" ".multiclip.json" |}
          ∅) "")
  = ["ok"; "a" +:+ utf8.EncodeRune utf8.RuneError +:+ "b"].
Proof.
  etrans.
  - apply (proj2 (X11_a_save_and_a_load_replace_bytes_outside_utf8 _ _ _ _ [])).
    by vm_compute.
  - by vm_compute.
Defined.

(** ** [strings.ReplaceAll] of one byte by another *)

Lemma IndexFrom_offset (s substr : string) :
  ∃ r : option nat,
    ∀ i, stringsReplace.IndexFrom s substr i
         = from_option (λ k, i + Z.of_nat k) (-1) r.
Proof.
  induction s as [|c s [r IH]]; cbn [stringsReplace.IndexFrom].
  - destruct (stringsReplace.HasPrefix "" substr).
    + exists (Some 0%nat). intros i. cbn. lia.
    + by exists None.
  - destruct (stringsReplace.HasPrefix (String c s) substr).
    + exists (Some 0%nat). intros i. cbn. lia.
    + destruct r as [k|].
      * exists (Some (S k)). intros i. rewrite IH. cbn. lia.
      * exists None. intros i. by rewrite IH.
Qed.

(** The index of a byte: 0 at the head, one more than in the tail
    otherwise. *)
Lemma Index_byte (a d : ascii) (s : string) :
  stringsReplace.Index (String d s) (String a "")
  = if decide (d = a) then 0
    else if stringsReplace.Index s (String a "") =? -1 then -1
         else 1 + stringsReplace.Index s (String a "").
Proof.
  unfold stringsReplace.Index. cbn [stringsReplace.IndexFrom stringsReplace.HasPrefix].
  rewrite andb_true_r. destruct (decide (d = a)) as [->|Hne].
  - by rewrite bool_decide_eq_true_2.
  - rewrite bool_decide_eq_false_2 by done.
    destruct (IndexFrom_offset s (String a "")) as [[k|] Hr]; rewrite !Hr; cbn.
    + replace (0 + Z.of_nat k =? -1) with false by (symmetry; apply Z.eqb_neq; lia).
      lia.
    + done.
Qed.

Lemma Index_byte_nil (a : ascii) : stringsReplace.Index "" (String a "") = -1.
Proof. done. Qed.

Lemma CountString_nonneg (s : string) (a : ascii) :
  0 ≤ stringsReplace.CountString s a.
Proof. induction s as [|d s IH]; cbn; [lia|]. case_bool_decide; lia. Qed.

Lemma Index_byte_found (s : string) (a : ascii) :
  (stringsReplace.CountString s a = 0 ∧ stringsReplace.Index s (String a "") = -1)
  ∨ (0 < stringsReplace.CountString s a
     ∧ 0 ≤ stringsReplace.Index s (String a "")).
Proof.
  induction s as [|d s IH]; [by left|].
  rewrite Index_byte. cbn [stringsReplace.CountString].
  pose proof (CountString_nonneg s a).
  destruct (decide (d = a)) as [->|Hne].
  - rewrite bool_decide_eq_true_2 by done. right. lia.
  - rewrite bool_decide_eq_false_2 by done.
    destruct IH as [[H0 H1]|[H0 H1]].
    + left. rewrite H1. split; [lia|done].
    + right. replace (stringsReplace.Index s (String a "") =? -1) with false
        by (symmetry; apply Z.eqb_neq; lia). lia.
Qed.

(** The bytes of a text, one replaced by another throughout. *)
Lemma replaceLoop_byte (a b : ascii) (s : string) (first : bool) :
  String.list_ascii_of_string
    (stringsReplace.replaceLoop
       (Z.to_nat (stringsReplace.CountString s a)) first s
       (String a "") (String b ""))
  = (λ c, if decide (c = a) then b else c) <$> String.list_ascii_of_string s.
Proof.
  revert first. induction s as [|d s IH]; intros first; [done|].
  pose proof (CountString_nonneg s a) as Hk.
  cbn [stringsReplace.CountString String.list_ascii_of_string fmap list_fmap].
  cbv beta.
  destruct (decide (d = a)) as [->|Hne].
  - rewrite bool_decide_eq_true_2 by done.
    replace (Z.to_nat (1 + stringsReplace.CountString s a))
      with (S (Z.to_nat (stringsReplace.CountString s a))) by lia.
    cbn [stringsReplace.replaceLoop]. rewrite Index_byte, decide_True by done.
    change (Z.to_nat 0) with 0%nat.
    cbn [GoString.upto GoString.from Nat.add String.length].
    change ("" +:+ ?x) with x. rewrite sapp_single.
    cbn [String.list_ascii_of_string]. f_equal. apply IH.
  - rewrite bool_decide_eq_false_2 by done. rewrite Z.add_0_l.
    specialize (IH first).
    destruct (Index_byte_found s a) as [[H0 H1]|[H0 H1]].
    + rewrite H0 in *. change (Z.to_nat 0) with 0%nat in *.
      cbn [stringsReplace.replaceLoop] in *.
      cbn [String.list_ascii_of_string]. f_equal. exact IH.
    + destruct (Z.to_nat (stringsReplace.CountString s a)) as [|n] eqn:Hn; [lia|].
      cbn [stringsReplace.replaceLoop] in *.
      rewrite Index_byte, decide_False by done.
      replace (stringsReplace.Index s (String a "") =? -1) with false
        by (symmetry; apply Z.eqb_neq; lia).
      replace (Z.to_nat (1 + stringsReplace.Index s (String a "")))
        with (S (Z.to_nat (stringsReplace.Index s (String a "")))) by lia.
      cbn [GoString.upto GoString.from Nat.add]. rewrite sapp_cons.
      cbn [String.list_ascii_of_string]. f_equal. exact IH.
Qed.

Lemma fmap_other_id (a b : ascii) (s : string) :
  stringsReplace.CountString s a = 0 →
  (λ c, if decide (c = a) then b else c) <$> String.list_ascii_of_string s
  = String.list_ascii_of_string s.
Proof.
  induction s as [|d s IH]; [done|]. cbn [stringsReplace.CountString].
  pose proof (CountString_nonneg s a).
  intros H0. cbn [String.list_ascii_of_string fmap list_fmap].
  case_bool_decide as Hd; [lia|]. rewrite decide_False by done.
  f_equal. apply IH. lia.
Qed.

Lemma ReplaceAll_byte (a b : ascii) (s : string) :
  String.list_ascii_of_string
    (stringsReplace.ReplaceAll s (String a "") (String b ""))
  = (λ c, if decide (c = a) then b else c) <$> String.list_ascii_of_string s.
Proof.
  unfold stringsReplace.ReplaceAll, stringsReplace.Replace.
  case_decide as Hsame.
  { destruct Hsame as [[= ->]|?]; [|done].
    induction s as [|d s IH]; [done|].
    cbn [String.list_ascii_of_string fmap list_fmap]. rewrite <- IH.
    by case_decide; subst. }
  cbn [stringsReplace.Count].
  destruct (Z.eqb_spec (stringsReplace.CountString s a) 0) as [H0|H0].
  { by rewrite fmap_other_id. }
  change (-1 <? 0) with true. cbn [orb]. apply replaceLoop_byte.
Qed.

(** ** The lines of the menu of [src/main.go] *)

Lemma length_list_ascii (s : string) :
  length (String.list_ascii_of_string s) = String.length s.
Proof. induction s as [|c s IH]; [done|]. simpl. by rewrite IH. Qed.

Lemma slength_upto (n : nat) (s : string) :
  String.length (GoString.upto n s) = Nat.min n (String.length s).
Proof.
  revert n. induction s as [|c s IH]; intros [|n]; simpl; try done.
  by rewrite IH.
Qed.

(** X12.  The text of a menu line in [src/main.go]: the clip, cut to its
    first 47 bytes and three dots when it has more than 50 bytes, with
    every line feed and carriage return turned into a space.  So a line
    has as many bytes as the clip and at most 50, and no line break. *)
Theorem X12_displayText_is_one_short_line :
  ∀ clip : string,
    String.list_ascii_of_string (MainMenu.displayText clip)
    = ((λ c, if decide (c = GoString.byte_of 10 ∨ c = GoString.byte_of 13)
             then " "%char else c)
         <$> String.list_ascii_of_string
               (if 50 <? GoString.len clip
                then GoString.upto 47 clip +:+ "..." else clip))
    ∧ String.length (MainMenu.displayText clip)
      = Nat.min (String.length clip) 50
    ∧ (GoString.byte_of 10
       ∉ String.list_ascii_of_string (MainMenu.displayText clip))
    ∧ (GoString.byte_of 13
       ∉ String.list_ascii_of_string (MainMenu.displayText clip)).
Proof.
  intros clip. unfold MainMenu.displayText.
  set (cut := if 50 <? GoString.len clip then _ else clip).
  assert (String.list_ascii_of_string
            (stringsReplace.ReplaceAll
               (stringsReplace.ReplaceAll cut (String (GoString.byte_of 10) "") " ")
               (String (GoString.byte_of 13) "") " ")
          = (λ c, if decide (c = GoString.byte_of 10 ∨ c = GoString.byte_of 13)
                  then " "%char else c)
              <$> String.list_ascii_of_string cut) as Hmap.
  { rewrite !ReplaceAll_byte, <- list_fmap_compose. apply list_fmap_ext.
    intros _ c _. cbn. repeat case_decide; subst; try done; tauto. }
  split; [exact Hmap|]. split; [|split].
  - rewrite <- length_list_ascii, Hmap, length_fmap, length_list_ascii.
    unfold cut, GoString.len.
    destruct (Z.ltb_spec 50 (Z.of_nat (String.length clip))).
    + rewrite slength_app, slength_upto.
      change (String.length "...") with 3%nat. lia.
    + lia.
  - rewrite Hmap. intros (c & Hc & _)%list_elem_of_fmap.
    case_decide; [done|]. subst c. tauto.
  - rewrite Hmap. intros (c & Hc & _)%list_elem_of_fmap.
    case_decide; [done|]. subst c. tauto.
Qed.

(** ** The tray: items added and items hidden *)

Ltac list_nat_eq :=
  repeat first [reflexivity
               |apply (f_equal2 cons); [lia|]
               |apply (f_equal2 app); [reflexivity|]].

Lemma lines_app (t1 t2 : list systray.MenuItem) :
  systray.lines (t1 ++ t2) = systray.lines t1 ++ systray.lines t2.
Proof. unfold systray.lines, systray.shown. by rewrite filter_app, fmap_app. Qed.

Lemma Hide_app_r (t1 t2 : list systray.MenuItem) (j : nat) :
  systray.Hide (t1 ++ t2) (length t1 + j) = t1 ++ systray.Hide t2 j.
Proof. unfold systray.Hide. apply alter_app_r. Qed.

Lemma length_Hide (t : list systray.MenuItem) (j : nat) :
  length (systray.Hide t j) = length t.
Proof. unfold systray.Hide. apply length_alter. Qed.

Lemma Hide_here (t1 : list systray.MenuItem) (it : systray.MenuItem)
      (t2 : list systray.MenuItem) :
  systray.Hide (t1 ++ it :: t2) (length t1)
  = t1 ++ {| systray.title := systray.title it;
             systray.tooltip := systray.tooltip it;
             systray.disabled := systray.disabled it;
             systray.hidden := true;
             systray.checkable := systray.checkable it;
             systray.separator := systray.separator it |} :: t2.
Proof.
  replace (length t1) with (length t1 + 0)%nat by lia. by rewrite Hide_app_r.
Qed.

(** Hiding the items at the places [length t1], ..., [length t1 + length
    items - 1] leaves nothing of [items] to see, and the rest as it was. *)
Lemma Hide_block (items t1 t2 : list systray.MenuItem) :
  ∃ items',
    foldl systray.Hide (t1 ++ items ++ t2) (seq (length t1) (length items))
    = t1 ++ items' ++ t2
    ∧ length items' = length items
    ∧ systray.lines items' = [].
Proof.
  revert t1. induction items as [|it items IH]; intros t1.
  - by exists [].
  - cbn [length seq foldl app].
    rewrite (Hide_here t1 it (items ++ t2)).
    set (it' := {| systray.title := systray.title it;
                   systray.tooltip := systray.tooltip it;
                   systray.disabled := systray.disabled it;
                   systray.hidden := true;
                   systray.checkable := systray.checkable it;
                   systray.separator := systray.separator it |}).
    destruct (IH (t1 ++ [it'])) as (items' & Heq & Hlen & Hlines).
    rewrite length_app in Heq. cbn [length] in Heq.
    replace (length t1 + 1)%nat with (S (length t1)) in Heq by lia.
    rewrite <- !app_assoc in Heq. cbn [app] in Heq.
    exists (it' :: items'). split; [exact Heq|]. split; [cbn; lia|].
    change (it' :: items') with ([it'] ++ items'). rewrite lines_app, Hlines.
    done.
Qed.

Lemma foldl_Hide_app_r (t1 t2 : list systray.MenuItem) (js : list nat) :
  foldl systray.Hide (t1 ++ t2) ((λ j, length t1 + j)%nat <$> js)
  = t1 ++ foldl systray.Hide t2 js.
Proof.
  revert t2. induction js as [|j js IH]; intros t2; [done|].
  cbn [fmap list_fmap foldl]. by rewrite Hide_app_r, IH.
Qed.

(** ** The menu of [src/main.go] *)

Lemma addClips_shape (clips : list string) (ui : MainMenu.UI) (i : nat) :
  ∃ items,
    MainMenu.tray (MainMenu.addClips ui i clips) = MainMenu.tray ui ++ items
    ∧ length items = length clips
    ∧ MainMenu.menuItems (MainMenu.addClips ui i clips)
      = MainMenu.menuItems ui ++ seq (length (MainMenu.tray ui)) (length clips)
    ∧ systray.lines items
      = imap (λ j clip, Some (MainMenu.itemTitle (i + j) clip)) clips.
Proof.
  revert ui i. induction clips as [|clip clips IH]; intros ui i.
  - exists []. by rewrite !app_nil_r.
  - cbn [MainMenu.addClips]. unfold systray.AddMenuItem.
    set (it := {| systray.title := MainMenu.itemTitle i clip |}).
    set (ui1 := {| MainMenu.tray := MainMenu.tray ui ++ [it] |}).
    destruct (IH ui1 (S i)) as (items & Htray & Hlen & Hmenu & Hlines).
    exists (it :: items). unfold ui1 in *. cbn [MainMenu.tray MainMenu.menuItems] in *.
    rewrite Htray, Hmenu, <- !app_assoc. cbn [app length seq].
    rewrite length_app. cbn [length].
    replace (length (MainMenu.tray ui) + 1)%nat
      with (S (length (MainMenu.tray ui))) by lia.
    split; [done|]. split; [lia|]. split; [done|].
    change (it :: items) with ([it] ++ items). rewrite lines_app, Hlines.
    cbn [imap app]. replace (i + 0)%nat with i by lia.
    change (systray.lines [it]) with [Some (MainMenu.itemTitle i clip)].
    cbn [app]. f_equal. apply imap_ext. intros j x _. cbn. f_equal. f_equal. lia.
Qed.

(** What [updateMenu] appends to the tray, the old items hidden. *)
Lemma updateMenu_shape (ui : MainMenu.UI) (clips : list string) :
  ∃ items,
    MainMenu.tray (MainMenu.updateMenu ui clips)
    = foldl systray.Hide (MainMenu.tray ui) (MainMenu.menuItems ui)
        ++ items
        ++ [{| systray.title := ""; systray.tooltip := "";
               systray.disabled := false; systray.hidden := false;
               systray.checkable := false; systray.separator := true |};
            {| systray.title := "Clear History";
               systray.tooltip := "Clear all clipboard history";
               systray.disabled := false; systray.hidden := false;
               systray.checkable := false; systray.separator := false |};
            {| systray.title := "Quit"; systray.tooltip := "Quit MultiClip";
               systray.disabled := false; systray.hidden := false;
               systray.checkable := false; systray.separator := false |}]
    ∧ MainMenu.menuItems (MainMenu.updateMenu ui clips)
      = seq (length (foldl systray.Hide (MainMenu.tray ui) (MainMenu.menuItems ui)))
            (length items)
          ++ [(length (foldl systray.Hide (MainMenu.tray ui)
                             (MainMenu.menuItems ui))
               + length items + 1)%nat;
              (length (foldl systray.Hide (MainMenu.tray ui)
                             (MainMenu.menuItems ui))
               + length items + 2)%nat]
    ∧ systray.lines items = MainMenu.clipLines clips.
Proof.
  unfold MainMenu.updateMenu, MainMenu.clipLines.
  set (tray0 := foldl systray.Hide (MainMenu.tray ui) (MainMenu.menuItems ui)).
  destruct (decide (length clips = 0%nat)) as [Hnil|Hsome].
  - unfold systray.AddMenuItem, systray.AddSeparator.
    cbn [MainMenu.tray MainMenu.menuItems app].
    set (it := {| systray.title := "No clips yet" |}).
    exists [systray.mkMenuItem "No clips yet" "No clipboard history"
                               true false false false].
    cbn [length]. split; [|split; [|done]].
    + unfold systray.Disable.
      replace (length tray0) with (length tray0 + 0)%nat at 1 by lia.
      rewrite alter_app_r. cbn. by rewrite <- !app_assoc.
    + unfold systray.Disable. rewrite !length_app, length_alter, !length_app.
      cbn [length app seq]. list_nat_eq.
  - destruct (addClips_shape clips
                {| MainMenu.tray := tray0; MainMenu.menuItems := [];
                   MainMenu.waiting := MainMenu.waiting ui |} 0)
      as (items & Htray & Hlen & Hmenu & Hlines).
    cbn [MainMenu.tray MainMenu.menuItems app] in *.
    exists items. unfold systray.AddMenuItem, systray.AddSeparator.
    cbn [MainMenu.tray MainMenu.menuItems].
    rewrite Htray, Hmenu, Hlen, <- !app_assoc. cbn [app].
    split; [done|]. split; [|exact Hlines].
    rewrite !length_app. cbn [length]. list_nat_eq.
Qed.

Lemma updateMenu_lines (ui : MainMenu.UI) (clips : list string) (k : nat) :
  systray.lines (foldl systray.Hide (MainMenu.tray ui) (MainMenu.menuItems ui))
  = replicate k None →
  MainMenu.lines (MainMenu.updateMenu ui clips)
  = replicate k None ++ MainMenu.clipLines clips
      ++ [None; Some "Clear History"; Some "Quit"]
  ∧ systray.lines
      (foldl systray.Hide (MainMenu.tray (MainMenu.updateMenu ui clips))
             (MainMenu.menuItems (MainMenu.updateMenu ui clips)))
    = replicate (S k) None.
Proof.
  intros Hinv.
  destruct (updateMenu_shape ui clips) as (items & Htray & Hmenu & Hlines).
  set (tray0 := foldl systray.Hide (MainMenu.tray ui) (MainMenu.menuItems ui)) in *.
  match type of Htray with _ = _ ++ _ ++ ?t => set (tail := t) in * end.
  unfold MainMenu.lines. rewrite Htray, Hmenu. split.
  - by rewrite !lines_app, Hinv, Hlines.
  - rewrite foldl_app.
    destruct (Hide_block items tray0 tail) as (items' & Heq & Hlen & Hnone).
    rewrite Heq. rewrite (app_assoc tray0 items').
    replace (length tray0 + length items + 1)%nat
      with (length (tray0 ++ items') + 1)%nat by (rewrite length_app; lia).
    replace (length tray0 + length items + 2)%nat
      with (length (tray0 ++ items') + 2)%nat by (rewrite length_app; lia).
    cbn [foldl]. rewrite Hide_app_r.
    replace (length (tray0 ++ items'))
      with (length (tray0 ++ items') + 0)%nat at 1 by lia.
    rewrite <- Nat.add_assoc.
    replace (length (tray0 ++ items') + (0 + 2))%nat
      with (length (tray0 ++ items') + 2)%nat by lia.
    rewrite Hide_app_r. rewrite !lines_app, Hinv, Hnone.
    rewrite replicate_S_end. by rewrite app_nil_r.
Qed.

Lemma refreshes_lines (earlier : list (list string)) :
  systray.lines
    (foldl systray.Hide
           (MainMenu.tray (foldl MainMenu.updateMenu MainMenu.empty earlier))
           (MainMenu.menuItems (foldl MainMenu.updateMenu MainMenu.empty earlier)))
  = replicate (length earlier) None.
Proof.
  induction earlier as [|clips earlier IH] using rev_ind; [done|].
  rewrite foldl_app, length_app. cbn [foldl length].
  replace (length earlier + 1)%nat with (S (length earlier)) by lia.
  by apply updateMenu_lines.
Qed.

(** X13.  The menu of [src/main.go] after a refresh: one line per clip,
    numbered from 1 and in the order of the clips, or the placeholder; a
    separator; "Clear History"; "Quit".  Above them stands one separator
    for every refresh before: [updateMenu] hides the items of the menu
    before, which it has in [menuItems], and has no way to hide the
    separator it added. *)
Theorem X13_updateMenu_leaves_a_separator_each_time :
  ∀ (earlier : list (list string)) (clips : list string),
    MainMenu.lines
      (MainMenu.updateMenu (foldl MainMenu.updateMenu MainMenu.empty earlier)
                           clips)
    = replicate (length earlier) None
        ++ MainMenu.clipLines clips
        ++ [None; Some "Clear History"; Some "Quit"].
Proof.
  intros earlier clips. apply updateMenu_lines, refreshes_lines.
Qed.

(** ** The menu of [src/multiclip/src/main.go] *)

Section Adding.
Variable add : list systray.MenuItem → string → string
               → list systray.MenuItem * nat.
Hypothesis add_appends :
  ∀ tray title tooltip,
    ∃ it, add tray title tooltip = (tray ++ [it], length tray)
          ∧ systray.hidden it = false ∧ systray.separator it = false
          ∧ systray.title it = title.

Lemma addItems_shape (history : list string) (ui : MulticlipMenu.UI) (i : nat) :
  ∃ items,
    MulticlipMenu.tray (MulticlipMenu.addItems add ui i history)
    = MulticlipMenu.tray ui ++ items
    ∧ length items = length history
    ∧ MulticlipMenu.menuItems (MulticlipMenu.addItems add ui i history)
      = MulticlipMenu.menuItems ui
          ++ seq (length (MulticlipMenu.tray ui)) (length history)
    ∧ MulticlipMenu.quitItem (MulticlipMenu.addItems add ui i history)
      = MulticlipMenu.quitItem ui
    ∧ systray.lines items
      = (λ item, Some (MulticlipMenu.displayText item)) <$> history.
Proof.
  revert ui i. induction history as [|item history IH]; intros ui i.
  - exists []. by rewrite !app_nil_r.
  - cbn [MulticlipMenu.addItems].
    destruct (add_appends (MulticlipMenu.tray ui)
                (MulticlipMenu.displayText item) (MulticlipMenu.itemTooltip i))
      as (it & -> & Hh & Hs & Ht).
    set (ui1 := {| MulticlipMenu.tray := MulticlipMenu.tray ui ++ [it] |}).
    destruct (IH ui1 (S i)) as (items & Htray & Hlen & Hmenu & Hquit & Hlines).
    exists (it :: items). unfold ui1 in *.
    cbn [MulticlipMenu.tray MulticlipMenu.menuItems MulticlipMenu.quitItem] in *.
    rewrite Htray, Hmenu, Hquit, <- !app_assoc. cbn [app length seq].
    rewrite length_app. cbn [length].
    replace (length (MulticlipMenu.tray ui) + 1)%nat
      with (S (length (MulticlipMenu.tray ui))) by lia.
    split; [done|]. split; [lia|]. split; [done|]. split; [done|].
    change (it :: items) with ([it] ++ items). rewrite lines_app, Hlines.
    cbn [fmap list_fmap]. unfold systray.lines, systray.shown.
    rewrite filter_cons_True by done. cbn. by rewrite Hs, Ht.
Qed.

Lemma addEntries_shape (ui : MulticlipMenu.UI) (history : list string) :
  ∃ items,
    MulticlipMenu.tray (MulticlipMenu.addEntries add ui history)
    = MulticlipMenu.tray ui ++ items
    ∧ MulticlipMenu.menuItems (MulticlipMenu.addEntries add ui history)
      = MulticlipMenu.menuItems ui
          ++ seq (length (MulticlipMenu.tray ui)) (length items)
    ∧ MulticlipMenu.quitItem (MulticlipMenu.addEntries add ui history)
      = MulticlipMenu.quitItem ui
    ∧ systray.lines items = MulticlipMenu.historyLines history.
Proof.
  unfold MulticlipMenu.addEntries, MulticlipMenu.historyLines.
  destruct (decide (length history = 0%nat)) as [Hnil|Hsome].
  - destruct (add_appends (MulticlipMenu.tray ui)
                "No clipboard history" "Clipboard is empty")
      as (it & -> & Hh & Hs & Ht).
    cbn [MulticlipMenu.tray MulticlipMenu.menuItems MulticlipMenu.quitItem].
    exists [{| systray.title := systray.title it;
               systray.tooltip := systray.tooltip it;
               systray.disabled := true; systray.hidden := systray.hidden it;
               systray.checkable := systray.checkable it;
               systray.separator := systray.separator it |}].
    split; [|split; [done|split; [done|]]].
    + unfold systray.Disable.
      replace (length (MulticlipMenu.tray ui))
        with (length (MulticlipMenu.tray ui) + 0)%nat at 1 by lia.
      by rewrite alter_app_r.
    + unfold systray.lines, systray.shown.
      rewrite filter_cons_True by done. cbn. by rewrite Hs, Ht.
  - destruct (addItems_shape history ui 0)
      as (items & Htray & Hlen & Hmenu & Hquit & Hlines).
    exists items. by rewrite Hlen.
Qed.

End Adding.

Lemma AddMenuItem_appends (tray : list systray.MenuItem) (title tooltip : string) :
  ∃ it, systray.AddMenuItem tray title tooltip = (tray ++ [it], length tray)
        ∧ systray.hidden it = false ∧ systray.separator it = false
        ∧ systray.title it = title.
Proof. by eexists. Qed.

Lemma AddMenuItemCheckbox_appends (tray : list systray.MenuItem)
      (title tooltip : string) :
  ∃ it, systray.AddMenuItemCheckbox tray title tooltip
        = (tray ++ [it], length tray)
        ∧ systray.hidden it = false ∧ systray.separator it = false
        ∧ systray.title it = title.
Proof. by eexists. Qed.

Lemma Hide_all (items t1 t2 : list systray.MenuItem) :
  systray.lines
    (foldl systray.Hide (t1 ++ items ++ t2) (seq (length t1) (length items)))
  = systray.lines t1 ++ systray.lines t2.
Proof.
  destruct (Hide_block items t1 t2) as (items' & -> & _ & Hnone).
  by rewrite !lines_app, Hnone.
Qed.

(** What [setupMenu] makes of the menu at the start. *)
Lemma setupMenu_lines (history : list string) :
  MulticlipMenu.lines (MulticlipMenu.setupMenu MulticlipMenu.empty history)
  = MulticlipMenu.historyLines history ++ [None; Some "Quit MultiClip"]
  ∧ systray.lines
      (foldl systray.Hide
         (MulticlipMenu.tray (MulticlipMenu.setupMenu MulticlipMenu.empty history))
         (MulticlipMenu.menuItems
            (MulticlipMenu.setupMenu MulticlipMenu.empty history)))
    = [None; Some "Quit MultiClip"].
Proof.
  unfold MulticlipMenu.setupMenu.
  destruct (addEntries_shape systray.AddMenuItem AddMenuItem_appends
              {| MulticlipMenu.tray := []; MulticlipMenu.menuItems := [];
                 MulticlipMenu.quitItem := None; MulticlipMenu.waiting := [] |}
              history) as (items & Htray & Hmenu & Hquit & Hlines).
  cbn [MulticlipMenu.tray MulticlipMenu.menuItems MulticlipMenu.quitItem
       MulticlipMenu.waiting MulticlipMenu.empty app length] in *.
  rewrite Hquit. set (ui2 := MulticlipMenu.addEntries _ _ _) in *.
  unfold systray.AddMenuItem, systray.AddSeparator, MulticlipMenu.lines.
  cbn [MulticlipMenu.tray MulticlipMenu.menuItems]. rewrite Htray, Hmenu.
  rewrite <- app_assoc. cbn [app]. split.
  - by rewrite lines_app, Hlines.
  - etrans; [apply (Hide_all items [])|done].
Qed.

Lemma updateMenuItems_lines (ui : MulticlipMenu.UI) (history : list string)
      (top : list (option string)) :
  systray.lines (foldl systray.Hide (MulticlipMenu.tray ui)
                       (MulticlipMenu.menuItems ui)) = top →
  MulticlipMenu.lines (MulticlipMenu.updateMenuItems ui history)
  = top ++ MulticlipMenu.historyLines history
  ∧ systray.lines
      (foldl systray.Hide
         (MulticlipMenu.tray (MulticlipMenu.updateMenuItems ui history))
         (MulticlipMenu.menuItems (MulticlipMenu.updateMenuItems ui history)))
    = top.
Proof.
  intros Htop. unfold MulticlipMenu.updateMenuItems.
  set (tray0 := foldl systray.Hide _ _) in *.
  destruct (addEntries_shape systray.AddMenuItemCheckbox
              AddMenuItemCheckbox_appends
              {| MulticlipMenu.tray := tray0; MulticlipMenu.menuItems := [];
                 MulticlipMenu.quitItem := MulticlipMenu.quitItem ui;
                 MulticlipMenu.waiting := MulticlipMenu.waiting ui |}
              history) as (items & Htray & Hmenu & Hquit & Hlines).
  cbn [MulticlipMenu.tray MulticlipMenu.menuItems app] in *.
  unfold MulticlipMenu.lines. rewrite Htray, Hmenu. split.
  - by rewrite lines_app, Hlines, Htop.
  - rewrite <- (app_nil_r items) at 1.
    by rewrite (Hide_all items tray0 []), app_nil_r.
Qed.

(** X14.  The menu of [src/multiclip/src/main.go]: [setupMenu] lists the
    history, a separator and "Quit MultiClip"; every refresh by
    [updateMenuItems] hides the lines of the history and adds the new ones
    at the end, so that from the first refresh on the history stands below
    "Quit MultiClip". *)
Theorem X14_updateMenuItems_lists_the_history_below_Quit :
  ∀ (first : list string) (earlier : list (list string)) (history : list string),
    MulticlipMenu.lines (MulticlipMenu.setupMenu MulticlipMenu.empty first)
    = MulticlipMenu.historyLines first ++ [None; Some "Quit MultiClip"]
    ∧ MulticlipMenu.lines
        (MulticlipMenu.updateMenuItems
           (foldl MulticlipMenu.updateMenuItems
                  (MulticlipMenu.setupMenu MulticlipMenu.empty first) earlier)
           history)
      = [None; Some "Quit MultiClip"] ++ MulticlipMenu.historyLines history.
Proof.
  intros first earlier history.
  destruct (setupMenu_lines first) as [Hsetup Hinv]. split; [exact Hsetup|].
  apply updateMenuItems_lines. clear Hsetup.
  induction earlier as [|h earlier IH] using rev_ind; [exact Hinv|].
  rewrite foldl_app. cbn [foldl]. by apply updateMenuItems_lines.
Qed.

(** ** Texts of white space only *)

(** A rune that is white space is read off its own bytes: what follows
    them plays no part. *)
Lemma decode_space (p : string) (r : Z) (size : nat) :
  p ≠ "" → utf8.DecodeRuneInString p = (r, size) →
  unicode.IsSpace r = true →
  ∃ raw p', p = raw +:+ p' ∧ size = String.length raw ∧ raw ≠ ""
            ∧ ∀ t, utf8.DecodeRuneInString (raw +:+ t) = (r, String.length raw).
Proof.
  intros Hp Hd Hsp. destruct p as [|c rest]; [done|].
  destruct (decode_cases c rest r size Hd)
    as [(Hc & -> & ->)|[(_ & -> & _)|(_ & raw & rest' & Heq & -> & Hwf)]].
  - exists (String c ""), rest. repeat split; [done|].
    intros t. by apply DecodeRuneInString_ascii.
  - by vm_compute in Hsp.
  - exists raw, rest'. destruct Hwf as (Hlen & _ & _ & Hdec).
    repeat split; [done| |done].
    intros ->. simpl in Hlen. lia.
Qed.

Lemma runesFrom_more (n fuel fuel' : nat) (s : string) :
  (String.length s ≤ n)%nat → (n ≤ fuel)%nat → (n ≤ fuel')%nat →
  HistorySpec.runesFrom fuel s = HistorySpec.runesFrom fuel' s.
Proof.
  revert fuel fuel' s. induction n as [|n IH]; intros fuel fuel' s Hs Hf Hf'.
  { destruct s as [|c rest]; [|simpl in Hs; lia]. by destruct fuel, fuel'. }
  destruct fuel as [|fuel]; [lia|]. destruct fuel' as [|fuel']; [lia|].
  cbn [HistorySpec.runesFrom]. destruct s as [|c rest]; [done|].
  destruct (utf8.DecodeRuneInString (String c rest)) as [r size] eqn:Hd.
  f_equal.
  assert (String c rest ≠ "") as Hne by done.
  pose proof (decode_size _ _ _ Hne Hd) as Hsize.
  pose proof (slength_from size (String c rest)) as Hlen.
  apply IH; lia.
Qed.

Lemma runesFrom_fuel (fuel : nat) (s : string) :
  (String.length s ≤ fuel)%nat →
  HistorySpec.runesFrom fuel s = HistorySpec.runes s.
Proof.
  intros Hf. unfold HistorySpec.runes.
  by apply (runesFrom_more (String.length s)).
Qed.

Lemma onlySpace_nil : HistorySpec.onlySpace "".
Proof. by constructor. Qed.

(** A white space rune before white space only. *)
Lemma onlySpace_cons (raw q : string) (r : Z) :
  raw ≠ "" →
  (∀ t, utf8.DecodeRuneInString (raw +:+ t) = (r, String.length raw)) →
  unicode.IsSpace r = true →
  HistorySpec.onlySpace q → HistorySpec.onlySpace (raw +:+ q).
Proof.
  intros Hraw Hd Hsp Hq. unfold HistorySpec.onlySpace, HistorySpec.runes.
  destruct (raw +:+ q) as [|c rest] eqn:Heq.
  { by constructor. }
  cbn [String.length HistorySpec.runesFrom]. rewrite <- Heq, Hd.
  rewrite from_app.
  apply Forall_cons. split; [done|].
  rewrite runesFrom_fuel; [done|].
  apply (f_equal String.length) in Heq. rewrite slength_app in Heq.
  simpl in Heq. destruct raw; [done|]. simpl in Heq. lia.
Qed.

Lemma onlySpace_inv (p : string) :
  p ≠ "" → HistorySpec.onlySpace p →
  ∃ raw p' r, p = raw +:+ p' ∧ raw ≠ ""
    ∧ (∀ t, utf8.DecodeRuneInString (raw +:+ t) = (r, String.length raw))
    ∧ unicode.IsSpace r = true ∧ HistorySpec.onlySpace p'.
Proof.
  intros Hp Hall. unfold HistorySpec.onlySpace, HistorySpec.runes in Hall.
  destruct p as [|c rest]; [done|].
  cbn [String.length HistorySpec.runesFrom] in Hall.
  destruct (utf8.DecodeRuneInString (String c rest)) as [r size] eqn:Hd.
  apply Forall_cons in Hall as [Hsp Hall].
  destruct (decode_space _ _ _ Hp Hd Hsp)
    as (raw & p' & Heq & -> & Hraw & Hdec).
  exists raw, p', r. repeat split; try done.
  rewrite Heq, from_app in Hall.
  rewrite runesFrom_fuel in Hall; [done|].
  apply (f_equal String.length) in Heq. rewrite slength_app in Heq.
  simpl in Heq. destruct raw; [done|]. simpl in Heq. lia.
Qed.

Lemma onlySpace_app (p q : string) :
  HistorySpec.onlySpace p → HistorySpec.onlySpace q →
  HistorySpec.onlySpace (p +:+ q).
Proof.
  remember (String.length p) as n eqn:Hn. revert p Hn.
  induction n as [n IH] using lt_wf_ind. intros p Hn Hp Hq.
  destruct (decide (p = "")) as [->|Hne]; [done|].
  destruct (onlySpace_inv p Hne Hp) as (raw & p' & r & -> & Hraw & Hd & Hsp & Hp').
  rewrite sapp_assoc. apply (onlySpace_cons raw _ r); try done.
  apply (IH (String.length p')); try done.
  rewrite Hn, slength_app. destruct raw; [done|]. simpl. lia.
Qed.


(** ** What [TrimLeftFunc] and [TrimRightFunc] cut off *)

Lemma indexFuncFrom_split (fuel : nat) (s : string) (base : Z) :
  (String.length s ≤ fuel)%nat →
  (gostrings.indexFuncFrom fuel s base unicode.IsSpace false = -1
   ∧ HistorySpec.onlySpace s)
  ∨ ∃ pre t, s = pre +:+ t ∧ HistorySpec.onlySpace pre
             ∧ gostrings.indexFuncFrom fuel s base unicode.IsSpace false
               = base + GoString.len pre.
Proof.
  revert s base. induction fuel as [|fuel IH]; intros s base Hfuel.
  { left. destruct s; [|simpl in Hfuel; lia]. split; [done|apply onlySpace_nil]. }
  cbn [gostrings.indexFuncFrom].
  destruct s as [|c rest]; [left; split; [done|apply onlySpace_nil]|].
  destruct (utf8.DecodeRuneInString (String c rest)) as [r size] eqn:Hd.
  destruct (unicode.IsSpace r) eqn:Hsp; cbn [Bool.eqb].
  - assert (String c rest ≠ "") as Hne by done.
    destruct (decode_space _ _ _ Hne Hd Hsp) as (raw & p' & Heq & -> & Hraw & Hdec).
    rewrite Heq, from_app.
    assert (String.length p' ≤ fuel)%nat as Hp'.
    { apply (f_equal String.length) in Heq. rewrite slength_app in Heq.
      simpl in Heq, Hfuel. destruct raw; [done|]. simpl in Heq. lia. }
    destruct (IH p' (base + Z.of_nat (String.length raw)) Hp')
      as [[Hnone Hall]|(pre & t & -> & Hpre & Hres)].
    + left. split; [done|]. by apply (onlySpace_cons raw p' r).
    + right. exists (raw +:+ pre), t. split; [by rewrite sapp_assoc|].
      split; [by apply (onlySpace_cons raw pre r)|].
      rewrite Hres. unfold GoString.len. rewrite slength_app. lia.
  - right. exists "", (String c rest). split; [done|].
    split; [apply onlySpace_nil|]. unfold GoString.len. simpl. lia.
Qed.

Lemma TrimLeftFunc_split (s : string) :
  ∃ pre, s = pre +:+ gostrings.TrimLeftFunc s unicode.IsSpace
         ∧ HistorySpec.onlySpace pre.
Proof.
  unfold gostrings.TrimLeftFunc, gostrings.indexFunc.
  destruct (indexFuncFrom_split (String.length s) s 0 ltac:(done))
    as [[-> Hall]|(pre & t & -> & Hpre & ->)].
  - exists s. by rewrite sapp_nil_r.
  - replace (0 + GoString.len pre =? -1) with false
      by (symmetry; apply Z.eqb_neq; unfold GoString.len; lia).
    exists pre. split; [|done]. f_equal.
    replace (Z.to_nat (0 + GoString.len pre)) with (String.length pre)
      by (unfold GoString.len; lia).
    by rewrite from_app.
Qed.

(** A white space rune found from the end is read off its own bytes. *)
Lemma space_rune_alone (p1 : string) (r : Z) :
  p1 ≠ "" →
  ((∃ c, p1 = String c "" ∧ r = GoString.byteZ c ∧ GoString.byteZ c < 0x80)
   ∨ (∃ c, p1 = String c "" ∧ r = utf8.RuneError ∧ 0x80 ≤ GoString.byteZ c)
   ∨ utf8.DecodeRuneInString p1 = (r, String.length p1)) →
  unicode.IsSpace r = true →
  ∀ t, utf8.DecodeRuneInString (p1 +:+ t) = (r, String.length p1).
Proof.
  intros Hp1 Hcases Hsp t.
  destruct Hcases as [(c & -> & -> & Hc)|[(c & -> & -> & _)|Hd]].
  - by apply DecodeRuneInString_ascii.
  - by vm_compute in Hsp.
  - destruct (decode_space _ _ _ Hp1 Hd Hsp) as (raw & p' & Heq & Hlen & _ & Hdec).
    assert (p' = "") as ->.
    { apply (f_equal String.length) in Heq. rewrite slength_app in Heq.
      destruct p'; [done|]. simpl in Heq. lia. }
    rewrite sapp_nil_r in Heq. subst raw. apply Hdec.
Qed.

Lemma lastIndexFuncFrom_split (fuel : nat) (p q : string) :
  (String.length p ≤ fuel)%nat → Trim.startsRune q → HistorySpec.onlySpace q →
  (gostrings.lastIndexFuncFrom fuel (p +:+ q) (GoString.len p) unicode.IsSpace false
   = -1 ∧ HistorySpec.onlySpace (p +:+ q))
  ∨ ∃ p0 p1 q' r,
      p +:+ q = p0 +:+ p1 +:+ q'
      ∧ gostrings.lastIndexFuncFrom fuel (p +:+ q) (GoString.len p)
                                    unicode.IsSpace false
        = GoString.len p0
      ∧ p1 ≠ ""
      ∧ Trim.startsRune q'
      ∧ HistorySpec.onlySpace q'
      ∧ ((∃ c, p1 = String c "" ∧ r = GoString.byteZ c ∧ GoString.byteZ c < 0x80)
         ∨ (∃ c, p1 = String c "" ∧ r = utf8.RuneError ∧ 0x80 ≤ GoString.byteZ c)
         ∨ utf8.DecodeRuneInString p1 = (r, String.length p1)).
Proof.
  revert p q. induction fuel as [|fuel IH]; intros p q Hfuel Hq Hall.
  { left. destruct p; [|simpl in Hfuel; lia]. by split. }
  cbn [gostrings.lastIndexFuncFrom].
  destruct (decide (p = "")) as [->|Hp]; [by left|].
  replace (GoString.len p >? 0) with true.
  2:{ symmetry. apply Z.gtb_lt. unfold GoString.len. destruct p; [done|]. simpl. lia. }
  rewrite upto_length_app.
  destruct (utf8.DecodeLastRuneInString p) as [r size] eqn:Hlast.
  destruct (DecodeLast_split p r size Hp Hlast)
    as (p0 & p1 & -> & <- & Hp1 & Hcases).
  replace (GoString.len (p0 +:+ p1) - Z.of_nat (String.length p1))
    with (GoString.len p0) by (unfold GoString.len; rewrite slength_app; lia).
  destruct (unicode.IsSpace r) eqn:Hsp; cbn [Bool.eqb].
  - rewrite sapp_assoc.
    pose proof (space_rune_alone p1 r Hp1 Hcases Hsp) as Hdec.
    destruct (IH p0 (p1 +:+ q)) as [Hnone|(a0 & a1 & q' & r' & H)].
    + rewrite slength_app in Hfuel. destruct p1; [done|]. simpl in Hfuel. lia.
    + intros d rest Heq. destruct p1 as [|c p1']; [done|].
      rewrite sapp_cons in Heq. injection Heq as <- _.
      apply (space_rune_start c (p1' +:+ q) r (String.length (String c p1'))); [|done].
      rewrite <- sapp_cons. apply Hdec.
    + by apply (onlySpace_cons p1 q r).
    + by left.
    + right. by exists a0, a1, q', r'.
  - right. exists p0, p1, q, r. by rewrite sapp_assoc.
Qed.

Lemma TrimRightFunc_split (t : string) :
  ∃ post, t = gostrings.TrimRightFunc t unicode.IsSpace +:+ post
          ∧ HistorySpec.onlySpace post.
Proof.
  destruct (lastIndexFuncFrom_split (String.length t) t "" ltac:(done)
              startsRune_nil onlySpace_nil)
    as [[Hnone Hall]|(p0 & p1 & q & r & Heq & Hres & Hp1 & Hq & Hall & Hcases)].
  - rewrite sapp_nil_r in Hnone, Hall.
    assert (gostrings.TrimRightFunc t unicode.IsSpace = "") as ->.
    { unfold gostrings.TrimRightFunc, gostrings.lastIndexFunc. rewrite Hnone.
      cbn. by destruct t. }
    by exists t.
  - rewrite sapp_nil_r in Heq, Hres. subst t.
    rewrite (TrimRightFunc_found p0 p1 q r Hp1 Hcases Hq Hres).
    exists q. by rewrite sapp_assoc.
Qed.

Lemma TrimFunc_split (s : string) :
  ∃ pre post, s = pre +:+ gostrings.TrimFunc s unicode.IsSpace +:+ post
              ∧ HistorySpec.onlySpace pre ∧ HistorySpec.onlySpace post.
Proof.
  unfold gostrings.TrimFunc.
  destruct (TrimLeftFunc_split s) as (pre & Hs & Hpre).
  destruct (TrimRightFunc_split (gostrings.TrimLeftFunc s unicode.IsSpace))
    as (post & Ht & Hpost).
  exists pre, post. split; [|done]. by rewrite <- Ht.
Qed.

(** ** What [TrimSpace] cuts off *)

Lemma onlySpace_ascii (c : ascii) (q : string) :
  GoString.byteZ c < utf8.RuneSelf →
  gostrings.asciiSpace (GoString.byteZ c) = true →
  HistorySpec.onlySpace q → HistorySpec.onlySpace (String c q).
Proof.
  intros Hc Hsp Hq.
  apply (onlySpace_cons (String c "") q (GoString.byteZ c)); [done| | |done].
  - intros t. by apply DecodeRuneInString_ascii.
  - rewrite IsSpace_ascii; [done|]. pose proof (byteZ_range c). lia.
Qed.

Lemma trimStop_split (r : list ascii) :
  ∃ post, String.string_of_list_ascii (rev r) = gostrings.trimStop r +:+ post
          ∧ HistorySpec.onlySpace post.
Proof.
  induction r as [|c r IH].
  { exists "". split; [done|apply onlySpace_nil]. }
  cbn [gostrings.trimStop].
  destruct (GoString.byteZ c >=? utf8.RuneSelf) eqn:Hc.
  { apply TrimRightFunc_split. }
  destruct (gostrings.asciiSpace (GoString.byteZ c)) eqn:Hsp.
  - destruct IH as (post & Heq & Hpost).
    exists (post +:+ String c ""). split.
    + cbn [rev]. rewrite string_of_list_app, Heq.
      change (String.string_of_list_ascii [c]) with (String c "").
      by rewrite sapp_assoc.
    + apply onlySpace_app; [done|].
      apply onlySpace_ascii; [lia|done|apply onlySpace_nil].
  - exists "". split; [by rewrite sapp_nil_r|apply onlySpace_nil].
Qed.

Lemma TrimSpace_split (s : string) :
  ∃ pre post, s = pre +:+ gostrings.TrimSpace s +:+ post
              ∧ HistorySpec.onlySpace pre ∧ HistorySpec.onlySpace post.
Proof.
  induction s as [|c s IH].
  { exists "", "". split; [done|]. split; apply onlySpace_nil. }
  cbn [gostrings.TrimSpace].
  destruct (GoString.byteZ c >=? utf8.RuneSelf) eqn:Hc.
  { apply TrimFunc_split. }
  destruct (gostrings.asciiSpace (GoString.byteZ c)) eqn:Hsp.
  - destruct IH as (pre & post & Heq & Hpre & Hpost).
    exists (String c pre), post. split; [by rewrite sapp_cons, <- Heq|].
    split; [|done]. apply onlySpace_ascii; [lia|done|done].
  - destruct (trimStop_split (rev (String.list_ascii_of_string (String c s))))
      as (post & Heq & Hpost).
    rewrite rev_involutive, String.string_of_list_ascii_of_string in Heq.
    exists "", post. split; [done|]. split; [apply onlySpace_nil|done].
Qed.

(** A text that [TrimSpace] makes empty is white space only. *)
Lemma TrimSpace_nil_onlySpace (s : string) :
  gostrings.TrimSpace s = "" → HistorySpec.onlySpace s.
Proof.
  intros Hnil. destruct (TrimSpace_split s) as (pre & post & Heq & Hpre & Hpost).
  rewrite Hnil in Heq. rewrite Heq. by apply onlySpace_app.
Qed.

(** X15.  [strings.TrimSpace] cuts white space only, and all of it at the
    two ends: the argument is what it returns with white space before and
    after, and what it returns is empty or has a first rune and a last rune
    that are no white space. *)
Theorem X15_TrimSpace_cuts_white_space_at_both_ends :
  ∀ s : string,
    ∃ pre post : string,
      s = pre +:+ gostrings.TrimSpace s +:+ post
      ∧ HistorySpec.onlySpace pre
      ∧ HistorySpec.onlySpace post
      ∧ Trim.Trimmed (gostrings.TrimSpace s).
Proof.
  intros s. destruct (TrimSpace_split s) as (pre & post & Heq & Hpre & Hpost).
  exists pre, post. repeat split; try done. apply Trimmed_TrimSpace.
Qed.

(** X16.  The texts that [strings.TrimSpace] leaves as they are, are the
    empty text and those whose first and last rune are no white space;
    those it makes empty are the texts of white space only; and trimming
    a second time changes nothing. *)
Theorem X16_TrimSpace_fixed_points :
  ∀ s : string,
    (gostrings.TrimSpace s = s ↔ Trim.Trimmed s)
    ∧ (gostrings.TrimSpace s = "" ↔ HistorySpec.onlySpace s)
    ∧ gostrings.TrimSpace (gostrings.TrimSpace s) = gostrings.TrimSpace s.
Proof.
  intros s. split; [|split].
  - split; [|apply TrimSpace_Trimmed].
    intros <-. apply Trimmed_TrimSpace.
  - split; [apply TrimSpace_nil_onlySpace|apply TrimSpace_onlySpace].
  - apply TrimSpace_idempotent.
Qed.

(** ** The texts that are not recorded *)

(** X17.  The inserts that change nothing, exactly: [addClip] leaves the
    state as it is when the text is white space only or its trimmed form
    is [lastContent], and changes it otherwise; [AddItem], with room for
    one entry at least, leaves the history as it is when the text is white
    space only, its trimmed form has more than 200 bytes or is in the
    history, and changes it otherwise. *)
Theorem X17_the_texts_that_are_skipped :
  ∀ (w : Main.World) (cm : Multiclip.ClipboardManager) (text : string),
    (0 < Multiclip.maxSize cm)%nat →
    (Main.addClip w text = w
     ↔ HistorySpec.onlySpace text
       ∨ gostrings.TrimSpace text = Main.lastContent (Main.clipManager w))
    ∧ (Multiclip.AddItem cm text = cm
       ↔ HistorySpec.onlySpace text
         ∨ 200 < GoString.len (gostrings.TrimSpace text)
         ∨ gostrings.TrimSpace text ∈ Multiclip.history cm).
Proof.
  intros w cm text Hmax. split.
  - unfold Main.addClip.
    destruct (decide (gostrings.TrimSpace text = ""
                      ∨ gostrings.TrimSpace text
                        = Main.lastContent (Main.clipManager w)))
      as [Hskip|Hadd].
    + split; [intros _|done].
      destruct Hskip as [Hnil|Hlast]; [left|by right].
      by apply TrimSpace_nil_onlySpace.
    + split.
      * intros Heq. apply (f_equal (λ x, Main.lastContent (Main.clipManager x))) in Heq.
        simpl in Heq. exfalso. apply Hadd. by right.
      * intros [Hsp|Hlast]; exfalso; apply Hadd; [left|by right].
        by apply TrimSpace_onlySpace.
  - unfold Multiclip.AddItem.
    destruct (decide (gostrings.TrimSpace text = ""
                      ∨ 200 < GoString.len (gostrings.TrimSpace text)))
      as [Hskip|Hadd].
    { split; [intros _|done].
      destruct Hskip as [Hnil|Hlong]; [left|right; by left].
      by apply TrimSpace_nil_onlySpace. }
    destruct (decide (gostrings.TrimSpace text ∈ Multiclip.history cm))
      as [Hin|Hout].
    { split; [intros _|done]. right. by right. }
    split.
    + intros Heq. apply (f_equal Multiclip.history) in Heq. simpl in Heq.
      exfalso. apply Hout. rewrite <- Heq.
      destruct (decide (Multiclip.maxSize cm
                        < S (length (Multiclip.history cm)))%nat).
      * destruct (Multiclip.maxSize cm) as [|n]; [lia|]. simpl. left.
      * left.
    + intros [Hsp|[Hlong|Hin]]; exfalso.
      * apply Hadd. left. by apply TrimSpace_onlySpace.
      * apply Hadd. by right.
      * by apply Hout.
Qed.

Lemma X17_the_texts_that_are_skipped_witness :
  (Main.addClip (HistorySpec.emptyStore "" "" ∅ "") " a " = HistorySpec.emptyStore "" "" ∅ ""
   ↔ HistorySpec.onlySpace " a " ∨ gostrings.TrimSpace " a " = "")
  ∧ (Multiclip.AddItem Multiclip.NewClipboardManager " a "
     = Multiclip.NewClipboardManager
     ↔ HistorySpec.onlySpace " a "
       ∨ 200 < GoString.len (gostrings.TrimSpace " a ")
       ∨ gostrings.TrimSpace " a " ∈ Multiclip.history Multiclip.NewClipboardManager).
Proof.
  apply (X17_the_texts_that_are_skipped (HistorySpec.emptyStore "" "" ∅ "")
           Multiclip.NewClipboardManager " a ").
  simpl. lia.
Defined.

(** ** The goroutines behind the lines of the menu *)

Lemma length_foldl_Hide (js : list nat) (t : list systray.MenuItem) :
  length (foldl systray.Hide t js) = length t.
Proof.
  revert t. induction js as [|j js IH]; intros t; [done|].
  cbn [foldl]. by rewrite IH, length_Hide.
Qed.

Section Handlers.
Context {A : Type}.

(** No goroutine waits on an item below the first of those listed. *)
Lemma filter_imap_below (f : string → A) (cs : list string) (m k : nat) :
  (k < m)%nat →
  filter (λ p : nat * A, fst p = k) (imap (λ j c, ((m + j)%nat, f c)) cs) = [].
Proof.
  revert m. induction cs as [|c cs IH]; intros m Hk; [done|].
  rewrite imap_cons, filter_cons_False by (simpl; lia).
  rewrite (imap_ext _ (λ j c, ((S m + j)%nat, f c))).
  - apply IH. lia.
  - intros j x _. simpl. f_equal. lia.
Qed.

(** One goroutine waits on the item made for the clip at index [i]. *)
Lemma filter_imap_at (f : string → A) (cs : list string) (m i : nat) (c : string) :
  cs !! i = Some c →
  filter (λ p : nat * A, fst p = (m + i)%nat) (imap (λ j c, ((m + j)%nat, f c)) cs)
  = [((m + i)%nat, f c)].
Proof.
  revert m i. induction cs as [|c0 cs IH]; intros m i Hi; [done|].
  rewrite imap_cons.
  rewrite (imap_ext _ (λ j c, ((S m + j)%nat, f c)))
    by (intros j x _; simpl; f_equal; lia).
  destruct i as [|i]; cbn [lookup list_lookup] in Hi.
  - injection Hi as ->. rewrite filter_cons_True by (simpl; lia).
    rewrite filter_imap_below by lia. by rewrite Nat.add_0_r.
  - rewrite filter_cons_False by (simpl; lia).
    replace (m + S i)%nat with (S m + i)%nat by lia. by apply IH.
Qed.

Lemma filter_waiting_old (l : list (nat * A)) (n k : nat) :
  Forall (λ p, (fst p < n)%nat) l → (n ≤ k)%nat →
  filter (λ p : nat * A, fst p = k) l = [].
Proof.
  intros Hall Hk. induction Hall as [|p l Hp _ IH]; [done|].
  by rewrite filter_cons_False by lia.
Qed.

End Handlers.

Lemma addClips_items (clips : list string) (ui : MainMenu.UI) (i : nat) :
  MainMenu.tray (MainMenu.addClips ui i clips)
  = MainMenu.tray ui
      ++ imap (λ j clip,
               systray.mkMenuItem (MainMenu.itemTitle (i + j) clip)
                                  "Click to copy to clipboard"
                                  false false false false) clips
  ∧ MainMenu.waiting (MainMenu.addClips ui i clips)
    = MainMenu.waiting ui
        ++ imap (λ j clip, ((length (MainMenu.tray ui) + j)%nat,
                            MainMenu.CopyBack clip)) clips.
Proof.
  revert ui i. induction clips as [|clip clips IH]; intros ui i.
  - by rewrite !app_nil_r.
  - cbn [MainMenu.addClips]. unfold systray.AddMenuItem.
    set (it := {| systray.title := MainMenu.itemTitle i clip |}).
    set (ui1 := {| MainMenu.tray := MainMenu.tray ui ++ [it] |}).
    destruct (IH ui1 (S i)) as [Htray Hwait].
    rewrite Htray, Hwait. unfold ui1. cbn [MainMenu.tray MainMenu.waiting].
    rewrite <- !app_assoc, !imap_cons, length_app. cbn [length app].
    rewrite !Nat.add_0_r. split.
    + f_equal. f_equal. apply imap_ext. intros j x _. simpl.
      by replace (S (i + j)) with (i + S j)%nat by lia.
    + f_equal. f_equal. apply imap_ext. intros j x _. simpl. f_equal. lia.
Qed.

(** What a refresh adds when there are clips. *)
Lemma updateMenu_items (ui : MainMenu.UI) (clips : list string) :
  length clips ≠ 0%nat →
  MainMenu.tray (MainMenu.updateMenu ui clips)
  = foldl systray.Hide (MainMenu.tray ui) (MainMenu.menuItems ui)
      ++ imap (λ j clip,
               systray.mkMenuItem (MainMenu.itemTitle j clip)
                                  "Click to copy to clipboard"
                                  false false false false) clips
      ++ [systray.mkMenuItem "" "" false false false true;
          systray.mkMenuItem "Clear History" "Clear all clipboard history"
                             false false false false;
          systray.mkMenuItem "Quit" "Quit MultiClip" false false false false]
  ∧ MainMenu.waiting (MainMenu.updateMenu ui clips)
    = MainMenu.waiting ui
        ++ imap (λ j clip, ((length (MainMenu.tray ui) + j)%nat,
                            MainMenu.CopyBack clip)) clips
        ++ [((length (MainMenu.tray ui) + length clips + 1)%nat,
             MainMenu.ClearHistory);
            ((length (MainMenu.tray ui) + length clips + 2)%nat,
             MainMenu.Quit)].
Proof.
  intros Hsome. unfold MainMenu.updateMenu.
  rewrite decide_False by done.
  set (ui1 := {| MainMenu.tray := foldl systray.Hide _ _ |}).
  destruct (addClips_items clips ui1 0) as [Htray Hwait].
  unfold systray.AddMenuItem, systray.AddSeparator.
  cbn [MainMenu.tray MainMenu.waiting].
  rewrite Htray, Hwait. unfold ui1. cbn [MainMenu.tray MainMenu.waiting].
  rewrite <- !app_assoc, !length_app, length_imap, length_foldl_Hide.
  cbn [length app]. split; [done|].
  rewrite !Nat.add_assoc.
  by replace (length (MainMenu.tray ui) + length clips + 1 + 1)%nat
    with (length (MainMenu.tray ui) + length clips + 2)%nat by lia.
Qed.

(** Every goroutine waits on an item of the tray, and a refresh starts
    its goroutines on the items it adds. *)
Lemma updateMenu_waiting (ui : MainMenu.UI) (clips : list string) :
  ∃ acts,
    MainMenu.waiting (MainMenu.updateMenu ui clips)
    = MainMenu.waiting ui ++ acts
    ∧ length acts = (length clips + 2)%nat
    ∧ Forall (λ p, (length (MainMenu.tray ui) ≤ fst p
                    < length (MainMenu.tray (MainMenu.updateMenu ui clips)))%nat)
             acts
    ∧ length (MainMenu.tray (MainMenu.updateMenu ui clips))
      = (length (MainMenu.tray ui) + length (MainMenu.clipLines clips) + 3)%nat.
Proof.
  unfold MainMenu.clipLines.
  destruct (decide (length clips = 0%nat)) as [Hnil|Hsome].
  - unfold MainMenu.updateMenu. rewrite decide_True by done.
    unfold systray.AddMenuItem, systray.AddSeparator, systray.Disable.
    cbn [MainMenu.tray MainMenu.waiting].
    eexists. split; [done|]. rewrite Hnil.
    rewrite !length_app, length_alter, !length_app, length_foldl_Hide.
    cbn [length]. split; [done|]. split; [|lia].
    repeat constructor; simpl; lia.
  - destruct (updateMenu_items ui clips Hsome) as [Htray Hwait].
    eexists. split; [exact Hwait|].
    rewrite Htray, !length_app, !length_imap, length_foldl_Hide. cbn [length].
    split; [lia|]. split; [|lia].
    apply Forall_app. split.
    + apply Forall_forall. intros p Hp.
      apply elem_of_lookup_imap in Hp as (j & c & -> & Hj).
      apply lookup_lt_Some in Hj. simpl. lia.
    + repeat constructor; simpl; lia.
Qed.

Lemma refreshes_waiting (earlier : list (list string)) :
  Forall (λ p, (fst p
                < length (MainMenu.tray
                            (foldl MainMenu.updateMenu MainMenu.empty earlier)))%nat)
         (MainMenu.waiting (foldl MainMenu.updateMenu MainMenu.empty earlier)).
Proof.
  induction earlier as [|clips earlier IH] using rev_ind; [by constructor|].
  rewrite foldl_snoc.
  set (ui := foldl MainMenu.updateMenu MainMenu.empty earlier) in *.
  destruct (updateMenu_waiting ui clips) as (acts & -> & _ & Hacts & Hlen).
  apply Forall_app. split.
  - eapply Forall_impl; [exact IH|]. intros p Hp. simpl in *. lia.
  - eapply Forall_impl; [exact Hacts|]. intros p Hp. simpl in *. lia.
Qed.

(** X18.  A click on a line of the menu of [src/main.go] copies the clip
    the line was made for, the whole of it and not the shortened text
    shown: the item of the clip at index [i] of the last refresh is shown
    with the number [i+1] and the display text, and one goroutine waits on
    it, the one that calls [setClip] with the clip.  No goroutine of an
    earlier refresh waits on it. *)
Theorem X18_a_line_copies_its_clip :
  ∀ (earlier : list (list string)) (clips : list string) (i : nat)
    (clip : string) (w : Main.World),
    clips !! i = Some clip →
    let ui := foldl MainMenu.updateMenu MainMenu.empty earlier in
    let item := (length (MainMenu.tray ui) + i)%nat in
    MainMenu.tray (MainMenu.updateMenu ui clips) !! item
    = Some {| systray.title :=
                fmt.formatInt (Z.of_nat i + 1) +:+ ". "
                  +:+ MainMenu.displayText clip;
              systray.tooltip := "Click to copy to clipboard";
              systray.disabled := false; systray.hidden := false;
              systray.checkable := false; systray.separator := false |}
    ∧ MainMenu.perform w
        <$> MainMenu.handlers (MainMenu.updateMenu ui clips) item
      = [{| Main.clipManager :=
              {| Main.clips := Main.getClips w; Main.lastContent := clip;
                 Main.dataFile := Main.dataFile (Main.clipManager w) |};
            Main.files := Main.files w;
            Main.pasteboard := clip |}].
Proof.
  intros earlier clips i clip w Hi ui item.
  assert (length clips ≠ 0%nat) as Hsome.
  { apply lookup_lt_Some in Hi. lia. }
  destruct (updateMenu_items ui clips Hsome) as [Htray Hwait].
  split.
  - rewrite Htray. unfold item.
    rewrite lookup_app_r; rewrite length_foldl_Hide; [|lia].
    replace (length (MainMenu.tray ui) + i - length (MainMenu.tray ui))%nat
      with i by lia.
    rewrite lookup_app_l by (rewrite length_imap; by apply lookup_lt_Some in Hi).
    by rewrite list_lookup_imap, Hi.
  - unfold MainMenu.handlers. rewrite Hwait, !filter_app.
    rewrite (filter_waiting_old _ (length (MainMenu.tray ui)))
      by (apply refreshes_waiting || (unfold item; lia)).
    unfold item. rewrite (filter_imap_at _ _ _ _ _ Hi).
    apply lookup_lt_Some in Hi.
    rewrite !filter_cons_False by (simpl; lia). done.
Qed.

Lemma X18_a_line_copies_its_clip_witness :
  MainMenu.perform (HistorySpec.emptyStore "" "" ∅ "")
    <$> MainMenu.handlers
          (MainMenu.updateMenu
             (foldl MainMenu.updateMenu MainMenu.empty [["x"]]) ["a"; "b"])
          5
  = [{| Main.clipManager :=
          {| Main.clips := []; Main.lastContent := "b"; Main.dataFile := "" |};
        Main.files := ∅;
        Main.pasteboard := "b" |}].
Proof.
  apply (proj2 (X18_a_line_copies_its_clip [["x"]] ["a"; "b"] 1 "b"
                  (HistorySpec.emptyStore "" "" ∅ "") eq_refl)).
Defined.

(** ** The goroutines of [handleMenuItemClick] *)

Section Items.
Variable add : list systray.MenuItem → string → string
               → list systray.MenuItem * nat.
Variable mk : string → string → systray.MenuItem.
Hypothesis add_mk :
  ∀ tray title tooltip,
    add tray title tooltip = (tray ++ [mk title tooltip], length tray).

Lemma addItems_items (history : list string) (ui : MulticlipMenu.UI) (i : nat) :
  MulticlipMenu.tray (MulticlipMenu.addItems add ui i history)
  = MulticlipMenu.tray ui
      ++ imap (λ j item, mk (MulticlipMenu.displayText item)
                            (MulticlipMenu.itemTooltip (i + j))) history
  ∧ MulticlipMenu.waiting (MulticlipMenu.addItems add ui i history)
    = MulticlipMenu.waiting ui
        ++ imap (λ j item, ((length (MulticlipMenu.tray ui) + j)%nat, item))
                history
  ∧ MulticlipMenu.quitItem (MulticlipMenu.addItems add ui i history)
    = MulticlipMenu.quitItem ui.
Proof.
  revert ui i. induction history as [|item history IH]; intros ui i.
  - by rewrite !app_nil_r.
  - cbn [MulticlipMenu.addItems]. rewrite add_mk.
    set (ui1 := {| MulticlipMenu.tray := MulticlipMenu.tray ui ++ _ |}).
    destruct (IH ui1 (S i)) as (Htray & Hwait & Hquit).
    rewrite Htray, Hwait, Hquit. unfold ui1.
    cbn [MulticlipMenu.tray MulticlipMenu.waiting MulticlipMenu.quitItem].
    rewrite <- !app_assoc, !imap_cons, length_app. cbn [length app].
    rewrite !Nat.add_0_r. split; [|split; [|done]].
    + f_equal. f_equal. apply imap_ext. intros j x _. simpl.
      by replace (S (i + j)) with (i + S j)%nat by lia.
    + f_equal. f_equal. apply imap_ext. intros j x _. simpl. f_equal. lia.
Qed.

(** What [addEntries] starts: a goroutine for every text, on the item
    made for it. *)
Lemma addEntries_waiting (ui : MulticlipMenu.UI) (history : list string) :
  MulticlipMenu.waiting (MulticlipMenu.addEntries add ui history)
  = MulticlipMenu.waiting ui
      ++ imap (λ j item, ((length (MulticlipMenu.tray ui) + j)%nat, item))
              history
  ∧ length (MulticlipMenu.tray (MulticlipMenu.addEntries add ui history))
    = (length (MulticlipMenu.tray ui)
       + length (MulticlipMenu.historyLines history))%nat
  ∧ MulticlipMenu.quitItem (MulticlipMenu.addEntries add ui history)
    = MulticlipMenu.quitItem ui.
Proof.
  unfold MulticlipMenu.addEntries, MulticlipMenu.historyLines.
  destruct (decide (length history = 0%nat)) as [Hnil|Hsome].
  - rewrite add_mk. cbn [MulticlipMenu.tray MulticlipMenu.waiting
                         MulticlipMenu.quitItem].
    destruct history; [|done]. rewrite app_nil_r.
    unfold systray.Disable. by rewrite length_alter, length_app.
  - destruct (addItems_items history ui 0) as (Htray & Hwait & Hquit).
    rewrite Htray, Hwait, Hquit, length_app, length_imap, length_fmap. done.
Qed.

End Items.

Lemma updateMenuItems_items (ui : MulticlipMenu.UI) (history : list string) :
  length history ≠ 0%nat →
  MulticlipMenu.tray (MulticlipMenu.updateMenuItems ui history)
  = foldl systray.Hide (MulticlipMenu.tray ui) (MulticlipMenu.menuItems ui)
      ++ imap (λ j item,
               systray.mkMenuItem (MulticlipMenu.displayText item)
                                  (MulticlipMenu.itemTooltip j)
                                  false false true false) history.
Proof.
  intros Hsome. unfold MulticlipMenu.updateMenuItems, MulticlipMenu.addEntries.
  rewrite decide_False by done.
  set (ui1 := {| MulticlipMenu.tray := foldl systray.Hide _ _ |}).
  destruct (addItems_items systray.AddMenuItemCheckbox
              (λ title tooltip,
                 systray.mkMenuItem title tooltip false false true false)
              ltac:(done) history ui1 0) as (Htray & _).
  exact Htray.
Qed.

Lemma updateMenuItems_waiting (ui : MulticlipMenu.UI) (history : list string) :
  MulticlipMenu.waiting (MulticlipMenu.updateMenuItems ui history)
  = MulticlipMenu.waiting ui
      ++ imap (λ j item, ((length (MulticlipMenu.tray ui) + j)%nat, item))
              history
  ∧ length (MulticlipMenu.tray (MulticlipMenu.updateMenuItems ui history))
    = (length (MulticlipMenu.tray ui)
       + length (MulticlipMenu.historyLines history))%nat.
Proof.
  unfold MulticlipMenu.updateMenuItems.
  set (ui1 := {| MulticlipMenu.tray := foldl systray.Hide _ _ |}).
  destruct (addEntries_waiting systray.AddMenuItemCheckbox
              (λ title tooltip,
                 systray.mkMenuItem title tooltip false false true false)
              ltac:(done) ui1 history) as (Hwait & Hlen & _).
  unfold ui1 in Hwait, Hlen.
  cbn [MulticlipMenu.tray MulticlipMenu.waiting] in Hwait, Hlen.
  rewrite length_foldl_Hide in Hwait, Hlen. done.
Qed.

Lemma setupMenu_waiting (history : list string) :
  MulticlipMenu.waiting (MulticlipMenu.setupMenu MulticlipMenu.empty history)
  = imap (λ j item, (j, item)) history
  ∧ length (MulticlipMenu.tray
              (MulticlipMenu.setupMenu MulticlipMenu.empty history))
    = (length (MulticlipMenu.historyLines history) + 2)%nat.
Proof.
  unfold MulticlipMenu.setupMenu.
  set (ui1 := {| MulticlipMenu.tray := MulticlipMenu.tray MulticlipMenu.empty |}).
  destruct (addEntries_waiting systray.AddMenuItem
              (λ title tooltip,
                 systray.mkMenuItem title tooltip false false false false)
              ltac:(done) ui1 history) as (Hwait & Hlen & Hquit).
  set (ui2 := MulticlipMenu.addEntries _ _ _) in *.
  assert (MulticlipMenu.quitItem ui2 = None) as -> by (by rewrite Hquit).
  unfold systray.AddMenuItem, systray.AddSeparator.
  cbn [MulticlipMenu.tray MulticlipMenu.waiting].
  rewrite Hwait, !length_app, Hlen. unfold ui1. cbn. split; [done|lia].
Qed.

Lemma multiclip_refreshes_waiting (first : list string)
      (earlier : list (list string)) :
  Forall (λ p, (fst p
                < length (MulticlipMenu.tray
                            (foldl MulticlipMenu.updateMenuItems
                               (MulticlipMenu.setupMenu MulticlipMenu.empty first)
                               earlier)))%nat)
         (MulticlipMenu.waiting
            (foldl MulticlipMenu.updateMenuItems
                   (MulticlipMenu.setupMenu MulticlipMenu.empty first) earlier)).
Proof.
  induction earlier as [|history earlier IH] using rev_ind.
  - cbn [foldl]. destruct (setupMenu_waiting first) as [-> ->].
    apply Forall_forall. intros p Hp.
    apply elem_of_lookup_imap in Hp as (j & c & -> & Hj).
    apply lookup_lt_Some in Hj. unfold MulticlipMenu.historyLines.
    destruct (decide _); simpl; [lia|]. rewrite length_fmap. lia.
  - rewrite foldl_snoc.
    set (ui := foldl MulticlipMenu.updateMenuItems _ earlier) in *.
    destruct (updateMenuItems_waiting ui history) as [-> ->].
    apply Forall_app. split.
    + eapply Forall_impl; [exact IH|]. intros p Hp. simpl in *. lia.
    + apply Forall_forall. intros p Hp.
      apply elem_of_lookup_imap in Hp as (j & c & -> & Hj).
      apply lookup_lt_Some in Hj. unfold MulticlipMenu.historyLines.
      destruct (decide _); simpl; [lia|]. rewrite length_fmap. lia.
Qed.

(** X19.  A click on a line of the menu of [src/multiclip/src/main.go]
    writes the text the line was made for to the clipboard, the whole of it
    and not the shortened text shown: after a refresh by [updateMenuItems]
    the item of the text at index [i] of the history is shown with the
    display text and the tooltip "Copy item i+1", and one goroutine of
    [handleMenuItemClick] waits on it, with that text. *)
Theorem X19_a_history_line_copies_its_text :
  ∀ (first : list string) (earlier : list (list string))
    (history : list string) (i : nat) (text : string)
    (w : MulticlipLoop.World),
    history !! i = Some text →
    let ui := foldl MulticlipMenu.updateMenuItems
                    (MulticlipMenu.setupMenu MulticlipMenu.empty first)
                    earlier in
    let item := (length (MulticlipMenu.tray ui) + i)%nat in
    MulticlipMenu.tray (MulticlipMenu.updateMenuItems ui history) !! item
    = Some {| systray.title := MulticlipMenu.displayText text;
              systray.tooltip :=
                "Copy item " +:+ fmt.formatInt (Z.of_nat i + 1);
              systray.disabled := false; systray.hidden := false;
              systray.checkable := true; systray.separator := false |}
    ∧ MulticlipLoop.handleMenuItemClick w
        <$> MulticlipMenu.handlers (MulticlipMenu.updateMenuItems ui history)
                                   item
      = [{| MulticlipLoop.clipManager := MulticlipLoop.clipManager w;
            MulticlipLoop.pasteboard := text |}].
Proof.
  intros first earlier history i text w Hi ui item.
  assert (length history ≠ 0%nat) as Hsome.
  { apply lookup_lt_Some in Hi. lia. }
  split.
  - rewrite (updateMenuItems_items ui history Hsome). unfold item.
    rewrite lookup_app_r; rewrite length_foldl_Hide; [|lia].
    replace (length (MulticlipMenu.tray ui) + i
             - length (MulticlipMenu.tray ui))%nat with i by lia.
    by rewrite list_lookup_imap, Hi.
  - destruct (updateMenuItems_waiting ui history) as [Hwait _].
    unfold MulticlipMenu.handlers. rewrite Hwait, filter_app.
    rewrite (filter_waiting_old _ (length (MulticlipMenu.tray ui)))
      by (apply multiclip_refreshes_waiting || (unfold item; lia)).
    unfold item.
    by rewrite (filter_imap_at (λ item, item) _ _ _ _ Hi).
Qed.

Lemma X19_a_history_line_copies_its_text_witness :
  MulticlipLoop.handleMenuItemClick (MulticlipLoop.start "")
    <$> MulticlipMenu.handlers
          (MulticlipMenu.updateMenuItems
             (foldl MulticlipMenu.updateMenuItems
                    (MulticlipMenu.setupMenu MulticlipMenu.empty []) [["x"]])
             ["a"; "b"])
          5
  = [{| MulticlipLoop.clipManager := Multiclip.NewClipboardManager;
        MulticlipLoop.pasteboard := "b" |}].
Proof.
  apply (proj2 (X19_a_history_line_copies_its_text [] [["x"]] ["a"; "b"] 1 "b"
                  (MulticlipLoop.start "") eq_refl)).
Defined.

(** X20.  The menus only grow: a refresh hides items and never removes
    one, and it starts goroutines that wait for a click while those of the
    refreshes before still wait.  After any refreshes the tray of
    [src/main.go] holds three items and one per clip (or the placeholder)
    for every refresh, with two goroutines and one per clip; the tray of
    [src/multiclip/src/main.go] holds the items of [setupMenu] and one per
    text (or the placeholder) for every refresh, with one goroutine per
    text. *)
Theorem X20_the_menus_only_grow :
  ∀ (first : list string) (refreshes : list (list string)),
    length (MainMenu.tray (foldl MainMenu.updateMenu MainMenu.empty refreshes))
    = sum_list ((λ clips, length (MainMenu.clipLines clips) + 3)%nat
                  <$> refreshes)
    ∧ length (MainMenu.waiting
                (foldl MainMenu.updateMenu MainMenu.empty refreshes))
      = sum_list ((λ clips, length clips + 2)%nat <$> refreshes)
    ∧ length (MulticlipMenu.tray
                (foldl MulticlipMenu.updateMenuItems
                       (MulticlipMenu.setupMenu MulticlipMenu.empty first)
                       refreshes))
      = (length (MulticlipMenu.historyLines first) + 2
         + sum_list ((λ history, length (MulticlipMenu.historyLines history))
                       <$> refreshes))%nat
    ∧ length (MulticlipMenu.waiting
                (foldl MulticlipMenu.updateMenuItems
                       (MulticlipMenu.setupMenu MulticlipMenu.empty first)
                       refreshes))
      = (length first + sum_list (length <$> refreshes))%nat.
Proof.
  intros first refreshes.
  induction refreshes as [|clips refreshes IH] using rev_ind.
  { cbn [foldl fmap list_fmap sum_list sum_list_with].
    destruct (setupMenu_waiting first) as [-> ->].
    rewrite length_imap. repeat split; lia. }
  destruct IH as (IH1 & IH2 & IH3 & IH4).
  rewrite !foldl_snoc, !fmap_app, !sum_list_with_app.
  cbn [fmap list_fmap sum_list_with].
  destruct (updateMenu_waiting
              (foldl MainMenu.updateMenu MainMenu.empty refreshes) clips)
    as (acts & -> & Hacts & _ & ->).
  destruct (updateMenuItems_waiting
              (foldl MulticlipMenu.updateMenuItems
                     (MulticlipMenu.setupMenu MulticlipMenu.empty first)
                     refreshes) clips) as [-> ->].
  rewrite !length_app, length_imap, Hacts.
  unfold id in *. repeat split; lia.
Qed.

(** ** What [loadClips] takes no clips from *)

(** The decoder finds the start of an array only at a bracket after
    white space. *)
Lemma scanWhileFrom_beginArray (data : string) (c0 : Z) :
  snd (json.scanWhileFrom data c0 json.reset json.scanSkipSpace)
  = json.scanBeginArray →
  ∃ ws, data
        = ws +:+ String "["
                   (fst (fst (fst (json.scanWhileFrom data c0 json.reset
                                                      json.scanSkipSpace))))
        ∧ JsonText.Blank ws.
Proof.
  revert c0. induction data as [|c data IH]; intros c0; [done|].
  cbn [json.scanWhileFrom].
  change (json.doStep json.reset (GoString.byteZ c))
    with (json.do_stateBeginValue json.reset (GoString.byteZ c)).
  unfold json.do_stateBeginValue.
  destruct (json.isSpace (GoString.byteZ c)) eqn:Hsp.
  { rewrite decide_True by done. intros Hop.
    destruct (IH (GoString.byteZ c) Hop) as (ws & Heq & Hws).
    exists (String c ws). rewrite sapp_cons, <- Heq.
    split; [done|]. by apply Blank_cons. }
  destruct (GoString.byteZ c =? json.ch "{") eqn:Hobj; [done|].
  destruct (GoString.byteZ c =? json.ch "[") eqn:Harr.
  { intros _. exists "". split; [|by constructor].
    apply Z.eqb_eq in Harr. apply (byteZ_inj c "[") in Harr. by subst c. }
  repeat (match goal with
          | |- context [if ?b then _ else _] => destruct b
          end; [done|]).
  done.
Qed.

Lemma Unmarshal_nil_cases (data : string) :
  fst (json.Unmarshal data []) ≠ [] →
  json.checkValid data = true
  ∧ ∃ ws rest, data = ws +:+ String "[" rest ∧ JsonText.Blank ws.
Proof.
  unfold json.Unmarshal.
  destruct (json.checkValid data) eqn:Hvalid; [|done]. cbn [negb].
  unfold json.scanWhile. cbn [json.rest json.cur json.scan json.savedError].
  pose proof (scanWhileFrom_beginArray data 0) as Harr.
  destruct (json.scanWhileFrom data 0 json.reset json.scanSkipSpace)
    as [[[r c] s] op].
  cbn [fst snd] in Harr.
  intros Hne. split; [done|].
  destruct (decide (op = json.scanBeginArray)) as [Hop|Hop].
  { destruct (Harr Hop) as (ws & Heq & Hws). by exists ws, r. }
  exfalso. apply Hne. clear Hne Harr.
  unfold json.valueSlice. cbn [json.opcode_].
  destruct op; try done.
  destruct (json.rescanLiteral _) as [d' item].
  destruct item as [|x item]; [done|].
  by destruct (GoString.byteZ x =? json.ch "n").
Qed.

(** X21.  Clips are loaded from an array only: when the store starts with a
    clip, the data file exists, is JSON without a syntax error, and its
    first byte after white space is an opening bracket.  With no file,
    with a syntax error anywhere in the file, and with a JSON value of
    another kind the store starts empty. *)
Theorem X21_clips_are_loaded_from_an_array_only :
  ∀ (homeDir paste : string) (fs : gmap string string),
    Main.getClips (Main.start homeDir fs paste) ≠ [] →
    ∃ data ws rest : string,
      fs !! Main.filepath_Join homeDir ".multiclip.json" = Some data
      ∧ json.checkValid data = true
      ∧ data = ws +:+ String "[" rest
      ∧ JsonText.Blank ws.
Proof.
  intros homeDir paste fs.
  unfold Main.getClips, Main.start, Main.NewClipboardManager, Main.loadClips.
  cbn [Main.clipManager Main.dataFile Main.clips].
  destruct (fs !! Main.filepath_Join homeDir ".multiclip.json") as [data|];
    [|done].
  cbn [Main.clips]. intros Hne.
  destruct (Unmarshal_nil_cases data Hne) as (Hvalid & ws & rest & Heq & Hws).
  by exists data, ws, rest.
Qed.

Lemma X21_clips_are_loaded_from_an_array_only_witness :
  ∃ data ws rest : string,
    ({[ ".multiclip.json" := " [" +:+ JsonText.quote "a" +:+ "]" ]}
       : gmap string string)
    !! Main.filepath_Join "" ".multiclip.json" = Some data
    ∧ json.checkValid data = true
    ∧ data = ws +:+ String "[" rest
    ∧ JsonText.Blank ws.
Proof.
  apply (X21_clips_are_loaded_from_an_array_only "" "").
  by vm_compute.
Defined.
